(** * Lasso host: protocol engine, framing codecs and data-cell registry

    A shallow embedding of the host side of the Lasso data server
    (lasso_host.c, encodings/cobs.c, encodings/escs.c) together with the
    properties of its specification.

    Conventions.
    - Fixed-width C integers are [Z] values; every wrap-around of the C
      arithmetic is written out with [u8], [u16], [u32].
    - Byte buffers live in one flat byte-addressed memory [mem]; a C pointer
      is an address in [Z] and [0] is [NULL].
    - Compile-time options of lasso_host_config.h are the fields of a
      [config] record.
    - User callbacks and the C library (formatted input and output, the
      allocator) are parameters of the functions that call them. *)

From coqutil Require Import Z.bitblast.
From stdpp Require Import base tactics option list numbers.

Local Open Scope Z_scope.

(** ** Machine integers *)

Definition u8 (x : Z) : Z := x mod 256.
Definition u16 (x : Z) : Z := x mod 65536.
Definition u32 (x : Z) : Z := x mod 4294967296.

Definition is_u8 (x : Z) : Prop := 0 <= x < 256.
Definition is_u16 (x : Z) : Prop := 0 <= x < 65536.
Definition is_u32 (x : Z) : Prop := 0 <= x < 4294967296.

(** ** Byte-addressed memory *)

Definition mem : Type := Z -> Z.

Definition store (m : mem) (a v : Z) : mem :=
  fun x => if x =? a then v else m x.

Fixpoint load_bytes (m : mem) (a : Z) (n : nat) : list Z :=
  match n with
  | O => []
  | S k => m a :: load_bytes m (a + 1) k
  end.

Fixpoint store_bytes (m : mem) (a : Z) (l : list Z) : mem :=
  match l with
  | [] => m
  | b :: t => store_bytes (store m a b) (a + 1) t
  end.

Definition zero_mem : mem := fun _ => 0.

Lemma store_eq (m : mem) (a v : Z) : store m a v a = v.
Proof. unfold store. by rewrite Z.eqb_refl. Qed.

Lemma store_ne (m : mem) (a v x : Z) : x <> a -> store m a v x = m x.
Proof. intros H. unfold store. by apply Z.eqb_neq in H as ->. Qed.

Lemma load_bytes_length (m : mem) (a : Z) (n : nat) :
  length (load_bytes m a n) = n.
Proof. revert a. induction n as [|n IH]; intros a; simpl; [done|]. by rewrite IH. Qed.

Lemma load_bytes_ext (m m' : mem) (a : Z) (n : nat) :
  (forall x, a <= x < a + Z.of_nat n -> m x = m' x) ->
  load_bytes m a n = load_bytes m' a n.
Proof.
  revert a. induction n as [|n IH]; intros a H; simpl; [done|].
  f_equal; [apply H; lia|]. apply IH. intros x Hx. apply H. lia.
Qed.

Lemma load_bytes_app (m : mem) (a : Z) (n k : nat) :
  load_bytes m a (n + k) = load_bytes m a n ++ load_bytes m (a + Z.of_nat n) k.
Proof.
  revert a. induction n as [|n IH]; intros a; simpl.
  - by rewrite Z.add_0_r.
  - rewrite IH. do 3 f_equal. lia.
Qed.

Lemma load_bytes_S (m : mem) (a : Z) (n : nat) :
  load_bytes m a (S n) = m a :: load_bytes m (a + 1) n.
Proof. done. Qed.

Lemma load_bytes_cons (m : mem) (a : Z) (n : nat) (b : Z) (l : list Z) :
  load_bytes m a (S n) = b :: l -> m a = b /\ load_bytes m (a + 1) n = l.
Proof. simpl. intros H. by inversion H. Qed.

Lemma store_bytes_outside (m : mem) (a : Z) (l : list Z) (x : Z) :
  x < a \/ a + Z.of_nat (length l) <= x -> store_bytes m a l x = m x.
Proof.
  revert m a. induction l as [|b t IH]; intros m a H; simpl in *; [done|].
  rewrite IH by lia. apply store_ne. lia.
Qed.

Lemma load_store_bytes (m : mem) (a : Z) (l : list Z) :
  load_bytes (store_bytes m a l) a (length l) = l.
Proof.
  revert m a. induction l as [|b t IH]; intros m a; simpl; [done|].
  f_equal; [|apply IH].
  rewrite store_bytes_outside by lia. apply store_eq.
Qed.

Lemma store_bytes_app (m : mem) (a : Z) (l1 l2 : list Z) :
  store_bytes m a (l1 ++ l2) =
  store_bytes (store_bytes m a l1) (a + Z.of_nat (length l1)) l2.
Proof.
  revert m a. induction l1 as [|b t IH]; intros m a; simpl.
  - by rewrite Z.add_0_r.
  - rewrite IH. f_equal. lia.
Qed.

(** ** COBS codec (encodings/cobs.c) *)

Module COBS.

Definition COBS_DEL : Z := 0x00.
Definition COBS_EXT : Z := 0xFF.

(** The decoder's private state [COBS_ctrl]. *)
Record ctrl : Type := Ctrl { code : Z; count : Z }.

Definition COBS_ctrl_init : ctrl := Ctrl 255 255.

(** [COBS_decode_inline c dest size] on decoder state [st] and memory [m]:
    the returned byte, the new decoder state and the new memory. *)
Definition COBS_decode_inline (c dest size : Z) (st : ctrl) (m : mem)
  : Z * ctrl * mem :=
  if c =? COBS_DEL then
    let c := code st in
    if c =? 0 then (count st, Ctrl 255 0, m)
    else (0, Ctrl 255 0, m)
  else
    (* common tail: decrement the code, then store or trash *)
    let tail (cd c : Z) :=
      let cd := u8 (cd - 1) in
      if count st <? size then
        (0, Ctrl cd (u8 (count st + 1)), store m (dest + count st) c)
      else
        (u8 (size + 1), Ctrl 255 (count st), m) in
    if code st =? 255 then
      if negb (count st =? 0) then (0, st, m)
      else if c >? 1 then (0, Ctrl (u8 (c - 1)) (count st), m)
      else tail c 0
    else if code st =? 0 then tail c 0
    else tail (code st) c.

(** Feeding a received byte sequence to the decoder, one call per byte;
    the list collects the value returned by each call. *)
Fixpoint COBS_decode_stream (bs : list Z) (dest size : Z) (st : ctrl) (m : mem)
  : list Z * ctrl * mem :=
  match bs with
  | [] => ([], st, m)
  | b :: bs' =>
      let '(r, st', m') := COBS_decode_inline b dest size st m in
      let '(rs, st'', m'') := COBS_decode_stream bs' dest size st' m' in
      (r :: rs, st'', m'')
  end.

(** Inner loop of the encoder, [while ( *srcb++ != COBS_DEL) c++;]:
    the new [srcb] and [c]. *)
Fixpoint COBS_scan (fuel : nat) (m : mem) (srcb c : Z) : option (Z * Z) :=
  match fuel with
  | O => None
  | S f =>
      if m srcb =? COBS_DEL then Some (srcb + 1, c)
      else COBS_scan f m (srcb + 1) (u8 (c + 1))
  end.

(** Outer loop of the encoder, [while (size) { ... }]: the new memory and
    the final [srca]. *)
Fixpoint COBS_encode_loop (fuel : nat) (m : mem) (srca srcb size : Z)
  : option (mem * Z) :=
  match fuel with
  | O => None
  | S f =>
      if size =? 0 then Some (m, srca)
      else
        match COBS_scan f m srcb 1 with
        | None => None
        | Some (srcb', c) =>
            COBS_encode_loop f (store m srca c) (srca + c) srcb' (u8 (size - c))
        end
  end.

(** [COBS_encode src size extended] on the COBS buffer at address [src]:
    two header bytes, then [size] payload bytes, then room for the
    trailing delimiter. *)
Definition COBS_encode (fuel : nat) (m : mem) (src size : Z) (extended : bool)
  : option mem :=
  let srca := src in
  let srcb := src + 2 in
  let m := store m srca COBS_DEL in
  let srca := srca + 1 in
  let m := store m (srcb + size) COBS_DEL in
  let size := u8 (size + 1) in
  match COBS_encode_loop fuel m srca srcb size with
  | None => None
  | Some (m, srca) => Some (if extended then store m srca COBS_EXT else m)
  end.

(** A COBS buffer holding payload [p] at address [src]. *)
Definition COBS_buf_of (m : mem) (src : Z) (p : list Z) : mem :=
  store_bytes m (src + 2) p.

(** *** The encoder's image of a payload *)

(** The image of a payload under the encoder, read right to left: the
    encoded tail together with the code the next position to the left would
    carry. *)
Fixpoint cobs_codes (p : list Z) : list Z * Z :=
  match p with
  | [] => ([], 1)
  | b :: t =>
      let '(e, d) := cobs_codes t in
      if b =? 0 then (d :: e, 1) else (b :: e, d + 1)
  end.

Definition cobs_image (p : list Z) : list Z :=
  let '(e, d) := cobs_codes p in d :: e.

Definition nonzero (b : Z) : Prop := b <> 0.

(** What the decoder reconstructs from the image of [p]. *)
Definition COBS_decoded (p : list Z) : list Z :=
  match p with
  | [] => [0]
  | b :: _ => if b =? 0 then 0 :: p else p
  end.

Lemma cobs_codes_run (run rest : list Z) :
  Forall nonzero run ->
  cobs_codes (run ++ rest) =
  (run ++ fst (cobs_codes rest), snd (cobs_codes rest) + Z.of_nat (length run)).
Proof.
  induction 1 as [|b run Hb _ IH]; simpl.
  - destruct (cobs_codes rest); simpl. f_equal. lia.
  - rewrite IH. apply Z.eqb_neq in Hb as ->. f_equal. lia.
Qed.

Lemma cobs_image_run (run : list Z) :
  Forall nonzero run ->
  cobs_image run = (Z.of_nat (length run) + 1) :: run.
Proof.
  intros H. unfold cobs_image.
  rewrite <- (app_nil_r run) at 1. rewrite cobs_codes_run by done. simpl.
  rewrite app_nil_r. f_equal. lia.
Qed.

Lemma cobs_image_run_zero (run q : list Z) :
  Forall nonzero run ->
  cobs_image (run ++ 0 :: q) = (Z.of_nat (length run) + 1) :: run ++ cobs_image q.
Proof.
  intros H. unfold cobs_image.
  rewrite cobs_codes_run by done. simpl.
  destruct (cobs_codes q) as [e d]; simpl. f_equal. lia.
Qed.

Lemma run_split (q : list Z) :
  exists run rest, q = run ++ rest /\ Forall nonzero run /\
                   (rest = [] \/ exists q', rest = 0 :: q').
Proof.
  induction q as [|b q (run & rest & -> & Hrun & Hrest)].
  - exists [], []. auto.
  - destruct (Z.eq_dec b 0) as [->|Hb].
    + exists [], (0 :: run ++ rest). split; [done|]. split; [constructor|]. right. eauto.
    + exists (b :: run), rest. split; [done|]. split; [by constructor|done].
Qed.

Lemma cobs_image_length (p : list Z) : length (cobs_image p) = S (length p).
Proof.
  unfold cobs_image.
  assert (length (fst (cobs_codes p)) = length p) as H.
  { induction p as [|b t IH]; simpl; [done|].
    destruct (cobs_codes t) as [e d]; simpl in *. destruct (b =? 0); simpl; lia. }
  destruct (cobs_codes p); simpl in *. lia.
Qed.

Lemma cobs_codes_bounds (p : list Z) :
  Forall nonzero (fst (cobs_codes p)) /\
  1 <= snd (cobs_codes p) <= Z.of_nat (length p) + 1.
Proof.
  induction p as [|b t [IH1 IH2]]; simpl.
  - split; [constructor | lia].
  - destruct (cobs_codes t) as [e d]; simpl in *.
    destruct (b =? 0) eqn:Hb; simpl.
    + split; [|lia]. constructor; [|done]. unfold nonzero. lia.
    + apply Z.eqb_neq in Hb. split; [by constructor | lia].
Qed.

Lemma cobs_image_nonzero (p : list Z) : Forall nonzero (cobs_image p).
Proof.
  unfold cobs_image. pose proof (cobs_codes_bounds p) as [H1 H2].
  destruct (cobs_codes p) as [e d]; simpl in *.
  constructor; [|done]. unfold nonzero. lia.
Qed.

Lemma COBS_scan_run (run : list Z) :
  Forall nonzero run ->
  forall (fuel : nat) (m : mem) (s c : Z),
    load_bytes m s (length run) = run ->
    m (s + Z.of_nat (length run)) = 0 ->
    0 <= c -> c + Z.of_nat (length run) < 256 ->
    (length run < fuel)%nat ->
    COBS_scan fuel m s c = Some (s + Z.of_nat (length run) + 1, c + Z.of_nat (length run)).
Proof.
  induction 1 as [|b run Hb _ IH]; intros fuel m s c Hl Hz Hc Hlt Hf.
  - destruct fuel as [|f]; [simpl in Hf; lia|]. simpl in *.
    rewrite Z.add_0_r in Hz. rewrite Hz. simpl. do 2 f_equal; lia.
  - destruct fuel as [|f]; [simpl in Hf; lia|].
    apply load_bytes_cons in Hl as [Hb' Hl]. simpl length in *. simpl COBS_scan.
    rewrite Hb'. unfold COBS_DEL. apply Z.eqb_neq in Hb as ->.
    rewrite IH; try done; try lia.
    + unfold u8. rewrite Z.mod_small by lia. do 2 f_equal; lia.
    + rewrite <- Hz. f_equal. lia.
    + unfold u8. rewrite Z.mod_small by lia. lia.
    + unfold u8. rewrite Z.mod_small by lia. lia.
Qed.

Lemma COBS_encode_loop_spec (n : nat) :
  forall (q : list Z) (fuel : nat) (m : mem) (a : Z),
    (length q <= n)%nat ->
    (length q <= 253)%nat ->
    load_bytes m (a + 1) (length q) = q ->
    m (a + 1 + Z.of_nat (length q)) = 0 ->
    (length q + 2 <= fuel)%nat ->
    exists m',
      COBS_encode_loop fuel m a (a + 1) (Z.of_nat (length q) + 1)
        = Some (m', a + Z.of_nat (length q) + 1) /\
      load_bytes m' a (S (length q)) = cobs_image q /\
      (forall x, x < a \/ a + Z.of_nat (length q) < x -> m' x = m x).
Proof.
  induction n as [|n IH]; intros q fuel m a Hn H253 Hl Hz Hf.
  all: destruct (run_split q) as (run & rest & -> & Hrun & Hrest).
  all: rewrite length_app in *.
  all: destruct fuel as [|f]; [lia|].
  all: simpl COBS_encode_loop.
  all: replace (Z.of_nat (length run + length rest) + 1 =? 0) with false
         by (symmetry; apply Z.eqb_neq; lia).
  all: rewrite load_bytes_app in Hl; apply app_inj_1 in Hl as [Hl1 Hl2];
         [|by rewrite load_bytes_length].
  all: assert (m (a + 1 + Z.of_nat (length run)) = 0) as Hz1
         by (destruct Hrest as [->|(q' & ->)];
             [simpl in Hz; rewrite <- Hz; f_equal; lia
             |simpl in Hl2; by inversion Hl2]).
  all: rewrite (COBS_scan_run run Hrun f m (a + 1) 1 Hl1 Hz1) by lia.
  all: replace (u8 (Z.of_nat (length run + length rest) + 1 - (1 + Z.of_nat (length run))))
         with (Z.of_nat (length rest))
         by (unfold u8; rewrite Z.mod_small by lia; lia).
  - (* n = 0: the payload is empty *)
    assert (run = [] /\ rest = []) as [-> ->].
    { destruct run, rest; simpl in Hn; try lia; done. }
    destruct f as [|f]; [simpl in Hf; lia|]. simpl.
    eexists. split; [do 2 f_equal; lia|]. split.
    + by rewrite store_eq.
    + intros x Hx. apply store_ne. lia.
  - destruct Hrest as [->|(q' & ->)].
    + (* the run reaches the phantom delimiter *)
      destruct f as [|f]; [simpl in Hf; lia|]. simpl.
      eexists. split; [do 2 f_equal; lia|]. split.
      * rewrite app_nil_r, cobs_image_run by done. rewrite store_eq.
        f_equal; [lia|]. rewrite Nat.add_0_r.
        etrans; [|exact Hl1]. apply load_bytes_ext. intros x Hx. apply store_ne. lia.
      * intros x Hx. apply store_ne. lia.
    + (* the run ends in a payload zero: its place takes the next code *)
      simpl length in *.
      destruct (IH q' f (store m a (1 + Z.of_nat (length run)))
                  (a + (1 + Z.of_nat (length run)))) as (m' & He & Hi & Ho).
      * lia.
      * lia.
      * simpl in Hl2. inversion Hl2 as [[Hl2a Hl2b]].
        rewrite Hl2b. etrans; [|exact Hl2b].
        replace (a + (1 + Z.of_nat (length run)) + 1)
          with (a + 1 + Z.of_nat (length run) + 1) by lia.
        apply load_bytes_ext. intros x Hx. apply store_ne. lia.
      * rewrite store_ne by lia. rewrite <- Hz. f_equal. lia.
      * lia.
      * exists m'. split; [|split].
        { replace (a + 1 + Z.of_nat (length run) + 1)
            with (a + (1 + Z.of_nat (length run)) + 1) by lia.
          replace (Z.of_nat (S (length q'))) with (Z.of_nat (length q') + 1) by lia.
          rewrite He. do 2 f_equal. lia. }
        { rewrite cobs_image_run_zero by done.
          replace (S (length run + S (length q'))) with (S (length run) + S (length q'))%nat by lia.
          rewrite load_bytes_app. simpl load_bytes at 1.
          rewrite <- app_comm_cons. f_equal; [|f_equal].
          - rewrite Ho by lia. rewrite store_eq. lia.
          - etrans; [|exact Hl1]. apply load_bytes_ext. intros x Hx.
            rewrite Ho by lia. apply store_ne. lia.
          - rewrite <- Hi. f_equal. lia. }
        { intros x Hx. rewrite Ho by lia. apply store_ne. lia. }
Qed.

Lemma COBS_encode_spec (p : list Z) (fuel : nat) (m : mem) (src : Z) (ext : bool) :
  (length p <= 253)%nat ->
  load_bytes m (src + 2) (length p) = p ->
  (length p + 2 <= fuel)%nat ->
  exists m',
    COBS_encode fuel m src (Z.of_nat (length p)) ext = Some m' /\
    load_bytes m' src (length p + 3) =
      COBS_DEL :: cobs_image p ++ [if ext then COBS_EXT else COBS_DEL] /\
    (forall x, x < src \/ src + Z.of_nat (length p) + 2 < x -> m' x = m x).
Proof.
  intros H253 Hl Hf. unfold COBS_encode.
  set (m1 := store (store m src COBS_DEL) (src + 2 + Z.of_nat (length p)) COBS_DEL).
  destruct (COBS_encode_loop_spec (length p) p fuel m1 (src + 1))
    as (m' & He & Hi & Ho); try done.
  - etrans; [|exact Hl]. replace (src + 1 + 1) with (src + 2) by lia.
    apply load_bytes_ext. intros x Hx. unfold m1. rewrite !store_ne by lia.
    reflexivity.
  - unfold m1. replace (src + 1 + 1 + Z.of_nat (length p))
      with (src + 2 + Z.of_nat (length p)) by lia. apply store_eq.
  - replace (u8 (Z.of_nat (length p) + 1)) with (Z.of_nat (length p) + 1)
      by (unfold u8; rewrite Z.mod_small; lia).
    replace (src + 2) with (src + 1 + 1) by lia. rewrite He.
    eexists. split; [done|]. split.
    + replace (length p + 3)%nat with (S (S (length p) + 1)) by lia.
      rewrite load_bytes_S, load_bytes_app. f_equal; [|f_equal].
      * destruct ext; [rewrite store_ne by lia|]; rewrite Ho by lia; unfold m1;
          rewrite store_ne by lia; apply store_eq.
      * rewrite <- Hi. destruct ext; [|done].
        apply load_bytes_ext. intros x Hx. apply store_ne. lia.
      * rewrite load_bytes_S. simpl load_bytes. f_equal. destruct ext.
        { etrans; [|apply store_eq]. f_equal. lia. }
        { rewrite Ho by lia. unfold m1. etrans; [|apply store_eq]. f_equal. lia. }
    + intros x Hx. destruct ext; [rewrite store_ne by lia|]; rewrite Ho by lia;
        unfold m1; by rewrite !store_ne by lia.
Qed.

(** *** The decoder on the encoder's image *)

Lemma COBS_decode_stream_app (l1 l2 : list Z) (dest size : Z) (st : ctrl) (m : mem) :
  COBS_decode_stream (l1 ++ l2) dest size st m =
  let '(rs1, st1, m1) := COBS_decode_stream l1 dest size st m in
  let '(rs2, st2, m2) := COBS_decode_stream l2 dest size st1 m1 in
  (rs1 ++ rs2, st2, m2).
Proof.
  revert st m. induction l1 as [|b l1 IH]; intros st m; simpl.
  - by destruct (COBS_decode_stream l2 dest size st m) as [[? ?] ?].
  - destruct (COBS_decode_inline b dest size st m) as [[r st'] m'].
    rewrite IH.
    destruct (COBS_decode_stream l1 dest size st' m') as [[rs1 st1] m1].
    by destruct (COBS_decode_stream l2 dest size st1 m1) as [[rs2 st2] m2].
Qed.

Lemma COBS_decode_stream_cons (b : Z) (l : list Z) (dest size : Z) (st : ctrl) (m : mem) :
  COBS_decode_stream (b :: l) dest size st m =
  let '(r, st', m') := COBS_decode_inline b dest size st m in
  let '(rs, st'', m'') := COBS_decode_stream l dest size st' m' in
  (r :: rs, st'', m'').
Proof. done. Qed.

Section decode.
Variables dest size : Z.
Hypothesis size_u8 : size <= 255.

(** Payload bytes of one group: each is stored and decrements the code. *)
Lemma COBS_decode_run (run : list Z) :
  Forall nonzero run ->
  forall (cd k : Z) (m : mem),
    Z.of_nat (length run) <= cd < 255 -> 0 <= k ->
    k + Z.of_nat (length run) <= size ->
    COBS_decode_stream run dest size (Ctrl cd k) m =
    (repeat 0 (length run), Ctrl (cd - Z.of_nat (length run)) (k + Z.of_nat (length run)),
     store_bytes m (dest + k) run).
Proof.
  induction 1 as [|b run Hb _ IH]; intros cd k m Hcd Hk Hsz.
  - simpl. do 2 f_equal; f_equal; lia.
  - simpl length in *. simpl COBS_decode_stream.
    unfold COBS_decode_inline. simpl code. simpl count.
    unfold COBS_DEL. apply Z.eqb_neq in Hb as ->.
    replace (cd =? 255) with false by (symmetry; apply Z.eqb_neq; lia).
    replace (cd =? 0) with false by (symmetry; apply Z.eqb_neq; lia).
    replace (k <? size) with true by (symmetry; apply Z.ltb_lt; lia).
    replace (u8 (cd - 1)) with (cd - 1) by (unfold u8; rewrite Z.mod_small; lia).
    replace (u8 (k + 1)) with (k + 1) by (unfold u8; rewrite Z.mod_small; lia).
    rewrite IH by lia. simpl.
    f_equal; [f_equal; f_equal; lia|]. f_equal. lia.
Qed.

(** A code byte received when the previous group is complete. *)
Lemma COBS_decode_next_code (c k : Z) (m : mem) :
  1 <= c <= 254 -> 0 <= k < size ->
  COBS_decode_inline c dest size (Ctrl 0 k) m =
  (0, Ctrl (c - 1) (k + 1), store m (dest + k) 0).
Proof.
  intros Hc Hk. unfold COBS_decode_inline. simpl.
  replace (c =? COBS_DEL) with false by (symmetry; apply Z.eqb_neq; unfold COBS_DEL; lia).
  replace (k <? size) with true by (symmetry; apply Z.ltb_lt; lia).
  unfold u8. rewrite !Z.mod_small by lia. done.
Qed.

(** The image of [q] received after a complete group: the zero that the
    group ended with, then [q]. *)
Lemma COBS_decode_image_next (n : nat) :
  forall (q : list Z) (k : Z) (m : mem),
    (length q <= n)%nat -> (length q <= 253)%nat ->
    0 <= k -> k + 1 + Z.of_nat (length q) <= size ->
    COBS_decode_stream (cobs_image q) dest size (Ctrl 0 k) m =
    (repeat 0 (S (length q)), Ctrl 0 (k + 1 + Z.of_nat (length q)),
     store_bytes m (dest + k) (0 :: q)).
Proof.
  induction n as [|n IH]; intros q k m Hn H253 Hk Hsz;
    destruct (run_split q) as (run & rest & -> & Hrun & [->|(q' & ->)]);
    rewrite ?length_app in *; simpl length in *; try lia.
  1,2: rewrite app_nil_r, cobs_image_run, COBS_decode_stream_cons by done;
       rewrite COBS_decode_next_code by lia; cbv beta iota zeta;
       rewrite (COBS_decode_run run Hrun) by lia; cbv beta iota zeta;
       rewrite Nat.add_0_r;
       replace (Z.of_nat (length run) + 1 - 1 - Z.of_nat (length run)) with 0 by lia;
       replace (dest + (k + 1)) with (dest + k + 1) by lia; reflexivity.
  rewrite cobs_image_run_zero, app_comm_cons, COBS_decode_stream_app by done.
  rewrite COBS_decode_stream_cons, COBS_decode_next_code by lia. cbv beta iota zeta.
  rewrite (COBS_decode_run run Hrun) by lia. cbv beta iota zeta.
  replace (Z.of_nat (length run) + 1 - 1 - Z.of_nat (length run)) with 0 by lia.
  rewrite (IH q') by lia.
  change (0 :: repeat 0 (length run)) with (repeat 0 (S (length run))).
  rewrite <- repeat_app.
  replace (S (length run) + S (length q'))%nat with (S (length run + S (length q'))) by lia.
  replace (k + 1 + Z.of_nat (length run) + 1 + Z.of_nat (length q'))
    with (k + 1 + Z.of_nat (length run + S (length q'))) by lia.
  f_equal.
  change (store_bytes m (dest + k) (0 :: run ++ 0 :: q'))
    with (store_bytes (store m (dest + k) 0) (dest + k + 1) (run ++ 0 :: q')).
  rewrite store_bytes_app.
  replace (dest + (k + 1)) with (dest + k + 1) by lia.
  f_equal. lia.
Qed.

Lemma COBS_decode_first_code_one (m : mem) :
  0 < size ->
  COBS_decode_inline 1 dest size (Ctrl 255 0) m = (0, Ctrl 0 1, store m dest 0).
Proof.
  intros Hs. unfold COBS_decode_inline. simpl.
  replace (0 <? size) with true by (symmetry; apply Z.ltb_lt; lia).
  by rewrite Z.add_0_r.
Qed.

Lemma COBS_decode_first_code (c : Z) (m : mem) :
  1 < c <= 254 ->
  COBS_decode_inline c dest size (Ctrl 255 0) m = (0, Ctrl (c - 1) 0, m).
Proof.
  intros Hc. unfold COBS_decode_inline. simpl.
  replace (c =? COBS_DEL) with false by (symmetry; apply Z.eqb_neq; unfold COBS_DEL; lia).
  replace (c >? 1) with true by (symmetry; apply Z.gtb_lt; lia).
  unfold u8. by rewrite Z.mod_small by lia.
Qed.

(** The image of [p] received right after the opening delimiter. *)
Lemma COBS_decode_image_first (p : list Z) (m : mem) :
  (length p <= 253)%nat ->
  Z.of_nat (length (COBS_decoded p)) <= size ->
  COBS_decode_stream (cobs_image p) dest size (Ctrl 255 0) m =
  (repeat 0 (S (length p)), Ctrl 0 (Z.of_nat (length (COBS_decoded p))),
   store_bytes m dest (COBS_decoded p)).
Proof.
  intros H253 Hsz.
  destruct (run_split p) as (run & rest & -> & Hrun & Hrest).
  destruct Hrun as [|b run Hb Hrun].
  - (* the payload is empty or starts with a zero *)
    simpl app in *. destruct Hrest as [->|(q' & ->)].
    + simpl in *. rewrite COBS_decode_first_code_one by lia. done.
    + pose proof (cobs_image_run_zero [] q' (Forall_nil_2 _)) as Hi.
      simpl app in Hi. rewrite Hi. clear Hi. simpl length in *.
      rewrite COBS_decode_stream_cons.
      change (Z.of_nat 0 + 1) with 1.
      rewrite COBS_decode_first_code_one by (simpl in Hsz; lia).
      cbv beta iota zeta.
      rewrite (COBS_decode_image_next (length q')) by (simpl in Hsz; lia).
      simpl. do 2 f_equal. f_equal. lia.
  - (* the payload starts with a non-zero byte *)
    assert (Forall nonzero (b :: run)) as Hrun' by (by constructor).
    assert (COBS_decoded ((b :: run) ++ rest) = (b :: run) ++ rest) as Hd.
    { simpl. by apply Z.eqb_neq in Hb as ->. }
    rewrite Hd in *. clear Hd. rewrite length_app in *.
    assert (1 <= length (b :: run))%nat as Hr by (simpl; lia).
    remember (b :: run) as r eqn:Er. clear Er.
    destruct Hrest as [->|(q' & ->)]; simpl length in *.
    + rewrite app_nil_r, cobs_image_run, COBS_decode_stream_cons by done.
      rewrite COBS_decode_first_code by lia. cbv beta iota zeta.
      rewrite (COBS_decode_run r Hrun') by lia.
      rewrite Nat.add_0_r, Z.add_0_r.
      replace (Z.of_nat (length r) + 1 - 1 - Z.of_nat (length r)) with 0 by lia.
      reflexivity.
    + rewrite cobs_image_run_zero, app_comm_cons, COBS_decode_stream_app by done.
      rewrite COBS_decode_stream_cons, COBS_decode_first_code by lia.
      cbv beta iota zeta.
      rewrite (COBS_decode_run r Hrun') by lia. cbv beta iota zeta.
      replace (Z.of_nat (length r) + 1 - 1 - Z.of_nat (length r)) with 0 by lia.
      rewrite (COBS_decode_image_next (length q')) by lia.
      change (0 :: repeat 0 (length r)) with (repeat 0 (S (length r))).
      rewrite <- repeat_app.
      replace (S (length r) + S (length q'))%nat with (S (length r + S (length q'))) by lia.
      replace (0 + Z.of_nat (length r) + 1 + Z.of_nat (length q'))
        with (Z.of_nat (length r + S (length q'))) by lia.
      rewrite store_bytes_app. rewrite Z.add_0_r. reflexivity.
Qed.

(** A whole frame: opening delimiter, image, closing delimiter.  The
    closing delimiter returns the number of reconstructed bytes. *)
Lemma COBS_decode_frame (p : list Z) (st : ctrl) (m : mem) :
  (length p <= 253)%nat ->
  Z.of_nat (length (COBS_decoded p)) <= size ->
  COBS_decode_stream (COBS_DEL :: cobs_image p ++ [COBS_DEL]) dest size st m =
  ((if code st =? 0 then count st else 0)
     :: repeat 0 (S (length p)) ++ [Z.of_nat (length (COBS_decoded p))],
   Ctrl 255 0, store_bytes m dest (COBS_decoded p)).
Proof.
  intros H253 Hsz.
  rewrite COBS_decode_stream_cons.
  assert (COBS_decode_inline COBS_DEL dest size st m =
          (if code st =? 0 then count st else 0, Ctrl 255 0, m)) as ->.
  { unfold COBS_decode_inline. simpl. by destruct (code st =? 0). }
  cbv beta iota zeta.
  rewrite COBS_decode_stream_app, COBS_decode_image_first by done.
  cbv beta iota zeta. simpl. done.
Qed.
End decode.

(** Encoding a payload of at most 253 bytes and feeding the encoded frame
    to the inline decoder.  The frame is the payload's image between two
    delimiters, it has no delimiter inside, and the decoder reconstructs
    [COBS_decoded p]. *)
Lemma COBS_encode_decode (p : list Z) (fuel : nat) (m md : mem)
    (src dest size : Z) (st : ctrl) :
  (length p <= 253)%nat -> size <= 255 ->
  Z.of_nat (length (COBS_decoded p)) <= size ->
  load_bytes m (src + 2) (length p) = p ->
  (length p + 2 <= fuel)%nat ->
  exists m' body,
    COBS_encode fuel m src (Z.of_nat (length p)) false = Some m' /\
    load_bytes m' src (length p + 3) = COBS_DEL :: body ++ [COBS_DEL] /\
    Forall nonzero body /\
    COBS_decode_stream (load_bytes m' src (length p + 3)) dest size st md =
      ((if code st =? 0 then count st else 0)
         :: repeat 0 (S (length p)) ++ [Z.of_nat (length (COBS_decoded p))],
       Ctrl 255 0, store_bytes md dest (COBS_decoded p)).
Proof.
  intros H253 Hs Hd Hl Hf.
  destruct (COBS_encode_spec p fuel m src false H253 Hl Hf) as (m' & He & Hw & _).
  exists m', (cobs_image p). split; [done|]. split; [done|].
  split; [apply cobs_image_nonzero|].
  rewrite Hw. by apply COBS_decode_frame.
Qed.

(** Round trip for a payload whose first byte is not zero: the closing
    delimiter returns the payload length and the destination holds the
    payload. *)
Lemma COBS_roundtrip_nonzero_head (b : Z) (t : list Z) (fuel : nat) (m md : mem)
    (src dest size : Z) (st : ctrl) :
  let p := b :: t in
  b <> 0 ->
  (length p <= 253)%nat -> Z.of_nat (length p) <= size <= 255 ->
  load_bytes m (src + 2) (length p) = p ->
  (length p + 2 <= fuel)%nat ->
  exists m' rs st' md',
    COBS_encode fuel m src (Z.of_nat (length p)) false = Some m' /\
    COBS_decode_stream (load_bytes m' src (length p + 3)) dest size st md
      = (rs, st', md') /\
    list.last rs = Some (Z.of_nat (length p)) /\
    load_bytes md' dest (length p) = p.
Proof.
  intros p Hb H253 Hs Hl Hf.
  assert (COBS_decoded p = p) as Hd by (unfold p; simpl; by apply Z.eqb_neq in Hb as ->).
  destruct (COBS_encode_decode p fuel m md src dest size st)
    as (m' & body & He & _ & _ & Hdec); try done; try lia.
  { rewrite Hd. lia. }
  rewrite Hd in Hdec. eexists _, _, _, _. split; [done|]. split; [done|].
  split.
  - rewrite app_comm_cons. apply last_snoc.
  - apply load_store_bytes.
Qed.

(** With a leading zero the decoder writes that zero twice: the closing
    delimiter returns one more than the payload length. *)
Lemma COBS_roundtrip_leading_zero (t : list Z) (fuel : nat) (m md : mem)
    (src dest size : Z) (st : ctrl) :
  let p := 0 :: t in
  (length p <= 253)%nat -> Z.of_nat (length p) + 1 <= size <= 255 ->
  load_bytes m (src + 2) (length p) = p ->
  (length p + 2 <= fuel)%nat ->
  exists m' rs st' md',
    COBS_encode fuel m src (Z.of_nat (length p)) false = Some m' /\
    COBS_decode_stream (load_bytes m' src (length p + 3)) dest size st md
      = (rs, st', md') /\
    list.last rs = Some (Z.of_nat (length p) + 1) /\
    load_bytes md' dest (S (length p)) = 0 :: p.
Proof.
  intros p H253 Hs Hl Hf.
  assert (COBS_decoded p = 0 :: p) as Hd by done.
  destruct (COBS_encode_decode p fuel m md src dest size st)
    as (m' & body & He & _ & _ & Hdec); try done; try lia.
  { rewrite Hd. simpl length in *. lia. }
  rewrite Hd in Hdec. eexists _, _, _, _. split; [done|]. split; [done|].
  split.
  - rewrite app_comm_cons, last_snoc. f_equal. simpl length. lia.
  - apply (load_store_bytes md dest (0 :: p)).
Qed.

(** The frame of scenario S6. *)
Example COBS_encode_S6 :
  let p := [0x01; 0x00; 0x02; 0x03; 0x04; 0x00; 0x00; 0x05; 0x06; 0x07; 0x08] in
  exists m',
    COBS_encode 16 (COBS_buf_of zero_mem 0 p) 0 11 false = Some m' /\
    load_bytes m' 0 14 =
      [0x00; 0x02; 0x01; 0x04; 0x02; 0x03; 0x04; 0x01; 0x05; 0x05; 0x06; 0x07; 0x08; 0x00] /\
    exists st' md',
      COBS_decode_stream (load_bytes m' 0 14) 100 64 COBS_ctrl_init zero_mem
        = ([0; 0; 0; 0; 0; 0; 0; 0; 0; 0; 0; 0; 0; 11], st', md') /\
      load_bytes md' 100 11 = p.
Proof. cbv zeta. eexists. split; [reflexivity|]. split; [reflexivity|]. eexists _, _. split; reflexivity. Qed.

(** C1 (defect of the decoder).  The one-byte payload [0x00] is encoded as
    [0x00, 0x01, 0x01, 0x00]; feeding this frame to [COBS_decode_inline]
    byte by byte returns 2 on the closing delimiter and leaves two zero
    bytes in the destination: a first code of 1 already stores a zero, and
    the code that follows stores it again. *)
Theorem C1_COBS_decode_leading_zero :
  exists m',
    COBS_encode 8 (COBS_buf_of zero_mem 0 [0x00]) 0 1 false = Some m' /\
    load_bytes m' 0 4 = [0x00; 0x01; 0x01; 0x00] /\
    exists st' md',
      COBS_decode_stream (load_bytes m' 0 4) 100 64 COBS_ctrl_init
        (store_bytes zero_mem 100 [0xAA; 0xBB]) = ([0; 0; 0; 2], st', md') /\
      load_bytes md' 100 2 = [0x00; 0x00].
Proof. eexists. split; [reflexivity|]. split; [reflexivity|]. eexists _, _. split; reflexivity. Qed.

(** The encoder returns for every payload size up to 253, whatever the
    buffer holds. *)
Lemma COBS_encode_total (fuel : nat) (m : mem) (src size : Z) (ext : bool) :
  0 <= size <= 253 -> (255 <= fuel)%nat ->
  exists m', COBS_encode fuel m src size ext = Some m'.
Proof.
  intros Hs Hf.
  destruct (COBS_encode_spec (load_bytes m (src + 2) (Z.to_nat size)) fuel m src ext)
    as (m' & He & _).
  - rewrite load_bytes_length. lia.
  - by rewrite load_bytes_length.
  - rewrite load_bytes_length. lia.
  - rewrite load_bytes_length, Z2Nat.id in He by lia. eauto.
Qed.

(** *** Overrun of the destination buffer *)

(** A byte that is due to be stored when the destination already holds
    [size] bytes: [size + 1] is returned and the code is set to 255. *)
Lemma COBS_decode_overrun (c dest size : Z) (st : ctrl) (m : mem) :
  c <> COBS_DEL -> code st <> 255 -> size <= count st ->
  COBS_decode_inline c dest size st m = (u8 (size + 1), Ctrl 255 (count st), m).
Proof.
  intros Hc Hcd Hsz. unfold COBS_decode_inline.
  apply Z.eqb_neq in Hc as ->. apply Z.eqb_neq in Hcd as ->.
  replace (count st <? size) with false by (symmetry; apply Z.ltb_ge; lia).
  by destruct (code st =? 0).
Qed.

(** After an overrun the rest of the frame is dropped and its closing
    delimiter returns 0. *)
Lemma COBS_decode_abandoned (bs : list Z) (dest size k : Z) (m : mem) :
  k <> 0 -> Forall (fun b => b <> COBS_DEL) bs ->
  COBS_decode_stream (bs ++ [COBS_DEL]) dest size (Ctrl 255 k) m =
  (repeat 0 (S (length bs)), Ctrl 255 0, m).
Proof.
  intros Hk. induction 1 as [|b bs Hb _ IH].
  - done.
  - rewrite <- app_comm_cons, COBS_decode_stream_cons.
    assert (COBS_decode_inline b dest size (Ctrl 255 k) m = (0, Ctrl 255 k, m)) as ->.
    { unfold COBS_decode_inline. simpl.
      apply Z.eqb_neq in Hb as ->. by apply Z.eqb_neq in Hk as ->. }
    cbv beta iota zeta. by rewrite IH.
Qed.

Lemma COBS_overrun_abandons_frame (c : Z) (bs : list Z) (dest size : Z)
    (st : ctrl) (m : mem) :
  c <> COBS_DEL -> Forall (fun b => b <> COBS_DEL) bs ->
  code st <> 255 -> count st = size -> 0 < size < 255 ->
  COBS_decode_stream (c :: bs ++ [COBS_DEL]) dest size st m =
  (size + 1 :: repeat 0 (S (length bs)), Ctrl 255 0, m).
Proof.
  intros Hc Hbs Hcd Hk Hs.
  rewrite COBS_decode_stream_cons, COBS_decode_overrun by lia.
  cbv beta iota zeta. rewrite COBS_decode_abandoned by (done || lia).
  unfold u8. by rewrite Z.mod_small by lia.
Qed.


(** *** The encoder and the decoder together *)

(** X1.  [COBS_encode] on a COBS buffer with a payload of at
    most 253 bytes: the loops end, the buffer holds a delimiter, one more
    byte than the payload, none of them zero, and the end mark ([0x00], or
    [0xFF] for a part of an extended message); memory outside the frame
    is untouched. *)
Theorem COBS_encode_frame (p : list Z) (fuel : nat) (m : mem) (src : Z) (ext : bool) :
  (length p <= 253)%nat ->
  load_bytes m (src + 2) (length p) = p ->
  (length p + 2 <= fuel)%nat ->
  exists (m' : mem) (body : list Z),
    COBS_encode fuel m src (Z.of_nat (length p)) ext = Some m' /\
    load_bytes m' src (length p + 3)
      = COBS_DEL :: body ++ [if ext then COBS_EXT else COBS_DEL] /\
    length body = S (length p) /\ Forall nonzero body /\
    (forall x, x < src \/ src + Z.of_nat (length p) + 2 < x -> m' x = m x).
Proof.
  intros H253 Hl Hf.
  destruct (COBS_encode_spec p fuel m src ext H253 Hl Hf) as (m' & He & Hw & Ho).
  exists m', (cobs_image p). split; [done|]. split; [done|].
  split; [apply cobs_image_length|]. split; [apply cobs_image_nonzero|done].
Qed.

Lemma COBS_encode_frame_witness :
  exists (m' : mem) (body : list Z),
    COBS_encode 256 (COBS_buf_of zero_mem 0 [0x11; 0x00; 0x22]) 0 3 true = Some m' /\
    load_bytes m' 0 6 = COBS_DEL :: body ++ [COBS_EXT] /\
    length body = 4%nat /\ Forall nonzero body /\
    (forall x, x < 0 \/ 0 + 3 + 2 < x ->
               m' x = COBS_buf_of zero_mem 0 [0x11; 0x00; 0x22] x).
Proof.
  apply (COBS_encode_frame [0x11; 0x00; 0x22] 256
           (COBS_buf_of zero_mem 0 [0x11; 0x00; 0x22]) 0 true).
  - simpl. lia.
  - reflexivity.
  - simpl. lia.
Defined.

(** X2.  A payload of 1 to 253 bytes whose first byte is
    not zero, encoded by [COBS_encode] and fed byte by byte to
    [COBS_decode_inline] in any state of the decoder: the call for the
    closing delimiter returns the length of the payload and the
    destination holds the payload. *)
Theorem COBS_roundtrip (b : Z) (t : list Z) (fuel : nat) (m md : mem)
    (src dest size : Z) (st : ctrl) :
  b <> 0 ->
  (length (b :: t) <= 253)%nat -> Z.of_nat (length (b :: t)) <= size <= 255 ->
  load_bytes m (src + 2) (length (b :: t)) = b :: t ->
  (length (b :: t) + 2 <= fuel)%nat ->
  exists (m' : mem) (rs : list Z) (st' : ctrl) (md' : mem),
    COBS_encode fuel m src (Z.of_nat (length (b :: t))) false = Some m' /\
    COBS_decode_stream (load_bytes m' src (length (b :: t) + 3)) dest size st md
      = (rs, st', md') /\
    list.last rs = Some (Z.of_nat (length (b :: t))) /\
    load_bytes md' dest (length (b :: t)) = b :: t.
Proof. intros Hb. by apply COBS_roundtrip_nonzero_head. Qed.

Lemma COBS_roundtrip_witness :
  exists (m' : mem) (rs : list Z) (st' : ctrl) (md' : mem),
    COBS_encode 256 (COBS_buf_of zero_mem 0 [0x11; 0x00; 0x22]) 0 3 false = Some m' /\
    COBS_decode_stream (load_bytes m' 0 6) 100 8 COBS_ctrl_init zero_mem
      = (rs, st', md') /\
    list.last rs = Some 3 /\
    load_bytes md' 100 3 = [0x11; 0x00; 0x22].
Proof.
  apply (COBS_roundtrip 0x11 [0x00; 0x22] 256
           (COBS_buf_of zero_mem 0 [0x11; 0x00; 0x22]) zero_mem 0 100 8
           COBS_ctrl_init).
  - discriminate.
  - simpl. lia.
  - simpl. lia.
  - reflexivity.
  - simpl. lia.
Defined.

(** X3.  A byte that is due to be stored when the
    destination already holds [size] bytes makes [COBS_decode_inline]
    return [size + 1]; the rest of the frame is dropped, nothing is
    stored any more and the closing delimiter returns 0. *)
Theorem COBS_overrun (c : Z) (bs : list Z) (dest size : Z) (st : ctrl) (m : mem) :
  c <> COBS_DEL -> Forall (fun b => b <> COBS_DEL) bs ->
  code st <> 255 -> count st = size -> 0 < size < 255 ->
  COBS_decode_stream (c :: bs ++ [COBS_DEL]) dest size st m =
  (size + 1 :: repeat 0 (S (length bs)), Ctrl 255 0, m).
Proof. apply COBS_overrun_abandons_frame. Qed.

Lemma COBS_overrun_witness :
  COBS_decode_stream (0x33 :: [0x44; 0x55] ++ [COBS_DEL]) 100 2 (Ctrl 1 2) zero_mem =
  (2 + 1 :: repeat 0 3, Ctrl 255 0, zero_mem).
Proof.
  apply (COBS_overrun 0x33 [0x44; 0x55] 100 2 (Ctrl 1 2) zero_mem).
  - discriminate.
  - repeat constructor; discriminate.
  - discriminate.
  - reflexivity.
  - lia.
Defined.

End COBS.

(** ** ESCS codec (encodings/escs.c) *)

Module ESCS.

Definition ESCS_ESC : Z := 0x7D.
Definition ESCS_DEL : Z := 0x7E.

(** The decoder's private state [ESCS_ctrl]. *)
Record ctrl : Type := Ctrl { state : Z; count : Z }.

Definition ESCS_ctrl_init : ctrl := Ctrl 0 0.

Definition ESCS_decode_inline (c dest size : Z) (st : ctrl) (m : mem)
  : Z * ctrl * mem :=
  if c =? ESCS_DEL then
    if negb (count st =? 0) then (count st, Ctrl 255 0, m)
    else (0, Ctrl 255 (count st), m)
  else if c =? ESCS_ESC then (0, Ctrl ESCS_ESC (count st), m)
  else if negb (state st =? 0) then
    let '(state', c') :=
      if state st =? ESCS_ESC then (255, u8 (c + 0x20)) else (state st, c) in
    if count st <? size then
      (0, Ctrl state' (u8 (count st + 1)), store m (dest + count st) c')
    else
      (u8 (size + 1), Ctrl 0 (count st), m)
  else (0, st, m).

Fixpoint ESCS_decode_stream (bs : list Z) (dest size : Z) (st : ctrl) (m : mem)
  : list Z * ctrl * mem :=
  match bs with
  | [] => ([], st, m)
  | b :: bs' =>
      let '(r, st', m') := ESCS_decode_inline b dest size st m in
      let '(rs, st'', m'') := ESCS_decode_stream bs' dest size st' m' in
      (r :: rs, st'', m'')
  end.

(** The loop [while (size--)] of the encoder: the new memory and [dest]. *)
Fixpoint ESCS_encode_loop (size : nat) (m : mem) (src dest : Z) : mem * Z :=
  match size with
  | O => (m, dest)
  | S k =>
      let c := m src in
      if (c =? ESCS_DEL) || (c =? ESCS_ESC) then
        let m := store m dest ESCS_ESC in
        let m := store m (dest + 1) (u8 (c - 0x20)) in
        ESCS_encode_loop k m (src + 1) (dest + 2)
      else
        ESCS_encode_loop k (store m dest c) (src + 1) (dest + 1)
  end.

(** [ESCS_encode src dest size]: the new memory and the number of bytes
    in the destination buffer. *)
Definition ESCS_encode (m : mem) (src dest size : Z) : mem * Z :=
  let dest_start := dest in
  let m := store m dest ESCS_DEL in
  let '(m, dest) := ESCS_encode_loop (Z.to_nat size) m src (dest + 1) in
  let m := store m dest ESCS_DEL in
  (m, u32 (dest + 1 - dest_start)).

Lemma ESCS_decode_stream_cons (b : Z) (l : list Z) (dest size : Z) (st : ctrl) (m : mem) :
  ESCS_decode_stream (b :: l) dest size st m =
  let '(r, st', m') := ESCS_decode_inline b dest size st m in
  let '(rs, st'', m'') := ESCS_decode_stream l dest size st' m' in
  (r :: rs, st'', m'').
Proof. done. Qed.

(** A byte that is due to be stored when the destination already holds
    [size] bytes: [size + 1] is returned and the state is set to 0; the
    count is left at [size]. *)
Lemma ESCS_decode_overrun (c dest size : Z) (st : ctrl) (m : mem) :
  c <> ESCS_DEL -> c <> ESCS_ESC -> state st <> 0 -> size <= count st ->
  ESCS_decode_inline c dest size st m = (u8 (size + 1), Ctrl 0 (count st), m).
Proof.
  intros Hd He Hst Hsz. unfold ESCS_decode_inline.
  apply Z.eqb_neq in Hd as ->. apply Z.eqb_neq in He as ->.
  apply Z.eqb_neq in Hst as ->. simpl.
  replace (count st <? size) with false by (symmetry; apply Z.ltb_ge; lia).
  by destruct (state st =? ESCS_ESC).
Qed.

(** While the destination is full no byte is stored and the count stays. *)
Lemma ESCS_decode_full (bs : list Z) (dest size : Z) (st : ctrl) (m : mem) :
  Forall (fun b => b <> ESCS_DEL) bs -> size <= count st ->
  exists rs st',
    ESCS_decode_stream bs dest size st m = (rs, st', m) /\
    count st' = count st /\ length rs = length bs.
Proof.
  intros Hbs. revert st. induction Hbs as [|b bs Hb _ IH]; intros st Hsz.
  - by eexists _, _.
  - rewrite ESCS_decode_stream_cons.
    assert (exists r st1, ESCS_decode_inline b dest size st m = (r, st1, m) /\
                          count st1 = count st) as (r & st1 & -> & Hc).
    { unfold ESCS_decode_inline. apply Z.eqb_neq in Hb as ->.
      replace (count st <? size) with false by (symmetry; apply Z.ltb_ge; lia).
      destruct (b =? ESCS_ESC); [by eexists _, _|].
      destruct (negb (state st =? 0)); [|by eexists _, _].
      destruct (state st =? ESCS_ESC); by eexists _, _. }
    cbv beta iota zeta.
    destruct (IH st1) as (rs & st' & -> & Hc' & Hl); [lia|].
    eexists _, _. split; [done|]. split; [congruence|]. simpl. lia.
Qed.

Lemma ESCS_decode_stream_app (l1 l2 : list Z) (dest size : Z) (st : ctrl) (m : mem) :
  ESCS_decode_stream (l1 ++ l2) dest size st m =
  let '(rs1, st1, m1) := ESCS_decode_stream l1 dest size st m in
  let '(rs2, st2, m2) := ESCS_decode_stream l2 dest size st1 m1 in
  (rs1 ++ rs2, st2, m2).
Proof.
  revert st m. induction l1 as [|b l1 IH]; intros st m; simpl.
  - by destruct (ESCS_decode_stream l2 dest size st m) as [[? ?] ?].
  - destruct (ESCS_decode_inline b dest size st m) as [[r st'] m'].
    rewrite IH.
    destruct (ESCS_decode_stream l1 dest size st' m') as [[rs1 st1] m1].
    by destruct (ESCS_decode_stream l2 dest size st1 m1) as [[rs2 st2] m2].
Qed.

(** After an overrun no later byte of the frame is stored, yet the closing
    delimiter returns [size]: the truncated frame is reported as received. *)
Lemma ESCS_overrun_delimiter_reports (c : Z) (bs : list Z) (dest size : Z)
    (st : ctrl) (m : mem) :
  c <> ESCS_DEL -> c <> ESCS_ESC -> Forall (fun b => b <> ESCS_DEL) bs ->
  state st <> 0 -> count st = size -> 0 < size < 255 ->
  exists rs,
    ESCS_decode_stream (c :: bs ++ [ESCS_DEL]) dest size st m =
    (size + 1 :: rs ++ [size], Ctrl 255 0, m) /\ length rs = length bs.
Proof.
  intros Hd He Hbs Hst Hk Hs.
  rewrite ESCS_decode_stream_cons, ESCS_decode_overrun by lia.
  cbv beta iota zeta. rewrite ESCS_decode_stream_app.
  destruct (ESCS_decode_full bs dest size (Ctrl 0 (count st)) m Hbs)
    as (rs & st' & -> & Hc & Hl); [simpl; lia|].
  cbv beta iota zeta. simpl in Hc. exists rs. split; [|done].
  simpl. unfold ESCS_decode_inline. rewrite Z.eqb_refl, Hc, Hk.
  replace (size =? 0) with false by (symmetry; apply Z.eqb_neq; lia).
  simpl. unfold u8. by rewrite Z.mod_small by lia.
Qed.

(** C4 (defect of the ESCS decoder).  With a destination of 2 bytes the
    frame [0x7E 'a' 'b' 'c' 'd' 0x7E] overruns at ['c']: that call returns
    3 = size + 1 and neither ['c'] nor ['d'] is stored, but the closing
    delimiter returns 2 and so reports the truncated frame as a completed
    message.  The COBS decoder returns 0 there
    ([COBS.COBS_overrun_abandons_frame]). *)
Theorem C4_ESCS_overrun_frame_reported :
  exists st' md',
    ESCS_decode_stream [0x7E; 0x61; 0x62; 0x63; 0x64; 0x7E] 100 2
      ESCS_ctrl_init zero_mem = ([0; 0; 0; 3; 0; 2], st', md') /\
    load_bytes md' 100 4 = [0x61; 0x62; 0; 0].
Proof. eexists _, _. split; reflexivity. Qed.


(** *** The encoder's image and the round trip *)

(** What the encoder writes for a payload: the two reserved bytes are
    replaced by the escape character and the byte minus [0x20]. *)
Fixpoint escs_image (p : list Z) : list Z :=
  match p with
  | [] => []
  | c :: t =>
      (if (c =? ESCS_DEL) || (c =? ESCS_ESC)
       then [ESCS_ESC; u8 (c - 0x20)] else [c]) ++ escs_image t
  end.

Lemma escs_image_length (p : list Z) :
  (length p <= length (escs_image p) <= 2 * length p)%nat.
Proof.
  induction p as [|c t IH]; simpl; [lia|].
  destruct ((c =? ESCS_DEL) || (c =? ESCS_ESC)); simpl; lia.
Qed.

Lemma escs_image_no_delimiter (p : list Z) :
  Forall (fun b => b <> ESCS_DEL) (escs_image p).
Proof.
  induction p as [|c t IH]; simpl; [constructor|].
  destruct (Z.eqb_spec c ESCS_DEL) as [->|Hd]; simpl.
  - repeat constructor; done.
  - destruct (Z.eqb_spec c ESCS_ESC) as [->|He]; simpl.
    + repeat constructor; done.
    + by constructor.
Qed.

(** The loop of the encoder.  The destination may run into the source
    from below: a byte is read before its place can be written. *)
Lemma ESCS_encode_loop_spec (p : list Z) :
  forall (m : mem) (src d : Z),
    load_bytes m src (length p) = p ->
    d + Z.of_nat (length p) <= src ->
    exists m',
      ESCS_encode_loop (length p) m src d
        = (m', d + Z.of_nat (length (escs_image p))) /\
      load_bytes m' d (length (escs_image p)) = escs_image p /\
      (forall x, x < d \/ d + Z.of_nat (length (escs_image p)) <= x -> m' x = m x).
Proof.
  induction p as [|c t IH]; intros m src d Hl Hd.
  - exists m. simpl. split; [f_equal; lia|]. split; done.
  - change (length (c :: t)) with (S (length t)) in Hl.
    apply load_bytes_cons in Hl as [Hc Ht]. simpl length in Hd.
    simpl ESCS_encode_loop. rewrite Hc. simpl escs_image.
    destruct ((c =? ESCS_DEL) || (c =? ESCS_ESC)) eqn:E.
    + set (m1 := store (store m d ESCS_ESC) (d + 1) (u8 (c - 32))).
      destruct (IH m1 (src + 1) (d + 2)) as (m' & He & Hi & Ho); [|lia|].
      { etrans; [|exact Ht]. apply load_bytes_ext. intros x Hx. unfold m1.
        by rewrite !store_ne by lia. }
      exists m'. rewrite He. simpl app. simpl length. split; [f_equal; lia|]. split.
      * rewrite !load_bytes_S.
        assert (m' d = ESCS_ESC) as ->.
        { rewrite Ho by lia. unfold m1. rewrite store_ne by lia. apply store_eq. }
        assert (m' (d + 1) = u8 (c - 32)) as ->.
        { rewrite Ho by lia. unfold m1. apply store_eq. }
        do 2 f_equal. etrans; [|exact Hi]. f_equal. lia.
      * intros x Hx. rewrite Ho by lia. unfold m1. by rewrite !store_ne by lia.
    + set (m1 := store m d c).
      destruct (IH m1 (src + 1) (d + 1)) as (m' & He & Hi & Ho); [|lia|].
      { etrans; [|exact Ht]. apply load_bytes_ext. intros x Hx. unfold m1.
        by rewrite store_ne by lia. }
      exists m'. rewrite He. simpl app. simpl length. split; [f_equal; lia|]. split.
      * rewrite load_bytes_S.
        assert (m' d = c) as ->.
        { rewrite Ho by lia. unfold m1. apply store_eq. }
        by f_equal.
      * intros x Hx. rewrite Ho by lia. unfold m1. by rewrite store_ne by lia.
Qed.

Lemma ESCS_encode_spec (p : list Z) (m : mem) (src dest : Z) :
  load_bytes m src (length p) = p ->
  dest + 1 + Z.of_nat (length p) <= src ->
  Z.of_nat (length p) < 2147483647 ->
  exists m',
    ESCS_encode m src dest (Z.of_nat (length p))
      = (m', Z.of_nat (length (escs_image p)) + 2) /\
    load_bytes m' dest (length (escs_image p) + 2)
      = ESCS_DEL :: escs_image p ++ [ESCS_DEL] /\
    (forall x, x < dest \/ dest + Z.of_nat (length (escs_image p)) + 2 <= x ->
               m' x = m x).
Proof.
  intros Hl Hd Hn. unfold ESCS_encode. rewrite Nat2Z.id.
  destruct (ESCS_encode_loop_spec p (store m dest ESCS_DEL) src (dest + 1))
    as (m' & -> & Hi & Ho); [|lia|].
  { etrans; [|exact Hl]. apply load_bytes_ext. intros x Hx. by rewrite store_ne by lia. }
  pose proof (escs_image_length p) as Hlen.
  eexists. split; [|split].
  - f_equal. unfold u32. rewrite Z.mod_small by lia. lia.
  - replace (length (escs_image p) + 2)%nat with (S (length (escs_image p) + 1)) by lia.
    rewrite load_bytes_S, load_bytes_app. f_equal; [|f_equal].
    + rewrite store_ne by lia. rewrite Ho by lia. apply store_eq.
    + etrans; [|exact Hi]. apply load_bytes_ext. intros x Hx. by rewrite store_ne by lia.
    + simpl. f_equal. etrans; [|apply store_eq]. f_equal.
  - intros x Hx. rewrite store_ne by lia. rewrite Ho by lia. by rewrite store_ne by lia.
Qed.

(** One call of the decoder inside a frame: a plain byte, the escape
    character, and the byte that follows it. *)
Lemma ESCS_decode_plain (c dest size k : Z) (m : mem) :
  c <> ESCS_DEL -> c <> ESCS_ESC -> 0 <= k < size -> size <= 255 ->
  ESCS_decode_inline c dest size (Ctrl 255 k) m
    = (0, Ctrl 255 (k + 1), store m (dest + k) c).
Proof.
  intros Hd He Hk Hs. unfold ESCS_decode_inline.
  apply Z.eqb_neq in Hd as ->. apply Z.eqb_neq in He as ->. simpl.
  replace (k <? size) with true by (symmetry; apply Z.ltb_lt; lia).
  unfold u8. by rewrite Z.mod_small by lia.
Qed.

Lemma ESCS_decode_escaped (c dest size k : Z) (m : mem) :
  c <> ESCS_DEL -> c <> ESCS_ESC -> 0 <= k < size -> size <= 255 ->
  ESCS_decode_inline c dest size (Ctrl ESCS_ESC k) m
    = (0, Ctrl 255 (k + 1), store m (dest + k) (u8 (c + 0x20))).
Proof.
  intros Hd He Hk Hs. unfold ESCS_decode_inline.
  apply Z.eqb_neq in Hd as ->. apply Z.eqb_neq in He as ->. simpl.
  replace (k <? size) with true by (symmetry; apply Z.ltb_lt; lia).
  unfold u8 at 1. by rewrite (Z.mod_small (k + 1)) by lia.
Qed.

(** The decoder on the image of a payload, after a delimiter. *)
Lemma ESCS_decode_image (p : list Z) :
  forall (dest size k : Z) (m : mem),
    0 <= k -> k + Z.of_nat (length p) <= size -> size <= 255 ->
    ESCS_decode_stream (escs_image p) dest size (Ctrl 255 k) m =
    (repeat 0 (length (escs_image p)), Ctrl 255 (k + Z.of_nat (length p)),
     store_bytes m (dest + k) p).
Proof.
  induction p as [|c t IH]; intros dest size k m Hk Hsz H255.
  - simpl. by rewrite Z.add_0_r.
  - simpl length in Hsz. simpl escs_image.
    assert (forall m1,
              ESCS_decode_stream (escs_image t) dest size (Ctrl 255 (k + 1)) m1 =
              (repeat 0 (length (escs_image t)),
               Ctrl 255 (k + Z.of_nat (length (c :: t))),
               store_bytes m1 (dest + k + 1) t)) as Hrest.
    { intros m1. rewrite IH by lia. simpl length.
      replace (k + 1 + Z.of_nat (length t)) with (k + Z.of_nat (S (length t))) by lia.
      by replace (dest + (k + 1)) with (dest + k + 1) by lia. }
    destruct (Z.eqb_spec c ESCS_DEL) as [->|Hd].
    { simpl app. rewrite !ESCS_decode_stream_cons.
      change (ESCS_decode_inline ESCS_ESC dest size (Ctrl 255 k) m)
        with (0, Ctrl ESCS_ESC k, m).
      cbv beta iota zeta. rewrite ESCS_decode_stream_cons.
      rewrite ESCS_decode_escaped by (done || lia).
      cbv beta iota zeta. by rewrite Hrest. }
    destruct (Z.eqb_spec c ESCS_ESC) as [->|He].
    { simpl app. rewrite !ESCS_decode_stream_cons.
      change (ESCS_decode_inline ESCS_ESC dest size (Ctrl 255 k) m)
        with (0, Ctrl ESCS_ESC k, m).
      cbv beta iota zeta. rewrite ESCS_decode_stream_cons.
      rewrite ESCS_decode_escaped by (done || lia).
      cbv beta iota zeta. by rewrite Hrest. }
    simpl app. rewrite ESCS_decode_stream_cons.
    rewrite ESCS_decode_plain by (done || lia).
    cbv beta iota zeta. by rewrite Hrest.
Qed.

(** A whole frame: the opening delimiter reports what an unfinished frame
    had left in the buffer, the closing one the length of the payload. *)
Lemma ESCS_decode_frame (p : list Z) (dest size : Z) (st : ctrl) (m : mem) :
  (0 < length p)%nat -> Z.of_nat (length p) <= size -> size <= 255 ->
  ESCS_decode_stream (ESCS_DEL :: escs_image p ++ [ESCS_DEL]) dest size st m =
  (count st :: repeat 0 (length (escs_image p)) ++ [Z.of_nat (length p)],
   Ctrl 255 0, store_bytes m dest p).
Proof.
  intros Hp Hsz H255. rewrite ESCS_decode_stream_cons.
  assert (ESCS_decode_inline ESCS_DEL dest size st m = (count st, Ctrl 255 0, m)) as ->.
  { unfold ESCS_decode_inline. simpl.
    destruct (Z.eqb_spec (count st) 0) as [->|]; simpl; [done|done]. }
  cbv beta iota zeta.
  rewrite ESCS_decode_stream_app, ESCS_decode_image by lia.
  cbv beta iota zeta. rewrite !Z.add_0_l, !Z.add_0_r.
  assert (ESCS_decode_inline ESCS_DEL dest size (Ctrl 255 (Z.of_nat (length p)))
            (store_bytes m dest p)
          = (Z.of_nat (length p), Ctrl 255 0, store_bytes m dest p)) as Hend.
  { unfold ESCS_decode_inline. simpl.
    by replace (Z.of_nat (length p) =? 0) with false
      by (symmetry; apply Z.eqb_neq; lia). }
  simpl ESCS_decode_stream. by rewrite Hend.
Qed.

(** X4.  [ESCS_encode] on a payload of [n] bytes at [src],
    with the destination starting at least [n + 1] bytes below the
    source (the two halves of a frame buffer): the destination holds a
    delimiter, the image of the payload and a delimiter; the image has no
    delimiter inside and between [n] and [2 n] bytes; the function returns
    the length of the frame; memory outside the frame is untouched. *)
Theorem ESCS_encode_frame (p : list Z) (m : mem) (src dest : Z) :
  load_bytes m src (length p) = p ->
  dest + 1 + Z.of_nat (length p) <= src ->
  Z.of_nat (length p) < 2147483647 ->
  exists (m' : mem) (body : list Z),
    ESCS_encode m src dest (Z.of_nat (length p))
      = (m', Z.of_nat (length body) + 2) /\
    load_bytes m' dest (length body + 2) = ESCS_DEL :: body ++ [ESCS_DEL] /\
    Forall (fun b => b <> ESCS_DEL) body /\
    (length p <= length body <= 2 * length p)%nat /\
    (forall x, x < dest \/ dest + Z.of_nat (length body) + 2 <= x -> m' x = m x).
Proof.
  intros Hl Hd Hn.
  destruct (ESCS_encode_spec p m src dest Hl Hd Hn) as (m' & He & Hf & Ho).
  exists m', (escs_image p). split; [done|]. split; [done|].
  split; [apply escs_image_no_delimiter|]. split; [apply escs_image_length|done].
Qed.

Lemma ESCS_encode_frame_witness :
  exists (m' : mem) (body : list Z),
    ESCS_encode (store_bytes zero_mem 100 [0x41; 0x7E; 0x7D; 0x42]) 100 0 4
      = (m', Z.of_nat (length body) + 2) /\
    load_bytes m' 0 (length body + 2) = ESCS_DEL :: body ++ [ESCS_DEL] /\
    Forall (fun b => b <> ESCS_DEL) body /\
    (4 <= length body <= 8)%nat /\
    (forall x, x < 0 \/ 0 + Z.of_nat (length body) + 2 <= x ->
               m' x = store_bytes zero_mem 100 [0x41; 0x7E; 0x7D; 0x42] x).
Proof.
  apply (ESCS_encode_frame [0x41; 0x7E; 0x7D; 0x42]
           (store_bytes zero_mem 100 [0x41; 0x7E; 0x7D; 0x42]) 100 0).
  - reflexivity.
  - simpl. lia.
  - simpl. lia.
Defined.

(** X5.  A payload of 1 to [size] bytes ([size] at most
    255), encoded by [ESCS_encode] and fed byte by byte to
    [ESCS_decode_inline]: the call for the closing delimiter returns the
    length of the payload, the destination holds the payload and the
    decoder is ready for the next frame.  The payload may hold any byte,
    the two reserved ones included. *)
Theorem ESCS_roundtrip (p : list Z) (m md : mem) (src enc dest size : Z) (st : ctrl) :
  (0 < length p)%nat -> Z.of_nat (length p) <= size -> size <= 255 ->
  load_bytes m src (length p) = p ->
  enc + 1 + Z.of_nat (length p) <= src ->
  exists (m' : mem) (n : Z) (rs : list Z) (md' : mem),
    ESCS_encode m src enc (Z.of_nat (length p)) = (m', n) /\
    ESCS_decode_stream (load_bytes m' enc (Z.to_nat n)) dest size st md
      = (rs, Ctrl 255 0, md') /\
    list.last rs = Some (Z.of_nat (length p)) /\
    load_bytes md' dest (length p) = p.
Proof.
  intros Hp Hsz H255 Hl Hd.
  destruct (ESCS_encode_spec p m src enc Hl Hd) as (m' & He & Hf & _); [lia|].
  eexists _, _, _, _. split; [exact He|].
  replace (Z.to_nat (Z.of_nat (length (escs_image p)) + 2))
    with (length (escs_image p) + 2)%nat by lia.
  rewrite Hf, ESCS_decode_frame by done.
  split; [done|]. split.
  - rewrite app_comm_cons. apply last_snoc.
  - apply load_store_bytes.
Qed.

Lemma ESCS_roundtrip_witness :
  exists (m' : mem) (n : Z) (rs : list Z) (md' : mem),
    ESCS_encode (store_bytes zero_mem 100 [0x41; 0x7E; 0x7D; 0x42]) 100 0 4 = (m', n) /\
    ESCS_decode_stream (load_bytes m' 0 (Z.to_nat n)) 200 16 ESCS_ctrl_init zero_mem
      = (rs, Ctrl 255 0, md') /\
    list.last rs = Some 4 /\
    load_bytes md' 200 4 = [0x41; 0x7E; 0x7D; 0x42].
Proof.
  apply (ESCS_roundtrip [0x41; 0x7E; 0x7D; 0x42]
           (store_bytes zero_mem 100 [0x41; 0x7E; 0x7D; 0x42]) zero_mem
           100 0 200 16 ESCS_ctrl_init).
  - simpl. lia.
  - simpl. lia.
  - lia.
  - reflexivity.
  - simpl. lia.
Defined.

End ESCS.

(** ** MessagePack serialization (msgpack/msgpack.c) *)

Module MsgPack.

(** Error codes of lasso_errno.h that the library returns. *)
Definition EIO : Z := 5.
Definition EINVAL : Z := 22.
Definition ENOTSUP : Z := 134.
Definition EILSEQ : Z := 138.

Definition PACK_TYPE_NIL : Z := 0xC0.
Definition PACK_TYPE_BOOLEAN_FALSE : Z := 0xC2.
Definition PACK_TYPE_BOOLEAN_TRUE : Z := 0xC3.
Definition PACK_TYPE_FIXNUM_POSITIVE : Z := 0x00.
Definition PACK_TYPE_UINT8 : Z := 0xCC.
Definition PACK_TYPE_UINT16 : Z := 0xCD.
Definition PACK_TYPE_UINT32 : Z := 0xCE.
Definition PACK_TYPE_UINT64 : Z := 0xCF.
Definition PACK_TYPE_FIXNUM_NEGATIVE : Z := 0xE0.
Definition PACK_TYPE_INT8 : Z := 0xD0.
Definition PACK_TYPE_INT16 : Z := 0xD1.
Definition PACK_TYPE_INT32 : Z := 0xD2.
Definition PACK_TYPE_INT64 : Z := 0xD3.
Definition PACK_TYPE_FLOAT : Z := 0xCA.
Definition PACK_TYPE_DOUBLE : Z := 0xCB.
Definition PACK_TYPE_RAW_FIX : Z := 0xA0.
Definition PACK_TYPE_RAW_8 : Z := 0xD9.
Definition PACK_TYPE_RAW_16 : Z := 0xDA.
Definition PACK_TYPE_RAW_32 : Z := 0xDB.
Definition PACK_TYPE_ARRAY_FIX : Z := 0x90.
Definition PACK_TYPE_ARRAY_16 : Z := 0xDC.
Definition PACK_TYPE_ARRAY_32 : Z := 0xDD.
Definition PACK_TYPE_MAP_FIX : Z := 0x80.
Definition PACK_TYPE_MAP_16 : Z := 0xDE.
Definition PACK_TYPE_MAP_32 : Z := 0xDF.

Definition PACK_TYPE_POSITIVE_FIXNUM_MAX : Z := 127.
Definition PACK_TYPE_NEGATIVE_FIXNUM_MIN : Z := -32.
Definition PACK_TYPE_NEGATIVE_FIXNUM_MAX : Z := -1.
Definition INT8_MIN : Z := -128.
Definition INT8_MAX : Z := 127.
Definition INT16_MIN : Z := -32768.
Definition INT16_MAX : Z := 32767.
Definition UINT8_MAX : Z := 255.
Definition UINT16_MAX : Z := 65535.

Inductive T_PackType : Type :=
  | E_PackTypeUnknown | E_PackTypeNil | E_PackTypeBoolean
  | E_PackTypeSignedInteger | E_PackTypeUnsignedInteger | E_PackTypeFloat
  | E_PackTypeRawBytes | E_PackTypeArray | E_PackTypeMap.

Definition T_PackType_eqb (a b : T_PackType) : bool :=
  match a, b with
  | E_PackTypeUnknown, E_PackTypeUnknown | E_PackTypeNil, E_PackTypeNil
  | E_PackTypeBoolean, E_PackTypeBoolean
  | E_PackTypeSignedInteger, E_PackTypeSignedInteger
  | E_PackTypeUnsignedInteger, E_PackTypeUnsignedInteger
  | E_PackTypeFloat, E_PackTypeFloat | E_PackTypeRawBytes, E_PackTypeRawBytes
  | E_PackTypeArray, E_PackTypeArray | E_PackTypeMap, E_PackTypeMap => true
  | _, _ => false
  end.

(** The reader and the writer: start and length of the buffer, and the
    cursor.  The fields of the writer carry a prefix. *)
Record S_PackReader : Type := PackReader {
  buffer_start : Z; buffer_len : Z; cursor : Z
}.
Record S_PackWriter : Type := PackWriter {
  w_buffer_start : Z; w_buffer_len : Z; w_cursor : Z
}.

(** Conversions to the signed types of C. *)
Definition s8 (x : Z) : Z := if u8 x <? 128 then u8 x else u8 x - 256.
Definition s16 (x : Z) : Z := if u16 x <? 32768 then u16 x else u16 x - 65536.
Definition s32 (x : Z) : Z :=
  if u32 x <? 2147483648 then u32 x else u32 x - 4294967296.

(** *** The reader *)

Definition PackReaderIsEmpty (reader : S_PackReader) (len : Z) : bool :=
  negb (u32 (cursor reader - buffer_start reader + len) <=? buffer_len reader).

Definition PackGetType (m : mem) (reader : S_PackReader) : T_PackType :=
  if PackReaderIsEmpty reader 1 then E_PackTypeUnknown
  else
    let type := m (cursor reader) in
    if type =? PACK_TYPE_NIL then E_PackTypeNil
    else if (type =? PACK_TYPE_BOOLEAN_FALSE) || (type =? PACK_TYPE_BOOLEAN_TRUE)
    then E_PackTypeBoolean
    else if (Z.land type 0x80 =? PACK_TYPE_FIXNUM_POSITIVE)
            || (type =? PACK_TYPE_UINT8) || (type =? PACK_TYPE_UINT16)
            || (type =? PACK_TYPE_UINT32) || (type =? PACK_TYPE_UINT64)
    then E_PackTypeUnsignedInteger
    else if (Z.land type 0xE0 =? PACK_TYPE_FIXNUM_NEGATIVE)
            || (type =? PACK_TYPE_INT8) || (type =? PACK_TYPE_INT16)
            || (type =? PACK_TYPE_INT32) || (type =? PACK_TYPE_INT64)
    then E_PackTypeSignedInteger
    else if (type =? PACK_TYPE_FLOAT) || (type =? PACK_TYPE_DOUBLE)
    then E_PackTypeFloat
    else if (Z.land type 0xE0 =? PACK_TYPE_RAW_FIX)
            || (type =? PACK_TYPE_RAW_16) || (type =? PACK_TYPE_RAW_32)
    then E_PackTypeRawBytes
    else if (Z.land type 0xF0 =? PACK_TYPE_ARRAY_FIX)
            || (type =? PACK_TYPE_ARRAY_16) || (type =? PACK_TYPE_ARRAY_32)
    then E_PackTypeArray
    else if (Z.land type 0xF0 =? PACK_TYPE_MAP_FIX)
            || (type =? PACK_TYPE_MAP_16) || (type =? PACK_TYPE_MAP_32)
    then E_PackTypeMap
    else E_PackTypeUnknown.

Definition PackReaderSetBuffer (buffer len : Z) : S_PackReader :=
  PackReader buffer len buffer.

Definition advance (n : Z) (reader : S_PackReader) : S_PackReader :=
  PackReader (buffer_start reader) (buffer_len reader) (cursor reader + n).

(** The big-endian values of two and of four bytes behind the type byte. *)
Definition be16 (m : mem) (reader : S_PackReader) : Z :=
  Z.lor (Z.shiftl (m (cursor reader + 1)) 8) (m (cursor reader + 2)).
Definition be32 (m : mem) (reader : S_PackReader) : Z :=
  Z.lor (Z.lor (Z.lor (Z.shiftl (m (cursor reader + 1)) 24)
                      (Z.shiftl (m (cursor reader + 2)) 16))
               (Z.shiftl (m (cursor reader + 3)) 8))
        (m (cursor reader + 4)).

(** The readers return the error code, the reader and the value stored
    through the output pointer ([None] where nothing is stored). *)
Definition PackReaderOpen (m : mem) (reader : S_PackReader) (type : T_PackType)
  : Z * S_PackReader * option Z :=
  if negb (T_PackType_eqb type E_PackTypeArray)
     && negb (T_PackType_eqb type E_PackTypeMap)
  then (EILSEQ, reader, None)
  else if negb (T_PackType_eqb type (PackGetType m reader))
  then (EINVAL, reader, None)
  else
    let hdr := m (cursor reader) in
    if ((Z.land hdr 0xF0 =? PACK_TYPE_ARRAY_FIX)
        || (Z.land hdr 0xF0 =? PACK_TYPE_MAP_FIX))
       && negb (PackReaderIsEmpty reader 1)
    then (0, advance 1 reader, Some (Z.land (m (cursor reader)) (Z.lnot 0xF0)))
    else if ((hdr =? PACK_TYPE_ARRAY_16) || (hdr =? PACK_TYPE_MAP_16))
            && negb (PackReaderIsEmpty reader 3)
    then (0, advance 3 reader, Some (be16 m reader))
    else if ((hdr =? PACK_TYPE_ARRAY_32) || (hdr =? PACK_TYPE_MAP_32))
            && negb (PackReaderIsEmpty reader 5)
    then (0, advance 5 reader, Some (be32 m reader))
    else (0, reader, Some 0).

Definition PackReaderIsNil (m : mem) (reader : S_PackReader)
  : Z * S_PackReader * option bool :=
  if PackReaderIsEmpty reader 1 then (EIO, reader, None)
  else if T_PackType_eqb (PackGetType m reader) E_PackTypeNil
  then (0, advance 1 reader, Some true)
  else (0, reader, Some false).

Definition PackReaderGetBoolean (m : mem) (reader : S_PackReader)
  : Z * S_PackReader * option bool :=
  if PackReaderIsEmpty reader 1 then (EIO, reader, None)
  else if negb (T_PackType_eqb (PackGetType m reader) E_PackTypeBoolean)
  then (EINVAL, reader, None)
  else (0, advance 1 reader, Some (m (cursor reader) =? PACK_TYPE_BOOLEAN_TRUE)).

Definition PackReaderGetSignedChar (m : mem) (reader : S_PackReader)
  : Z * S_PackReader * option Z :=
  if PackReaderIsEmpty reader 1 then (EIO, reader, None)
  else
    let type := m (cursor reader) in
    if (Z.land type 0x80 =? PACK_TYPE_FIXNUM_POSITIVE)
       || (Z.land type 0xE0 =? PACK_TYPE_FIXNUM_NEGATIVE)
    then (0, advance 1 reader, Some (s8 (m (cursor reader))))
    else if (type =? PACK_TYPE_INT8) && negb (PackReaderIsEmpty reader 2)
    then (0, advance 2 reader, Some (s8 (m (cursor reader + 1))))
    else (EINVAL, reader, None).

Definition PackReaderGetSignedShort (m : mem) (reader : S_PackReader)
  : Z * S_PackReader * option Z :=
  if PackReaderIsEmpty reader 1 then (EIO, reader, None)
  else if (m (cursor reader) =? PACK_TYPE_INT16) && negb (PackReaderIsEmpty reader 3)
  then (0, advance 3 reader, Some (s16 (be16 m reader)))
  else (EINVAL, reader, None).

Definition PackReaderGetSignedLong (m : mem) (reader : S_PackReader)
  : Z * S_PackReader * option Z :=
  if PackReaderIsEmpty reader 1 then (EIO, reader, None)
  else if (m (cursor reader) =? PACK_TYPE_INT32) && negb (PackReaderIsEmpty reader 5)
  then (0, advance 5 reader, Some (s32 (be32 m reader)))
  else (EINVAL, reader, None).

Definition PackReaderGetUnsignedChar (m : mem) (reader : S_PackReader)
  : Z * S_PackReader * option Z :=
  if PackReaderIsEmpty reader 1 then (EIO, reader, None)
  else
    let type := m (cursor reader) in
    if Z.land type 0x80 =? PACK_TYPE_FIXNUM_POSITIVE
    then (0, advance 1 reader, Some (m (cursor reader)))
    else if (type =? PACK_TYPE_UINT8) && negb (PackReaderIsEmpty reader 2)
    then (0, advance 2 reader, Some (m (cursor reader + 1)))
    else (EINVAL, reader, None).

Definition PackReaderGetUnsignedShort (m : mem) (reader : S_PackReader)
  : Z * S_PackReader * option Z :=
  if PackReaderIsEmpty reader 1 then (EIO, reader, None)
  else if (m (cursor reader) =? PACK_TYPE_UINT16) && negb (PackReaderIsEmpty reader 3)
  then (0, advance 3 reader, Some (u16 (be16 m reader)))
  else (EINVAL, reader, None).

Definition PackReaderGetUnsignedLong (m : mem) (reader : S_PackReader)
  : Z * S_PackReader * option Z :=
  if PackReaderIsEmpty reader 1 then (EIO, reader, None)
  else if (m (cursor reader) =? PACK_TYPE_UINT32) && negb (PackReaderIsEmpty reader 5)
  then (0, advance 5 reader, Some (u32 (be32 m reader)))
  else (EINVAL, reader, None).

Definition PackReaderGetUnsignedInteger (m : mem) (reader : S_PackReader)
  : Z * S_PackReader * option Z :=
  if PackReaderIsEmpty reader 1 then (EIO, reader, None)
  else if negb (T_PackType_eqb (PackGetType m reader) E_PackTypeUnsignedInteger)
  then (EINVAL, reader, None)
  else
    let type := m (cursor reader) in
    if Z.land type 0x80 =? PACK_TYPE_FIXNUM_POSITIVE
    then (0, advance 1 reader, Some (m (cursor reader)))
    else if (type =? PACK_TYPE_UINT8) && negb (PackReaderIsEmpty reader 2)
    then (0, advance 2 reader, Some (m (cursor reader + 1)))
    else if (type =? PACK_TYPE_UINT16) && negb (PackReaderIsEmpty reader 3)
    then (0, advance 3 reader, Some (u32 (be16 m reader)))
    else if (type =? PACK_TYPE_UINT32) && negb (PackReaderIsEmpty reader 5)
    then (0, advance 5 reader, Some (u32 (be32 m reader)))
    else if (type =? PACK_TYPE_UINT64) && negb (PackReaderIsEmpty reader 9)
    then (ENOTSUP, advance 9 reader, None)
    else (EINVAL, reader, None).

(** A value that is not of a signed type is read as an unsigned one and
    converted; the conversion of the sixteen-bit case does not extend the
    sign.  When the unsigned read fails, the code still stores its
    uninitialised [_value] through [value]: [None] stands for a value that
    the call does not determine. *)
Definition PackReaderGetSignedInteger (m : mem) (reader : S_PackReader)
  : Z * S_PackReader * option Z :=
  if PackReaderIsEmpty reader 1 then (EIO, reader, None)
  else if negb (T_PackType_eqb (PackGetType m reader) E_PackTypeSignedInteger)
  then
    let '(err, reader, value) := PackReaderGetUnsignedInteger m reader in
    (err, reader, match value with Some v => Some (s32 v) | None => None end)
  else
    let type := m (cursor reader) in
    if (Z.land type 0x80 =? PACK_TYPE_FIXNUM_POSITIVE)
       || (Z.land type 0xE0 =? PACK_TYPE_FIXNUM_NEGATIVE)
    then (0, advance 1 reader, Some (s8 (m (cursor reader))))
    else if (type =? PACK_TYPE_INT8) && negb (PackReaderIsEmpty reader 2)
    then (0, advance 2 reader, Some (s8 (m (cursor reader + 1))))
    else if (type =? PACK_TYPE_INT16) && negb (PackReaderIsEmpty reader 3)
    then (0, advance 3 reader, Some (s32 (be16 m reader)))
    else if (type =? PACK_TYPE_INT32) && negb (PackReaderIsEmpty reader 5)
    then (0, advance 5 reader, Some (s32 (be32 m reader)))
    else if (type =? PACK_TYPE_INT64) && negb (PackReaderIsEmpty reader 9)
    then (ENOTSUP, advance 9 reader, None)
    else (EINVAL, reader, None).

(** [memcpy (bytes, &reader->cursor[k], len)]. *)
Definition copy_out (m : mem) (reader : S_PackReader) (k bytes len : Z) : mem :=
  store_bytes m bytes (load_bytes m (cursor reader + k) (Z.to_nat len)).

Definition PackReaderGetRawBytes (m : mem) (reader : S_PackReader)
    (bytes max_len : Z) : Z * S_PackReader * option Z * mem :=
  if PackReaderIsEmpty reader 1 then (EIO, reader, None, m)
  else if negb (T_PackType_eqb (PackGetType m reader) E_PackTypeRawBytes)
  then (EINVAL, reader, None, m)
  else
    let type := m (cursor reader) in
    let body (k len : Z) :=
      if (len <=? max_len) && negb (PackReaderIsEmpty reader (u32 (len + k)))
      then (0, advance (u32 (len + k)) reader, Some len,
            copy_out m reader k bytes len)
      else (EIO, reader, None, m) in
    if Z.land type 0xE0 =? PACK_TYPE_RAW_FIX
    then body 1 (Z.land (m (cursor reader)) (Z.lnot 0xE0))
    else if (type =? PACK_TYPE_RAW_8) && negb (PackReaderIsEmpty reader 2)
    then body 2 (m (cursor reader + 1))
    else if (type =? PACK_TYPE_RAW_16) && negb (PackReaderIsEmpty reader 3)
    then body 3 (be16 m reader)
    else if (type =? PACK_TYPE_RAW_32) && negb (PackReaderIsEmpty reader 5)
    then body 5 (u32 (be32 m reader))
    else (EIO, reader, None, m).

Definition PackReaderGetString (m : mem) (reader : S_PackReader)
    (string max_len : Z) : Z * S_PackReader * option Z * mem :=
  match PackReaderGetRawBytes m reader string (u32 (max_len - 1)) with
  | (err, reader, Some _length, m) =>
      if negb (err =? 0) then (err, reader, None, m)
      else (0, reader, Some _length, store m (string + _length) 0)
  | (err, reader, None, m) => (err, reader, None, m)
  end.

(** *** The writer *)

Definition PackWriterSetBuffer (buffer max_len : Z) : S_PackWriter :=
  PackWriter buffer max_len buffer.

Definition PackWriterIsFull (writer : S_PackWriter) (len : Z) : bool :=
  negb (u32 (w_cursor writer - w_buffer_start writer + len) <=? w_buffer_len writer).

Definition w_advance (n : Z) (writer : S_PackWriter) : S_PackWriter :=
  PackWriter (w_buffer_start writer) (w_buffer_len writer) (w_cursor writer + n).

Definition PackWriterGetOffset (writer : S_PackWriter) : Z :=
  u32 (w_cursor writer - w_buffer_start writer).

(** The bytes [(x >> 24) & 0xFF], ..., [(x >> 0) & 0xFF]. *)
Definition byte_of (x i : Z) : Z := Z.land (Z.shiftr x (8 * i)) 0xFF.

(** The writers return the error code, the memory and the writer. *)
Definition PackWriterOpen (m : mem) (writer : S_PackWriter) (type : T_PackType)
    (nb_elem : Z) : Z * mem * S_PackWriter :=
  let c := w_cursor writer in
  let is_array := T_PackType_eqb type E_PackTypeArray in
  if negb is_array && negb (T_PackType_eqb type E_PackTypeMap)
  then (EILSEQ, m, writer)
  else if nb_elem <=? 0xF then
    if negb (PackWriterIsFull writer 1) then
      let hdr := if is_array then PACK_TYPE_ARRAY_FIX else PACK_TYPE_MAP_FIX in
      (0, store (store m c hdr) c (Z.lor hdr (u8 nb_elem)), w_advance 1 writer)
    else (EIO, m, writer)
  else if nb_elem <=? 0xFFFF then
    if negb (PackWriterIsFull writer 3) then
      (0, store_bytes m c [if is_array then PACK_TYPE_ARRAY_16 else PACK_TYPE_MAP_16;
                           byte_of nb_elem 1; byte_of nb_elem 0],
       w_advance 3 writer)
    else (EIO, m, writer)
  else
    if negb (PackWriterIsFull writer 5) then
      (0, store_bytes m c [if is_array then PACK_TYPE_ARRAY_32 else PACK_TYPE_MAP_32;
                           byte_of nb_elem 3; byte_of nb_elem 2;
                           byte_of nb_elem 1; byte_of nb_elem 0],
       w_advance 5 writer)
    else (EIO, m, writer).

Definition PackWriterPutNil (m : mem) (writer : S_PackWriter)
  : Z * mem * S_PackWriter :=
  if negb (PackWriterIsFull writer 1)
  then (0, store m (w_cursor writer) PACK_TYPE_NIL, w_advance 1 writer)
  else (EIO, m, writer).

Definition PackWriterPutBoolean (m : mem) (writer : S_PackWriter) (value : bool)
  : Z * mem * S_PackWriter :=
  if negb (PackWriterIsFull writer 1)
  then (0, store m (w_cursor writer)
             (if value then PACK_TYPE_BOOLEAN_TRUE else PACK_TYPE_BOOLEAN_FALSE),
        w_advance 1 writer)
  else (EIO, m, writer).

Definition PackWriterPutSignedInteger (m : mem) (writer : S_PackWriter) (value : Z)
  : Z * mem * S_PackWriter :=
  let c := w_cursor writer in
  if (value >=? PACK_TYPE_NEGATIVE_FIXNUM_MIN)
     && (value <=? PACK_TYPE_NEGATIVE_FIXNUM_MAX) then
    if negb (PackWriterIsFull writer 1)
    then (0, store m c (Z.lor PACK_TYPE_FIXNUM_NEGATIVE (u8 value)),
          w_advance 1 writer)
    else (EIO, m, writer)
  else if (value >=? INT8_MIN) && (value <=? INT8_MAX) then
    if negb (PackWriterIsFull writer 2)
    then (0, store_bytes m c [PACK_TYPE_INT8; u8 (Z.land value 0xFF)],
          w_advance 2 writer)
    else (EIO, m, writer)
  else if (value >=? INT16_MIN) && (value <=? INT16_MAX) then
    if negb (PackWriterIsFull writer 3)
    then (0, store_bytes m c [PACK_TYPE_INT16; byte_of value 1; byte_of value 0],
          w_advance 3 writer)
    else (EIO, m, writer)
  else
    if negb (PackWriterIsFull writer 5)
    then (0, store_bytes m c [PACK_TYPE_INT32; byte_of value 3; byte_of value 2;
                              byte_of value 1; byte_of value 0],
          w_advance 5 writer)
    else (EIO, m, writer).

Definition PackWriterPutUnsignedInteger (m : mem) (writer : S_PackWriter) (value : Z)
  : Z * mem * S_PackWriter :=
  let c := w_cursor writer in
  if value <=? PACK_TYPE_POSITIVE_FIXNUM_MAX then
    if negb (PackWriterIsFull writer 1)
    then (0, store m c (Z.lor PACK_TYPE_FIXNUM_POSITIVE (u8 value)),
          w_advance 1 writer)
    else (EIO, m, writer)
  else if value <=? UINT8_MAX then
    if negb (PackWriterIsFull writer 2)
    then (0, store_bytes m c [PACK_TYPE_UINT8; u8 (Z.land value 0xFF)],
          w_advance 2 writer)
    else (EIO, m, writer)
  else if value <=? UINT16_MAX then
    if negb (PackWriterIsFull writer 3)
    then (0, store_bytes m c [PACK_TYPE_UINT16; byte_of value 1; byte_of value 0],
          w_advance 3 writer)
    else (EIO, m, writer)
  else
    if negb (PackWriterIsFull writer 5)
    then (0, store_bytes m c [PACK_TYPE_UINT32; byte_of value 3; byte_of value 2;
                              byte_of value 1; byte_of value 0],
          w_advance 5 writer)
    else (EIO, m, writer).

(** [memcpy (&writer->cursor[k], raw, len)] behind the header [hdr]. *)
Definition copy_in (m : mem) (writer : S_PackWriter) (hdr : list Z) (raw len : Z)
  : mem :=
  store_bytes (store_bytes m (w_cursor writer) hdr)
    (w_cursor writer + Z.of_nat (length hdr)) (load_bytes
       (store_bytes m (w_cursor writer) hdr) raw (Z.to_nat len)).

Definition PackWriterPutRawBytes (m : mem) (writer : S_PackWriter) (raw len : Z)
  : Z * mem * S_PackWriter :=
  if len <=? 0x1F then
    if negb (PackWriterIsFull writer (u32 (len + 1)))
    then (0, copy_in m writer [Z.lor PACK_TYPE_RAW_FIX (u8 len)] raw len,
          w_advance (u32 (len + 1)) writer)
    else (EIO, m, writer)
  else if len <=? 0xFF then
    if negb (PackWriterIsFull writer (u32 (len + 3)))
    then (0, copy_in m writer [PACK_TYPE_RAW_8; u8 len] raw len,
          w_advance (u32 (len + 2)) writer)
    else (EIO, m, writer)
  else if len <=? 0xFFFF then
    if negb (PackWriterIsFull writer (u32 (len + 3)))
    then (0, copy_in m writer [PACK_TYPE_RAW_16; byte_of len 1; byte_of len 0] raw len,
          w_advance (u32 (len + 3)) writer)
    else (EIO, m, writer)
  else
    if negb (PackWriterIsFull writer (u32 (len + 5)))
    then (0, copy_in m writer [PACK_TYPE_RAW_32; byte_of len 3; byte_of len 2;
                               byte_of len 1; byte_of len 0] raw len,
          w_advance (u32 (len + 5)) writer)
    else (EIO, m, writer).

(** One call of the writer for an item of any kind. *)
Inductive pack_item : Type :=
  | ItemNil
  | ItemBoolean (value : bool)
  | ItemSigned (value : Z)
  | ItemUnsigned (value : Z)
  | ItemOpen (type : T_PackType) (nb_elem : Z)
  | ItemRaw (raw len : Z).

Definition PackWriterPut (it : pack_item) (m : mem) (writer : S_PackWriter)
  : Z * mem * S_PackWriter :=
  match it with
  | ItemNil => PackWriterPutNil m writer
  | ItemBoolean value => PackWriterPutBoolean m writer value
  | ItemSigned value => PackWriterPutSignedInteger m writer value
  | ItemUnsigned value => PackWriterPutUnsignedInteger m writer value
  | ItemOpen type nb_elem => PackWriterOpen m writer type nb_elem
  | ItemRaw raw len => PackWriterPutRawBytes m writer raw len
  end.

(** The cursor is inside the buffer, and the buffer is shorter than 2 GiB
    (the sums of a position and a length are computed in 32 bits). *)
Definition writer_ok (writer : S_PackWriter) : Prop :=
  0 <= w_cursor writer - w_buffer_start writer <= w_buffer_len writer /\
  w_buffer_len writer < 2147483648.

Definition reader_ok (reader : S_PackReader) : Prop :=
  0 <= cursor reader - buffer_start reader <= buffer_len reader /\
  buffer_len reader < 2147483648.

(** The reader that reads back what the writer appends. *)
Definition reader_at (writer : S_PackWriter) : S_PackReader :=
  PackReader (w_buffer_start writer) (w_buffer_len writer) (w_cursor writer).

(** *** Bounds *)

Lemma PackWriterIsFull_spec (writer : S_PackWriter) (len : Z) :
  writer_ok writer -> 0 <= len < 2147483648 ->
  (PackWriterIsFull writer len = false) <->
  (w_cursor writer - w_buffer_start writer + len <= w_buffer_len writer).
Proof.
  intros [H1 H2] Hl. unfold PackWriterIsFull, u32.
  rewrite Z.mod_small by lia. rewrite negb_false_iff. apply Z.leb_le.
Qed.

Lemma PackReaderIsEmpty_spec (reader : S_PackReader) (len : Z) :
  reader_ok reader -> 0 <= len < 2147483648 ->
  (PackReaderIsEmpty reader len = false) <->
  (cursor reader - buffer_start reader + len <= buffer_len reader).
Proof.
  intros [H1 H2] Hl. unfold PackReaderIsEmpty, u32.
  rewrite Z.mod_small by lia. rewrite negb_false_iff. apply Z.leb_le.
Qed.

Lemma writer_ok_advance (writer : S_PackWriter) (len : Z) :
  writer_ok writer -> 0 <= len < 2147483648 ->
  PackWriterIsFull writer len = false -> writer_ok (w_advance len writer).
Proof.
  intros Hok Hl Hf. apply PackWriterIsFull_spec in Hf; try done.
  destruct Hok as [H1 H2]. split; simpl; lia.
Qed.

Lemma reader_ok_advance (reader : S_PackReader) (len : Z) :
  reader_ok reader -> 0 <= len < 2147483648 ->
  PackReaderIsEmpty reader len = false -> reader_ok (advance len reader).
Proof.
  intros Hok Hl Hf. apply PackReaderIsEmpty_spec in Hf; try done.
  destruct Hok as [H1 H2]. split; simpl; lia.
Qed.

(** What an item needs besides room: the 32-bit sum of the room check,
    position plus length, does not wrap.  For the other items this follows
    from [writer_ok]; for raw bytes of the length [len] the largest sum is
    the one with the header of five bytes. *)
Definition item_fits (writer : S_PackWriter) (it : pack_item) : Prop :=
  match it with
  | ItemRaw _ len =>
      0 <= len /\
      w_cursor writer - w_buffer_start writer + len + 5 < 4294967296
  | _ => True
  end.

Lemma PackWriterIsFull_sum (writer : S_PackWriter) (len : Z) :
  writer_ok writer -> 0 <= len ->
  w_cursor writer - w_buffer_start writer + len < 4294967296 ->
  (PackWriterIsFull writer len = false) <->
  (w_cursor writer - w_buffer_start writer + len <= w_buffer_len writer).
Proof.
  intros [H1 H2] Hl Hs. unfold PackWriterIsFull, u32.
  rewrite Z.mod_small by lia. rewrite negb_false_iff. apply Z.leb_le.
Qed.

(** The outcome of a call of the writer: either the item is appended
    inside the buffer, at the cursor, or nothing changes. *)
Definition appended (m : mem) (writer : S_PackWriter)
    (r : Z * mem * S_PackWriter) : Prop :=
  let '(err, m', writer') := r in
  (err = 0 /\ writer_ok writer' /\
   w_buffer_start writer' = w_buffer_start writer /\
   w_buffer_len writer' = w_buffer_len writer /\
   w_cursor writer < w_cursor writer' /\
   (forall x, x < w_cursor writer \/ w_cursor writer' <= x -> m' x = m x)) \/
  (err <> 0 /\ m' = m /\ writer' = writer).

Lemma appended_region (m m' : mem) (writer : S_PackWriter) (k : Z) :
  writer_ok writer -> 0 < k < 2147483648 ->
  w_cursor writer - w_buffer_start writer + k <= w_buffer_len writer ->
  (forall x, x < w_cursor writer \/ w_cursor writer + k <= x -> m' x = m x) ->
  appended m writer (0, m', w_advance k writer).
Proof.
  intros Hok Hk Hf Hm. left. split; [done|].
  split; [destruct Hok; split; simpl; lia|].
  split; [done|]. split; [done|]. split; [simpl; lia|done].
Qed.

Lemma appended_bytes (m : mem) (writer : S_PackWriter) (l : list Z) :
  writer_ok writer -> (0 < length l < 16)%nat ->
  PackWriterIsFull writer (Z.of_nat (length l)) = false ->
  appended m writer
    (0, store_bytes m (w_cursor writer) l, w_advance (Z.of_nat (length l)) writer).
Proof.
  intros Hok Hl Hf. apply PackWriterIsFull_spec in Hf; [|done|lia].
  apply appended_region; [done|lia|done|].
  intros x Hx. apply store_bytes_outside. lia.
Qed.

Lemma appended_raw (m : mem) (writer : S_PackWriter) (hdr : list Z)
    (raw len room k : Z) :
  writer_ok writer -> 0 <= len ->
  w_cursor writer - w_buffer_start writer + room < 4294967296 ->
  PackWriterIsFull writer room = false ->
  (0 < length hdr < 16)%nat -> k = Z.of_nat (length hdr) + len ->
  k <= room ->
  appended m writer (0, copy_in m writer hdr raw len, w_advance k writer).
Proof.
  intros Hok Hl Hs Hf Hh -> Hr. apply PackWriterIsFull_sum in Hf; [|done|lia|done].
  pose proof Hok as [Ho1 Ho2].
  apply appended_region; [done|lia|lia|].
  intros x Hx. unfold copy_in.
  rewrite store_bytes_outside by (rewrite load_bytes_length; lia).
  apply store_bytes_outside. lia.
Qed.

(** X6.  With the cursor inside a buffer shorter than 2 GiB, every call
    of the writer ([PackWriterPutNil], [PackWriterPutBoolean],
    [PackWriterPutSignedInteger], [PackWriterPutUnsignedInteger],
    [PackWriterOpen], and [PackWriterPutRawBytes] for a length [len] with
    position + [len] + 5 below 2^32, so that the 32-bit sum of the room
    check does not wrap) either returns 0, having written the item at the
    cursor and moved the cursor behind it, inside the buffer, or returns
    an error and changes neither the memory nor the writer. *)
Theorem PackWriter_in_bounds (it : pack_item) (m : mem) (writer : S_PackWriter) :
  writer_ok writer -> item_fits writer it ->
  appended m writer (PackWriterPut it m writer).
Proof.
  intros Hok Hit. destruct it as [|b|v|v|t n|raw len]; simpl PackWriterPut.
  - unfold PackWriterPutNil.
    destruct (PackWriterIsFull writer 1) eqn:Hf; simpl negb; cbv iota; [by right|].
    exact (appended_bytes m writer [PACK_TYPE_NIL] Hok ltac:(simpl; lia) Hf).
  - unfold PackWriterPutBoolean.
    destruct (PackWriterIsFull writer 1) eqn:Hf; simpl negb; cbv iota; [by right|].
    exact (appended_bytes m writer [_] Hok ltac:(simpl; lia) Hf).
  - unfold PackWriterPutSignedInteger. cbv zeta.
    repeat match goal with
    | |- context [if ?c && ?d then _ else _] => destruct (c && d)
    end;
    match goal with
    | |- context [PackWriterIsFull writer ?k] =>
        destruct (PackWriterIsFull writer k) eqn:Hf; simpl negb; cbv iota; [by right|]
    end.
    + exact (appended_bytes m writer [_] Hok ltac:(simpl; lia) Hf).
    + exact (appended_bytes m writer [_; _] Hok ltac:(simpl; lia) Hf).
    + exact (appended_bytes m writer [_; _; _] Hok ltac:(simpl; lia) Hf).
    + exact (appended_bytes m writer [_; _; _; _; _] Hok ltac:(simpl; lia) Hf).
  - unfold PackWriterPutUnsignedInteger. cbv zeta.
    repeat match goal with
    | |- context [if ?c <=? ?d then _ else _] => destruct (c <=? d)
    end;
    match goal with
    | |- context [PackWriterIsFull writer ?k] =>
        destruct (PackWriterIsFull writer k) eqn:Hf; simpl negb; cbv iota; [by right|]
    end.
    + exact (appended_bytes m writer [_] Hok ltac:(simpl; lia) Hf).
    + exact (appended_bytes m writer [_; _] Hok ltac:(simpl; lia) Hf).
    + exact (appended_bytes m writer [_; _; _] Hok ltac:(simpl; lia) Hf).
    + exact (appended_bytes m writer [_; _; _; _; _] Hok ltac:(simpl; lia) Hf).
  - unfold PackWriterOpen. cbv zeta.
    destruct (negb (T_PackType_eqb t E_PackTypeArray)
              && negb (T_PackType_eqb t E_PackTypeMap)); [by right|].
    repeat match goal with
    | |- context [if ?c <=? ?d then _ else _] => destruct (c <=? d)
    end;
    match goal with
    | |- context [PackWriterIsFull writer ?k] =>
        destruct (PackWriterIsFull writer k) eqn:Hf; simpl negb; cbv iota; [by right|]
    end.
    + apply PackWriterIsFull_spec in Hf; [|done|lia].
      apply appended_region; [done|lia|done|].
      intros x Hx. by rewrite !store_ne by lia.
    + exact (appended_bytes m writer [_; _; _] Hok ltac:(simpl; lia) Hf).
    + exact (appended_bytes m writer [_; _; _; _; _] Hok ltac:(simpl; lia) Hf).
  - simpl in Hit. destruct Hit as [Hl Hs]. pose proof Hok as [Ho1 Ho2].
    unfold PackWriterPutRawBytes.
    assert (forall k, 0 <= k <= 5 -> u32 (len + k) = len + k) as Hu
      by (intros k Hk; unfold u32; apply Z.mod_small; lia).
    rewrite !Hu by lia.
    repeat match goal with
    | |- context [if ?c <=? ?d then _ else _] => destruct (c <=? d)
    end;
    match goal with
    | |- context [PackWriterIsFull writer ?k] =>
        destruct (PackWriterIsFull writer k) eqn:Hf; simpl negb; cbv iota; [by right|]
    end.
    + apply (appended_raw m writer _ raw len (len + 1) _ Hok Hl ltac:(lia) Hf);
        simpl; lia.
    + apply (appended_raw m writer _ raw len (len + 3) _ Hok Hl ltac:(lia) Hf);
        simpl; lia.
    + apply (appended_raw m writer _ raw len (len + 3) _ Hok Hl ltac:(lia) Hf);
        simpl; lia.
    + apply (appended_raw m writer _ raw len (len + 5) _ Hok Hl ltac:(lia) Hf);
        simpl; lia.
Qed.

(** *** Bytes and bits *)

(** A property of the values of a range, checked on each of them. *)
Fixpoint all_below (P : Z -> bool) (lo : Z) (n : nat) : bool :=
  match n with
  | O => true
  | S k => P (lo + Z.of_nat k) && all_below P lo k
  end.

Lemma range_check (P : Z -> bool) (lo : Z) (n : nat) :
  all_below P lo n = true ->
  forall v, lo <= v < lo + Z.of_nat n -> P v = true.
Proof.
  induction n as [|k IH]; intros H v Hv; [lia|].
  simpl in H. apply andb_prop in H as [H1 H2].
  destruct (Z.eq_dec v (lo + Z.of_nat k)) as [->|Hne]; [done|].
  apply IH; [done|lia].
Qed.

Lemma byte_of_0 (x : Z) : byte_of x 0 = x mod 256.
Proof.
  unfold byte_of. change (8 * 0) with 0. rewrite Z.shiftr_0_r.
  change 255 with (Z.ones 8). by rewrite Z.land_ones by lia.
Qed.

Lemma byte_of_range (x i : Z) : 0 <= byte_of x i < 256.
Proof.
  unfold byte_of. change 255 with (Z.ones 8). rewrite Z.land_ones by lia.
  apply Z.mod_pos_bound. lia.
Qed.

Lemma be16_bytes (x : Z) :
  Z.lor (Z.shiftl (byte_of x 1) 8) (byte_of x 0) = x mod 65536.
Proof.
  unfold byte_of. change 65536 with (2 ^ 16). rewrite <- Z.land_ones by lia.
  change 255 with (Z.ones 8). Z.bitblast.
Qed.

Lemma be32_bytes (x : Z) :
  Z.lor (Z.lor (Z.lor (Z.shiftl (byte_of x 3) 24) (Z.shiftl (byte_of x 2) 16))
               (Z.shiftl (byte_of x 1) 8))
        (byte_of x 0) = x mod 4294967296.
Proof.
  unfold byte_of. change 4294967296 with (2 ^ 32). rewrite <- Z.land_ones by lia.
  change 255 with (Z.ones 8). Z.bitblast.
Qed.

(** Reading what [store_bytes] has written. *)
Lemma store_bytes_head (m : mem) (a b : Z) (t : list Z) :
  store_bytes m a (b :: t) a = b.
Proof. simpl. rewrite store_bytes_outside by lia. apply store_eq. Qed.

Lemma store_bytes_nth (m : mem) (a : Z) (l : list Z) (k : Z) :
  0 <= k < Z.of_nat (length l) ->
  store_bytes m a l (a + k) = nth (Z.to_nat k) l 0.
Proof.
  revert m a k. induction l as [|b t IH]; intros m a k Hk; simpl in *; [lia|].
  destruct (Z.eq_dec k 0) as [->|Hne].
  - rewrite Z.add_0_r, store_bytes_outside by lia. apply store_eq.
  - replace (a + k) with (a + 1 + (k - 1)) by lia. rewrite IH by lia.
    replace (Z.to_nat k) with (S (Z.to_nat (k - 1))) by lia. done.
Qed.

(** The reader at the place of the writer sees the room the writer saw. *)
Lemma reader_at_empty (writer : S_PackWriter) (k : Z) :
  PackReaderIsEmpty (reader_at writer) k = PackWriterIsFull writer k.
Proof. done. Qed.

Lemma reader_at_advance (writer : S_PackWriter) (k : Z) :
  advance k (reader_at writer) = reader_at (w_advance k writer).
Proof. done. Qed.

Lemma PackWriterIsFull_less (writer : S_PackWriter) (k j : Z) :
  writer_ok writer -> 0 <= j <= k -> k < 2147483648 ->
  PackWriterIsFull writer k = false -> PackWriterIsFull writer j = false.
Proof.
  intros Hok Hj Hk Hf. apply PackWriterIsFull_spec in Hf; [|done|lia].
  apply PackWriterIsFull_spec; [done|lia|lia].
Qed.

(** What [PackGetType] answers for a type byte. *)
Definition type_of_byte (type : Z) : T_PackType :=
  PackGetType (fun _ => type) (PackReader 0 1 0).

Lemma PackGetType_byte (m : mem) (reader : S_PackReader) :
  PackReaderIsEmpty reader 1 = false ->
  PackGetType m reader = type_of_byte (m (cursor reader)).
Proof. intros H. unfold PackGetType, type_of_byte. by rewrite H. Qed.

Lemma type_of_fixnum (v : Z) :
  0 <= v < 128 -> type_of_byte v = E_PackTypeUnsignedInteger /\ Z.land v 0x80 = 0.
Proof.
  intros H.
  pose proof (range_check
    (fun v => T_PackType_eqb (type_of_byte v) E_PackTypeUnsignedInteger
              && (Z.land v 0x80 =? 0)) 0 128 eq_refl v H) as Hc.
  apply andb_prop in Hc as [H1 H2]. apply Z.eqb_eq in H2. split; [|done].
  by destruct (type_of_byte v).
Qed.

(** *** Round trips *)

(** The type byte under the reader at the place of the writer. *)
Lemma written_type (m : mem) (writer : S_PackWriter) (k : Z) :
  writer_ok writer -> PackWriterIsFull writer k = false -> 1 <= k < 2147483648 ->
  PackReaderIsEmpty (reader_at writer) 1 = false /\
  PackGetType m (reader_at writer) = type_of_byte (m (w_cursor writer)).
Proof.
  intros Hok Hf Hk.
  assert (PackReaderIsEmpty (reader_at writer) 1 = false) as He.
  { rewrite reader_at_empty. eapply PackWriterIsFull_less; try exact Hf; (done || lia). }
  split; [done|]. by rewrite PackGetType_byte.
Qed.

Lemma store_same (m : mem) (a v x : Z) : x = a -> store m a v x = v.
Proof. intros ->. apply store_eq. Qed.

(** A byte of a list stored at the cursor. *)
Ltac byte_at :=
  cbn [store_bytes]; repeat (rewrite store_ne by lia); apply store_same; lia.

(** X7.  An unsigned 32-bit value written by
    [PackWriterPutUnsignedInteger] is read back by
    [PackReaderGetUnsignedInteger]: the reader returns 0 and the value and
    stops where the writer stopped.  The value takes 1, 2, 3 or 5
    bytes. *)
Theorem PackUnsignedInteger_roundtrip (value : Z) (m m' : mem)
    (writer writer' : S_PackWriter) :
  writer_ok writer -> 0 <= value < 4294967296 ->
  PackWriterPutUnsignedInteger m writer value = (0, m', writer') ->
  PackReaderGetUnsignedInteger m' (reader_at writer)
    = (0, reader_at writer', Some value) /\
  w_cursor writer' - w_cursor writer
    = (if value <=? 127 then 1 else if value <=? 255 then 2
       else if value <=? 65535 then 3 else 5).
Proof.
  intros Hok Hv. unfold PackWriterPutUnsignedInteger. cbv zeta.
  unfold PACK_TYPE_POSITIVE_FIXNUM_MAX, UINT8_MAX, UINT16_MAX.
  destruct (Z.leb_spec value 127) as [H1|H1];
    [|destruct (Z.leb_spec value 255) as [H2|H2];
      [|destruct (Z.leb_spec value 65535) as [H3|H3]]];
    match goal with
    | |- context [PackWriterIsFull writer ?k] =>
        destruct (PackWriterIsFull writer k) eqn:Hf; simpl negb; cbv iota;
        [intros [=]|intros [= <- <-]]
    end;
    (split; [|simpl; lia]).
  - (* positive fixnum *)
    assert (Z.lor PACK_TYPE_FIXNUM_POSITIVE (u8 value) = value) as ->.
    { unfold u8. rewrite Z.mod_small by lia. apply Z.lor_0_l. }
    destruct (type_of_fixnum value) as [Ht Hb]; [lia|].
    destruct (written_type (store m (w_cursor writer) value) writer 1 Hok Hf)
      as [He Hty]; [lia|].
    unfold PackReaderGetUnsignedInteger. rewrite He, Hty. cbn [cursor reader_at].
    rewrite store_eq, Ht, Hb. done.
  - (* 8 bits *)
    assert (u8 (Z.land value 255) = value) as ->.
    { change 255 with (Z.ones 8). rewrite Z.land_ones by lia.
      unfold u8. rewrite Z.mod_mod by lia. apply Z.mod_small. lia. }
    match goal with |- context [PackReaderGetUnsignedInteger ?mm _] =>
      destruct (written_type mm writer 2 Hok Hf) as [He Hty]; [lia|];
      assert (mm (w_cursor writer) = PACK_TYPE_UINT8) as E0 by byte_at;
      assert (mm (w_cursor writer + 1) = value) as E1 by byte_at;
      rewrite E0 in Hty; generalize dependent mm; intros m1 Hty E0 E1
    end.
    unfold PackReaderGetUnsignedInteger.
    rewrite He, Hty, !reader_at_empty, Hf. cbn [cursor reader_at].
    by rewrite E0, E1.
  - (* 16 bits *)
    match goal with |- context [PackReaderGetUnsignedInteger ?mm _] =>
      destruct (written_type mm writer 3 Hok Hf) as [He Hty]; [lia|];
      assert (mm (w_cursor writer) = PACK_TYPE_UINT16) as E0 by byte_at;
      assert (mm (w_cursor writer + 1) = byte_of value 1) as E1 by byte_at;
      assert (mm (w_cursor writer + 2) = byte_of value 0) as E2 by byte_at;
      rewrite E0 in Hty; generalize dependent mm; intros m1 Hty E0 E1 E2
    end.
    unfold PackReaderGetUnsignedInteger.
    rewrite He, Hty, !reader_at_empty, Hf. unfold be16. cbn [cursor reader_at].
    rewrite E0, E1, E2, be16_bytes.
    rewrite (Z.mod_small value 65536) by lia. unfold u32.
    rewrite (Z.mod_small value) by lia. done.
  - (* 32 bits *)
    match goal with |- context [PackReaderGetUnsignedInteger ?mm _] =>
      destruct (written_type mm writer 5 Hok Hf) as [He Hty]; [lia|];
      assert (mm (w_cursor writer) = PACK_TYPE_UINT32) as E0 by byte_at;
      assert (mm (w_cursor writer + 1) = byte_of value 3) as E1 by byte_at;
      assert (mm (w_cursor writer + 2) = byte_of value 2) as E2 by byte_at;
      assert (mm (w_cursor writer + 3) = byte_of value 1) as E3 by byte_at;
      assert (mm (w_cursor writer + 4) = byte_of value 0) as E4 by byte_at;
      rewrite E0 in Hty; generalize dependent mm; intros m1 Hty E0 E1 E2 E3 E4
    end.
    unfold PackReaderGetUnsignedInteger.
    rewrite He, Hty, !reader_at_empty, Hf. unfold be32. cbn [cursor reader_at].
    rewrite E0, E1, E2, E3, E4, be32_bytes.
    unfold u32. rewrite !(Z.mod_small value 4294967296) by lia. done.
Qed.

Lemma s32_small (x : Z) : 0 <= x < 2147483648 -> s32 x = x.
Proof.
  intros H. unfold s32, u32. rewrite Z.mod_small by lia.
  by replace (x <? 2147483648) with true by (symmetry; apply Z.ltb_lt; lia).
Qed.

Lemma s32_mod (x : Z) : -2147483648 <= x < 2147483648 -> s32 (x mod 4294967296) = x.
Proof.
  intros H. unfold s32, u32. rewrite Z.mod_mod by lia.
  destruct (Z.ltb_spec (x mod 4294967296) 2147483648);
    Z.to_euclidean_division_equations; lia.
Qed.

Lemma s8_byte (x : Z) : -128 <= x < 128 -> s8 (u8 (Z.land x 0xFF)) = x.
Proof.
  intros H. apply Z.eqb_eq.
  apply (range_check (fun v => s8 (u8 (Z.land v 0xFF)) =? v) (-128) 256 eq_refl).
  lia.
Qed.

(** X8.  A signed 32-bit value written by
    [PackWriterPutSignedInteger] and read by [PackReaderGetSignedInteger]:
    the reader returns 0 and stops where the writer stopped.  The value
    read is the value written, except for the values from -32768 to -129,
    which are written in 16 bits and read back without their sign, 65536
    too large. *)
Theorem PackSignedInteger_roundtrip (value : Z) (m m' : mem)
    (writer writer' : S_PackWriter) :
  writer_ok writer -> -2147483648 <= value < 2147483648 ->
  PackWriterPutSignedInteger m writer value = (0, m', writer') ->
  PackReaderGetSignedInteger m' (reader_at writer)
    = (0, reader_at writer',
       Some (if (-32768 <=? value) && (value <? -128) then value + 65536 else value)).
Proof.
  intros Hok Hv. unfold PackWriterPutSignedInteger. cbv zeta.
  unfold PACK_TYPE_NEGATIVE_FIXNUM_MIN, PACK_TYPE_NEGATIVE_FIXNUM_MAX,
    INT8_MIN, INT8_MAX, INT16_MIN, INT16_MAX.
  destruct (Z.geb_spec value (-32)) as [H1|H1], (Z.leb_spec value (-1)) as [H1'|H1'];
    cbn [andb];
    try (destruct (Z.geb_spec value (-128)) as [H2|H2],
                  (Z.leb_spec value 127) as [H2'|H2']; cbn [andb]);
    try (destruct (Z.geb_spec value (-32768)) as [H3|H3],
                  (Z.leb_spec value 32767) as [H3'|H3']; cbn [andb]);
    try lia;
    match goal with
    | |- context [PackWriterIsFull writer ?k] =>
        destruct (PackWriterIsFull writer k) eqn:Hf; simpl negb; cbv iota;
        [intros [=]|intros [= <- <-]]
    end;
    match goal with
    | |- context [if ?c then value + 65536 else value] =>
        let E := fresh "E" in
        destruct c eqn:E;
        [ apply andb_prop in E as [?%Z.leb_le ?%Z.ltb_lt]
        | apply andb_false_iff in E as [?%Z.leb_gt|?%Z.ltb_ge] ]; try lia
    end.
  all: match goal with |- context [PackReaderGetSignedInteger ?mm _] =>
      first [ destruct (written_type mm writer 1 Hok Hf) as [He Hty]; [lia|]
            | destruct (written_type mm writer 2 Hok Hf) as [He Hty]; [lia|]
            | destruct (written_type mm writer 3 Hok Hf) as [He Hty]; [lia|]
            | destruct (written_type mm writer 5 Hok Hf) as [He Hty]; [lia|] ]
    end.
  1: { (* negative fixnum *)
    pose proof (range_check
      (fun v => (Z.lor PACK_TYPE_FIXNUM_NEGATIVE (u8 v) =? v + 256)
                && T_PackType_eqb (type_of_byte (v + 256)) E_PackTypeSignedInteger
                && (Z.land (v + 256) 0xE0 =? PACK_TYPE_FIXNUM_NEGATIVE)
                && (s8 (v + 256) =? v)) (-32) 32 eq_refl value) as Hc.
    specialize (Hc ltac:(lia)).
    apply andb_prop in Hc as [Hc Hs]. apply andb_prop in Hc as [Hc Hl].
    apply andb_prop in Hc as [Hb Ht].
    apply Z.eqb_eq in Hb, Hl, Hs.
    rewrite Hb in *. cbn [cursor reader_at] in Hty. rewrite store_eq in Hty.
    unfold PackReaderGetSignedInteger. rewrite He, Hty. cbn [cursor reader_at].
    rewrite store_eq, Hl, Hs.
    destruct (type_of_byte (value + 256)); try done.
    cbn. by rewrite orb_true_r. }
  all: match goal with |- context [PackReaderGetSignedInteger ?mm _] =>
      first
      [ assert (mm (w_cursor writer) = PACK_TYPE_INT8) as E0 by byte_at;
        assert (mm (w_cursor writer + 1) = u8 (Z.land value 0xFF)) as E1 by byte_at;
        rewrite E0 in Hty; generalize dependent mm; intros m1 Hty E0 E1
      | assert (mm (w_cursor writer) = PACK_TYPE_INT16) as E0 by byte_at;
        assert (mm (w_cursor writer + 1) = byte_of value 1) as E1 by byte_at;
        assert (mm (w_cursor writer + 2) = byte_of value 0) as E2 by byte_at;
        rewrite E0 in Hty; generalize dependent mm; intros m1 Hty E0 E1 E2
      | assert (mm (w_cursor writer) = PACK_TYPE_INT32) as E0 by byte_at;
        assert (mm (w_cursor writer + 1) = byte_of value 3) as E1 by byte_at;
        assert (mm (w_cursor writer + 2) = byte_of value 2) as E2 by byte_at;
        assert (mm (w_cursor writer + 3) = byte_of value 1) as E3 by byte_at;
        assert (mm (w_cursor writer + 4) = byte_of value 0) as E4 by byte_at;
        rewrite E0 in Hty; generalize dependent mm; intros m1 Hty E0 E1 E2 E3 E4 ]
    end;
    unfold PackReaderGetSignedInteger;
    rewrite He, Hty, !reader_at_empty, Hf; unfold be16, be32; cbn [cursor reader_at];
    rewrite ?E0, ?E1, ?E2, ?E3, ?E4, ?be16_bytes, ?be32_bytes;
    change (negb (T_PackType_eqb (type_of_byte PACK_TYPE_INT8) E_PackTypeSignedInteger)) with false;
    change (negb (T_PackType_eqb (type_of_byte PACK_TYPE_INT16) E_PackTypeSignedInteger)) with false;
    change (negb (T_PackType_eqb (type_of_byte PACK_TYPE_INT32) E_PackTypeSignedInteger)) with false;
    cbv iota; cbn [negb andb orb].
  - rewrite (s8_byte value) by lia. done.
  - rewrite Z.mod_small, s32_small by lia. done.
  - rewrite s32_mod by lia. done.
  - rewrite (s8_byte value) by lia. done.
  - replace (value mod 65536) with (value + 65536)
      by (Z.to_euclidean_division_equations; lia).
    rewrite s32_small by lia. done.
  - rewrite s32_mod by lia. done.
Qed.

Lemma fix_header (hdr : Z) (type : T_PackType) (nb_elem : Z) :
  (hdr = PACK_TYPE_ARRAY_FIX /\ type = E_PackTypeArray) \/
  (hdr = PACK_TYPE_MAP_FIX /\ type = E_PackTypeMap) ->
  0 <= nb_elem < 16 ->
  let b := Z.lor hdr (u8 nb_elem) in
  type_of_byte b = type /\
  ((Z.land b 0xF0 =? PACK_TYPE_ARRAY_FIX) || (Z.land b 0xF0 =? PACK_TYPE_MAP_FIX)) = true /\
  Z.land b (Z.lnot 0xF0) = nb_elem.
Proof.
  intros [[-> ->]|[-> ->]] Hn b; subst b.
  - pose proof (range_check
      (fun v => let b := Z.lor PACK_TYPE_ARRAY_FIX (u8 v) in
                T_PackType_eqb (type_of_byte b) E_PackTypeArray
                && ((Z.land b 0xF0 =? PACK_TYPE_ARRAY_FIX)
                    || (Z.land b 0xF0 =? PACK_TYPE_MAP_FIX))
                && (Z.land b (Z.lnot 0xF0) =? v)) 0 16 eq_refl nb_elem Hn) as Hc.
    cbv zeta in Hc. apply andb_prop in Hc as [Hc H3]. apply andb_prop in Hc as [H1 H2].
    apply Z.eqb_eq in H3. split; [|done].
    by destruct (type_of_byte _).
  - pose proof (range_check
      (fun v => let b := Z.lor PACK_TYPE_MAP_FIX (u8 v) in
                T_PackType_eqb (type_of_byte b) E_PackTypeMap
                && ((Z.land b 0xF0 =? PACK_TYPE_ARRAY_FIX)
                    || (Z.land b 0xF0 =? PACK_TYPE_MAP_FIX))
                && (Z.land b (Z.lnot 0xF0) =? v)) 0 16 eq_refl nb_elem Hn) as Hc.
    cbv zeta in Hc. apply andb_prop in Hc as [Hc H3]. apply andb_prop in Hc as [H1 H2].
    apply Z.eqb_eq in H3. split; [|done].
    by destruct (type_of_byte _).
Qed.

(** X9.  The header of an array or of a map written by
    [PackWriterOpen] is read back by [PackReaderOpen] called for the same
    type: the reader returns 0 and the number of elements and stops where
    the writer stopped. *)
Theorem PackOpen_roundtrip (type : T_PackType) (nb_elem : Z) (m m' : mem)
    (writer writer' : S_PackWriter) :
  writer_ok writer -> 0 <= nb_elem < 4294967296 ->
  PackWriterOpen m writer type nb_elem = (0, m', writer') ->
  PackReaderOpen m' (reader_at writer) type = (0, reader_at writer', Some nb_elem).
Proof.
  intros Hok Hn. unfold PackWriterOpen. cbv zeta.
  assert (type = E_PackTypeArray \/ type = E_PackTypeMap \/
          negb (T_PackType_eqb type E_PackTypeArray)
          && negb (T_PackType_eqb type E_PackTypeMap) = true) as [-> | [-> | ->]]
    by (destruct type; auto);
    [| |intros [=]]; cbn [T_PackType_eqb negb andb].
  all: destruct (Z.leb_spec nb_elem 15) as [H1|H1];
    [|destruct (Z.leb_spec nb_elem 65535) as [H2|H2]];
    match goal with
    | |- context [PackWriterIsFull _ ?k] =>
        destruct (PackWriterIsFull writer k) eqn:Hf; simpl negb; cbv iota;
        [intros [=]|intros [= <- <-]]
    end.
  all: match goal with |- context [PackReaderOpen ?mm _] =>
      first [ destruct (written_type mm writer 1 Hok Hf) as [He Hty]; [lia|]
            | destruct (written_type mm writer 3 Hok Hf) as [He Hty]; [lia|]
            | destruct (written_type mm writer 5 Hok Hf) as [He Hty]; [lia|] ]
    end.
  - destruct (fix_header PACK_TYPE_ARRAY_FIX E_PackTypeArray nb_elem) as (Ht & Hb & Hl); [auto|lia|].
    match goal with |- context [PackReaderOpen ?mm _] =>
      assert (mm (w_cursor writer) = Z.lor PACK_TYPE_ARRAY_FIX (u8 nb_elem)) as E0
        by apply store_eq;
      rewrite E0 in Hty; generalize dependent mm; intros m1 Hty E0
    end.
    unfold PackReaderOpen. rewrite He, Hty, Ht. cbn [cursor reader_at].
    rewrite E0, Hb, Hl. done.
  - match goal with |- context [PackReaderOpen ?mm _] =>
      assert (mm (w_cursor writer) = PACK_TYPE_ARRAY_16) as E0 by byte_at;
      assert (mm (w_cursor writer + 1) = byte_of nb_elem 1) as E1 by byte_at;
      assert (mm (w_cursor writer + 2) = byte_of nb_elem 0) as E2 by byte_at;
      rewrite E0 in Hty; generalize dependent mm; intros m1 Hty E0 E1 E2
    end.
    unfold PackReaderOpen. rewrite Hty, !reader_at_empty, Hf.
    unfold be16, be32. cbn [cursor reader_at].
    rewrite E0, E1, E2, be16_bytes.
    rewrite Z.mod_small by lia. done.
  - match goal with |- context [PackReaderOpen ?mm _] =>
      assert (mm (w_cursor writer) = PACK_TYPE_ARRAY_32) as E0 by byte_at;
      assert (mm (w_cursor writer + 1) = byte_of nb_elem 3) as E1 by byte_at;
      assert (mm (w_cursor writer + 2) = byte_of nb_elem 2) as E2 by byte_at;
      assert (mm (w_cursor writer + 3) = byte_of nb_elem 1) as E3 by byte_at;
      assert (mm (w_cursor writer + 4) = byte_of nb_elem 0) as E4 by byte_at;
      rewrite E0 in Hty; generalize dependent mm; intros m1 Hty E0 E1 E2 E3 E4
    end.
    unfold PackReaderOpen. rewrite Hty, !reader_at_empty, Hf.
    unfold be16, be32. cbn [cursor reader_at].
    rewrite E0, E1, E2, E3, E4, be32_bytes.
    rewrite Z.mod_small by lia. done.
  - destruct (fix_header PACK_TYPE_MAP_FIX E_PackTypeMap nb_elem) as (Ht & Hb & Hl); [auto|lia|].
    match goal with |- context [PackReaderOpen ?mm _] =>
      assert (mm (w_cursor writer) = Z.lor PACK_TYPE_MAP_FIX (u8 nb_elem)) as E0
        by apply store_eq;
      rewrite E0 in Hty; generalize dependent mm; intros m1 Hty E0
    end.
    unfold PackReaderOpen. rewrite He, Hty, Ht. cbn [cursor reader_at].
    rewrite E0, Hb, Hl. done.
  - match goal with |- context [PackReaderOpen ?mm _] =>
      assert (mm (w_cursor writer) = PACK_TYPE_MAP_16) as E0 by byte_at;
      assert (mm (w_cursor writer + 1) = byte_of nb_elem 1) as E1 by byte_at;
      assert (mm (w_cursor writer + 2) = byte_of nb_elem 0) as E2 by byte_at;
      rewrite E0 in Hty; generalize dependent mm; intros m1 Hty E0 E1 E2
    end.
    unfold PackReaderOpen. rewrite Hty, !reader_at_empty, Hf.
    unfold be16, be32. cbn [cursor reader_at].
    rewrite E0, E1, E2, be16_bytes.
    rewrite Z.mod_small by lia. done.
  - match goal with |- context [PackReaderOpen ?mm _] =>
      assert (mm (w_cursor writer) = PACK_TYPE_MAP_32) as E0 by byte_at;
      assert (mm (w_cursor writer + 1) = byte_of nb_elem 3) as E1 by byte_at;
      assert (mm (w_cursor writer + 2) = byte_of nb_elem 2) as E2 by byte_at;
      assert (mm (w_cursor writer + 3) = byte_of nb_elem 1) as E3 by byte_at;
      assert (mm (w_cursor writer + 4) = byte_of nb_elem 0) as E4 by byte_at;
      rewrite E0 in Hty; generalize dependent mm; intros m1 Hty E0 E1 E2 E3 E4
    end.
    unfold PackReaderOpen. rewrite Hty, !reader_at_empty, Hf.
    unfold be16, be32. cbn [cursor reader_at].
    rewrite E0, E1, E2, E3, E4, be32_bytes.
    rewrite Z.mod_small by lia. done.
Qed.

(** *** Raw bytes *)

Lemma copy_in_header (m : mem) (writer : S_PackWriter) (hdr : list Z)
    (raw len k : Z) :
  0 <= k < Z.of_nat (length hdr) ->
  copy_in m writer hdr raw len (w_cursor writer + k) = nth (Z.to_nat k) hdr 0.
Proof.
  intros Hk. unfold copy_in.
  rewrite store_bytes_outside by lia. by apply store_bytes_nth.
Qed.

Lemma copy_in_data (m : mem) (writer : S_PackWriter) (hdr : list Z)
    (raw len : Z) :
  raw + len <= w_cursor writer \/ w_cursor writer + Z.of_nat (length hdr) <= raw ->
  0 <= len ->
  load_bytes (copy_in m writer hdr raw len)
    (w_cursor writer + Z.of_nat (length hdr)) (Z.to_nat len)
  = load_bytes m raw (Z.to_nat len).
Proof.
  intros Hd Hl. unfold copy_in.
  set (data := load_bytes (store_bytes m (w_cursor writer) hdr) raw (Z.to_nat len)).
  assert (length data = Z.to_nat len) as El by apply load_bytes_length.
  rewrite <- El at 1. rewrite load_store_bytes. subst data.
  apply load_bytes_ext. intros x Hx. apply store_bytes_outside. lia.
Qed.

Lemma fix_raw (len : Z) :
  0 <= len < 32 ->
  let b := Z.lor PACK_TYPE_RAW_FIX (u8 len) in
  type_of_byte b = E_PackTypeRawBytes /\
  Z.land b 0xE0 = PACK_TYPE_RAW_FIX /\ Z.land b (Z.lnot 0xE0) = len.
Proof.
  intros Hn b; subst b.
  pose proof (range_check
    (fun v => let b := Z.lor PACK_TYPE_RAW_FIX (u8 v) in
              T_PackType_eqb (type_of_byte b) E_PackTypeRawBytes
              && (Z.land b 0xE0 =? PACK_TYPE_RAW_FIX)
              && (Z.land b (Z.lnot 0xE0) =? v)) 0 32 eq_refl len Hn) as Hc.
  cbv zeta in Hc. apply andb_prop in Hc as [Hc H3]. apply andb_prop in Hc as [H1 H2].
  apply Z.eqb_eq in H2, H3. split; [|done].
  by destruct (type_of_byte _).
Qed.

Lemma u32_small (x : Z) : 0 <= x < 4294967296 -> u32 x = x.
Proof. intros H. unfold u32. by apply Z.mod_small. Qed.

(** X10.  Raw bytes of a length up to 31 or from 256 on, taken
    from outside the place they are written to, written by
    [PackWriterPutRawBytes] and read by [PackReaderGetRawBytes] into a
    destination that is large enough: the reader returns 0 and the
    length, stops where the writer stopped and has copied the bytes to
    the destination. *)
Theorem PackRawBytes_roundtrip (raw len bytes max_len : Z) (m m' : mem)
    (writer writer' : S_PackWriter) :
  writer_ok writer -> 0 <= len < 2147483648 - 5 ->
  len <= 31 \/ 256 <= len ->
  raw + len <= w_cursor writer \/ w_cursor writer + len + 5 <= raw ->
  len <= max_len ->
  PackWriterPutRawBytes m writer raw len = (0, m', writer') ->
  PackReaderGetRawBytes m' (reader_at writer) bytes max_len
    = (0, reader_at writer', Some len,
       store_bytes m' bytes (load_bytes m raw (Z.to_nat len))).
Proof.
  intros Hok Hl Hr Hd Hmax. unfold PackWriterPutRawBytes.
  rewrite !u32_small by lia.
  destruct (Z.leb_spec len 31) as [H1|H1];
    [|destruct (Z.leb_spec len 255) as [H2|H2]; [lia|];
      destruct (Z.leb_spec len 65535) as [H3|H3]];
    match goal with
    | |- context [PackWriterIsFull _ ?k] =>
        destruct (PackWriterIsFull writer k) eqn:Hf; simpl negb; cbv iota;
        [intros [=]|intros [= <- <-]]
    end.
  all: match goal with |- context [PackReaderGetRawBytes ?mm _] =>
      first [ destruct (written_type mm writer (len + 1) Hok Hf) as [He Hty]; [lia|]
            | destruct (written_type mm writer (len + 3) Hok Hf) as [He Hty]; [lia|]
            | destruct (written_type mm writer (len + 5) Hok Hf) as [He Hty]; [lia|] ]
    end.
  - assert ((len <=? max_len) = true) as Hle by (apply Z.leb_le; lia).
    match goal with |- context [PackReaderGetRawBytes ?mm _] =>
      assert (load_bytes mm (w_cursor writer + 1) (Z.to_nat len)
              = load_bytes m raw (Z.to_nat len)) as Ed
        by exact (copy_in_data m writer [Z.lor PACK_TYPE_RAW_FIX (u8 len)] raw len ltac:(simpl; lia) ltac:(lia));
      pose proof (fun k H => copy_in_header m writer [Z.lor PACK_TYPE_RAW_FIX (u8 len)] raw len k H) as Eh;
      generalize dependent mm; intros m1 Hty Ed Eh
    end.
    pose proof (Eh 0 ltac:(simpl; lia)) as E0. rewrite Z.add_0_r in E0.
    simpl in E0, Ed. rewrite E0 in Hty.
    unfold PackReaderGetRawBytes, copy_out.
    rewrite He, Hty. cbn [cursor reader_at]. rewrite E0.
    destruct (fix_raw len) as (Ht & Hb & Hn); [lia|].
    rewrite Ht, Hb, Hn. cbn [T_PackType_eqb negb]. cbv iota beta zeta.
    rewrite Z.eqb_refl, Hle, u32_small, reader_at_empty, Hf by lia.
    cbn [negb andb]. cbv iota. by rewrite Ed.
  - assert ((len <=? max_len) = true) as Hle by (apply Z.leb_le; lia).
    match goal with |- context [PackReaderGetRawBytes ?mm _] =>
      assert (load_bytes mm (w_cursor writer + 3) (Z.to_nat len)
              = load_bytes m raw (Z.to_nat len)) as Ed
        by exact (copy_in_data m writer [PACK_TYPE_RAW_16; byte_of len 1; byte_of len 0] raw len ltac:(simpl; lia) ltac:(lia));
      pose proof (fun k H => copy_in_header m writer [PACK_TYPE_RAW_16; byte_of len 1; byte_of len 0] raw len k H) as Eh;
      generalize dependent mm; intros m1 Hty Ed Eh
    end.
    pose proof (Eh 0 ltac:(simpl; lia)) as E0. rewrite Z.add_0_r in E0.
    pose proof (Eh 1 ltac:(simpl; lia)) as E1.
    pose proof (Eh 2 ltac:(simpl; lia)) as E2.
    simpl in E0, Ed, E1, E2. rewrite E0 in Hty.
    unfold PackReaderGetRawBytes, copy_out.
    rewrite He, Hty. cbn [cursor reader_at]. rewrite E0.
    assert (PackWriterIsFull writer 3 = false) as Hf3
      by (eapply PackWriterIsFull_less; try exact Hf; (done || lia)).
    unfold be16. cbn [cursor reader_at]. rewrite E1, E2, be16_bytes.
    rewrite (Z.mod_small len) by lia.
    rewrite !reader_at_empty, Hf3.
    change (type_of_byte PACK_TYPE_RAW_16) with E_PackTypeRawBytes.
    change (Z.land PACK_TYPE_RAW_16 224 =? PACK_TYPE_RAW_FIX) with false.
    change (PACK_TYPE_RAW_16 =? PACK_TYPE_RAW_8) with false.
    change (PACK_TYPE_RAW_16 =? PACK_TYPE_RAW_16) with true.
    cbn [T_PackType_eqb negb andb]. cbv beta iota zeta.
    rewrite Hle, u32_small, Hf by lia.
    cbn [negb andb]. cbv iota. by rewrite Ed.
  - assert ((len <=? max_len) = true) as Hle by (apply Z.leb_le; lia).
    match goal with |- context [PackReaderGetRawBytes ?mm _] =>
      assert (load_bytes mm (w_cursor writer + 5) (Z.to_nat len)
              = load_bytes m raw (Z.to_nat len)) as Ed
        by exact (copy_in_data m writer [PACK_TYPE_RAW_32; byte_of len 3; byte_of len 2; byte_of len 1; byte_of len 0] raw len ltac:(simpl; lia) ltac:(lia));
      pose proof (fun k H => copy_in_header m writer [PACK_TYPE_RAW_32; byte_of len 3; byte_of len 2; byte_of len 1; byte_of len 0] raw len k H) as Eh;
      generalize dependent mm; intros m1 Hty Ed Eh
    end.
    pose proof (Eh 0 ltac:(simpl; lia)) as E0. rewrite Z.add_0_r in E0.
    pose proof (Eh 1 ltac:(simpl; lia)) as E1.
    pose proof (Eh 2 ltac:(simpl; lia)) as E2.
    pose proof (Eh 3 ltac:(simpl; lia)) as E3.
    pose proof (Eh 4 ltac:(simpl; lia)) as E4.
    simpl in E0, Ed, E1, E2, E3, E4. rewrite E0 in Hty.
    unfold PackReaderGetRawBytes, copy_out.
    rewrite He, Hty. cbn [cursor reader_at]. rewrite E0.
    assert (PackWriterIsFull writer 5 = false) as Hf5
      by (eapply PackWriterIsFull_less; try exact Hf; (done || lia)).
    unfold be32. cbn [cursor reader_at]. rewrite E1, E2, E3, E4, be32_bytes.
    rewrite (Z.mod_small len) by lia.
    rewrite !reader_at_empty, Hf5.
    change (type_of_byte PACK_TYPE_RAW_32) with E_PackTypeRawBytes.
    change (Z.land PACK_TYPE_RAW_32 224 =? PACK_TYPE_RAW_FIX) with false.
    change (PACK_TYPE_RAW_32 =? PACK_TYPE_RAW_8) with false.
    change (PACK_TYPE_RAW_32 =? PACK_TYPE_RAW_16) with false.
    change (PACK_TYPE_RAW_32 =? PACK_TYPE_RAW_32) with true.
    cbn [T_PackType_eqb negb andb]. cbv beta iota zeta.
    rewrite !(u32_small len), Hle, u32_small, Hf by lia.
    cbn [negb andb]. cbv iota. by rewrite Ed.
Qed.

(** X11.  Raw bytes of a length from 32 to 255 are written by
    [PackWriterPutRawBytes] behind the type byte 0xD9, which
    [PackGetType] does not know: [PackReaderGetRawBytes] returns [EINVAL]
    for them and reads nothing.  The writer asks for room for three more
    bytes than the length and uses two. *)
Theorem PackRawBytes_raw8_rejected (raw len bytes max_len : Z) (m m' : mem)
    (writer writer' : S_PackWriter) :
  writer_ok writer -> 32 <= len <= 255 ->
  PackWriterPutRawBytes m writer raw len = (0, m', writer') ->
  PackReaderGetRawBytes m' (reader_at writer) bytes max_len
    = (EINVAL, reader_at writer, None, m') /\
  w_cursor writer' = w_cursor writer + len + 2 /\
  PackWriterIsFull writer (len + 3) = false.
Proof.
  intros Hok Hl. unfold PackWriterPutRawBytes.
  rewrite !u32_small by lia.
  destruct (Z.leb_spec len 31) as [H1|H1]; [lia|].
  destruct (Z.leb_spec len 255) as [H2|H2]; [|lia].
  destruct (PackWriterIsFull writer (len + 3)) eqn:Hf; simpl negb; cbv iota;
    [intros [=]|intros [= <- <-]].
  split; [|split; [simpl; lia|done]].
  match goal with |- context [PackReaderGetRawBytes ?mm _] =>
    destruct (written_type mm writer (len + 3) Hok Hf) as [He Hty]; [lia|];
    pose proof (copy_in_header m writer [PACK_TYPE_RAW_8; u8 len] raw len 0
                  ltac:(simpl; lia)) as E0;
    rewrite Z.add_0_r in E0; simpl in E0; rewrite E0 in Hty;
    generalize dependent mm; intros m1 Hty E0
  end.
  unfold PackReaderGetRawBytes. by rewrite He, Hty.
Qed.

(** *** The reader stays in its buffer *)

(** The reader after a call: the same buffer, the cursor not moved back
    and inside the buffer. *)
Definition stays_inside (reader reader' : S_PackReader) : Prop :=
  reader_ok reader' /\
  buffer_start reader' = buffer_start reader /\
  buffer_len reader' = buffer_len reader /\
  cursor reader <= cursor reader'.

Lemma stays_refl (reader : S_PackReader) :
  reader_ok reader -> stays_inside reader reader.
Proof. intros H. split; [done|]. split; [done|]. split; [done|lia]. Qed.

Lemma stays_advance (reader : S_PackReader) (k : Z) :
  reader_ok reader -> 0 <= k < 2147483648 ->
  PackReaderIsEmpty reader k = false -> stays_inside reader (advance k reader).
Proof.
  intros Hok Hk He. split; [by apply reader_ok_advance|].
  split; [done|]. split; [done|]. simpl. lia.
Qed.

(** A call of one of the readers of a scalar or of a header; the error
    code and the reader are kept. *)
Inductive read_call : Type :=
  | ReadOpen (type : T_PackType)
  | ReadIsNil | ReadBoolean
  | ReadSignedChar | ReadSignedShort | ReadSignedLong | ReadSignedInteger
  | ReadUnsignedChar | ReadUnsignedShort | ReadUnsignedLong | ReadUnsignedInteger.

Definition PackReaderCall (c : read_call) (m : mem) (reader : S_PackReader)
  : Z * S_PackReader :=
  match c with
  | ReadOpen type => let '(e, r, _) := PackReaderOpen m reader type in (e, r)
  | ReadIsNil => let '(e, r, _) := PackReaderIsNil m reader in (e, r)
  | ReadBoolean => let '(e, r, _) := PackReaderGetBoolean m reader in (e, r)
  | ReadSignedChar => let '(e, r, _) := PackReaderGetSignedChar m reader in (e, r)
  | ReadSignedShort => let '(e, r, _) := PackReaderGetSignedShort m reader in (e, r)
  | ReadSignedLong => let '(e, r, _) := PackReaderGetSignedLong m reader in (e, r)
  | ReadSignedInteger =>
      let '(e, r, _) := PackReaderGetSignedInteger m reader in (e, r)
  | ReadUnsignedChar => let '(e, r, _) := PackReaderGetUnsignedChar m reader in (e, r)
  | ReadUnsignedShort => let '(e, r, _) := PackReaderGetUnsignedShort m reader in (e, r)
  | ReadUnsignedLong => let '(e, r, _) := PackReaderGetUnsignedLong m reader in (e, r)
  | ReadUnsignedInteger =>
      let '(e, r, _) := PackReaderGetUnsignedInteger m reader in (e, r)
  end.

Ltac reader_cases :=
  repeat match goal with
  | |- context [PackReaderIsEmpty ?r ?k] =>
      let H := fresh "He" in destruct (PackReaderIsEmpty r k) eqn:H
  end;
  cbn [negb]; rewrite ?andb_false_r, ?andb_true_r;
  repeat (match goal with
          | |- context [if ?c then _ else _] => destruct c
          end; cbv beta iota zeta).

Ltac reader_done Hok :=
  cbv beta iota zeta;
  split;
  [ first [ by apply stays_refl
          | apply stays_advance; [exact Hok|lia|assumption] ]
  | first [ by left | by right; left | by right; right ] ].

(** X12.  Whatever the bytes of the buffer are, a call
    of a reader of a header, of nil, of a boolean or of an integer leaves
    the cursor inside the buffer and does not move it back.  When the
    call returns an error other than [ENOTSUP] (a 64-bit integer, which
    is skipped), the reader has not moved. *)
Theorem PackReader_in_bounds (c : read_call) (m : mem) (reader : S_PackReader) :
  reader_ok reader ->
  stays_inside reader (PackReaderCall c m reader).2 /\
  ((PackReaderCall c m reader).1 = 0 \/
   (PackReaderCall c m reader).1 = ENOTSUP \/
   (PackReaderCall c m reader).2 = reader).
Proof.
  intros Hok. destruct c; unfold PackReaderCall.
  - unfold PackReaderOpen. reader_cases; reader_done Hok.
  - unfold PackReaderIsNil. reader_cases; reader_done Hok.
  - unfold PackReaderGetBoolean. reader_cases; reader_done Hok.
  - unfold PackReaderGetSignedChar. reader_cases; reader_done Hok.
  - unfold PackReaderGetSignedShort. reader_cases; reader_done Hok.
  - unfold PackReaderGetSignedLong. reader_cases; reader_done Hok.
  - unfold PackReaderGetSignedInteger, PackReaderGetUnsignedInteger.
    reader_cases; reader_done Hok.
  - unfold PackReaderGetUnsignedChar. reader_cases; reader_done Hok.
  - unfold PackReaderGetUnsignedShort. reader_cases; reader_done Hok.
  - unfold PackReaderGetUnsignedLong. reader_cases; reader_done Hok.
  - unfold PackReaderGetUnsignedInteger. reader_cases; reader_done Hok.
Qed.

(** The memory holds bytes. *)
Definition bytes_mem (m : mem) : Prop := forall x, 0 <= m x < 256.

Lemma raw_body_safe (m : mem) (reader : S_PackReader) (bytes max_len k len : Z) :
  reader_ok reader -> 0 <= max_len < 2147483648 - 5 -> 0 <= k <= 5 -> 0 <= len ->
  let r := if (len <=? max_len) && negb (PackReaderIsEmpty reader (u32 (len + k)))
           then (0, advance (u32 (len + k)) reader, Some len,
                 copy_out m reader k bytes len)
           else (EIO, reader, None, m) in
  stays_inside reader r.1.1.2 /\
  (r.1.1.1 = 0 \/ r.1.1.2 = reader /\ r.2 = m) /\
  (forall x, x < bytes \/ bytes + max_len <= x -> r.2 x = m x).
Proof.
  intros Hok Hmax Hk Hlen.
  destruct (Z.leb_spec len max_len) as [Hle|Hle]; cbn [andb];
    [|cbv zeta; simpl; split; [by apply stays_refl|split; [by right|done]]].
  rewrite u32_small by lia.
  destruct (PackReaderIsEmpty reader (len + k)) eqn:He; cbn [negb]; cbv zeta; simpl.
  - split; [by apply stays_refl|split; [by right|done]].
  - split; [apply stays_advance; [done|lia|done]|]. split; [by left|].
    intros x Hx. unfold copy_out. apply store_bytes_outside.
    rewrite load_bytes_length. lia.
Qed.

Lemma be16_nonneg (m : mem) (reader : S_PackReader) :
  bytes_mem m -> 0 <= be16 m reader.
Proof.
  intros Hb. unfold be16. apply Z.lor_nonneg. split.
  - apply Z.shiftl_nonneg. apply Hb.
  - apply Hb.
Qed.

(** X13.  Whatever the bytes of the buffer are,
    [PackReaderGetRawBytes] called with a destination of [max_len] bytes
    leaves the cursor inside the buffer and writes nowhere but in the
    destination; when it returns an error, neither the reader nor the
    memory has changed. *)
Theorem PackReaderGetRawBytes_safe (m : mem) (reader : S_PackReader)
    (bytes max_len : Z) :
  reader_ok reader -> bytes_mem m -> 0 <= max_len < 2147483648 - 5 ->
  let r := PackReaderGetRawBytes m reader bytes max_len in
  stays_inside reader r.1.1.2 /\
  (r.1.1.1 = 0 \/ r.1.1.2 = reader /\ r.2 = m) /\
  (forall x, x < bytes \/ bytes + max_len <= x -> r.2 x = m x).
Proof.
  intros Hok Hb Hmax. unfold PackReaderGetRawBytes.
  assert (forall e, stays_inside reader (e, reader, @None Z, m).1.1.2 /\
            ((e, reader, @None Z, m).1.1.1 = 0 \/
             (e, reader, @None Z, m).1.1.2 = reader /\ (e, reader, @None Z, m).2 = m) /\
            (forall x, x < bytes \/ bytes + max_len <= x ->
                       (e, reader, @None Z, m).2 x = m x)) as Herr.
  { intros e. simpl. split; [by apply stays_refl|]. split; [by right|done]. }
  destruct (PackReaderIsEmpty reader 1); [apply Herr|].
  destruct (negb (T_PackType_eqb (PackGetType m reader) E_PackTypeRawBytes));
    [apply Herr|].
  cbv zeta.
  destruct (Z.land (m (cursor reader)) 224 =? PACK_TYPE_RAW_FIX).
  { apply raw_body_safe; try done; try lia.
    apply Z.land_nonneg. left. apply Hb. }
  destruct ((m (cursor reader) =? PACK_TYPE_RAW_8) && negb (PackReaderIsEmpty reader 2)).
  { apply raw_body_safe; try done; try lia. apply Hb. }
  destruct ((m (cursor reader) =? PACK_TYPE_RAW_16) && negb (PackReaderIsEmpty reader 3)).
  { apply raw_body_safe; try done; try lia. by apply be16_nonneg. }
  destruct ((m (cursor reader) =? PACK_TYPE_RAW_32) && negb (PackReaderIsEmpty reader 5)).
  { apply raw_body_safe; try done; try lia. unfold u32.
    apply Z.mod_pos_bound. lia. }
  apply Herr.
Qed.

(** *** The type of what has been written *)

Lemma fix_negative (v : Z) :
  -32 <= v < 0 ->
  Z.lor PACK_TYPE_FIXNUM_NEGATIVE (u8 v) = v + 256 /\
  type_of_byte (v + 256) = E_PackTypeSignedInteger.
Proof.
  intros H.
  pose proof (range_check
    (fun v => (Z.lor PACK_TYPE_FIXNUM_NEGATIVE (u8 v) =? v + 256)
              && T_PackType_eqb (type_of_byte (v + 256)) E_PackTypeSignedInteger)
    (-32) 32 eq_refl v ltac:(lia)) as Hc.
  apply andb_prop in Hc as [H1 H2]. apply Z.eqb_eq in H1. split; [done|].
  by destruct (type_of_byte _).
Qed.

(** The values of the C types of the arguments. *)
Definition item_in_range (it : pack_item) : Prop :=
  match it with
  | ItemSigned value => -2147483648 <= value < 2147483648
  | ItemUnsigned value => 0 <= value < 4294967296
  | ItemOpen _ nb_elem => 0 <= nb_elem < 4294967296
  | ItemRaw _ len => 0 <= len < 2147483648 - 5
  | _ => True
  end.

(** The type that [PackGetType] gives to a written item. *)
Definition written_as (it : pack_item) : T_PackType :=
  match it with
  | ItemNil => E_PackTypeNil
  | ItemBoolean _ => E_PackTypeBoolean
  | ItemSigned _ => E_PackTypeSignedInteger
  | ItemUnsigned _ => E_PackTypeUnsignedInteger
  | ItemOpen type _ => type
  | ItemRaw _ len =>
      if (32 <=? len) && (len <=? 255) then E_PackTypeUnknown
      else E_PackTypeRawBytes
  end.

Ltac head_is B :=
  match goal with
  | |- context [type_of_byte ?x] => replace x with B by (symmetry; byte_at)
  end.

Ltac written_head :=
  match goal with
  | Hok : writer_ok ?w, Hf : PackWriterIsFull ?w ?k = false
    |- PackGetType ?mm _ = _ =>
      let He := fresh "He" in let Hty := fresh "Hty" in
      destruct (written_type mm w k Hok Hf) as [He Hty]; [lia|]; rewrite Hty; clear Hty
  end.

(** X14.  After a successful call of the writer, [PackGetType]
    at the place of the item answers with the type of the item: nil,
    boolean, signed integer (also for a value that is not negative),
    unsigned integer, array, map or raw bytes; raw bytes of a length from
    32 to 255 are the exception, their type byte is unknown to
    [PackGetType]. *)
Theorem PackGetType_written (it : pack_item) (m m' : mem)
    (writer writer' : S_PackWriter) :
  writer_ok writer -> item_in_range it ->
  PackWriterPut it m writer = (0, m', writer') ->
  PackGetType m' (reader_at writer) = written_as it.
Proof.
  intros Hok Hit. destruct it as [|b|v|v|t n|raw len]; simpl in Hit |- *.
  - unfold PackWriterPutNil.
    destruct (PackWriterIsFull writer 1) eqn:Hf; simpl negb; cbv iota;
      [intros [=]|intros [= <- <-]].
    written_head. by rewrite store_eq.
  - unfold PackWriterPutBoolean.
    destruct (PackWriterIsFull writer 1) eqn:Hf; simpl negb; cbv iota;
      [intros [=]|intros [= <- <-]].
    written_head. rewrite store_eq. by destruct b.
  - unfold PackWriterPutSignedInteger. cbv zeta.
    unfold PACK_TYPE_NEGATIVE_FIXNUM_MIN, PACK_TYPE_NEGATIVE_FIXNUM_MAX.
    destruct ((v >=? -32) && (v <=? -1)) eqn:E1;
      [|destruct ((v >=? INT8_MIN) && (v <=? INT8_MAX));
        [|destruct ((v >=? INT16_MIN) && (v <=? INT16_MAX))]];
      match goal with
      | |- context [PackWriterIsFull _ ?k] =>
          destruct (PackWriterIsFull writer k) eqn:Hf; simpl negb; cbv iota;
          [intros [=]|intros [= <- <-]]
      end; written_head.
    + apply andb_prop in E1 as [?%Z.geb_le ?%Z.leb_le].
      destruct (fix_negative v) as [Hb Ht]; [lia|].
      by rewrite store_eq, Hb.
    + by head_is PACK_TYPE_INT8.
    + by head_is PACK_TYPE_INT16.
    + by head_is PACK_TYPE_INT32.
  - unfold PackWriterPutUnsignedInteger. cbv zeta.
    unfold PACK_TYPE_POSITIVE_FIXNUM_MAX.
    destruct (Z.leb_spec v 127) as [H1|H1];
      [|destruct (v <=? UINT8_MAX); [|destruct (v <=? UINT16_MAX)]];
      match goal with
      | |- context [PackWriterIsFull _ ?k] =>
          destruct (PackWriterIsFull writer k) eqn:Hf; simpl negb; cbv iota;
          [intros [=]|intros [= <- <-]]
      end; written_head.
    + rewrite store_eq. unfold u8. rewrite Z.mod_small by lia. rewrite Z.lor_0_l.
      by destruct (type_of_fixnum v) as [-> _]; [lia|].
    + by head_is PACK_TYPE_UINT8.
    + by head_is PACK_TYPE_UINT16.
    + by head_is PACK_TYPE_UINT32.
  - unfold PackWriterOpen. cbv zeta.
    assert (t = E_PackTypeArray \/ t = E_PackTypeMap \/
            negb (T_PackType_eqb t E_PackTypeArray)
            && negb (T_PackType_eqb t E_PackTypeMap) = true) as [-> | [-> | ->]]
      by (destruct t; auto);
      [| |intros [=]]; cbn [T_PackType_eqb negb andb].
    all: destruct (Z.leb_spec n 15) as [H1|H1]; [|destruct (n <=? 65535)];
      match goal with
      | |- context [PackWriterIsFull _ ?k] =>
          destruct (PackWriterIsFull writer k) eqn:Hf; simpl negb; cbv iota;
          [intros [=]|intros [= <- <-]]
      end; written_head.
    + rewrite store_eq.
      by destruct (fix_header PACK_TYPE_ARRAY_FIX E_PackTypeArray n) as (-> & _);
        [auto|lia|].
    + by head_is PACK_TYPE_ARRAY_16.
    + by head_is PACK_TYPE_ARRAY_32.
    + rewrite store_eq.
      by destruct (fix_header PACK_TYPE_MAP_FIX E_PackTypeMap n) as (-> & _);
        [auto|lia|].
    + by head_is PACK_TYPE_MAP_16.
    + by head_is PACK_TYPE_MAP_32.
  - unfold PackWriterPutRawBytes. rewrite !u32_small by lia.
    destruct (Z.leb_spec len 31) as [H1|H1];
      [|destruct (Z.leb_spec len 255) as [H2|H2];
        [|destruct (Z.leb_spec len 65535) as [H3|H3]]];
      match goal with
      | |- context [PackWriterIsFull _ ?k] =>
          destruct (PackWriterIsFull writer k) eqn:Hf; simpl negb; cbv iota;
          [intros [=]|intros [= <- <-]]
      end; written_head;
      match goal with
      | |- context [copy_in m writer ?hdr raw len] =>
          pose proof (copy_in_header m writer hdr raw len 0 ltac:(simpl; lia)) as E0;
          rewrite Z.add_0_r in E0; simpl in E0; rewrite E0
      end.
    + destruct (fix_raw len) as (-> & _); [lia|].
      by replace (32 <=? len) with false by (symmetry; apply Z.leb_gt; lia).
    + replace (32 <=? len) with true by (symmetry; apply Z.leb_le; lia).
      by replace (len <=? 255) with true by (symmetry; apply Z.leb_le; lia).
    + replace (len <=? 255) with false by (symmetry; apply Z.leb_gt; lia).
      by rewrite andb_false_r.
    + replace (len <=? 255) with false by (symmetry; apply Z.leb_gt; lia).
      by rewrite andb_false_r.
Qed.

(** X15.  A nil written by [PackWriterPutNil] is found by
    [PackReaderIsNil], which steps over it; [PackReaderGetBoolean]
    returns [EINVAL] for it and does not move. *)
Theorem PackNil_roundtrip (m m' : mem) (writer writer' : S_PackWriter) :
  writer_ok writer ->
  PackWriterPutNil m writer = (0, m', writer') ->
  PackReaderIsNil m' (reader_at writer) = (0, reader_at writer', Some true) /\
  PackReaderGetBoolean m' (reader_at writer) = (EINVAL, reader_at writer, None).
Proof.
  intros Hok. unfold PackWriterPutNil.
  destruct (PackWriterIsFull writer 1) eqn:Hf; simpl negb; cbv iota;
    [intros [=]|intros [= <- <-]].
  destruct (written_type (store m (w_cursor writer) PACK_TYPE_NIL) writer 1 Hok Hf)
    as [He Hty]; [lia|].
  unfold PackReaderIsNil, PackReaderGetBoolean. by rewrite He, Hty, store_eq.
Qed.

(** X16.  A boolean written by [PackWriterPutBoolean] is read
    back by [PackReaderGetBoolean], which stops where the writer stopped;
    for [PackReaderIsNil] it is not nil, and the reader does not move. *)
Theorem PackBoolean_roundtrip (value : bool) (m m' : mem)
    (writer writer' : S_PackWriter) :
  writer_ok writer ->
  PackWriterPutBoolean m writer value = (0, m', writer') ->
  PackReaderGetBoolean m' (reader_at writer) = (0, reader_at writer', Some value) /\
  PackReaderIsNil m' (reader_at writer) = (0, reader_at writer, Some false).
Proof.
  intros Hok. unfold PackWriterPutBoolean.
  destruct (PackWriterIsFull writer 1) eqn:Hf; simpl negb; cbv iota;
    [intros [=]|intros [= <- <-]].
  match goal with |- context [PackReaderIsNil ?mm _] =>
    destruct (written_type mm writer 1 Hok Hf) as [He Hty]; [lia|]
  end.
  unfold PackReaderIsNil, PackReaderGetBoolean.
  rewrite He, Hty. cbn [cursor reader_at]. rewrite store_eq.
  by destruct value.
Qed.

(** *** The properties on concrete inputs *)

(** A writer on 64 bytes at the address 1000. *)
Definition sample_writer : S_PackWriter := PackWriterSetBuffer 1000 64.

Lemma sample_writer_ok : writer_ok sample_writer.
Proof. split; simpl; lia. Qed.

Lemma PackWriter_in_bounds_witness :
  appended zero_mem sample_writer
    (PackWriterPut (ItemRaw 0 40) zero_mem sample_writer) /\
  appended zero_mem sample_writer
    (PackWriterPut (ItemRaw 0 3000000000) zero_mem sample_writer).
Proof.
  split.
  - apply (PackWriter_in_bounds (ItemRaw 0 40) zero_mem sample_writer).
    + split; simpl; lia.
    + split; simpl; lia.
  - apply (PackWriter_in_bounds (ItemRaw 0 3000000000) zero_mem sample_writer).
    + split; simpl; lia.
    + split; simpl; lia.
Defined.

Lemma PackUnsignedInteger_roundtrip_witness :
  let r := PackWriterPutUnsignedInteger zero_mem sample_writer 300 in
  PackReaderGetUnsignedInteger r.1.2 (reader_at sample_writer)
    = (0, reader_at r.2, Some 300) /\
  w_cursor r.2 - w_cursor sample_writer = 3.
Proof.
  apply (PackUnsignedInteger_roundtrip 300 zero_mem _ sample_writer _).
  - split; simpl; lia.
  - lia.
  - reflexivity.
Defined.

Lemma PackSignedInteger_roundtrip_witness :
  let r := PackWriterPutSignedInteger zero_mem sample_writer (-200) in
  PackReaderGetSignedInteger r.1.2 (reader_at sample_writer)
    = (0, reader_at r.2, Some 65336).
Proof.
  apply (PackSignedInteger_roundtrip (-200) zero_mem _ sample_writer _).
  - split; simpl; lia.
  - lia.
  - reflexivity.
Defined.

Lemma PackOpen_roundtrip_witness :
  let r := PackWriterOpen zero_mem sample_writer E_PackTypeMap 20 in
  PackReaderOpen r.1.2 (reader_at sample_writer) E_PackTypeMap
    = (0, reader_at r.2, Some 20).
Proof.
  apply (PackOpen_roundtrip E_PackTypeMap 20 zero_mem _ sample_writer _).
  - split; simpl; lia.
  - lia.
  - reflexivity.
Defined.

Lemma PackRawBytes_roundtrip_witness :
  let m := store_bytes zero_mem 0 [0x61; 0x62; 0x63] in
  let r := PackWriterPutRawBytes m sample_writer 0 3 in
  PackReaderGetRawBytes r.1.2 (reader_at sample_writer) 2000 8
    = (0, reader_at r.2, Some 3, store_bytes r.1.2 2000 [0x61; 0x62; 0x63]).
Proof.
  apply (PackRawBytes_roundtrip 0 3 2000 8
           (store_bytes zero_mem 0 [0x61; 0x62; 0x63]) _ sample_writer _).
  - split; simpl; lia.
  - lia.
  - lia.
  - simpl. lia.
  - lia.
  - reflexivity.
Defined.

Lemma PackRawBytes_raw8_rejected_witness :
  let r := PackWriterPutRawBytes zero_mem sample_writer 0 40 in
  PackReaderGetRawBytes r.1.2 (reader_at sample_writer) 2000 60
    = (EINVAL, reader_at sample_writer, None, r.1.2) /\
  w_cursor r.2 = w_cursor sample_writer + 40 + 2 /\
  PackWriterIsFull sample_writer (40 + 3) = false.
Proof.
  apply (PackRawBytes_raw8_rejected 0 40 2000 60 zero_mem _ sample_writer _).
  - split; simpl; lia.
  - lia.
  - reflexivity.
Defined.

Lemma PackReader_in_bounds_witness :
  let m := store_bytes zero_mem 1000 [PACK_TYPE_UINT64; 1; 2] in
  let reader := PackReaderSetBuffer 1000 3 in
  stays_inside reader (PackReaderCall ReadUnsignedInteger m reader).2 /\
  ((PackReaderCall ReadUnsignedInteger m reader).1 = 0 \/
   (PackReaderCall ReadUnsignedInteger m reader).1 = ENOTSUP \/
   (PackReaderCall ReadUnsignedInteger m reader).2 = reader).
Proof.
  apply (PackReader_in_bounds ReadUnsignedInteger
           (store_bytes zero_mem 1000 [PACK_TYPE_UINT64; 1; 2])
           (PackReaderSetBuffer 1000 3)).
  split; simpl; lia.
Defined.

Lemma PackReaderGetRawBytes_safe_witness :
  let m := store_bytes zero_mem 1000 [PACK_TYPE_RAW_16; 0xFF; 0xFF; 1; 2] in
  let reader := PackReaderSetBuffer 1000 5 in
  let r := PackReaderGetRawBytes m reader 2000 8 in
  stays_inside reader r.1.1.2 /\
  (r.1.1.1 = 0 \/ r.1.1.2 = reader /\ r.2 = m) /\
  (forall x, x < 2000 \/ 2000 + 8 <= x -> r.2 x = m x).
Proof.
  apply (PackReaderGetRawBytes_safe
           (store_bytes zero_mem 1000 [PACK_TYPE_RAW_16; 0xFF; 0xFF; 1; 2])
           (PackReaderSetBuffer 1000 5) 2000 8).
  - split; simpl; lia.
  - intros x. simpl. unfold store, zero_mem.
    repeat match goal with |- context [if ?c then _ else _] => destruct c end;
      unfold PACK_TYPE_RAW_16; lia.
  - lia.
Defined.

Lemma PackGetType_written_witness :
  let r := PackWriterPut (ItemSigned 5) zero_mem sample_writer in
  PackGetType r.1.2 (reader_at sample_writer) = E_PackTypeSignedInteger.
Proof.
  apply (PackGetType_written (ItemSigned 5) zero_mem _ sample_writer
           (PackWriterPut (ItemSigned 5) zero_mem sample_writer).2).
  - split; simpl; lia.
  - simpl. lia.
  - reflexivity.
Defined.

Lemma PackNil_roundtrip_witness :
  let r := PackWriterPutNil zero_mem sample_writer in
  PackReaderIsNil r.1.2 (reader_at sample_writer) = (0, reader_at r.2, Some true) /\
  PackReaderGetBoolean r.1.2 (reader_at sample_writer)
    = (EINVAL, reader_at sample_writer, None).
Proof.
  apply (PackNil_roundtrip zero_mem _ sample_writer _).
  - split; simpl; lia.
  - reflexivity.
Defined.

Lemma PackBoolean_roundtrip_witness :
  let r := PackWriterPutBoolean zero_mem sample_writer true in
  PackReaderGetBoolean r.1.2 (reader_at sample_writer)
    = (0, reader_at r.2, Some true) /\
  PackReaderIsNil r.1.2 (reader_at sample_writer)
    = (0, reader_at sample_writer, Some false).
Proof.
  apply (PackBoolean_roundtrip true zero_mem _ sample_writer _).
  - split; simpl; lia.
  - reflexivity.
Defined.
End MsgPack.

(** ** The host (lasso_host.c) *)

Module Host.

(** *** Error codes (lasso_errno.h) *)

Definition EIO : Z := 5.
Definition ENOMEM : Z := 12.
Definition EACCES : Z := 13.
Definition EFAULT : Z := 14.
Definition EBUSY : Z := 16.
Definition EINVAL : Z := 22.
Definition ENOSPC : Z := 28.
Definition ENODATA : Z := 61.
Definition EOPNOTSUPP : Z := 95.
Definition ENOTSUP : Z := 134.
Definition EILSEQ : Z := 138.
Definition EOVERFLOW : Z := 139.
Definition ECANCELED : Z := 140.

(** *** Data cell type codes (lasso_host.h, lasso_host.c) *)

Definition LASSO_DATACELL_ENABLE : Z := 0x0001.
Definition LASSO_DATACELL_ENABLE_MASK : Z := 0x0001.
Definition LASSO_DATACELL_DISABLE_MASK : Z := 0xFFFE.
Definition LASSO_DATACELL_BYTEWIDTH_MASK : Z := 0x000E.
Definition LASSO_DATACELL_TYPE_MASK : Z := 0x00F0.
Definition LASSO_DATACELL_WRITEABLE : Z := 0x0100.
Definition LASSO_DATACELL_PERMANENT : Z := 0x0200.

Definition LASSO_DATACELL_BYTEWIDTH_1 : Z := 0x0000.
Definition LASSO_DATACELL_BYTEWIDTH_2 : Z := 0x0002.
Definition LASSO_DATACELL_BYTEWIDTH_4 : Z := 0x0004.

Definition LASSO_BOOL : Z := 0x0000.
Definition LASSO_CHAR : Z := 0x0010.
Definition LASSO_UINT8 : Z := 0x0020.
Definition LASSO_INT8 : Z := 0x0030.
Definition LASSO_UINT16 : Z := 0x0022.
Definition LASSO_INT16 : Z := 0x0032.
Definition LASSO_UINT32 : Z := 0x0024.
Definition LASSO_INT32 : Z := 0x0034.
Definition LASSO_FLOAT : Z := 0x0044.
Definition LASSO_DOUBLE : Z := 0x0048.

(** *** Command opcodes *)

Definition LASSO_HOST_SET_ADVERTISE : Z := 65.         (* 'A' *)
Definition LASSO_HOST_SET_STROBE_PERIOD : Z := 80.     (* 'P' *)
Definition LASSO_HOST_SET_DATACELL_STROBE : Z := 83.   (* 'S' *)
Definition LASSO_HOST_SET_DATACELL_VALUE : Z := 86.    (* 'V' *)
Definition LASSO_HOST_SET_DATASPACE_STROBE : Z := 87.  (* 'W' *)
Definition LASSO_HOST_GET_PROTOCOL_INFO : Z := 105.    (* 'i' *)
Definition LASSO_HOST_GET_TIMING_INFO : Z := 116.      (* 't' *)
Definition LASSO_HOST_GET_DATACELL_COUNT : Z := 110.   (* 'n' *)
Definition LASSO_HOST_GET_DATACELL_PARAMS : Z := 112.  (* 'p' *)
Definition LASSO_HOST_GET_DATACELL_VALUE : Z := 118.   (* 'v' *)
Definition LASSO_HOST_SET_CONTROLS : Z := 0xC1.
Definition LASSO_HOST_INVALID_MSGPACK_CODE : Z := 0xC1.

(** *** Compile-time configuration (lasso_host_config.h) *)

Inductive encoding : Type :=
  | LASSO_ENCODING_NONE | LASSO_ENCODING_RN
  | LASSO_ENCODING_COBS | LASSO_ENCODING_ESCS.

Definition encoding_code (e : encoding) : Z :=
  match e with
  | LASSO_ENCODING_NONE => 0 | LASSO_ENCODING_RN => 1
  | LASSO_ENCODING_COBS => 2 | LASSO_ENCODING_ESCS => 3
  end.

Inductive strobe_dynamics : Type := LASSO_STROBE_STATIC | LASSO_STROBE_DYNAMIC.
Inductive processing_mode : Type := LASSO_ASCII_MODE | LASSO_MSGPACK_MODE.

Record config : Type := Config {
  LASSO_HOST_UNALIGNED_MEMORY_ACCESS : bool;
  LASSO_HOST_LITTLE_ENDIAN : bool;
  LASSO_HOST_TIMESTAMP : bool;
  LASSO_HOST_TICK_PERIOD_MS : Z;
  LASSO_HOST_MAX_FRAME_SIZE : Z;
  LASSO_HOST_CRC_BYTEWIDTH : Z;
  LASSO_HOST_COMMAND_ENCODING : encoding;
  LASSO_HOST_COMMAND_BUFFER_SIZE : Z;
  LASSO_HOST_COMMAND_CRC_ENABLE : bool;
  LASSO_HOST_COMMAND_TIMEOUT_TICKS : Z;
  LASSO_HOST_STROBE_ENCODING : encoding;
  LASSO_HOST_STROBE_DYNAMICS : strobe_dynamics;
  LASSO_HOST_STROBE_PERIOD_MIN_TICKS : Z;
  LASSO_HOST_STROBE_PERIOD_MAX_TICKS : Z;
  LASSO_HOST_STROBE_PERIOD_TICKS : Z;
  LASSO_HOST_STROBE_EXTERNAL_SYNC : bool;
  LASSO_HOST_STROBE_EXTERNAL_SOURCE : bool;
  LASSO_HOST_STROBE_CRC_ENABLE : bool;
  LASSO_HOST_RESPONSE_BUFFER_SIZE : Z;
  LASSO_HOST_RESPONSE_LATENCY_TICKS : Z;
  LASSO_HOST_PROCESSING_MODE : processing_mode;
  LASSO_HOST_ROUNDTRIP_LATENCY_TICKS : Z;
  LASSO_HOST_ADVERTISE_PERIOD_TICKS : Z;
  LASSO_MEMORY_ALIGN : Z
}.

Definition is_COBS (e : encoding) : bool :=
  match e with LASSO_ENCODING_COBS => true | _ => false end.
Definition is_ESCS (e : encoding) : bool :=
  match e with LASSO_ENCODING_ESCS => true | _ => false end.
Definition is_RN (e : encoding) : bool :=
  match e with LASSO_ENCODING_RN => true | _ => false end.
Definition is_DYNAMIC (d : strobe_dynamics) : bool :=
  match d with LASSO_STROBE_DYNAMIC => true | _ => false end.
Definition is_MSGPACK (p : processing_mode) : bool :=
  match p with LASSO_MSGPACK_MODE => true | _ => false end.
Definition encoding_eqb (a b : encoding) : bool :=
  encoding_code a =? encoding_code b.

(** *** Data cells and data frames *)

Record dataCell : Type := DataCell {
  type : Z;  (* uint16_t: see the type codes *)
  count : Z;  (* uint16_t: array length *)
  ptr : Z;  (* address of the memory cell *)
  name : Z;  (* address of the name string *)
  unit : Z;  (* address of the unit string *)
  onChange : Z;  (* callback, 0 when absent *)
  update_rate : Z;  (* uint32_t: reload and running half *)
  next : option nat  (* the next cell of the chain *)
}.

Definition set_type (v : Z) (s : dataCell) : dataCell :=
  DataCell v (count s) (ptr s) (name s) (unit s) (onChange s) (update_rate s)
    (next s).

Definition set_ptr (v : Z) (s : dataCell) : dataCell :=
  DataCell (type s) (count s) v (name s) (unit s) (onChange s) (update_rate s)
    (next s).

Definition set_update_rate (v : Z) (s : dataCell) : dataCell :=
  DataCell (type s) (count s) (ptr s) (name s) (unit s) (onChange s) v
    (next s).

Definition set_next (v : option nat) (s : dataCell) : dataCell :=
  DataCell (type s) (count s) (ptr s) (name s) (unit s) (onChange s)
    (update_rate s) v.

Record dataFrame : Type := DataFrame {
  countdown : Z;  (* uint16_t *)
  COBS_backup : Z;  (* uint8_t *)
  valid : Z;  (* uint8_t *)
  buffer : Z;
  frame : Z;
  Byte_count : Z;  (* uint32_t *)
  Bytes_max : Z;  (* uint32_t *)
  Bytes_total : Z  (* uint32_t *)
}.

Definition set_countdown (v : Z) (s : dataFrame) : dataFrame :=
  DataFrame v (COBS_backup s) (valid s) (buffer s) (frame s) (Byte_count s)
    (Bytes_max s) (Bytes_total s).

Definition set_COBS_backup (v : Z) (s : dataFrame) : dataFrame :=
  DataFrame (countdown s) v (valid s) (buffer s) (frame s) (Byte_count s)
    (Bytes_max s) (Bytes_total s).

Definition set_valid (v : Z) (s : dataFrame) : dataFrame :=
  DataFrame (countdown s) (COBS_backup s) v (buffer s) (frame s)
    (Byte_count s) (Bytes_max s) (Bytes_total s).

Definition set_buffer (v : Z) (s : dataFrame) : dataFrame :=
  DataFrame (countdown s) (COBS_backup s) (valid s) v (frame s) (Byte_count s)
    (Bytes_max s) (Bytes_total s).

Definition set_frame (v : Z) (s : dataFrame) : dataFrame :=
  DataFrame (countdown s) (COBS_backup s) (valid s) (buffer s) v
    (Byte_count s) (Bytes_max s) (Bytes_total s).

Definition set_Byte_count (v : Z) (s : dataFrame) : dataFrame :=
  DataFrame (countdown s) (COBS_backup s) (valid s) (buffer s) (frame s) v
    (Bytes_max s) (Bytes_total s).

Definition set_Bytes_max (v : Z) (s : dataFrame) : dataFrame :=
  DataFrame (countdown s) (COBS_backup s) (valid s) (buffer s) (frame s)
    (Byte_count s) v (Bytes_total s).

Definition set_Bytes_total (v : Z) (s : dataFrame) : dataFrame :=
  DataFrame (countdown s) (COBS_backup s) (valid s) (buffer s) (frame s)
    (Byte_count s) (Bytes_max s) v.

Record host : Type := Host {
  dataCellCount : Z;  (* uint8_t *)
  cells : list dataCell;  (* heap of the DATACELL structs *)
  dataCellFirst : option nat;
  dataCellLast : option nat;
  dataCellMaskBytes : Z;  (* uint8_t *)
  receiveBuffer : Z;
  receiveBufferIndex : Z;  (* uint8_t *)
  receiveTimeout : Z;  (* uint32_t *)
  lasso_strobing : bool;
  lasso_advertise : bool;
  strobe : dataFrame;
  response : dataFrame;
  lasso_strobe_period : Z;  (* uint16_t *)
  lasso_tick_period : Z;  (* uint16_t *)
  lasso_roundtrip_latency_ticks : Z;  (* uint16_t *)
  lasso_advertise_period_ticks : Z;  (* uint16_t *)
  lasso_overdrive : Z;  (* uint32_t *)
  COBS_ctrl : COBS.ctrl;  (* decoder state of cobs.c *)
  ESCS_ctrl : ESCS.ctrl;  (* decoder state of escs.c *)
  memory : mem
}.

Definition set_dataCellCount (v : Z) (s : host) : host :=
  Host v (cells s) (dataCellFirst s) (dataCellLast s) (dataCellMaskBytes s)
    (receiveBuffer s) (receiveBufferIndex s) (receiveTimeout s)
    (lasso_strobing s) (lasso_advertise s) (strobe s) (response s)
    (lasso_strobe_period s) (lasso_tick_period s)
    (lasso_roundtrip_latency_ticks s) (lasso_advertise_period_ticks s)
    (lasso_overdrive s) (COBS_ctrl s) (ESCS_ctrl s) (memory s).

Definition set_cells (v : list dataCell) (s : host) : host :=
  Host (dataCellCount s) v (dataCellFirst s) (dataCellLast s)
    (dataCellMaskBytes s) (receiveBuffer s) (receiveBufferIndex s)
    (receiveTimeout s) (lasso_strobing s) (lasso_advertise s) (strobe s)
    (response s) (lasso_strobe_period s) (lasso_tick_period s)
    (lasso_roundtrip_latency_ticks s) (lasso_advertise_period_ticks s)
    (lasso_overdrive s) (COBS_ctrl s) (ESCS_ctrl s) (memory s).

Definition set_dataCellFirst (v : option nat) (s : host) : host :=
  Host (dataCellCount s) (cells s) v (dataCellLast s) (dataCellMaskBytes s)
    (receiveBuffer s) (receiveBufferIndex s) (receiveTimeout s)
    (lasso_strobing s) (lasso_advertise s) (strobe s) (response s)
    (lasso_strobe_period s) (lasso_tick_period s)
    (lasso_roundtrip_latency_ticks s) (lasso_advertise_period_ticks s)
    (lasso_overdrive s) (COBS_ctrl s) (ESCS_ctrl s) (memory s).

Definition set_dataCellLast (v : option nat) (s : host) : host :=
  Host (dataCellCount s) (cells s) (dataCellFirst s) v (dataCellMaskBytes s)
    (receiveBuffer s) (receiveBufferIndex s) (receiveTimeout s)
    (lasso_strobing s) (lasso_advertise s) (strobe s) (response s)
    (lasso_strobe_period s) (lasso_tick_period s)
    (lasso_roundtrip_latency_ticks s) (lasso_advertise_period_ticks s)
    (lasso_overdrive s) (COBS_ctrl s) (ESCS_ctrl s) (memory s).

Definition set_dataCellMaskBytes (v : Z) (s : host) : host :=
  Host (dataCellCount s) (cells s) (dataCellFirst s) (dataCellLast s) v
    (receiveBuffer s) (receiveBufferIndex s) (receiveTimeout s)
    (lasso_strobing s) (lasso_advertise s) (strobe s) (response s)
    (lasso_strobe_period s) (lasso_tick_period s)
    (lasso_roundtrip_latency_ticks s) (lasso_advertise_period_ticks s)
    (lasso_overdrive s) (COBS_ctrl s) (ESCS_ctrl s) (memory s).

Definition set_receiveBuffer (v : Z) (s : host) : host :=
  Host (dataCellCount s) (cells s) (dataCellFirst s) (dataCellLast s)
    (dataCellMaskBytes s) v (receiveBufferIndex s) (receiveTimeout s)
    (lasso_strobing s) (lasso_advertise s) (strobe s) (response s)
    (lasso_strobe_period s) (lasso_tick_period s)
    (lasso_roundtrip_latency_ticks s) (lasso_advertise_period_ticks s)
    (lasso_overdrive s) (COBS_ctrl s) (ESCS_ctrl s) (memory s).

Definition set_receiveBufferIndex (v : Z) (s : host) : host :=
  Host (dataCellCount s) (cells s) (dataCellFirst s) (dataCellLast s)
    (dataCellMaskBytes s) (receiveBuffer s) v (receiveTimeout s)
    (lasso_strobing s) (lasso_advertise s) (strobe s) (response s)
    (lasso_strobe_period s) (lasso_tick_period s)
    (lasso_roundtrip_latency_ticks s) (lasso_advertise_period_ticks s)
    (lasso_overdrive s) (COBS_ctrl s) (ESCS_ctrl s) (memory s).

Definition set_receiveTimeout (v : Z) (s : host) : host :=
  Host (dataCellCount s) (cells s) (dataCellFirst s) (dataCellLast s)
    (dataCellMaskBytes s) (receiveBuffer s) (receiveBufferIndex s) v
    (lasso_strobing s) (lasso_advertise s) (strobe s) (response s)
    (lasso_strobe_period s) (lasso_tick_period s)
    (lasso_roundtrip_latency_ticks s) (lasso_advertise_period_ticks s)
    (lasso_overdrive s) (COBS_ctrl s) (ESCS_ctrl s) (memory s).

Definition set_lasso_strobing (v : bool) (s : host) : host :=
  Host (dataCellCount s) (cells s) (dataCellFirst s) (dataCellLast s)
    (dataCellMaskBytes s) (receiveBuffer s) (receiveBufferIndex s)
    (receiveTimeout s) v (lasso_advertise s) (strobe s) (response s)
    (lasso_strobe_period s) (lasso_tick_period s)
    (lasso_roundtrip_latency_ticks s) (lasso_advertise_period_ticks s)
    (lasso_overdrive s) (COBS_ctrl s) (ESCS_ctrl s) (memory s).

Definition set_lasso_advertise (v : bool) (s : host) : host :=
  Host (dataCellCount s) (cells s) (dataCellFirst s) (dataCellLast s)
    (dataCellMaskBytes s) (receiveBuffer s) (receiveBufferIndex s)
    (receiveTimeout s) (lasso_strobing s) v (strobe s) (response s)
    (lasso_strobe_period s) (lasso_tick_period s)
    (lasso_roundtrip_latency_ticks s) (lasso_advertise_period_ticks s)
    (lasso_overdrive s) (COBS_ctrl s) (ESCS_ctrl s) (memory s).

Definition set_strobe (v : dataFrame) (s : host) : host :=
  Host (dataCellCount s) (cells s) (dataCellFirst s) (dataCellLast s)
    (dataCellMaskBytes s) (receiveBuffer s) (receiveBufferIndex s)
    (receiveTimeout s) (lasso_strobing s) (lasso_advertise s) v (response s)
    (lasso_strobe_period s) (lasso_tick_period s)
    (lasso_roundtrip_latency_ticks s) (lasso_advertise_period_ticks s)
    (lasso_overdrive s) (COBS_ctrl s) (ESCS_ctrl s) (memory s).

Definition set_response (v : dataFrame) (s : host) : host :=
  Host (dataCellCount s) (cells s) (dataCellFirst s) (dataCellLast s)
    (dataCellMaskBytes s) (receiveBuffer s) (receiveBufferIndex s)
    (receiveTimeout s) (lasso_strobing s) (lasso_advertise s) (strobe s) v
    (lasso_strobe_period s) (lasso_tick_period s)
    (lasso_roundtrip_latency_ticks s) (lasso_advertise_period_ticks s)
    (lasso_overdrive s) (COBS_ctrl s) (ESCS_ctrl s) (memory s).

Definition set_lasso_strobe_period (v : Z) (s : host) : host :=
  Host (dataCellCount s) (cells s) (dataCellFirst s) (dataCellLast s)
    (dataCellMaskBytes s) (receiveBuffer s) (receiveBufferIndex s)
    (receiveTimeout s) (lasso_strobing s) (lasso_advertise s) (strobe s)
    (response s) v (lasso_tick_period s) (lasso_roundtrip_latency_ticks s)
    (lasso_advertise_period_ticks s) (lasso_overdrive s) (COBS_ctrl s)
    (ESCS_ctrl s) (memory s).

Definition set_lasso_tick_period (v : Z) (s : host) : host :=
  Host (dataCellCount s) (cells s) (dataCellFirst s) (dataCellLast s)
    (dataCellMaskBytes s) (receiveBuffer s) (receiveBufferIndex s)
    (receiveTimeout s) (lasso_strobing s) (lasso_advertise s) (strobe s)
    (response s) (lasso_strobe_period s) v (lasso_roundtrip_latency_ticks s)
    (lasso_advertise_period_ticks s) (lasso_overdrive s) (COBS_ctrl s)
    (ESCS_ctrl s) (memory s).

Definition set_lasso_roundtrip_latency_ticks (v : Z) (s : host) : host :=
  Host (dataCellCount s) (cells s) (dataCellFirst s) (dataCellLast s)
    (dataCellMaskBytes s) (receiveBuffer s) (receiveBufferIndex s)
    (receiveTimeout s) (lasso_strobing s) (lasso_advertise s) (strobe s)
    (response s) (lasso_strobe_period s) (lasso_tick_period s) v
    (lasso_advertise_period_ticks s) (lasso_overdrive s) (COBS_ctrl s)
    (ESCS_ctrl s) (memory s).

Definition set_lasso_advertise_period_ticks (v : Z) (s : host) : host :=
  Host (dataCellCount s) (cells s) (dataCellFirst s) (dataCellLast s)
    (dataCellMaskBytes s) (receiveBuffer s) (receiveBufferIndex s)
    (receiveTimeout s) (lasso_strobing s) (lasso_advertise s) (strobe s)
    (response s) (lasso_strobe_period s) (lasso_tick_period s)
    (lasso_roundtrip_latency_ticks s) v (lasso_overdrive s) (COBS_ctrl s)
    (ESCS_ctrl s) (memory s).

Definition set_lasso_overdrive (v : Z) (s : host) : host :=
  Host (dataCellCount s) (cells s) (dataCellFirst s) (dataCellLast s)
    (dataCellMaskBytes s) (receiveBuffer s) (receiveBufferIndex s)
    (receiveTimeout s) (lasso_strobing s) (lasso_advertise s) (strobe s)
    (response s) (lasso_strobe_period s) (lasso_tick_period s)
    (lasso_roundtrip_latency_ticks s) (lasso_advertise_period_ticks s) v
    (COBS_ctrl s) (ESCS_ctrl s) (memory s).

Definition set_COBS_ctrl (v : COBS.ctrl) (s : host) : host :=
  Host (dataCellCount s) (cells s) (dataCellFirst s) (dataCellLast s)
    (dataCellMaskBytes s) (receiveBuffer s) (receiveBufferIndex s)
    (receiveTimeout s) (lasso_strobing s) (lasso_advertise s) (strobe s)
    (response s) (lasso_strobe_period s) (lasso_tick_period s)
    (lasso_roundtrip_latency_ticks s) (lasso_advertise_period_ticks s)
    (lasso_overdrive s) v (ESCS_ctrl s) (memory s).

Definition set_ESCS_ctrl (v : ESCS.ctrl) (s : host) : host :=
  Host (dataCellCount s) (cells s) (dataCellFirst s) (dataCellLast s)
    (dataCellMaskBytes s) (receiveBuffer s) (receiveBufferIndex s)
    (receiveTimeout s) (lasso_strobing s) (lasso_advertise s) (strobe s)
    (response s) (lasso_strobe_period s) (lasso_tick_period s)
    (lasso_roundtrip_latency_ticks s) (lasso_advertise_period_ticks s)
    (lasso_overdrive s) (COBS_ctrl s) v (memory s).

Definition set_memory (v : mem) (s : host) : host :=
  Host (dataCellCount s) (cells s) (dataCellFirst s) (dataCellLast s)
    (dataCellMaskBytes s) (receiveBuffer s) (receiveBufferIndex s)
    (receiveTimeout s) (lasso_strobing s) (lasso_advertise s) (strobe s)
    (response s) (lasso_strobe_period s) (lasso_tick_period s)
    (lasso_roundtrip_latency_ticks s) (lasso_advertise_period_ticks s)
    (lasso_overdrive s) (COBS_ctrl s) (ESCS_ctrl s) v.


Definition upd_strobe (f : dataFrame -> dataFrame) (s : host) : host :=
  set_strobe (f (strobe s)) s.
Definition upd_response (f : dataFrame -> dataFrame) (s : host) : host :=
  set_response (f (response s)) s.

(** The two data frames a transmission can be taken from. *)
Inductive frame_id : Type := STROBE | RESPONSE.

Definition data_frame (w : frame_id) (s : host) : dataFrame :=
  match w with STROBE => strobe s | RESPONSE => response s end.
Definition set_data_frame (w : frame_id) (f : dataFrame) (s : host) : host :=
  match w with STROBE => set_strobe f s | RESPONSE => set_response f s end.

(** One call of [comCallback]: the frame it was made for, the buffer
    address and the number of bytes. *)
Record tx_event : Type := Tx { tx_frame : frame_id; tx_addr : Z; tx_len : Z }.

(** Initial values of the file-scope variables. *)
Definition host_init (cfg : config) (m : mem) : host :=
  Host 0 [] None None 0
       0 0 0
       false true
       (DataFrame (LASSO_HOST_STROBE_PERIOD_TICKS cfg) 0 1 0 0 0 0 0)
       (DataFrame (LASSO_HOST_ROUNDTRIP_LATENCY_TICKS cfg) 0 0 0 0 0
                  (LASSO_HOST_RESPONSE_BUFFER_SIZE cfg) 0)
       (LASSO_HOST_STROBE_PERIOD_TICKS cfg) (LASSO_HOST_TICK_PERIOD_MS cfg)
       (LASSO_HOST_ROUNDTRIP_LATENCY_TICKS cfg)
       (LASSO_HOST_ADVERTISE_PERIOD_TICKS cfg)
       0
       COBS.COBS_ctrl_init ESCS.ESCS_ctrl_init
       m.

(** Bytes a cell occupies in the strobe: [count] elements of the byte
    width, a width code of 0 standing for one byte. *)
Definition cell_width (c : dataCell) : Z :=
  Z.land (type c) LASSO_DATACELL_BYTEWIDTH_MASK.
Definition cell_enabled (c : dataCell) : bool :=
  negb (Z.land (type c) LASSO_DATACELL_ENABLE =? 0).

Definition cell_bytes (c : dataCell) : Z :=
  if cell_width c =? 0 then count c else u32 (count c * cell_width c).

(** *** Registration *)

Section registration.
Variable cfg : config.

(** [lasso_hostRegisterDataCell].  [blk] is the result of
    [LASSO_HOST_MALLOC(sizeof(dataCell))]: [None] when the allocation
    fails, otherwise the content found in the fresh block. *)
Definition lasso_hostRegisterDataCell
    (type count ptr name unit onChange update_rate : Z)
    (blk : option dataCell) (s : host) : Z * host :=
  match blk with
  | None => (ENOMEM, s)
  | Some junk =>
      let dC := length (cells s) in
      let first := match dataCellFirst s with None => Some dC | f => f end in
      let heap := match dataCellLast s with
                  | Some l => alter (set_next (Some dC)) l (cells s)
                  | None => cells s
                  end in
      let s := set_dataCellLast (Some dC) (set_dataCellFirst first s) in
      let type := if LASSO_HOST_STROBE_EXTERNAL_SOURCE cfg
                  then Z.lor type LASSO_DATACELL_PERMANENT else type in
      let type := if negb (Z.land type LASSO_DATACELL_PERMANENT =? 0)
                  then Z.lor type LASSO_DATACELL_ENABLE else type in
      if negb (LASSO_HOST_STROBE_EXTERNAL_SOURCE cfg) && (ptr =? 0) then
        (EFAULT,
         set_cells (heap ++ [DataCell type count (Host.ptr junk) (Host.name junk)
                               (Host.unit junk) (Host.onChange junk)
                               (Host.update_rate junk) (next junk)]) s)
      else
        let rate := if is_DYNAMIC (LASSO_HOST_STROBE_DYNAMICS cfg)
                    then u32 (u32 (Z.shiftl update_rate 16) + update_rate)
                    else Z.shiftl 1 16 + 1 in
        let cell := DataCell type count ptr name unit onChange rate None in
        let s := set_cells (heap ++ [cell]) s in
        let dC_Bytes :=
          if negb (Z.land type LASSO_DATACELL_BYTEWIDTH_MASK =? 0)
          then u32 (count * Z.land type LASSO_DATACELL_BYTEWIDTH_MASK)
          else count in
        let s := upd_strobe (fun f => set_Bytes_max (u32 (Bytes_max f + dC_Bytes)) f) s in
        let s := if negb (Z.land type LASSO_DATACELL_ENABLE_MASK =? 0)
                 then upd_strobe (fun f => set_Bytes_total (u32 (Bytes_total f + dC_Bytes)) f) s
                 else s in
        (0, set_dataCellCount (u8 (dataCellCount s + 1)) s)
  end.

(** Rounding up to the alignment boundary. *)
Definition align_up (x : Z) : Z :=
  if negb (Z.land x (LASSO_MEMORY_ALIGN cfg - 1) =? 0)
  then u32 (Z.land x (Z.lnot (LASSO_MEMORY_ALIGN cfg - 1)) + LASSO_MEMORY_ALIGN cfg)
  else x.

(** A conditionally compiled or conditionally executed statement. *)
Definition when (b : bool) (f : host -> host) (s : host) : host :=
  if b then f s else s.

Definition add_Bytes_max (n : Z) (f : dataFrame) : dataFrame :=
  set_Bytes_max (u32 (Bytes_max f + n)) f.
Definition add_Bytes_total (n : Z) (f : dataFrame) : dataFrame :=
  set_Bytes_total (u32 (Bytes_total f + n)) f.

(** The first part of [lasso_hostRegisterMEM]: the final sizes of the
    strobe and of the response. *)
Definition registerMEM_sizes (s : host) : host :=
  let senc := LASSO_HOST_STROBE_ENCODING cfg in
  let cenc := LASSO_HOST_COMMAND_ENCODING cfg in
  let crcw := LASSO_HOST_CRC_BYTEWIDTH cfg in
  let dynamic := is_DYNAMIC (LASSO_HOST_STROBE_DYNAMICS cfg) in
  (* the "invalid" MessagePack code before an encoded strobe *)
  let s := when (is_ESCS senc || is_COBS senc)
             (upd_strobe (fun f => add_Bytes_total 1 (add_Bytes_max 1 f))) s in
  (* the mask bytes of dynamic strobing *)
  let s := when dynamic
             (fun s => set_dataCellMaskBytes
                         (u8 (Z.shiftr (dataCellCount s - 1) 3 + 1)) s) s in
  let s := when dynamic
             (fun s => upd_strobe
                         (fun f => add_Bytes_total (dataCellMaskBytes s)
                                     (add_Bytes_max (dataCellMaskBytes s) f)) s) s in
  (* the CRC of the strobe and of the response *)
  let s := when (LASSO_HOST_STROBE_CRC_ENABLE cfg)
             (upd_strobe (fun f => add_Bytes_total crcw (add_Bytes_max crcw f))) s in
  let s := when (LASSO_HOST_COMMAND_CRC_ENABLE cfg)
             (upd_response (add_Bytes_max crcw)) s in
  (* the overhead of the encodings *)
  let s := when (is_ESCS senc) (upd_strobe (add_Bytes_max 2)) s in
  let s := when (is_COBS senc) (upd_strobe (add_Bytes_max 3)) s in
  let s := when (is_ESCS cenc) (upd_response (add_Bytes_max 2)) s in
  let s := when (is_COBS cenc) (upd_response (add_Bytes_max 3)) s in
  let s := when (is_RN cenc) (upd_response (add_Bytes_max 2)) s in
  (* alignment *)
  let s := upd_strobe (fun f => set_Bytes_max (align_up (Bytes_max f)) f) s in
  let s := upd_response (fun f => set_Bytes_max (align_up (Bytes_max f)) f) s in
  (* twice the space for ESCS *)
  let s := when (is_ESCS senc)
             (upd_strobe (fun f => set_Bytes_max (u32 (Bytes_max f * 2)) f)) s in
  when (is_ESCS cenc)
    (upd_response (fun f => set_Bytes_max (u32 (Bytes_max f * 2)) f)) s.

(** [lasso_hostRegisterMEM].  The three arguments are the results of the
    three calls of [LASSO_HOST_MALLOC] (0 for a failed allocation). *)
Definition lasso_hostRegisterMEM (a_strobe a_response a_receive : Z) (s : host)
  : Z * host :=
  let senc := LASSO_HOST_STROBE_ENCODING cfg in
  let cenc := LASSO_HOST_COMMAND_ENCODING cfg in
  let external := LASSO_HOST_STROBE_EXTERNAL_SOURCE cfg in
  let s := registerMEM_sizes s in
  let s := when (negb external) (upd_strobe (set_buffer a_strobe)) s in
  if negb external && (a_strobe =? 0) then (ENOMEM, s)
  else
    let s := upd_response (set_buffer a_response) s in
    if a_response =? 0 then (ENOMEM, s)
    else
      let s := set_receiveBuffer a_receive s in
      if a_receive =? 0 then (ENOMEM, s)
      else
        let s := when (is_ESCS senc)
                   (upd_strobe (fun f => set_Bytes_max (Bytes_max f / 2) f)) s in
        let s := when (is_ESCS cenc)
                   (upd_response (fun f => set_Bytes_max (Bytes_max f / 2) f)) s in
        (0, s).

(** *** Seeking a cell *)

(** The loop of [lasso_hostSeekDatacell]; [num] counts down to zero.
    [None] stands for following a pointer that is not a cell. *)
Fixpoint seek_loop (heap : list dataCell) (num : nat) (dC : option nat) (pos : Z)
  : option (option nat * Z) :=
  match num, dC with
  | S k, Some i =>
      match heap !! i with
      | None => None
      | Some c =>
          let type := type c in
          let pos :=
            if negb (Z.land type LASSO_DATACELL_ENABLE =? 0) then
              let type := Z.land type LASSO_DATACELL_BYTEWIDTH_MASK in
              if negb (type =? 0) then u32 (pos + u32 (count c * type))
              else u32 (pos + count c)
            else pos in
          seek_loop heap k (next c) pos
      end
  | _, _ => Some (dC, pos)
  end.

(** [lasso_hostSeekDatacell num &bytepos]: the cell and [bytepos]. *)
Definition lasso_hostSeekDatacell (num : Z) (s : host) : option (option nat * Z) :=
  seek_loop (cells s) (Z.to_nat num) (dataCellFirst s) 0.

(** *** Receiving *)

Definition lasso_hostReceiveByte (b : Z) (s : host) : Z * host :=
  if receiveBufferIndex s <? LASSO_HOST_COMMAND_BUFFER_SIZE cfg then
    match LASSO_HOST_COMMAND_ENCODING cfg with
    | LASSO_ENCODING_RN =>
        if b =? 10 then
          if receiveBufferIndex s =? 0 then (ENODATA, s)
          else if memory s (receiveBuffer s + (receiveBufferIndex s - 1)) =? 13 then
            (0, set_receiveBufferIndex 0
                  (upd_response (set_valid (receiveBufferIndex s)) s))
          else (EILSEQ, set_receiveBufferIndex 0 s)
        else if valid (response s) =? 0 then
          (0, set_receiveTimeout (LASSO_HOST_COMMAND_TIMEOUT_TICKS cfg)
                (set_receiveBufferIndex (u8 (receiveBufferIndex s + 1))
                   (set_memory (store (memory s)
                                  (receiveBuffer s + receiveBufferIndex s) b) s)))
        else (ENOSPC, set_receiveBufferIndex 0 s)
    | LASSO_ENCODING_COBS =>
        if valid (response s) =? 0 then
          let '(r, st, m) :=
            COBS.COBS_decode_inline b (receiveBuffer s)
              (u8 (LASSO_HOST_COMMAND_BUFFER_SIZE cfg)) (COBS_ctrl s) (memory s) in
          (0, set_memory m (set_COBS_ctrl st (upd_response (set_valid r) s)))
        else (ENOSPC, s)
    | _ =>
        if valid (response s) =? 0 then
          let '(r, st, m) :=
            ESCS.ESCS_decode_inline b (receiveBuffer s)
              (u8 (LASSO_HOST_COMMAND_BUFFER_SIZE cfg)) (ESCS_ctrl s) (memory s) in
          (0, set_memory m (set_ESCS_ctrl st (upd_response (set_valid r) s)))
        else (ENOSPC, s)
    end
  else (EOVERFLOW, set_receiveBufferIndex 0 s).

(** Feeding a sequence of bytes, one call per byte: the codes returned. *)
Fixpoint receive_bytes (bs : list Z) (s : host) : list Z * host :=
  match bs with
  | [] => ([], s)
  | b :: bs' =>
      let '(r, s') := lasso_hostReceiveByte b s in
      let '(rs, s'') := receive_bytes bs' s' in
      (r :: rs, s'')
  end.

(** *** External synchronization *)

Definition lasso_hostCountdown (count : Z) (s : host) : host :=
  if count >? countdown (strobe s)
  then upd_strobe (set_countdown 0) s
  else upd_strobe (set_countdown (u16 (countdown (strobe s) - count))) s.

(** [lasso_hostSetBuffer]. *)
Definition lasso_hostSetBuffer (buffer : Z) (s : host) : host :=
  upd_strobe (set_buffer buffer) s.

(** [lasso_hostTickPeriod].  The function computes the three 16-bit
    values from [period] in floating point; they are taken as given. *)
Definition lasso_hostTickPeriod (tick_period advertise_ticks roundtrip_ticks : Z)
    (s : host) : host :=
  set_lasso_roundtrip_latency_ticks roundtrip_ticks
    (set_lasso_advertise_period_ticks advertise_ticks
       (set_lasso_tick_period tick_period s)).

End registration.



(** *** Bit operations on type codes *)

Lemma Z_land_le (a b : Z) : 0 <= b -> Z.land a b <= b.
Proof.
  intros Hb.
  assert (Z.land a b + Z.ldiff b a = b) as H.
  { rewrite Z.add_nocarry_lor.
    - apply Z.bits_inj'. intros n Hn.
      rewrite Z.lor_spec, Z.land_spec, Z.ldiff_spec.
      by destruct (Z.testbit a n), (Z.testbit b n).
    - apply Z.bits_inj'. intros n Hn.
      rewrite !Z.land_spec, Z.ldiff_spec, Z.bits_0.
      by destruct (Z.testbit a n), (Z.testbit b n). }
  assert (0 <= Z.ldiff b a) by (apply Z.ldiff_nonneg; lia).
  lia.
Qed.

Lemma Z_land_range (a b : Z) : 0 <= b -> 0 <= Z.land a b <= b.
Proof.
  intros Hb. split; [apply Z.land_nonneg; lia | by apply Z_land_le].
Qed.

Lemma Z_lor_u16 (a b : Z) : is_u16 a -> is_u16 b -> is_u16 (Z.lor a b).
Proof.
  unfold is_u16. intros Ha Hb.
  split; [apply Z.lor_nonneg; lia|].
  destruct (Z.eq_dec (Z.lor a b) 0) as [->|Hne]; [lia|].
  assert (0 <= Z.lor a b) by (apply Z.lor_nonneg; lia).
  change 65536 with (2 ^ 16).
  apply Z.log2_lt_pow2; [lia|].
  rewrite Z.log2_lor by lia.
  apply Z.max_lub_lt.
  - destruct (Z.eq_dec a 0) as [->|?]; [done|]. apply Z.log2_lt_pow2; lia.
  - destruct (Z.eq_dec b 0) as [->|?]; [done|]. apply Z.log2_lt_pow2; lia.
Qed.

Lemma type_enable_width (t : Z) :
  Z.land (Z.lor t LASSO_DATACELL_ENABLE_MASK) LASSO_DATACELL_BYTEWIDTH_MASK =
  Z.land t LASSO_DATACELL_BYTEWIDTH_MASK.
Proof. rewrite Z.land_lor_distr_l. simpl (Z.land 1 14). apply Z.lor_0_r. Qed.

Lemma type_enable_bit (t : Z) :
  Z.land (Z.lor t LASSO_DATACELL_ENABLE_MASK) LASSO_DATACELL_ENABLE <> 0.
Proof.
  rewrite Z.land_lor_distr_l. simpl (Z.land 1 1).
  intros H. apply Z.lor_eq_0_iff in H as [_ H]. discriminate.
Qed.

Lemma type_disable_width (t : Z) :
  Z.land (Z.land t LASSO_DATACELL_DISABLE_MASK) LASSO_DATACELL_BYTEWIDTH_MASK =
  Z.land t LASSO_DATACELL_BYTEWIDTH_MASK.
Proof. by rewrite <- Z.land_assoc. Qed.

Lemma type_disable_bit (t : Z) :
  Z.land (Z.land t LASSO_DATACELL_DISABLE_MASK) LASSO_DATACELL_ENABLE = 0.
Proof. rewrite <- Z.land_assoc. apply Z.land_0_r. Qed.

Lemma type_permanent_width (t : Z) :
  Z.land (Z.lor t LASSO_DATACELL_PERMANENT) LASSO_DATACELL_BYTEWIDTH_MASK =
  Z.land t LASSO_DATACELL_BYTEWIDTH_MASK.
Proof. rewrite Z.land_lor_distr_l. simpl (Z.land 512 14). apply Z.lor_0_r. Qed.

(** *** The active data space *)

(** Size of a cell in the strobe: [count] times the byte width, a width
    code of 0 counting as 1. *)
Definition cell_size (c : dataCell) : Z := count c * Z.max (cell_width c) 1.

(** Sum of the sizes of the enabled cells of a list. *)
Fixpoint active_bytes (l : list dataCell) : Z :=
  match l with
  | [] => 0
  | c :: t => (if cell_enabled c then cell_size c else 0) + active_bytes t
  end.

Definition cell_ok (c : dataCell) : Prop := is_u16 (type c) /\ is_u16 (count c).

Lemma cell_width_range (c : dataCell) : 0 <= cell_width c <= 14.
Proof. apply Z_land_range. done. Qed.

Lemma cell_size_range (c : dataCell) : cell_ok c -> 0 <= cell_size c <= 917490.
Proof.
  intros [_ Hc]. unfold cell_size, is_u16 in *.
  pose proof (cell_width_range c). nia.
Qed.

Lemma active_bytes_app (l1 l2 : list dataCell) :
  active_bytes (l1 ++ l2) = active_bytes l1 + active_bytes l2.
Proof. induction l1 as [|c l1 IH]; simpl; lia. Qed.

Lemma active_bytes_range (l : list dataCell) :
  Forall cell_ok l -> 0 <= active_bytes l <= 917490 * Z.of_nat (length l).
Proof.
  induction 1 as [|c l Hc _ IH]; simpl; [lia|].
  pose proof (cell_size_range c Hc). destruct (cell_enabled c); lia.
Qed.

Lemma active_bytes_insert (l : list dataCell) (i : nat) (c c' : dataCell) :
  l !! i = Some c ->
  active_bytes (<[i := c']> l) =
  active_bytes l - (if cell_enabled c then cell_size c else 0)
                 + (if cell_enabled c' then cell_size c' else 0).
Proof.
  revert i. induction l as [|x l IH]; intros [|i] H; simpl in *; try done.
  - inversion H. lia.
  - rewrite (IH i H). lia.
Qed.

Lemma active_bytes_take_S (l : list dataCell) (i : nat) (c : dataCell) :
  l !! i = Some c ->
  active_bytes (take (S i) l) =
  active_bytes (take i l) + (if cell_enabled c then cell_size c else 0).
Proof.
  intros H. rewrite (take_S_r l i c H), active_bytes_app. simpl. lia.
Qed.

(** Changing [next] or [ptr] of a cell changes neither its size nor its
    enable bit. *)
Lemma active_bytes_alter_next (l : list dataCell) (i : nat) (n : option nat) :
  active_bytes (alter (set_next n) i l) = active_bytes l.
Proof.
  revert i. induction l as [|x l IH]; intros [|i]; simpl; try done.
  f_equal. apply IH.
Qed.

(** The sum that [lasso_hostSeekDatacell] accumulates for one cell. *)
Lemma cell_bytes_size (c : dataCell) :
  cell_ok c ->
  (if negb (cell_width c =? 0) then u32 (count c * cell_width c) else count c)
  = cell_size c.
Proof.
  intros [_ Hc]. unfold cell_size, is_u16 in *. pose proof (cell_width_range c).
  destruct (Z.eqb_spec (cell_width c) 0) as [->|Hw]; simpl.
  - lia.
  - unfold u32. rewrite Z.mod_small by nia. lia.
Qed.

(** *** The chain of registered cells *)

(** The arguments of one call of [lasso_hostRegisterDataCell]. *)
Record registration : Type := Registration {
  reg_type : Z;
  reg_count : Z;
  reg_ptr : Z;
  reg_name : Z;
  reg_unit : Z;
  reg_onChange : Z;
  reg_update_rate : Z
}.

Definition register (cfg : config) (r : registration) (blk : option dataCell)
    (s : host) : Z * host :=
  lasso_hostRegisterDataCell cfg (reg_type r) (reg_count r) (reg_ptr r)
    (reg_name r) (reg_unit r) (reg_onChange r) (reg_update_rate r) blk s.

(** The arguments are of their C types and the pointer to the memory cell
    is given (or the strobe has an external source). *)
Definition registration_ok (cfg : config) (r : registration) : Prop :=
  is_u16 (reg_type r) /\ is_u16 (reg_count r) /\
  (LASSO_HOST_STROBE_EXTERNAL_SOURCE cfg = true \/ reg_ptr r <> 0).

(** The heap is one chain in the order of allocation: every cell points to
    the one allocated next and the last cell to [NULL]. *)
Definition chain_ok (heap : list dataCell) : Prop :=
  forall (i : nat) (c : dataCell),
    heap !! i = Some c ->
    next c = if (S i <? length heap)%nat then Some (S i) else None.

(** The cell [c] is the one made by the registration [r]. *)
Definition registered (c : dataCell) (r : registration) : Prop :=
  cell_ok c /\ count c = reg_count r /\ name c = reg_name r /\
  unit c = reg_unit r /\ onChange c = reg_onChange r /\
  cell_width c = Z.land (reg_type r) LASSO_DATACELL_BYTEWIDTH_MASK.

(** Bytes of a strobe besides the cells: the MessagePack disambiguator of
    an encoded strobe, the mask of dynamic strobing, the CRC. *)
Definition strobe_overhead (cfg : config) (s : host) : Z :=
  (if is_ESCS (LASSO_HOST_STROBE_ENCODING cfg) || is_COBS (LASSO_HOST_STROBE_ENCODING cfg)
   then 1 else 0)
  + (if is_DYNAMIC (LASSO_HOST_STROBE_DYNAMICS cfg) then dataCellMaskBytes s else 0)
  + (if LASSO_HOST_STROBE_CRC_ENABLE cfg then LASSO_HOST_CRC_BYTEWIDTH cfg else 0).

(** The strobe size law, before ([planned = false]) and after
    [lasso_hostRegisterMEM]. *)
Definition strobe_size_law (cfg : config) (planned : bool) (s : host) : Prop :=
  Bytes_total (strobe s) =
  u32 (active_bytes (cells s) + (if planned then strobe_overhead cfg s else 0)).

(** What registration and the commands maintain. *)
Record registry_inv (cfg : config) (planned : bool) (regs : list registration)
    (s : host) : Prop := RegistryInv {
  inv_first : dataCellFirst s = match cells s with [] => None | _ => Some 0%nat end;
  inv_last : dataCellLast s = match length (cells s) with O => None | S n => Some n end;
  inv_chain : chain_ok (cells s);
  inv_cells : Forall2 registered (cells s) regs;
  inv_mask : is_u8 (dataCellMaskBytes s);
  inv_law : strobe_size_law cfg planned s
}.

(** States that agree on the registry and on [strobe.Bytes_total]. *)
Definition same_registry (s s' : host) : Prop :=
  cells s' = cells s /\ dataCellFirst s' = dataCellFirst s /\
  dataCellLast s' = dataCellLast s /\ dataCellMaskBytes s' = dataCellMaskBytes s /\
  Bytes_total (strobe s') = Bytes_total (strobe s).

Lemma same_registry_refl (s : host) : same_registry s s.
Proof. by repeat split. Qed.

Lemma same_registry_trans (s1 s2 s3 : host) :
  same_registry s1 s2 -> same_registry s2 s3 -> same_registry s1 s3.
Proof.
  intros (? & ? & ? & ? & ?) (? & ? & ? & ? & ?). repeat split; congruence.
Qed.

Lemma registry_inv_same (cfg : config) (b : bool) (regs : list registration)
    (s s' : host) :
  registry_inv cfg b regs s -> same_registry s s' -> registry_inv cfg b regs s'.
Proof.
  intros [H1 H2 H3 H4 H5 H6] (E1 & E2 & E3 & E4 & E5).
  split; unfold strobe_size_law, strobe_overhead in *; rewrite ?E1, ?E2, ?E3, ?E4, ?E5; done.
Qed.

Lemma registered_cell_ok (l : list dataCell) (regs : list registration) :
  Forall2 registered l regs -> Forall cell_ok l.
Proof. induction 1 as [|c r l regs [H _] _ IH]; by constructor. Qed.

(** The sum that one round of the loop adds to [pos]. *)
Definition seek_step (c : dataCell) (pos : Z) : Z :=
  if negb (Z.land (type c) LASSO_DATACELL_ENABLE =? 0) then
    let type := Z.land (type c) LASSO_DATACELL_BYTEWIDTH_MASK in
    if negb (type =? 0) then u32 (pos + u32 (count c * type))
    else u32 (pos + count c)
  else pos.

Lemma seek_loop_S (heap : list dataCell) (n k : nat) (pos : Z) (c : dataCell) :
  heap !! k = Some c ->
  seek_loop heap (S n) (Some k) pos = seek_loop heap n (next c) (seek_step c pos).
Proof. intros H. simpl. by rewrite H. Qed.

Lemma seek_step_size (c : dataCell) (pos : Z) :
  cell_ok c -> 0 <= pos ->
  pos + (if cell_enabled c then cell_size c else 0) < 4294967296 ->
  seek_step c pos = pos + (if cell_enabled c then cell_size c else 0).
Proof.
  intros Hcok Hpos Hsum. unfold seek_step, cell_enabled in *.
  pose proof (cell_size_range c Hcok) as Hsz.
  pose proof (cell_bytes_size c Hcok) as Hb. unfold cell_width in Hb.
  destruct (negb (Z.land (type c) LASSO_DATACELL_ENABLE =? 0)); [|lia].
  cbv zeta. destruct (negb (Z.land (type c) LASSO_DATACELL_BYTEWIDTH_MASK =? 0));
    rewrite Hb; unfold u32; rewrite Z.mod_small by lia; done.
Qed.

Lemma seek_loop_chain (heap : list dataCell) :
  chain_ok heap -> Forall cell_ok heap ->
  forall (n k : nat) (pos : Z),
    (k < length heap)%nat -> 0 <= pos ->
    pos + active_bytes (take n (drop k heap)) < 4294967296 ->
    seek_loop heap n (Some k) pos =
    Some (if (k + n <? length heap)%nat then Some (k + n)%nat else None,
          pos + active_bytes (take n (drop k heap))).
Proof.
  intros Hchain Hok. induction n as [|n IH]; intros k pos Hk Hpos Hsum.
  - simpl. rewrite Nat.add_0_r. apply Nat.ltb_lt in Hk as ->.
    do 2 f_equal. lia.
  - destruct (lookup_lt_is_Some_2 heap k Hk) as [c Hc].
    assert (cell_ok c) as Hcok by (eapply Forall_lookup_1; eauto).
    rewrite (drop_S heap c k Hc) in *. simpl take in *. simpl active_bytes in *.
    assert (0 <= active_bytes (take n (drop (S k) heap))) as Hrest.
    { apply active_bytes_range. apply Forall_take, Forall_drop, Hok. }
    pose proof (cell_size_range c Hcok) as Hsz.
    rewrite (seek_loop_S heap n k pos c Hc).
    rewrite seek_step_size by (done || destruct (cell_enabled c); lia).
    rewrite (Hchain k c Hc).
    destruct (S k <? length heap)%nat eqn:Hlt.
    + apply Nat.ltb_lt in Hlt. rewrite IH; try lia.
      * replace (S k + n)%nat with (k + S n)%nat by lia. do 2 f_equal. lia.
      * destruct (cell_enabled c); lia.
    + apply Nat.ltb_ge in Hlt.
      rewrite (drop_ge heap (S k)) in * by lia. rewrite take_nil. simpl.
      replace (k + S n <? length heap)%nat with false
        by (symmetry; apply Nat.ltb_ge; lia).
      destruct n; simpl; do 2 f_equal; lia.
Qed.

(** [lasso_hostSeekDatacell] on a registry that satisfies the invariant. *)
Lemma seek_registry (cfg : config) (b : bool) (regs : list registration)
    (s : host) (num : Z) :
  registry_inv cfg b regs s -> 0 <= num <= 255 ->
  lasso_hostSeekDatacell num s =
  Some (if (Z.to_nat num <? length (cells s))%nat then Some (Z.to_nat num) else None,
        active_bytes (take (Z.to_nat num) (cells s))).
Proof.
  intros [H1 H2 H3 H4 H5 H6] Hnum. unfold lasso_hostSeekDatacell. rewrite H1.
  pose proof (registered_cell_ok _ _ H4) as Hok.
  destruct (cells s) as [|c l] eqn:Hcells.
  - simpl. rewrite take_nil. by destruct (Z.to_nat num).
  - rewrite <- Hcells in *. rewrite seek_loop_chain; try done.
    + rewrite Hcells. simpl. lia.
    + change (drop 0 (cells s)) with (cells s).
      assert (Forall cell_ok (take (Z.to_nat num) (cells s))) as Ht by by apply Forall_take.
      pose proof (active_bytes_range _ Ht) as Hr.
      rewrite length_take in Hr. lia.
Qed.

(** *** The invariant under registration and memory planning *)

Lemma registry_inv_init (cfg : config) (m : mem) :
  registry_inv cfg false [] (host_init cfg m).
Proof. split; try done. Qed.

Lemma u32_add_l (a b : Z) : u32 (u32 a + b) = u32 (a + b).
Proof. unfold u32. apply Z.add_mod_idemp_l. done. Qed.

Lemma u32_sub_l (a b : Z) : u32 (u32 a - b) = u32 (a - b).
Proof. unfold u32. apply Zminus_mod_idemp_l. Qed.

Lemma registered_set_next (c : dataCell) (r : registration) (n : option nat) :
  registered c r -> registered (set_next n c) r.
Proof. done. Qed.

(** A registration with a memory cell succeeds and keeps the invariant;
    the new cell is the last of the chain. *)
Lemma registry_inv_register (cfg : config) (b : bool) (regs : list registration)
    (s : host) (r : registration) (junk : dataCell) :
  registry_inv cfg b regs s -> registration_ok cfg r ->
  (register cfg r (Some junk) s).1 = 0 /\
  registry_inv cfg b (regs ++ [r]) (register cfg r (Some junk) s).2.
Proof.
  intros [H1 H2 H3 H4 H5 H6] (Ht & Hc & Hp).
  unfold register, lasso_hostRegisterDataCell.
  set (t0 := if LASSO_HOST_STROBE_EXTERNAL_SOURCE cfg
             then Z.lor (reg_type r) LASSO_DATACELL_PERMANENT else reg_type r).
  set (t := if negb (Z.land t0 LASSO_DATACELL_PERMANENT =? 0)
            then Z.lor t0 LASSO_DATACELL_ENABLE else t0).
  assert (is_u16 t /\ Z.land t LASSO_DATACELL_BYTEWIDTH_MASK
                      = Z.land (reg_type r) LASSO_DATACELL_BYTEWIDTH_MASK) as [Htu Htw].
  { assert (is_u16 t0 /\ Z.land t0 LASSO_DATACELL_BYTEWIDTH_MASK
                        = Z.land (reg_type r) LASSO_DATACELL_BYTEWIDTH_MASK) as [? ?].
    { unfold t0. destruct (LASSO_HOST_STROBE_EXTERNAL_SOURCE cfg); [|done].
      split; [by apply Z_lor_u16 | apply type_permanent_width]. }
    unfold t. destruct (negb (Z.land t0 LASSO_DATACELL_PERMANENT =? 0)); [|done].
    split; [by apply Z_lor_u16|]. by rewrite type_enable_width. }
  replace (negb (LASSO_HOST_STROBE_EXTERNAL_SOURCE cfg) && (reg_ptr r =? 0)) with false.
  2: { destruct Hp as [->|Hp]; [done|]. apply Z.eqb_neq in Hp as ->.
       by destruct (LASSO_HOST_STROBE_EXTERNAL_SOURCE cfg). }
  set (rate := if is_DYNAMIC (LASSO_HOST_STROBE_DYNAMICS cfg)
               then u32 (u32 (Z.shiftl (reg_update_rate r) 16) + reg_update_rate r)
               else Z.shiftl 1 16 + 1).
  set (cell := DataCell t (reg_count r) (reg_ptr r) (reg_name r) (reg_unit r)
                 (reg_onChange r) rate None).
  set (heap := match dataCellLast s with
               | Some l => alter (set_next (Some (length (cells s)))) l (cells s)
               | None => cells s
               end).
  assert (cell_ok cell) as Hcok by done.
  assert (length heap = length (cells s)) as Hlen.
  { unfold heap. destruct (dataCellLast s); [apply length_alter|done]. }
  assert (active_bytes heap = active_bytes (cells s)) as Hact.
  { unfold heap. destruct (dataCellLast s); [apply active_bytes_alter_next|done]. }
  set (size := if negb (Z.land t LASSO_DATACELL_BYTEWIDTH_MASK =? 0)
               then u32 (reg_count r * Z.land t LASSO_DATACELL_BYTEWIDTH_MASK)
               else reg_count r).
  assert (size = cell_size cell) as Hsize by (apply (cell_bytes_size cell Hcok)).
  cbv zeta.
  match goal with |- context [if ?c then _ else _] =>
    lazymatch c with negb (Z.land t LASSO_DATACELL_ENABLE_MASK =? 0) =>
      destruct c eqn:Hen end end.
  all: split; [reflexivity|].
  all: split; simpl.
  (* first *)
  1,7: rewrite H1; destruct (cells s) eqn:E; [by destruct heap|];
       by destruct (heap ++ [cell]) eqn:E'; [destruct heap|].
  (* last *)
  1,6: by rewrite length_app, Hlen, Nat.add_comm.
  (* chain *)
  1,5: intros i c Hi; rewrite length_app, Hlen; simpl;
       destruct (decide (i < length (cells s))%nat) as [Hlt|Hge];
       [ rewrite lookup_app_l in Hi by lia;
         replace (S i <? length (cells s) + 1)%nat with true
           by (symmetry; apply Nat.ltb_lt; lia);
         unfold heap in Hi; rewrite H2 in Hi;
         destruct (length (cells s)) as [|m] eqn:Em; [lia|];
         destruct (decide (i = m)) as [->|Hne];
         [ rewrite list_lookup_alter_eq in Hi;
           destruct (cells s !! m); [|done]; by inversion Hi
         | rewrite list_lookup_alter_ne in Hi by done;
           rewrite (H3 i c Hi), Em;
           by replace (S i <? S m)%nat with true by (symmetry; apply Nat.ltb_lt; lia) ]
       | rewrite lookup_app_r in Hi by lia;
         replace (S i <? length (cells s) + 1)%nat with false
           by (symmetry; apply Nat.ltb_ge; lia);
         rewrite Hlen in Hi; rewrite list_lookup_singleton in Hi;
         destruct (i - length (cells s))%nat; [by inversion Hi|done] ].
  (* cells *)
  1,4: apply Forall2_app;
       [|apply Forall2_cons; [by repeat (split; [done|]) | constructor]];
       unfold heap; destruct (dataCellLast s); [|done];
       apply Forall2_alter_l; [done|]; intros; by apply registered_set_next.
  (* mask *)
  1,3: done.
  (* law *)
  - unfold strobe_size_law in *. simpl. rewrite H6, active_bytes_app, Hact. simpl.
    fold size. unfold cell_enabled. simpl type.
    change LASSO_DATACELL_ENABLE with LASSO_DATACELL_ENABLE_MASK. rewrite Hen.
    rewrite Hsize, u32_add_l. f_equal. unfold strobe_overhead. simpl. lia.
  - unfold strobe_size_law in *. simpl. rewrite H6, active_bytes_app, Hact. simpl.
    unfold cell_enabled. simpl type.
    change LASSO_DATACELL_ENABLE with LASSO_DATACELL_ENABLE_MASK. rewrite Hen.
    f_equal. unfold strobe_overhead. simpl. lia.
Qed.

Lemma when_cells (b : bool) (f : host -> host) (s : host) :
  (forall x, cells (f x) = cells x) -> cells (when b f s) = cells s.
Proof. intros H. destruct b; [apply H|done]. Qed.

Lemma when_dataCellFirst (b : bool) (f : host -> host) (s : host) :
  (forall x, dataCellFirst (f x) = dataCellFirst x) ->
  dataCellFirst (when b f s) = dataCellFirst s.
Proof. intros H. destruct b; [apply H|done]. Qed.

Lemma when_dataCellLast (b : bool) (f : host -> host) (s : host) :
  (forall x, dataCellLast (f x) = dataCellLast x) ->
  dataCellLast (when b f s) = dataCellLast s.
Proof. intros H. destruct b; [apply H|done]. Qed.

Lemma when_dataCellMaskBytes (b : bool) (f : host -> host) (s : host) :
  (forall x, dataCellMaskBytes (f x) = dataCellMaskBytes x) ->
  dataCellMaskBytes (when b f s) = dataCellMaskBytes s.
Proof. intros H. destruct b; [apply H|done]. Qed.

Lemma when_dataCellCount (b : bool) (f : host -> host) (s : host) :
  (forall x, dataCellCount (f x) = dataCellCount x) ->
  dataCellCount (when b f s) = dataCellCount s.
Proof. intros H. destruct b; [apply H|done]. Qed.

Lemma when_Bytes_total (b : bool) (f : host -> host) (s : host) :
  (forall x, Bytes_total (strobe (f x)) = Bytes_total (strobe x)) ->
  Bytes_total (strobe (when b f s)) = Bytes_total (strobe s).
Proof. intros H. destruct b; [apply H|done]. Qed.

(** Equations between sums whose parts are reduced modulo 2^32. *)
Ltac u32_lia := unfold u32; Z.to_euclidean_division_equations; lia.

Ltac when_simpl :=
  repeat first
    [ rewrite when_cells by done
    | rewrite when_dataCellFirst by done
    | rewrite when_dataCellLast by done
    | rewrite when_dataCellMaskBytes by done
    | rewrite when_dataCellCount by done
    | rewrite when_Bytes_total by done
    | progress simpl ].

(** The sizes computed by [lasso_hostRegisterMEM] add the overhead to the
    sum of the enabled cells. *)
Lemma registry_inv_sizes (cfg : config) (regs : list registration) (s : host) :
  registry_inv cfg false regs s ->
  registry_inv cfg true regs (registerMEM_sizes cfg s).
Proof.
  intros [H1 H2 H3 H4 H5 H6]. unfold registerMEM_sizes. cbv zeta.
  split.
  - by when_simpl.
  - by when_simpl.
  - by when_simpl.
  - by when_simpl.
  - when_simpl.
    destruct (is_DYNAMIC (LASSO_HOST_STROBE_DYNAMICS cfg)); when_simpl; [|done].
    unfold is_u8, u8. apply Z.mod_pos_bound. done.
  - unfold strobe_size_law, strobe_overhead in *. when_simpl.
    destruct (LASSO_HOST_STROBE_CRC_ENABLE cfg),
             (is_DYNAMIC (LASSO_HOST_STROBE_DYNAMICS cfg)),
             (is_ESCS (LASSO_HOST_STROBE_ENCODING cfg)
              || is_COBS (LASSO_HOST_STROBE_ENCODING cfg));
      simpl; unfold add_Bytes_total; simpl; rewrite H6;
      repeat (rewrite u32_add_l || rewrite <- Z.add_assoc); f_equal; lia.
Qed.

Lemma registerMEM_same_registry (cfg : config) (a1 a2 a3 : Z) (s : host) :
  same_registry (registerMEM_sizes cfg s) (lasso_hostRegisterMEM cfg a1 a2 a3 s).2.
Proof.
  unfold lasso_hostRegisterMEM. cbv zeta.
  generalize (registerMEM_sizes cfg s). intros s1.
  repeat match goal with |- context [if ?c then (_, _) else _] => destruct c end;
    repeat split; by when_simpl.
Qed.

(** [lasso_hostRegisterMEM] turns the law without overhead into the law
    with overhead, whether the allocations succeed or not. *)
Lemma registry_inv_registerMEM (cfg : config) (regs : list registration)
    (a1 a2 a3 : Z) (s : host) :
  registry_inv cfg false regs s ->
  registry_inv cfg true regs (lasso_hostRegisterMEM cfg a1 a2 a3 s).2.
Proof.
  intros H. eapply registry_inv_same; [by apply registry_inv_sizes|].
  apply registerMEM_same_registry.
Qed.

Lemma receiveByte_same_registry (cfg : config) (x : Z) (s : host) :
  same_registry s (lasso_hostReceiveByte cfg x s).2.
Proof.
  unfold lasso_hostReceiveByte.
  destruct (receiveBufferIndex s <? LASSO_HOST_COMMAND_BUFFER_SIZE cfg); [|done].
  destruct (LASSO_HOST_COMMAND_ENCODING cfg).
  - destruct (valid (response s) =? 0); [|done].
    by destruct (ESCS.ESCS_decode_inline _ _ _ _ _) as [[? ?] ?].
  - repeat match goal with |- context [if ?c then _ else _] => destruct c end; done.
  - destruct (valid (response s) =? 0); [|done].
    by destruct (COBS.COBS_decode_inline _ _ _ _ _) as [[? ?] ?].
  - destruct (valid (response s) =? 0); [|done].
    by destruct (ESCS.ESCS_decode_inline _ _ _ _ _) as [[? ?] ?].
Qed.


(** *** Properties of reception and of the external synchronization *)

(** C8 (amended).  In RN command encoding a call of
    [lasso_hostReceiveByte] with ['\n'], made when the receive buffer is
    neither empty nor full and the byte stored last is not ['\r'], resets
    the receive buffer index to zero and returns [EILSEQ]; nothing else
    changes.  With an empty buffer the call returns [ENODATA] and with a
    full buffer [EOVERFLOW]; the index is zero after the call in each
    case. *)
Theorem C8_illegal_newline (cfg : config) (s : host) :
  LASSO_HOST_COMMAND_ENCODING cfg = LASSO_ENCODING_RN ->
  (0 < receiveBufferIndex s < LASSO_HOST_COMMAND_BUFFER_SIZE cfg ->
   memory s (receiveBuffer s + (receiveBufferIndex s - 1)) <> 13 ->
   lasso_hostReceiveByte cfg 10 s = (EILSEQ, set_receiveBufferIndex 0 s)) /\
  (receiveBufferIndex s = 0 -> 0 < LASSO_HOST_COMMAND_BUFFER_SIZE cfg ->
   lasso_hostReceiveByte cfg 10 s = (ENODATA, s)) /\
  (LASSO_HOST_COMMAND_BUFFER_SIZE cfg <= receiveBufferIndex s ->
   lasso_hostReceiveByte cfg 10 s = (EOVERFLOW, set_receiveBufferIndex 0 s)).
Proof.
  intros Henc. unfold lasso_hostReceiveByte. rewrite Henc.
  split; [|split].
  - intros Hidx Hprev.
    replace (receiveBufferIndex s <? LASSO_HOST_COMMAND_BUFFER_SIZE cfg) with true
      by (symmetry; apply Z.ltb_lt; lia).
    replace (receiveBufferIndex s =? 0) with false by (symmetry; apply Z.eqb_neq; lia).
    by apply Z.eqb_neq in Hprev as ->.
  - intros Hidx Hsz. rewrite Hidx.
    replace (0 <? LASSO_HOST_COMMAND_BUFFER_SIZE cfg) with true
      by (symmetry; apply Z.ltb_lt; lia).
    done.
  - intros Hidx.
    replace (receiveBufferIndex s <? LASSO_HOST_COMMAND_BUFFER_SIZE cfg) with false
      by (symmetry; apply Z.ltb_ge; lia).
    done.
Qed.

(** The same for two calls in a row: a byte other than ['\r'] and ['\n']
    that is accepted into the buffer without filling it, then ['\n']. *)
Lemma receive_newline_after_stored_byte (cfg : config) (p : Z) (s : host) :
  LASSO_HOST_COMMAND_ENCODING cfg = LASSO_ENCODING_RN ->
  p <> 10 -> p <> 13 -> valid (response s) = 0 ->
  0 <= receiveBufferIndex s -> 
  receiveBufferIndex s + 1 < LASSO_HOST_COMMAND_BUFFER_SIZE cfg ->
  LASSO_HOST_COMMAND_BUFFER_SIZE cfg <= 256 ->
  exists s',
    receive_bytes cfg [p; 10] s = ([0; EILSEQ], s') /\ receiveBufferIndex s' = 0.
Proof.
  intros Henc Hp10 Hp13 Hv Hi0 Hi1 Hsz. simpl.
  assert (lasso_hostReceiveByte cfg p s =
          (0, set_receiveTimeout (LASSO_HOST_COMMAND_TIMEOUT_TICKS cfg)
                (set_receiveBufferIndex (receiveBufferIndex s + 1)
                   (set_memory (store (memory s)
                                  (receiveBuffer s + receiveBufferIndex s) p) s)))) as ->.
  { unfold lasso_hostReceiveByte. rewrite Henc, Hv.
    replace (receiveBufferIndex s <? LASSO_HOST_COMMAND_BUFFER_SIZE cfg) with true
      by (symmetry; apply Z.ltb_lt; lia).
    apply Z.eqb_neq in Hp10 as ->. simpl.
    unfold u8. by rewrite Z.mod_small by lia. }
  destruct (C8_illegal_newline cfg
              (set_receiveTimeout (LASSO_HOST_COMMAND_TIMEOUT_TICKS cfg)
                (set_receiveBufferIndex (receiveBufferIndex s + 1)
                   (set_memory (store (memory s)
                                  (receiveBuffer s + receiveBufferIndex s) p) s))) Henc)
    as [H _].
  rewrite H.
  - by eexists.
  - simpl. lia.
  - simpl. replace (receiveBufferIndex s + 1 - 1) with (receiveBufferIndex s) by lia.
    by rewrite store_eq.
Qed.

(** C9.  [lasso_hostCountdown] subtracts [count] from [strobe.countdown]
    when [count <= strobe.countdown] and sets it to 0 otherwise; the result
    never exceeds the former value, so the 16-bit subtraction does not wrap
    around.  Nothing but [strobe.countdown] changes. *)
Theorem C9_countdown_saturates (count : Z) (s : host) :
  is_u16 count -> is_u16 (countdown (strobe s)) ->
  lasso_hostCountdown count s =
    upd_strobe
      (set_countdown (if count <=? countdown (strobe s)
                      then countdown (strobe s) - count else 0)) s /\
  0 <= countdown (strobe (lasso_hostCountdown count s)) <= countdown (strobe s).
Proof.
  unfold is_u16, lasso_hostCountdown. intros Hc Hs.
  destruct (Z.gtb_spec count (countdown (strobe s))) as [Hgt|Hle].
  - replace (count <=? countdown (strobe s)) with false
      by (symmetry; apply Z.leb_gt; lia).
    split; [done|]. simpl. lia.
  - replace (count <=? countdown (strobe s)) with true
      by (symmetry; apply Z.leb_le; lia).
    unfold u16. rewrite Z.mod_small by lia. split; [done|]. simpl. lia.
Qed.


(** *** Whole command lines *)

(** One byte other than ['\n'] of an RN command, accepted. *)
Lemma receive_plain_byte (cfg : config) (b : Z) (s : host) :
  LASSO_HOST_COMMAND_ENCODING cfg = LASSO_ENCODING_RN ->
  b <> 10 -> valid (response s) = 0 ->
  0 <= receiveBufferIndex s < LASSO_HOST_COMMAND_BUFFER_SIZE cfg ->
  receiveBufferIndex s < 255 ->
  lasso_hostReceiveByte cfg b s =
    (0, set_receiveTimeout (LASSO_HOST_COMMAND_TIMEOUT_TICKS cfg)
          (set_receiveBufferIndex (receiveBufferIndex s + 1)
             (set_memory (store (memory s)
                            (receiveBuffer s + receiveBufferIndex s) b) s))).
Proof.
  intros Henc Hb Hv Hi Hi'. unfold lasso_hostReceiveByte. rewrite Henc, Hv.
  replace (receiveBufferIndex s <? LASSO_HOST_COMMAND_BUFFER_SIZE cfg) with true
    by (symmetry; apply Z.ltb_lt; lia).
  apply Z.eqb_neq in Hb as ->. simpl.
  unfold u8. by rewrite Z.mod_small by lia.
Qed.

Lemma receive_state_eq (T i0 i1 i2 : Z) (m0 m1 m2 : mem) (s : host) :
  i1 = i2 -> m1 = m2 ->
  set_receiveTimeout T (set_receiveBufferIndex i1 (set_memory m1
    (set_receiveTimeout T (set_receiveBufferIndex i0 (set_memory m0 s)))))
  = set_receiveTimeout T (set_receiveBufferIndex i2 (set_memory m2 s)).
Proof. intros -> ->. by destruct s. Qed.

(** Bytes other than ['\n'], accepted one after the other. *)
Lemma receive_plain_bytes (cfg : config) (bs : list Z) (s : host) :
  LASSO_HOST_COMMAND_ENCODING cfg = LASSO_ENCODING_RN ->
  Forall (fun b => b <> 10) bs -> valid (response s) = 0 ->
  0 <= receiveBufferIndex s -> bs <> [] ->
  receiveBufferIndex s + Z.of_nat (length bs) <= LASSO_HOST_COMMAND_BUFFER_SIZE cfg ->
  receiveBufferIndex s + Z.of_nat (length bs) <= 255 ->
  receive_bytes cfg bs s =
    (repeat 0 (length bs),
     set_receiveTimeout (LASSO_HOST_COMMAND_TIMEOUT_TICKS cfg)
       (set_receiveBufferIndex (receiveBufferIndex s + Z.of_nat (length bs))
          (set_memory (store_bytes (memory s)
                         (receiveBuffer s + receiveBufferIndex s) bs) s))).
Proof.
  intros Henc Hbs. revert s.
  induction Hbs as [|b t Hb Ht IH]; intros s Hv Hi Hne Hsz H255; [done|].
  change (length (b :: t)) with (S (length t)) in Hsz, H255 |- *.
  cbn [receive_bytes]. rewrite receive_plain_byte by (done || lia).
  destruct t as [|b' t'].
  - cbn [receive_bytes repeat length store_bytes]. do 3 f_equal.
  - set (s1 := set_receiveTimeout (LASSO_HOST_COMMAND_TIMEOUT_TICKS cfg)
                 (set_receiveBufferIndex (receiveBufferIndex s + 1)
                    (set_memory (store (memory s)
                                   (receiveBuffer s + receiveBufferIndex s) b) s))).
    assert (receiveBufferIndex s1 = receiveBufferIndex s + 1) as Ei by done.
    assert (valid (response s1) = 0) as Ev by (subst s1; by destruct s).
    assert (receiveBuffer s1 = receiveBuffer s) as Eb by (subst s1; by destruct s).
    assert (memory s1 = store (memory s) (receiveBuffer s + receiveBufferIndex s) b)
      as Em by done.
    rewrite (IH s1) by (rewrite ?Ei; (done || lia)).
    rewrite Ei, Eb, Em. cbn [repeat]. f_equal. subst s1.
    apply receive_state_eq; [lia|].
    change (store_bytes (memory s) (receiveBuffer s + receiveBufferIndex s)
              (b :: b' :: t'))
      with (store_bytes (store (memory s) (receiveBuffer s + receiveBufferIndex s) b)
              (receiveBuffer s + receiveBufferIndex s + 1) (b' :: t')).
    f_equal. lia.
Qed.

Lemma receive_bytes_app (cfg : config) (l1 l2 : list Z) (s : host) :
  receive_bytes cfg (l1 ++ l2) s =
  let '(r1, s1) := receive_bytes cfg l1 s in
  let '(r2, s2) := receive_bytes cfg l2 s1 in (r1 ++ r2, s2).
Proof.
  revert s. induction l1 as [|b t IH]; intros s; simpl.
  - by destruct (receive_bytes cfg l2 s).
  - destruct (lasso_hostReceiveByte cfg b s) as [r s']. rewrite IH.
    destruct (receive_bytes cfg t s') as [r1 s1].
    by destruct (receive_bytes cfg l2 s1).
Qed.

(** X17.  In RN command encoding, with an empty receive
    buffer and no command pending, the bytes of a command line without
    ['\n'], followed by ['\r'] and ['\n'] and shorter than the receive
    buffer, are all accepted ([lasso_hostReceiveByte] returns 0 for each
    of them): the receive buffer then holds the line with its ['\r'],
    [response.valid] is the number of these bytes, the buffer index is
    zero again and nothing is written outside the receive buffer. *)
Theorem receive_command_line (cfg : config) (line : list Z) (s : host) :
  LASSO_HOST_COMMAND_ENCODING cfg = LASSO_ENCODING_RN ->
  Forall (fun b => b <> 10) line ->
  valid (response s) = 0 -> receiveBufferIndex s = 0 ->
  Z.of_nat (length line) + 1 < LASSO_HOST_COMMAND_BUFFER_SIZE cfg ->
  Z.of_nat (length line) + 1 <= 255 ->
  exists s',
    receive_bytes cfg (line ++ [13; 10]) s = (repeat 0 (length line + 2), s') /\
    valid (response s') = Z.of_nat (length line) + 1 /\
    receiveBufferIndex s' = 0 /\
    receiveBuffer s' = receiveBuffer s /\
    load_bytes (memory s') (receiveBuffer s') (length line + 1) = line ++ [13] /\
    (forall x, x < receiveBuffer s \/
               receiveBuffer s + Z.of_nat (length line) + 1 <= x ->
               memory s' x = memory s x).
Proof.
  intros Henc Hl Hv Hi Hsz H255.
  replace (line ++ [13; 10]) with ((line ++ [13]) ++ [10]) by by rewrite <- app_assoc.
  rewrite receive_bytes_app.
  assert (length (line ++ [13]) = (length line + 1)%nat) as El
    by (rewrite length_app; simpl; lia).
  rewrite receive_plain_bytes; try done.
  - rewrite El, Hi, Z.add_0_r, Z.add_0_l.
    cbn [receive_bytes]. unfold lasso_hostReceiveByte. rewrite Henc.
    cbn [receiveBufferIndex set_receiveTimeout set_receiveBufferIndex set_memory
         memory receiveBuffer response valid].
    replace (Z.of_nat (length line + 1) <? LASSO_HOST_COMMAND_BUFFER_SIZE cfg)
      with true by (symmetry; apply Z.ltb_lt; lia).
    rewrite Z.eqb_refl.
    replace (Z.of_nat (length line + 1) =? 0) with false
      by (symmetry; apply Z.eqb_neq; lia).
    assert (load_bytes (store_bytes (memory s) (receiveBuffer s) (line ++ [13]))
              (receiveBuffer s) (length line + 1) = line ++ [13]) as Eload
      by (rewrite <- El; apply load_store_bytes).
    assert (store_bytes (memory s) (receiveBuffer s) (line ++ [13])
              (receiveBuffer s + (Z.of_nat (length line + 1) - 1)) = 13) as ->.
    { rewrite store_bytes_app. cbn [store_bytes].
      replace (receiveBuffer s + (Z.of_nat (length line + 1) - 1))
        with (receiveBuffer s + Z.of_nat (length line)) by lia.
      apply store_eq. }
    rewrite Z.eqb_refl. eexists. split.
    { apply f_equal2; [|reflexivity].
      replace (length line + 2)%nat with (length line + 1 + 1)%nat by lia.
      by rewrite (repeat_app 0 (length line + 1) 1). }
    cbn [valid response receiveBufferIndex receiveBuffer memory
         set_receiveBufferIndex upd_response set_response set_valid
         set_receiveTimeout set_memory].
    split; [lia|]. split; [done|]. split; [done|]. split; [done|].
    intros x Hx. apply store_bytes_outside. rewrite El. lia.
  - apply Forall_app. split; [done|]. by constructor.
  - lia.
  - by destruct line.
  - rewrite El. lia.
  - rewrite El. lia.
Qed.

Lemma set_receiveBufferIndex_same (s : host) :
  set_receiveBufferIndex (receiveBufferIndex s) s = s.
Proof. by destruct s. Qed.

(** X18.  While a command is pending ([response.valid] is
    not zero, the buffer index is zero) every byte offered to
    [lasso_hostReceiveByte] is refused and the host does not change: the
    call returns [ENOSPC], or [ENODATA] for a ['\n'] in RN encoding.  The
    pending command in the receive buffer is not overwritten. *)
Theorem receive_while_pending (cfg : config) (bs : list Z) (s : host) :
  valid (response s) <> 0 -> receiveBufferIndex s = 0 ->
  0 < LASSO_HOST_COMMAND_BUFFER_SIZE cfg ->
  receive_bytes cfg bs s =
    (map (fun b => if is_RN (LASSO_HOST_COMMAND_ENCODING cfg) && (b =? 10)
                   then ENODATA else ENOSPC) bs, s).
Proof.
  intros Hv Hi Hsz. induction bs as [|b t IH]; [done|].
  cbn [receive_bytes map].
  assert (lasso_hostReceiveByte cfg b s =
          (if is_RN (LASSO_HOST_COMMAND_ENCODING cfg) && (b =? 10)
           then ENODATA else ENOSPC, s)) as ->.
  { unfold lasso_hostReceiveByte.
    replace (receiveBufferIndex s <? LASSO_HOST_COMMAND_BUFFER_SIZE cfg) with true
      by (symmetry; apply Z.ltb_lt; lia).
    apply Z.eqb_neq in Hv as ->.
    assert (set_receiveBufferIndex 0 s = s) as ->
      by (rewrite <- Hi; apply set_receiveBufferIndex_same).
    destruct (LASSO_HOST_COMMAND_ENCODING cfg); cbn [is_RN andb]; try done.
    destruct (b =? 10); [by rewrite Hi|done]. }
  by rewrite IH.
Qed.

(** *** Encoded commands *)

(** The bytes of a COBS stream for which the decoder returns 0, up to the
    last one, are all accepted and the last value returned becomes
    [response.valid]. *)
Lemma receive_COBS_stream (cfg : config) (bs : list Z) :
  LASSO_HOST_COMMAND_ENCODING cfg = LASSO_ENCODING_COBS ->
  forall (s : host) (r : Z) (st' : COBS.ctrl) (m' : mem),
    receiveBufferIndex s < LASSO_HOST_COMMAND_BUFFER_SIZE cfg ->
    valid (response s) = 0 -> bs <> [] ->
    COBS.COBS_decode_stream bs (receiveBuffer s)
      (u8 (LASSO_HOST_COMMAND_BUFFER_SIZE cfg)) (COBS_ctrl s) (memory s)
      = (repeat 0 (length bs - 1) ++ [r], st', m') ->
    receive_bytes cfg bs s =
      (repeat 0 (length bs),
       set_memory m' (set_COBS_ctrl st' (upd_response (set_valid r) s))).
Proof.
  intros Henc. induction bs as [|b t IH]; intros s r st' m' Hi Hv Hne Hd; [done|].
  cbn [receive_bytes]. rewrite COBS.COBS_decode_stream_cons in Hd.
  unfold lasso_hostReceiveByte. rewrite Henc, Hv.
  replace (receiveBufferIndex s <? LASSO_HOST_COMMAND_BUFFER_SIZE cfg) with true
    by (symmetry; apply Z.ltb_lt; lia).
  cbn [Z.eqb].
  destruct (COBS.COBS_decode_inline b (receiveBuffer s)
              (u8 (LASSO_HOST_COMMAND_BUFFER_SIZE cfg)) (COBS_ctrl s) (memory s))
    as [[r1 st1] m1].
  destruct t as [|b' t'].
  - simpl in Hd. by injection Hd as -> -> ->.
  - set (s1 := set_memory m1 (set_COBS_ctrl st1 (upd_response (set_valid r1) s))).
    destruct (COBS.COBS_decode_stream (b' :: t') (receiveBuffer s)
                (u8 (LASSO_HOST_COMMAND_BUFFER_SIZE cfg)) st1 m1)
      as [[rs2 st2] m2] eqn:E2.
    replace (length (b :: b' :: t') - 1)%nat with (S (length (b' :: t') - 1)) in Hd
      by (simpl; lia).
    cbn [repeat app] in Hd. injection Hd as -> -> -> ->.
    by rewrite (IH s1 r st' m').
Qed.

Lemma receive_ESCS_stream (cfg : config) (bs : list Z) :
  LASSO_HOST_COMMAND_ENCODING cfg = LASSO_ENCODING_ESCS ->
  forall (s : host) (r : Z) (st' : ESCS.ctrl) (m' : mem),
    receiveBufferIndex s < LASSO_HOST_COMMAND_BUFFER_SIZE cfg ->
    valid (response s) = 0 -> bs <> [] ->
    ESCS.ESCS_decode_stream bs (receiveBuffer s)
      (u8 (LASSO_HOST_COMMAND_BUFFER_SIZE cfg)) (ESCS_ctrl s) (memory s)
      = (repeat 0 (length bs - 1) ++ [r], st', m') ->
    receive_bytes cfg bs s =
      (repeat 0 (length bs),
       set_memory m' (set_ESCS_ctrl st' (upd_response (set_valid r) s))).
Proof.
  intros Henc. induction bs as [|b t IH]; intros s r st' m' Hi Hv Hne Hd; [done|].
  cbn [receive_bytes]. rewrite ESCS.ESCS_decode_stream_cons in Hd.
  unfold lasso_hostReceiveByte. rewrite Henc, Hv.
  replace (receiveBufferIndex s <? LASSO_HOST_COMMAND_BUFFER_SIZE cfg) with true
    by (symmetry; apply Z.ltb_lt; lia).
  cbn [Z.eqb].
  destruct (ESCS.ESCS_decode_inline b (receiveBuffer s)
              (u8 (LASSO_HOST_COMMAND_BUFFER_SIZE cfg)) (ESCS_ctrl s) (memory s))
    as [[r1 st1] m1].
  destruct t as [|b' t'].
  - simpl in Hd. by injection Hd as -> -> ->.
  - set (s1 := set_memory m1 (set_ESCS_ctrl st1 (upd_response (set_valid r1) s))).
    destruct (ESCS.ESCS_decode_stream (b' :: t') (receiveBuffer s)
                (u8 (LASSO_HOST_COMMAND_BUFFER_SIZE cfg)) st1 m1)
      as [[rs2 st2] m2] eqn:E2.
    replace (length (b :: b' :: t') - 1)%nat with (S (length (b' :: t') - 1)) in Hd
      by (simpl; lia).
    cbn [repeat app] in Hd. injection Hd as -> -> -> ->.
    by rewrite (IH s1 r st' m').
Qed.

(** X19.  In COBS command encoding, with no command
    pending and the decoder not holding a finished frame: a command of 1
    to 253 bytes whose first byte is not zero, encoded by [COBS_encode]
    and received byte by byte by [lasso_hostReceiveByte], is accepted
    (every call returns 0); afterwards the receive buffer holds the
    command and [response.valid] is its length. *)
Theorem receive_COBS_command (cfg : config) (b : Z) (t : list Z) (fuel : nat)
    (m : mem) (src : Z) (s : host) :
  LASSO_HOST_COMMAND_ENCODING cfg = LASSO_ENCODING_COBS ->
  receiveBufferIndex s < LASSO_HOST_COMMAND_BUFFER_SIZE cfg ->
  valid (response s) = 0 -> COBS.code (COBS_ctrl s) <> 0 ->
  b <> 0 -> (length (b :: t) <= 253)%nat ->
  Z.of_nat (length (b :: t)) <= u8 (LASSO_HOST_COMMAND_BUFFER_SIZE cfg) ->
  load_bytes m (src + 2) (length (b :: t)) = b :: t ->
  (length (b :: t) + 2 <= fuel)%nat ->
  exists (m' : mem) (s' : host),
    COBS.COBS_encode fuel m src (Z.of_nat (length (b :: t))) false = Some m' /\
    receive_bytes cfg (load_bytes m' src (length (b :: t) + 3)) s
      = (repeat 0 (length (b :: t) + 3), s') /\
    valid (response s') = Z.of_nat (length (b :: t)) /\
    receiveBuffer s' = receiveBuffer s /\
    load_bytes (memory s') (receiveBuffer s') (length (b :: t)) = b :: t.
Proof.
  intros Henc Hi Hv Hc Hb H253 Hsz Hl Hf.
  assert (COBS.COBS_decoded (b :: t) = b :: t) as Hd
    by (simpl; by apply Z.eqb_neq in Hb as ->).
  assert (0 <= u8 (LASSO_HOST_COMMAND_BUFFER_SIZE cfg) < 256) as Hu
    by (unfold u8; apply Z.mod_pos_bound; lia).
  destruct (COBS.COBS_encode_decode (b :: t) fuel m (memory s) src (receiveBuffer s)
              (u8 (LASSO_HOST_COMMAND_BUFFER_SIZE cfg)) (COBS_ctrl s))
    as (m' & body & He & Hfr & _ & Hdec); try done; try lia.
  { rewrite Hd. lia. }
  rewrite Hd in Hdec. apply Z.eqb_neq in Hc. rewrite Hc in Hdec.
  exists m'. eexists. split; [done|].
  assert (length (load_bytes m' src (length (b :: t) + 3)) = (length (b :: t) + 3)%nat)
    as El by apply load_bytes_length.
  split.
  - rewrite <- El at 2. apply receive_COBS_stream; try done.
    rewrite Hdec, El.
    replace (length (b :: t) + 3 - 1)%nat with (S (S (length (b :: t)))) by lia.
    reflexivity.
  - cbn [valid response receiveBuffer memory set_memory set_COBS_ctrl
         upd_response set_response set_valid].
    split; [done|]. split; [done|]. apply load_store_bytes.
Qed.

(** X20.  In ESCS command encoding, with no command
    pending and nothing left in the decoder: a command of 1 to 255 bytes
    that fits the receive buffer, encoded by [ESCS_encode] and received
    byte by byte by [lasso_hostReceiveByte], is accepted (every call
    returns 0); afterwards the receive buffer holds the command and
    [response.valid] is its length. *)
Theorem receive_ESCS_command (cfg : config) (p : list Z) (m : mem) (src enc : Z)
    (s : host) :
  LASSO_HOST_COMMAND_ENCODING cfg = LASSO_ENCODING_ESCS ->
  receiveBufferIndex s < LASSO_HOST_COMMAND_BUFFER_SIZE cfg ->
  valid (response s) = 0 -> ESCS.count (ESCS_ctrl s) = 0 ->
  (0 < length p)%nat ->
  Z.of_nat (length p) <= u8 (LASSO_HOST_COMMAND_BUFFER_SIZE cfg) ->
  load_bytes m src (length p) = p ->
  enc + 1 + Z.of_nat (length p) <= src ->
  exists (m' : mem) (n : Z) (s' : host),
    ESCS.ESCS_encode m src enc (Z.of_nat (length p)) = (m', n) /\
    receive_bytes cfg (load_bytes m' enc (Z.to_nat n)) s
      = (repeat 0 (Z.to_nat n), s') /\
    valid (response s') = Z.of_nat (length p) /\
    receiveBuffer s' = receiveBuffer s /\
    load_bytes (memory s') (receiveBuffer s') (length p) = p.
Proof.
  intros Henc Hi Hv Hc Hp Hsz Hl Hd.
  assert (0 <= u8 (LASSO_HOST_COMMAND_BUFFER_SIZE cfg) < 256) as Hu
    by (unfold u8; apply Z.mod_pos_bound; lia).
  destruct (ESCS.ESCS_encode_spec p m src enc Hl Hd) as (m' & He & Hfr & _); [lia|].
  exists m'. eexists. eexists. split; [exact He|].
  replace (Z.to_nat (Z.of_nat (length (ESCS.escs_image p)) + 2))
    with (length (ESCS.escs_image p) + 2)%nat by lia.
  assert (length (load_bytes m' enc (length (ESCS.escs_image p) + 2))
          = (length (ESCS.escs_image p) + 2)%nat) as El by apply load_bytes_length.
  split.
  - rewrite <- El at 2. apply receive_ESCS_stream; try done.
    { intros E. rewrite E in El. simpl in El. lia. }
    rewrite El, Hfr, ESCS.ESCS_decode_frame by (done || lia).
    rewrite Hc.
    replace (length (ESCS.escs_image p) + 2 - 1)%nat
      with (S (length (ESCS.escs_image p))) by lia.
    reflexivity.
  - cbn [valid response receiveBuffer memory set_memory set_ESCS_ctrl
         upd_response set_response set_valid].
    split; [done|]. split; [done|]. apply load_store_bytes.
Qed.

(** *** The protocol engine *)

(** The four bytes of a 32-bit value in the byte order of the host. *)
Definition u32_bytes (le : bool) (x : Z) : list Z :=
  let b (i : Z) := Z.land (Z.shiftr x (8 * i)) 255 in
  if le then [b 0; b 1; b 2; b 3] else [b 3; b 2; b 1; b 0].

Definition u32_of_bytes (le : bool) (l : list Z) : Z :=
  match (if le then l else reverse l) with
  | [b0; b1; b2; b3] => b0 + 256 * b1 + 65536 * b2 + 16777216 * b3
  | _ => 0
  end.

Section engine.
Variable cfg : config.

(** Addresses of the statics [lasso_signature] (16 bytes) and
    [lasso_timestamp] (32 bits). *)
Variable lasso_signature : Z.
Variable lasso_timestamp : Z.

(** User callbacks.  [comCallback] sees the calls made before, the memory,
    the buffer address and the byte count, and returns its status.
    [crcCallback] is given the bytes it iterates over.  [perCallback] may
    be absent.  The callbacks without a result ([actCallback],
    [ctlCallback]) do not act on the state of the host and are left out. *)
Variable comCallback : list tx_event -> mem -> Z -> Z -> Z.
Variable crcCallback : list Z -> Z.
Variable perCallback : option (Z -> Z).

(** Formatted input ([sscanf] in ASCII mode, the PackReader of msgpack.c in
    MessagePack mode), applied to the bytes of the received command.
    - [read_opcode]: [None] when no opcode is read (the command is
      dropped), else the opcode and the error of opening the parameters;
    - the other readers return the error code and the value read (the
      engine keeps a cell number in a [uint8_t]). *)
Variable read_opcode : list Z -> option (Z * Z).
Variable read_cell_number : list Z -> Z * Z.
Variable read_flag : list Z -> Z * bool.
Variable read_ulong : list Z -> Z * Z.
Variable read_period : list Z -> Z * Z.
(** Offset in the receive buffer where the value of a 'V' command starts. *)
Variable value_offset : list Z -> Z.
(** [lasso_hostSetDatacellValue]: conversion of the received value, the
    [onChange] callback and the store into the memory cell. *)
Variable lasso_hostSetDatacellValue : list Z -> dataCell -> mem -> Z * mem.

(** Formatted output ([sprintf], the PackWriter of msgpack.c): the bytes
    written for each part of a reply, [None] when formatting fails. *)
Variable fmt_head : Z -> list Z.
Variable fmt_protocol_info : option (list Z).
Variable fmt_timing_info : host -> option (list Z).
Variable fmt_datacell_count : Z -> option (list Z).
Variable fmt_datacell_params : dataCell -> Z -> mem -> list Z.
Variable fmt_datacell_value : dataCell -> mem -> option (list Z).
Variable fmt_error : bool -> Z -> list Z.

(** [lasso_hostAppendCRC].  For a width of 4 without unaligned access the
    loop of the source counts with [numBytes], which is not declared: the
    build does not compile; the model takes the four bytes the loop is
    written for. *)
Definition lasso_hostAppendCRC (buffer cnt : Z) (m : mem) : mem :=
  let crc := u32 (crcCallback (load_bytes m buffer (Z.to_nat cnt))) in
  let le := LASSO_HOST_LITTLE_ENDIAN cfg in
  let w := LASSO_HOST_CRC_BYTEWIDTH cfg in
  let bytes :=
    if w =? 1 then [u8 crc]
    else if w =? 2 then
      if LASSO_HOST_UNALIGNED_MEMORY_ACCESS cfg
      then (if le then [u8 crc; u8 (Z.shiftr crc 8)] else [u8 (Z.shiftr crc 8); u8 crc])
      else take 2 (u32_bytes le crc)
    else if w =? 4 then u32_bytes le crc
    else [] in
  store_bytes m (buffer + cnt) bytes.

(** The copy loops of the sampler: [n] elements of [w] bytes each; the
    write pointer advances by [stride] after each element. *)
Fixpoint copy_elems (n w : nat) (stride : Z) (m : mem) (src dst : Z) : mem * Z :=
  match n with
  | O => (m, dst)
  | S k =>
      let atom := load_bytes m src w in
      copy_elems k w stride (store_bytes m dst atom) (src + Z.of_nat w) (dst + stride)
  end.

Definition copy_cell (c : dataCell) (m : mem) (dst : Z) : mem * Z :=
  let n := Z.to_nat (count c) in
  let unaligned := LASSO_HOST_UNALIGNED_MEMORY_ACCESS cfg in
  let w := Z.land (type c) LASSO_DATACELL_BYTEWIDTH_MASK in
  if w =? LASSO_DATACELL_BYTEWIDTH_1 then copy_elems n 1 1 m (ptr c) dst
  else if w =? LASSO_DATACELL_BYTEWIDTH_2
  then copy_elems n 2 (if unaligned then 1 else 2) m (ptr c) dst
  else if w =? LASSO_DATACELL_BYTEWIDTH_4
  then copy_elems n 4 (if unaligned then 1 else 4) m (ptr c) dst
  else (m, dst).

(** The walk [while (dC)] of the sampler over the chain. *)
Fixpoint sample_loop (fuel : nat) (dC : option nat) (heap : list dataCell)
    (m : mem) (dst maskPtr maskBit : Z) : option (list dataCell * mem * Z) :=
  match dC with
  | None => Some (heap, m, dst)
  | Some i =>
      match fuel with
      | O => None
      | S f =>
          match heap !! i with
          | None => None
          | Some c =>
              let dynamic := is_DYNAMIC (LASSO_HOST_STROBE_DYNAMICS cfg) in
              let '(heap, m, dst) :=
                if negb (Z.land (type c) LASSO_DATACELL_ENABLE =? 0) then
                  if dynamic then
                    let ur := u32 (update_rate c - 1) in
                    if Z.land ur 0xFFFF =? 0 then
                      let m := store m maskPtr (Z.lor (m maskPtr) maskBit) in
                      let ur := u32 (ur + Z.shiftr ur 16) in
                      let '(m, dst) := copy_cell c m dst in
                      (<[i := set_update_rate ur c]> heap, m, dst)
                    else (<[i := set_update_rate ur c]> heap, m, dst)
                  else
                    let '(m, dst) := copy_cell c m dst in (heap, m, dst)
                else (heap, m, dst) in
              let '(maskPtr, maskBit) :=
                if dynamic then
                  if maskBit =? 0x80 then (maskPtr + 1, 1)
                  else (maskPtr, u8 (Z.shiftl maskBit 1))
                else (maskPtr, maskBit) in
              sample_loop f (next c) heap m dst maskPtr maskBit
          end
      end
  end.

(** [lasso_hostSampleDataCells]; [None] when the chain is not a chain of
    cells. *)
Definition lasso_hostSampleDataCells (s : host) : option host :=
  let senc := LASSO_HOST_STROBE_ENCODING cfg in
  let dynamic := is_DYNAMIC (LASSO_HOST_STROBE_DYNAMICS cfg) in
  let crcw := LASSO_HOST_CRC_BYTEWIDTH cfg in
  let sampled :=
    if LASSO_HOST_STROBE_EXTERNAL_SOURCE cfg then Some s
    else
      let p := buffer (strobe s) in
      let m := memory s in
      let '(m, p) :=
        match senc with
        | LASSO_ENCODING_COBS => (store m p 0xFF, p + 2)
        | LASSO_ENCODING_ESCS => (store m p 0x00, p + Bytes_max (strobe s))
        | _ => (m, p)
        end in
      let '(m, p) :=
        if is_COBS senc || is_ESCS senc
        then (store m p LASSO_HOST_INVALID_MSGPACK_CODE, p + 1) else (m, p) in
      let maskPtr := p in
      let '(m, p, maskBit) :=
        if dynamic
        then (store_bytes m p (repeat 0 (Z.to_nat (dataCellMaskBytes s))),
              p + dataCellMaskBytes s, dataCellMaskBytes s)
        else (m, p, 0) in
      match sample_loop (length (cells s)) (dataCellFirst s) (cells s)
              m p maskPtr maskBit with
      | None => None
      | Some (heap, m, p) =>
          let s := set_memory m (set_cells heap s) in
          if dynamic then
            match senc with
            | LASSO_ENCODING_COBS =>
                Some (upd_strobe (set_Bytes_total (u32 (p - buffer (strobe s) - 2))) s)
            | LASSO_ENCODING_ESCS =>
                Some (upd_strobe (set_Bytes_total (u32 (p - Bytes_max (strobe s)))) s)
            | _ => Some s
            end
          else Some s
      end in
  match sampled with
  | None => None
  | Some s =>
      if LASSO_HOST_STROBE_CRC_ENABLE cfg then
        let f := strobe s in
        let m :=
          match senc with
          | LASSO_ENCODING_ESCS =>
              lasso_hostAppendCRC (buffer f + Bytes_max f + 1)
                (u32 (Bytes_total f - crcw - 1)) (memory s)
          | LASSO_ENCODING_COBS =>
              lasso_hostAppendCRC (buffer f + 3)
                (u32 (Bytes_total f - crcw - 1)) (memory s)
          | _ =>
              lasso_hostAppendCRC (buffer f) (u32 (Bytes_total f - crcw)) (memory s)
          end in
        Some (set_memory m s)
      else Some s
  end.

(** End of [lasso_hostInterpreteCommand]: the reply is formatted behind
    the header of the response buffer, terminated, and its length becomes
    [response.Bytes_total].  [start] is the address behind the COBS header
    or of the upper half of an ESCS buffer.  In ASCII mode [sprintf] puts
    a NUL behind the reply, which the CRLF or the CRC overwrites. *)
Definition emit_reply (start opcode : Z) (tiny_reply : bool) (payload : list Z)
    (msg_err : Z) (s : host) : host :=
  let msg := fmt_head opcode ++ (if tiny_reply then [] else payload)
             ++ fmt_error tiny_reply msg_err in
  let m := store_bytes (memory s) start
             (if is_MSGPACK (LASSO_HOST_PROCESSING_MODE cfg) then msg
              else msg ++ [0]) in
  let total := Z.of_nat (length msg) in
  let '(m, total) :=
    if is_RN (LASSO_HOST_COMMAND_ENCODING cfg) then
      (store_bytes m (start + total) [0x0D; 0x0A], total + 2)
    else if LASSO_HOST_COMMAND_CRC_ENABLE cfg then
      (lasso_hostAppendCRC start (u32 total) m, total + LASSO_HOST_CRC_BYTEWIDTH cfg)
    else (m, total) in
  upd_response (set_Bytes_total (u32 total)) (set_memory m s).

(** The case [LASSO_HOST_SET_DATACELL_STROBE] once the cell [i] and the
    flag are known: the update of [strobe.Bytes_total] and of the enable
    bit. *)
Definition set_datacell_strobe (i : nat) (c : dataCell) (bparam : bool) (s : host)
  : host :=
  let lparam := Z.land (type c) LASSO_DATACELL_ENABLE_MASK in
  let width :=
    let w := Z.land (type c) LASSO_DATACELL_BYTEWIDTH_MASK in
    if w =? 0 then 1 else w in
  if bparam then
    if lparam =? 0 then
      let s := upd_strobe
                 (fun f => set_Bytes_total (u32 (Bytes_total f + u32 (count c * width))) f) s in
      set_cells (<[i := set_type (Z.lor (type c) LASSO_DATACELL_ENABLE_MASK) c]> (cells s)) s
    else s
  else
    if negb (lparam =? 0) then
      let s := upd_strobe
                 (fun f => set_Bytes_total (u32 (Bytes_total f - u32 (count c * width))) f) s in
      set_cells (<[i := set_type (Z.land (type c) LASSO_DATACELL_DISABLE_MASK) c]> (cells s)) s
    else s.

(** The [response.valid] bytes of the command in the receive buffer. *)
Definition received_command (s : host) : list Z :=
  load_bytes (memory s) (receiveBuffer s) (Z.to_nat (valid (response s))).

(** Start of [lasso_hostInterpreteCommand], up to the [switch]: the
    received command is terminated (ASCII mode), the response is emptied,
    the header of the response buffer is marked as not encoded, and the
    reply is begun with the opcode: in ASCII mode by [sprintf], which puts
    a NUL behind it; in MessagePack mode by the pack writer, once the
    command is known not to be ignored.  The address where the reply
    starts is returned with the state. *)
Definition interprete_begin (s : host) : host * Z :=
  let s := if is_MSGPACK (LASSO_HOST_PROCESSING_MODE cfg) then s
           else set_memory (store (memory s)
                              (receiveBuffer s + valid (response s)) 0) s in
  let s := upd_response (set_Bytes_total 0) s in
  let '(s, start) :=
    match LASSO_HOST_COMMAND_ENCODING cfg with
    | LASSO_ENCODING_COBS =>
        (set_memory (store (memory s) (buffer (response s)) 0xFF) s,
         buffer (response s) + 2)
    | LASSO_ENCODING_ESCS =>
        (set_memory (store (memory s) (buffer (response s)) 0) s,
         buffer (response s) + Bytes_max (response s))
    | _ => (s, buffer (response s))
    end in
  match read_opcode (received_command s) with
  | None => (s, start)
  | Some (opcode, open_err) =>
      if is_MSGPACK (LASSO_HOST_PROCESSING_MODE cfg) then
        if negb (open_err =? 0) then (s, start)
        else if (encoding_code (LASSO_HOST_STROBE_ENCODING cfg)
                   <? encoding_code LASSO_ENCODING_COBS)
                && lasso_strobing s && (opcode >=? 97)
        then (s, start)
        else (set_memory (store_bytes (memory s) start (fmt_head opcode)) s, start)
      else
        (set_memory (store_bytes (memory s) start (fmt_head opcode ++ [0])) s, start)
  end.

(** [lasso_hostInterpreteCommand]; [None] when the chain is not a chain
    of cells. *)
Definition lasso_hostInterpreteCommand (s : host) : option host :=
  let no_interleave := encoding_code (LASSO_HOST_STROBE_ENCODING cfg)
                       <? encoding_code LASSO_ENCODING_COBS in
  let '(s, start) := interprete_begin s in
  let cmd := received_command s in
  match read_opcode cmd with
  | None => Some s
  | Some (opcode, open_err) =>
      let reply := emit_reply start opcode in
      let with_cell (k : nat -> dataCell -> Z -> option host) : option host :=
        let '(msg_err, cparam) := read_cell_number cmd in
        if negb (msg_err =? 0) then Some (reply true [] msg_err s)
        else
          match lasso_hostSeekDatacell (u8 cparam) s with
          | None => None
          | Some (None, _) => Some (reply true [] EFAULT s)
          | Some (Some i, lparam) =>
              match cells s !! i with
              | None => None
              | Some c => k i c lparam
              end
          end in
      if negb (open_err =? 0) then Some (reply true [] open_err s)
      else if no_interleave && lasso_strobing s && (opcode >=? 97) then Some s
      else if opcode =? LASSO_HOST_GET_PROTOCOL_INFO then
        match fmt_protocol_info with
        | Some p => Some (reply false p 0 s)
        | None => Some (reply true [] ECANCELED s)
        end
      else if opcode =? LASSO_HOST_GET_TIMING_INFO then
        match fmt_timing_info s with
        | Some p => Some (reply false p 0 s)
        | None => Some (reply true [] ECANCELED s)
        end
      else if opcode =? LASSO_HOST_GET_DATACELL_COUNT then
        match fmt_datacell_count (dataCellCount s) with
        | Some p => Some (reply false p 0 s)
        | None => Some (reply true [] ECANCELED s)
        end
      else if opcode =? LASSO_HOST_GET_DATACELL_PARAMS then
        with_cell (fun i c lparam =>
          Some (reply false (fmt_datacell_params c lparam (memory s)) 0 s))
      else if opcode =? LASSO_HOST_GET_DATACELL_VALUE then
        with_cell (fun i c lparam =>
          match fmt_datacell_value c (memory s) with
          | Some p => Some (reply false p 0 s)
          | None =>
              Some (reply true []
                      (if is_MSGPACK (LASSO_HOST_PROCESSING_MODE cfg)
                       then ENOTSUP else EINVAL) s)
          end)
      else if opcode =? LASSO_HOST_SET_ADVERTISE then
        let s := set_lasso_advertise true s in
        if lasso_strobing s then Some (set_lasso_strobing false s) else Some s
      else if opcode =? LASSO_HOST_SET_STROBE_PERIOD then
        let '(msg_err, sparam) := read_period cmd in
        if negb (msg_err =? 0) then Some (reply true [] msg_err s)
        else if (sparam >=? LASSO_HOST_STROBE_PERIOD_MIN_TICKS cfg)
                && (sparam <=? LASSO_HOST_STROBE_PERIOD_MAX_TICKS cfg) then
          let s := set_lasso_strobe_period
                     (match perCallback with
                      | Some f => u16 (f sparam)
                      | None => sparam
                      end) s in
          let s := if countdown (strobe s) >? lasso_strobe_period s
                   then upd_strobe (set_countdown (lasso_strobe_period s)) s else s in
          if lasso_advertise s then Some s
          else if no_interleave && lasso_strobing s then Some s
          else Some (reply true [] 0 s)
        else Some (reply true [] EINVAL s)
      else if opcode =? LASSO_HOST_SET_DATASPACE_STROBE then
        let '(msg_err, lparam) := read_ulong cmd in
        if negb (msg_err =? 0) then Some (reply true [] msg_err s)
        else
          let s := if negb (lparam =? 0) then
                     let s := if negb (lasso_strobing s)
                              then upd_strobe (set_countdown 1) s else s in
                     set_lasso_strobing true s
                   else set_lasso_strobing false s in
          if lasso_advertise s then
            Some (set_lasso_advertise false (upd_strobe (set_Byte_count 0) s))
          else if no_interleave then Some s
          else Some (reply true [] 0 s)
      else if opcode =? LASSO_HOST_SET_DATACELL_STROBE then
        if lasso_strobing s then Some s
        else
          with_cell (fun i c lparam =>
            let '(msg_err, bparam) := read_flag cmd in
            if negb (msg_err =? 0) then Some (reply true [] msg_err s)
            else
              let s := set_datacell_strobe i c bparam s in
              if lasso_advertise s then Some s
              else Some (reply true [] 0 s))
      else if opcode =? LASSO_HOST_SET_DATACELL_VALUE then
        let '(msg_err, cparam) := read_cell_number cmd in
        if negb (msg_err =? 0) then Some (reply true [] msg_err s)
        else
          match lasso_hostSeekDatacell (u8 cparam) s with
          | None => None
          | Some (dC, _) =>
              let r :=
                match dC with
                | None => Some (EFAULT, s)
                | Some i =>
                    match cells s !! i with
                    | None => None
                    | Some c =>
                        if negb (Z.land (type c) LASSO_DATACELL_WRITEABLE =? 0) then
                          let '(c, s) :=
                            if LASSO_HOST_STROBE_EXTERNAL_SOURCE cfg then
                              let c := set_ptr (receiveBuffer s + value_offset cmd) c in
                              (c, set_cells (<[i := c]> (cells s)) s)
                            else (c, s) in
                          let '(msg_err, m) :=
                            lasso_hostSetDatacellValue cmd c (memory s) in
                          Some (msg_err, set_memory m s)
                        else Some (EACCES, s)
                    end
                end in
              match r with
              | None => None
              | Some (msg_err, s) =>
                  if lasso_advertise s then Some s
                  else if no_interleave && lasso_strobing s then Some s
                  else Some (reply true [] msg_err s)
              end
          end
      else Some (reply true [] EOPNOTSUPP s)
  end.

(** [lasso_hostTransmitDataFrame] for the frame [w].  The log gains the
    call of [comCallback], if one is made; the state is [None] when the
    function does not return. *)
Definition lasso_hostTransmitDataFrame (w : frame_id) (log : list tx_event)
    (s : host) : option (bool * host) * list tx_event :=
  let ptr := data_frame w s in
  let frame := Host.frame ptr in
  let num := Byte_count ptr in
  let cenc := LASSO_HOST_COMMAND_ENCODING cfg in
  let advance (num : Z) (s : host) : host :=
    let p := data_frame w s in
    set_data_frame w
      (set_Byte_count (u32 (Byte_count p - num)) (set_frame (Host.frame p + num) p)) s in
  let send (num : Z) (s : host) : option (bool * host) * list tx_event :=
    let r := comCallback log (memory s) frame num in
    let log := log ++ [Tx w frame num] in
    if negb (r =? EBUSY) then (Some (true, advance num s), log)
    else (Some (false, s), log) in
  if num >? 0 then
    let stuffed :=
      if negb (encoding_eqb cenc (LASSO_HOST_STROBE_ENCODING cfg))
      then (match w with RESPONSE => true | STROBE => false end)
      else negb (lasso_advertise s) in
    if is_COBS cenc && stuffed then
      let extended := num >? 253 in
      let num := if extended then 253 else num in
      let encoded :=
        if negb (memory s frame =? 0x00) then
          let m := store (memory s) (frame + 2) (COBS_backup ptr) in
          let backup := m (frame + 255) in
          match COBS.COBS_encode 256 m frame num extended with
          | None => None
          | Some m => Some (set_memory m (set_data_frame w (set_COBS_backup backup ptr) s))
          end
        else Some s in
      match encoded with
      | None => (None, log)
      | Some s =>
          let r := comCallback log (memory s) frame (u32 (num + 3)) in
          let log := log ++ [Tx w frame (u32 (num + 3))] in
          if negb (r =? EBUSY) then (Some (true, advance num s), log)
          else (Some (false, s), log)
      end
    else
      let '(s, num) :=
        if is_ESCS cenc && stuffed then
          if negb (memory s frame =? 0x7E) then
            let '(m, n) := ESCS.ESCS_encode (memory s) (frame + Bytes_max ptr) frame num in
            (set_memory m (set_data_frame w (set_Byte_count n ptr) s), n)
          else (s, num)
        else (s, num) in
      let num := if num >? LASSO_HOST_MAX_FRAME_SIZE cfg
                 then LASSO_HOST_MAX_FRAME_SIZE cfg else num in
      send num s
  else (Some (false, s), log).

(** The advertise and strobe part of [lasso_hostHandleCOM]. *)
Definition handle_strobe (s : host) : option host :=
  if lasso_advertise s then
    let s := upd_strobe (fun f => set_countdown (u16 (countdown f - 1)) f) s in
    if countdown (strobe s) =? 0 then
      Some (upd_strobe
              (fun f => set_Byte_count 16
                          (set_frame lasso_signature
                             (set_countdown (lasso_advertise_period_ticks s) f))) s)
    else Some s
  else if lasso_strobing s then
    let s := if LASSO_HOST_STROBE_EXTERNAL_SYNC cfg then s
             else upd_strobe (fun f => set_countdown (u16 (countdown f - 1)) f) s in
    if countdown (strobe s) =? 0 then
      let s := upd_strobe (set_countdown (lasso_strobe_period s)) s in
      if Byte_count (strobe s) >? 0 then
        Some (upd_strobe (set_valid 0) (set_lasso_overdrive 1 s))
      else
        match lasso_hostSampleDataCells s with
        | None => None
        | Some s =>
            let s := upd_strobe
                       (fun f => set_Byte_count (Bytes_total f)
                                   (set_frame (buffer f) f)) s in
            if is_COBS (LASSO_HOST_STROBE_ENCODING cfg)
            then Some (upd_strobe
                         (set_COBS_backup (memory s (buffer (strobe s) + 2))) s)
            else Some s
        end
    else Some s
  else Some s.

(** The command and response part of [lasso_hostHandleCOM]; [None] also
    stands for the endless loop after a failed command CRC. *)
Definition handle_response (s : host) : option host :=
  let s := upd_response (fun f => set_countdown (u16 (countdown f - 1)) f) s in
  if countdown (response s) =? 0 then
    let s := upd_response
               (set_countdown (u16 (LASSO_HOST_RESPONSE_LATENCY_TICKS cfg))) s in
    if Byte_count (response s) =? 0 then
      if valid (response s) >? 0 then
        if LASSO_HOST_COMMAND_CRC_ENABLE cfg
           && negb (crcCallback (load_bytes (memory s) (receiveBuffer s)
                                   (Z.to_nat (valid (response s)))) =? 0)
        then None
        else
          let handled :=
            if memory s (receiveBuffer s) =? LASSO_HOST_SET_CONTROLS then Some s
            else
              match lasso_hostInterpreteCommand s with
              | None => None
              | Some s =>
                  let s := upd_response
                             (fun f => set_Byte_count (Bytes_total f)
                                         (set_frame (buffer f) f)) s in
                  if is_COBS (LASSO_HOST_COMMAND_ENCODING cfg)
                  then Some (upd_response
                               (set_COBS_backup (memory s (buffer (response s) + 2))) s)
                  else Some s
              end in
          match handled with
          | None => None
          | Some s => Some (upd_response (set_valid 0) s)
          end
      else Some s
    else Some s
  else Some s.

(** The choice of the frame to transmit: the response only when the
    strobe has nothing left to send. *)
Definition handle_transmit (log : list tx_event) (s : host)
  : option (bool * host) * list tx_event :=
  if Byte_count (strobe s) =? 0
  then lasso_hostTransmitDataFrame RESPONSE log s
  else lasso_hostTransmitDataFrame STROBE log s.

Definition tick_timestamp (s : host) : host :=
  if LASSO_HOST_TIMESTAMP cfg then
    let le := LASSO_HOST_LITTLE_ENDIAN cfg in
    let t := u32_of_bytes le (load_bytes (memory s) lasso_timestamp 4) in
    set_memory (store_bytes (memory s) lasso_timestamp (u32_bytes le (u32 (t + 1)))) s
  else s.

(** The parts of [lasso_hostHandleCOM] that come before the transmission:
    receive timeout, advertisement or strobe, command and response. *)
Definition handle_pending (s : host) : option host :=
  let s :=
    if receiveTimeout s >? 0 then
      let s := set_receiveTimeout (u32 (receiveTimeout s - 1)) s in
      if receiveTimeout s =? 0 then set_receiveBufferIndex 0 s else s
    else s in
  match handle_strobe s with
  | None => None
  | Some s => handle_response s
  end.

(** [lasso_hostHandleCOM]: one tick. *)
Definition lasso_hostHandleCOM (log : list tx_event) (s : host)
  : option host * list tx_event :=
  if receiveBuffer s =? 0 then (Some s, log)
  else
    match handle_pending s with
    | None => (None, log)
    | Some s =>
        match handle_transmit log s with
        | (None, log) => (None, log)
        | (Some (_, s), log) => (Some (tick_timestamp s), log)
        end
    end.


(** *** Properties of the tick handler *)

(** C10.  While [receiveBuffer] is [NULL], [lasso_hostHandleCOM] returns at
    once: the state of the host (scheduler, strobe and response frames,
    memory with the time stamp) is unchanged and nothing is transmitted. *)
Theorem C10_handleCOM_before_registerMEM (log : list tx_event) (s : host) :
  receiveBuffer s = 0 ->
  lasso_hostHandleCOM log s = (Some s, log).
Proof. intros H. unfold lasso_hostHandleCOM. by rewrite H. Qed.

(** One call of [lasso_hostTransmitDataFrame] calls [comCallback] at most
    once, and for the frame it was given. *)
Lemma transmit_at_most_once (w : frame_id) (log : list tx_event) (s : host) :
  (lasso_hostTransmitDataFrame w log s).2 = log \/
  exists a n, (lasso_hostTransmitDataFrame w log s).2 = log ++ [Tx w a n].
Proof.
  unfold lasso_hostTransmitDataFrame.
  destruct (Byte_count (data_frame w s) >? 0); [|by left].
  match goal with |- context [is_COBS ?e && ?b] => destruct (is_COBS e && b) end.
  - match goal with |- context [match ?x with Some _ => _ | None => _ end] =>
      destruct x as [s1|] end; [|by left].
    right. eexists _, _.
    match goal with |- context [if ?c then _ else _] => by destruct c end.
  - match goal with |- context [let '(_, _) := ?x in _] => destruct x as [s1 n1] end.
    right. eexists _, _.
    match goal with |- context [if ?c then _ else _] => by destruct c end.
Qed.

(** With bytes left in the frame the call of [comCallback] is made. *)
Lemma transmit_attempt (w : frame_id) (log : list tx_event) (s : host) :
  0 < Byte_count (data_frame w s) ->
  exists r a n, lasso_hostTransmitDataFrame w log s = (Some r, log ++ [Tx w a n]).
Proof.
  intros Hn. unfold lasso_hostTransmitDataFrame.
  replace (Byte_count (data_frame w s) >? 0) with true
    by (symmetry; apply Z.gtb_lt; lia).
  match goal with |- context [is_COBS ?e && ?b] => destruct (is_COBS e && b) end.
  - destruct (negb (memory s (frame (data_frame w s)) =? 0)).
    + match goal with |- context [COBS.COBS_encode ?f ?m ?a ?n ?e] =>
        destruct (COBS.COBS_encode_total f m a n e) as [m' ->] end.
      * destruct (Z.gtb_spec (Byte_count (data_frame w s)) 253); lia.
      * lia.
      * match goal with |- context [if ?c then _ else _] => destruct c end;
          by eexists _, _, _.
    + match goal with |- context [if ?c then _ else _] => destruct c end;
        by eexists _, _, _.
  - match goal with |- context [let '(_, _) := ?x in _] => destruct x as [s1 n1] end.
    match goal with |- context [if negb ?c then _ else _] => destruct c end;
      by eexists _, _, _.
Qed.

(** C7.  In one call of [lasso_hostHandleCOM] the log of [comCallback]
    calls grows by at most one entry.  With [s1] the state when the
    transmission is reached: if [strobe.Byte_count] is not zero the entry is
    there and is for the strobe frame, and an entry for the response frame
    implies [strobe.Byte_count = 0].  Nothing is transmitted when the
    handler returns early or does not come to the transmission. *)
Theorem C7_one_transmit_per_tick (log : list tx_event) (s : host) :
  let log' := (lasso_hostHandleCOM log s).2 in
  (log' = log \/ exists e, log' = log ++ [e]) /\
  (forall s1, receiveBuffer s <> 0 -> handle_pending s = Some s1 ->
     (0 < Byte_count (strobe s1) -> exists a n, log' = log ++ [Tx STROBE a n]) /\
     (forall e, log' = log ++ [e] ->
        tx_frame e = (if Byte_count (strobe s1) =? 0 then RESPONSE else STROBE))) /\
  (receiveBuffer s = 0 \/ handle_pending s = None -> log' = log).
Proof.
  cbv zeta. unfold lasso_hostHandleCOM.
  destruct (Z.eqb_spec (receiveBuffer s) 0) as [Hrb|Hrb].
  { simpl. split; [by left|]. split; [done|done]. }
  destruct (handle_pending s) as [s1|] eqn:Hp.
  2: { simpl. split; [by left|]. split; [done|done]. }
  unfold handle_transmit.
  split; [|split].
  - destruct (Byte_count (strobe s1) =? 0).
    + destruct (transmit_at_most_once RESPONSE log s1) as [H|(a & n & H)];
        destruct (lasso_hostTransmitDataFrame RESPONSE log s1) as [[[? ?]|] l];
        simpl in *; subst l; eauto.
    + destruct (transmit_at_most_once STROBE log s1) as [H|(a & n & H)];
        destruct (lasso_hostTransmitDataFrame STROBE log s1) as [[[? ?]|] l];
        simpl in *; subst l; eauto.
  - intros s1' _ [= <-]. split.
    + intros Hn.
      replace (Byte_count (strobe s1) =? 0) with false
        by (symmetry; apply Z.eqb_neq; lia).
      destruct (transmit_attempt STROBE log s1 Hn) as ([? ?] & a & n & ->).
      simpl. eauto.
    + intros e He.
      destruct (Byte_count (strobe s1) =? 0).
      * destruct (transmit_at_most_once RESPONSE log s1) as [H|(a & n & H)];
          destruct (lasso_hostTransmitDataFrame RESPONSE log s1) as [[[? ?]|] l];
          simpl in *; rewrite H in He.
        all: try (apply (f_equal length) in He; rewrite length_app in He;
                  simpl in He; lia).
        all: by apply app_inj_tail in He as [_ <-].
      * destruct (transmit_at_most_once STROBE log s1) as [H|(a & n & H)];
          destruct (lasso_hostTransmitDataFrame STROBE log s1) as [[[? ?]|] l];
          simpl in *; rewrite H in He.
        all: try (apply (f_equal length) in He; rewrite length_app in He;
                  simpl in He; lia).
        all: by apply app_inj_tail in He as [_ <-].
  - intros [?|?]; done.
Qed.


(** *** A frame sent in several calls *)

(** Calls of [lasso_hostTransmitDataFrame] in a row for the frame [w]. *)
Fixpoint transmit_calls (n : nat) (w : frame_id) (log : list tx_event) (s : host)
  : option host * list tx_event :=
  match n with
  | O => (Some s, log)
  | S k =>
      match lasso_hostTransmitDataFrame w log s with
      | (Some (_, s'), log') => transmit_calls k w log' s'
      | (None, log') => (None, log')
      end
  end.

(** The chunks of a frame of [num] bytes at [frame]: none is longer than
    [max], each starts where the one before ends. *)
Fixpoint frame_chunks (n : nat) (frame num max : Z) : list (Z * Z) :=
  match n with
  | O => []
  | S k =>
      if num >? 0 then
        (frame, Z.min num max) :: frame_chunks k (frame + Z.min num max)
                                    (num - Z.min num max) max
      else []
  end.

Lemma frame_chunks_cover (n : nat) (frame num max : Z) :
  0 < max -> 0 <= num <= Z.of_nat n * max ->
  Forall (fun c => 0 < c.2 <= max) (frame_chunks n frame num max) /\
  foldr (fun c acc => c.2 + acc) 0 (frame_chunks n frame num max) = num.
Proof.
  intros Hmax. revert frame num.
  induction n as [|k IH]; intros frame num Hn; simpl.
  - split; [constructor|lia].
  - destruct (Z.gtb_spec num 0) as [Hpos|Hz]; [|split; [constructor|simpl; lia]].
    rewrite Nat2Z.inj_succ, Z.mul_succ_l in Hn.
    destruct (IH (frame + Z.min num max) (num - Z.min num max)) as [H1 H2]; [lia|].
    split; [constructor; [simpl; lia|done]|]. simpl. rewrite H2. lia.
Qed.

Lemma set_data_frame_twice (w : frame_id) (f1 f2 : dataFrame) (s : host) :
  set_data_frame w f2 (set_data_frame w f1 s) = set_data_frame w f2 s.
Proof. by destruct w. Qed.

(** One call without stuffing and with a transmitter that is not busy. *)
Lemma transmit_one_chunk (w : frame_id) (log : list tx_event) (s : host) :
  is_COBS (LASSO_HOST_COMMAND_ENCODING cfg) = false ->
  is_ESCS (LASSO_HOST_COMMAND_ENCODING cfg) = false ->
  (forall l m a n, comCallback l m a n <> EBUSY) ->
  0 < Byte_count (data_frame w s) < 4294967296 ->
  0 < LASSO_HOST_MAX_FRAME_SIZE cfg ->
  let p := data_frame w s in
  let k := Z.min (Byte_count p) (LASSO_HOST_MAX_FRAME_SIZE cfg) in
  lasso_hostTransmitDataFrame w log s =
    (Some (true, set_data_frame w
                   (set_Byte_count (Byte_count p - k) (set_frame (frame p + k) p)) s),
     log ++ [Tx w (frame p) k]).
Proof.
  intros Hc He Hcom Hn Hmax p k. unfold lasso_hostTransmitDataFrame. cbv zeta.
  rewrite Hc, He. cbn [andb].
  replace (Byte_count (data_frame w s) >? 0) with true
    by (symmetry; apply Z.gtb_lt; lia).
  fold p.
  assert ((if Byte_count p >? LASSO_HOST_MAX_FRAME_SIZE cfg
           then LASSO_HOST_MAX_FRAME_SIZE cfg else Byte_count p) = k) as ->.
  { subst k. destruct (Z.gtb_spec (Byte_count p) (LASSO_HOST_MAX_FRAME_SIZE cfg)); lia. }
  pose proof (Hcom log (memory s) (frame p) k) as Hr.
  apply Z.eqb_neq in Hr. rewrite Hr. cbn [negb].
  unfold u32. rewrite Z.mod_small by (subst k p; lia). done.
Qed.

(** X23.  Without COBS or ESCS command encoding and with a
    transmitter that is never busy, calls of [lasso_hostTransmitDataFrame]
    in a row send a frame of [Byte_count] bytes in chunks of at most
    [LASSO_HOST_MAX_FRAME_SIZE] bytes: each call of [comCallback] is for
    the bytes that follow those of the call before, the chunks add up to
    the frame, and afterwards [Byte_count] is zero and the frame pointer
    is behind the frame.  Further calls transmit nothing. *)
Theorem transmit_in_chunks (n : nat) (w : frame_id) (log : list tx_event) (s : host) :
  is_COBS (LASSO_HOST_COMMAND_ENCODING cfg) = false ->
  is_ESCS (LASSO_HOST_COMMAND_ENCODING cfg) = false ->
  (forall l m a n, comCallback l m a n <> EBUSY) ->
  0 < LASSO_HOST_MAX_FRAME_SIZE cfg ->
  0 <= Byte_count (data_frame w s) < 4294967296 ->
  Byte_count (data_frame w s) <= Z.of_nat n * LASSO_HOST_MAX_FRAME_SIZE cfg ->
  let p := data_frame w s in
  let chunks := frame_chunks n (frame p) (Byte_count p) (LASSO_HOST_MAX_FRAME_SIZE cfg) in
  transmit_calls n w log s =
    (Some (set_data_frame w
             (set_Byte_count 0 (set_frame (frame p + Byte_count p) p)) s),
     log ++ map (fun c => Tx w c.1 c.2) chunks) /\
  Forall (fun c => 0 < c.2 <= LASSO_HOST_MAX_FRAME_SIZE cfg) chunks /\
  foldr (fun c acc => c.2 + acc) 0 chunks = Byte_count p.
Proof.
  intros Hc He Hcom Hmax Hn Hfuel p chunks.
  subst chunks p. split; [|apply frame_chunks_cover; lia].
  revert log s Hn Hfuel.
  induction n as [|k IH]; intros log s Hn Hfuel.
  - assert (Byte_count (data_frame w s) = 0) as E by lia.
    simpl. rewrite E, Z.add_0_r, app_nil_r. do 2 f_equal.
    destruct w, s as [? ? ? ? ? ? ? ? ? ? [] [] ? ? ? ? ? ? ? ?]; simpl in *; by subst.
  - cbn [transmit_calls frame_chunks].
    rewrite Nat2Z.inj_succ, Z.mul_succ_l in Hfuel.
    destruct (Z.gtb_spec (Byte_count (data_frame w s)) 0) as [Hpos|Hz].
    + rewrite (transmit_one_chunk w log s Hc He Hcom) by lia. cbv zeta.
      set (k' := Z.min (Byte_count (data_frame w s)) (LASSO_HOST_MAX_FRAME_SIZE cfg)).
      set (s1 := set_data_frame w _ s).
      assert (data_frame w s1 =
              set_Byte_count (Byte_count (data_frame w s) - k')
                (set_frame (frame (data_frame w s) + k') (data_frame w s))) as Ep
        by (subst s1; by destruct w).
      rewrite IH; rewrite Ep; cbn [Byte_count frame set_Byte_count set_frame].
      all: try (subst k'; lia).
      cbn [map]. rewrite <- app_assoc. cbn [app fst snd]. f_equal.
      f_equal. subst s1. rewrite set_data_frame_twice. f_equal.
      unfold set_Byte_count, set_frame. cbn [countdown COBS_backup valid buffer frame
        Byte_count Bytes_max Bytes_total]. f_equal. lia.
    + assert (Byte_count (data_frame w s) = 0) as E by lia.
      assert (lasso_hostTransmitDataFrame w log s = (Some (false, s), log)) as ->.
      { unfold lasso_hostTransmitDataFrame. cbv zeta. by rewrite E. }
      assert (forall j log, transmit_calls j w log s = (Some s, log)) as Hidle.
      { induction j as [|j IHj]; intros log0; [done|].
        cbn [transmit_calls].
        assert (lasso_hostTransmitDataFrame w log0 s = (Some (false, s), log0)) as ->
          by (unfold lasso_hostTransmitDataFrame; cbv zeta; by rewrite E).
        apply IHj. }
      rewrite Hidle, E, Z.add_0_r. cbn [map]. rewrite app_nil_r. do 2 f_equal.
      destruct w, s as [? ? ? ? ? ? ? ? ? ? [] [] ? ? ? ? ? ? ? ?]; simpl in *; by subst.
Qed.


(** *** The registry under the commands *)

Lemma emit_reply_same_registry (start opcode : Z) (tiny : bool) (payload : list Z)
    (msg_err : Z) (s x : host) :
  same_registry s x -> same_registry s (emit_reply start opcode tiny payload msg_err x).
Proof.
  intros H. eapply same_registry_trans; [exact H|].
  unfold emit_reply.
  match goal with |- context [let '(_, _) := ?p in _] => destruct p as [m total] end.
  done.
Qed.

Lemma interprete_begin_same_registry (s : host) :
  same_registry s (interprete_begin s).1.
Proof.
  unfold interprete_begin. repeat case_match; simplify_eq; done.
Qed.

(** Changing the enable bit of the cell [i] keeps the invariant: the sum
    of the enabled cells and [strobe.Bytes_total] move together. *)
Lemma registry_inv_set_datacell_strobe (b : bool) (regs : list registration)
    (s : host) (i : nat) (c : dataCell) (bparam : bool) :
  registry_inv cfg b regs s -> cells s !! i = Some c ->
  registry_inv cfg b regs (set_datacell_strobe i c bparam s).
Proof.
  intros Hinv Hi. pose proof Hinv as [H1 H2 H3 H4 H5 H6].
  destruct (Forall2_lookup_l _ _ _ _ _ H4 Hi) as (r & Hr & Hreg).
  pose proof Hreg as ([Hct Hcc] & Hcnt & Hnm & Hun & Hoc & Hw).
  assert (u32 (count c * (if Z.land (type c) LASSO_DATACELL_BYTEWIDTH_MASK =? 0
                          then 1 else Z.land (type c) LASSO_DATACELL_BYTEWIDTH_MASK))
          = cell_size c) as Hsize.
  { unfold cell_size, cell_width. pose proof (cell_width_range c) as Hwr.
    unfold cell_width in Hwr. unfold is_u16 in Hcc.
    destruct (Z.eqb_spec (Z.land (type c) LASSO_DATACELL_BYTEWIDTH_MASK) 0) as [->|Hne];
      unfold u32; rewrite Z.mod_small by nia; f_equal; lia. }
  unfold set_datacell_strobe. cbv zeta. rewrite Hsize.
  assert (forall t', is_u16 t' ->
            Z.land t' LASSO_DATACELL_BYTEWIDTH_MASK
            = Z.land (type c) LASSO_DATACELL_BYTEWIDTH_MASK ->
            forall T,
            T = u32 (Bytes_total (strobe s)
                     - (if cell_enabled c then cell_size c else 0)
                     + (if cell_enabled (set_type t' c)
                        then cell_size (set_type t' c) else 0)) ->
            registry_inv cfg b regs
              (set_cells (<[i := set_type t' c]> (cells s))
                 (upd_strobe (set_Bytes_total T) s))) as Hupd.
  { intros t' Ht' Hw' T ->. split; simpl.
    - rewrite H1. destruct (cells s) as [|c0 l]; [done|]. by destruct i.
    - by rewrite length_insert.
    - intros j cj Hj. rewrite length_insert.
      destruct (decide (i = j)) as [<-|Hne].
      + rewrite list_lookup_insert_eq in Hj by (by eapply lookup_lt_Some).
        inversion Hj. simpl. by apply H3.
      + rewrite list_lookup_insert_ne in Hj by done. by apply H3.
    - rewrite <- (list_insert_id regs i r Hr). apply Forall2_insert; [done|].
      split; [split; [exact Ht'|exact Hcc]|].
      repeat (split; [done|]).
      change (cell_width (set_type t' c)) with (Z.land t' LASSO_DATACELL_BYTEWIDTH_MASK).
      by rewrite Hw'.
    - done.
    - unfold strobe_size_law in *. simpl.
      rewrite (active_bytes_insert _ _ _ _ Hi), H6.
      change (strobe_overhead cfg _) with (strobe_overhead cfg s).
      generalize (strobe_overhead cfg s). intros ov.
      destruct b; u32_lia. }
  assert (cell_size (set_type (Z.lor (type c) LASSO_DATACELL_ENABLE_MASK) c) = cell_size c)
    as He1 by (unfold cell_size, cell_width; simpl; by rewrite type_enable_width).
  assert (cell_enabled (set_type (Z.lor (type c) LASSO_DATACELL_ENABLE_MASK) c) = true)
    as He2.
  { unfold cell_enabled. simpl.
    pose proof (type_enable_bit (type c)) as Hb. by apply Z.eqb_neq in Hb as ->. }
  assert (cell_enabled (set_type (Z.land (type c) LASSO_DATACELL_DISABLE_MASK) c) = false)
    as Hd2 by (unfold cell_enabled; simpl; by rewrite type_disable_bit).
  destruct bparam.
  - destruct (Z.land (type c) LASSO_DATACELL_ENABLE_MASK =? 0) eqn:Hen; [|done].
    apply Hupd.
    + apply Z_lor_u16; done.
    + apply type_enable_width.
    + rewrite He1, He2. unfold cell_enabled.
      change LASSO_DATACELL_ENABLE with LASSO_DATACELL_ENABLE_MASK. rewrite Hen. simpl.
      f_equal. lia.
  - destruct (Z.land (type c) LASSO_DATACELL_ENABLE_MASK =? 0) eqn:Hen; [done|].
    simpl negb. cbv iota. apply Hupd.
    + split; [apply Z.land_nonneg; left; apply Hct|].
      pose proof (Z_land_le LASSO_DATACELL_DISABLE_MASK (type c)).
      rewrite Z.land_comm. unfold is_u16 in Hct. lia.
    + apply type_disable_width.
    + rewrite Hd2. unfold cell_enabled.
      change LASSO_DATACELL_ENABLE with LASSO_DATACELL_ENABLE_MASK. rewrite Hen. simpl.
      f_equal. lia.
Qed.

(** Giving the cell [i] another [ptr] keeps the invariant. *)
Lemma registry_inv_set_ptr (b : bool) (regs : list registration)
    (s : host) (i : nat) (c : dataCell) (p : Z) :
  registry_inv cfg b regs s -> cells s !! i = Some c ->
  registry_inv cfg b regs (set_cells (<[i := set_ptr p c]> (cells s)) s).
Proof.
  intros [H1 H2 H3 H4 H5 H6] Hi.
  destruct (Forall2_lookup_l _ _ _ _ _ H4 Hi) as (r & Hr & Hreg).
  split; simpl.
  - rewrite H1. destruct (cells s) as [|c0 l]; [done|]. by destruct i.
  - by rewrite length_insert.
  - intros j cj Hj. rewrite length_insert.
    destruct (decide (i = j)) as [<-|Hne].
    + rewrite list_lookup_insert_eq in Hj by (by eapply lookup_lt_Some).
      inversion Hj. simpl. by apply H3.
    + rewrite list_lookup_insert_ne in Hj by done. by apply H3.
  - rewrite <- (list_insert_id regs i r Hr). by apply Forall2_insert.
  - done.
  - unfold strobe_size_law in *. simpl.
    rewrite (active_bytes_insert _ _ _ _ Hi), H6. f_equal.
    unfold strobe_overhead. simpl.
    change (cell_enabled (set_ptr p c)) with (cell_enabled c).
    change (cell_size (set_ptr p c)) with (cell_size c). lia.
Qed.

(** Every command keeps the invariant: 'S' moves the sum of the enabled
    cells and [strobe.Bytes_total] together, the other commands change
    neither. *)
Lemma registry_inv_interprete (b : bool) (regs : list registration) (s s' : host) :
  registry_inv cfg b regs s ->
  lasso_hostInterpreteCommand s = Some s' ->
  registry_inv cfg b regs s'.
Proof.
  intros Hinv. unfold lasso_hostInterpreteCommand.
  pose proof (interprete_begin_same_registry s) as Hb.
  destruct (interprete_begin s) as [s1 start]. simpl in Hb.
  pose proof (registry_inv_same _ _ _ _ _ Hinv Hb) as Hinv1.
  clear Hinv Hb s. cbv zeta.
  set (reply := emit_reply start).
  assert (forall op t p e x, registry_inv cfg b regs x ->
                             registry_inv cfg b regs (reply op t p e x)) as Hreply.
  { intros op t p e x Hx. eapply registry_inv_same; [exact Hx|].
    apply emit_reply_same_registry, same_registry_refl. }
  assert (forall (f : host -> host) x,
            registry_inv cfg b regs x -> same_registry x (f x) ->
            registry_inv cfg b regs (f x)) as Hset.
  { intros f x Hx Hf. by eapply registry_inv_same. }
  clearbody reply.
  intros H.
  repeat case_match; simplify_eq;
    repeat first
      [ assumption
      | apply Hreply
      | apply registry_inv_set_datacell_strobe; [|eassumption]
      | apply registry_inv_set_ptr; [|eassumption]
      | match goal with
        | |- registry_inv _ _ _ (set_lasso_advertise ?v ?x) =>
            apply (Hset (set_lasso_advertise v) x); [|done]
        | |- registry_inv _ _ _ (set_lasso_strobing ?v ?x) =>
            apply (Hset (set_lasso_strobing v) x); [|done]
        | |- registry_inv _ _ _ (set_lasso_strobe_period ?v ?x) =>
            apply (Hset (set_lasso_strobe_period v) x); [|done]
        | |- registry_inv _ _ _ (set_memory ?v ?x) =>
            apply (Hset (set_memory v) x); [|done]
        | |- registry_inv _ _ _ (upd_strobe (set_countdown ?v) ?x) =>
            apply (Hset (upd_strobe (set_countdown v)) x); [|done]
        | |- registry_inv _ _ _ (upd_strobe (set_Byte_count ?v) ?x) =>
            apply (Hset (upd_strobe (set_Byte_count v)) x); [|done]
        end ].
Qed.


(** On a registry that satisfies the invariant the walk along the chain
    ends, at a cell or behind the last one. *)
Lemma seek_registry_total (b : bool) (regs : list registration) (s : host) (num : Z) :
  registry_inv cfg b regs s ->
  exists (dC : option nat) (pos : Z),
    lasso_hostSeekDatacell (u8 num) s = Some (dC, pos) /\
    forall i : nat, dC = Some i -> exists c, cells s !! i = Some c.
Proof.
  intros Hinv.
  assert (0 <= u8 num <= 255) as Hn.
  { unfold u8. pose proof (Z.mod_pos_bound num 256). lia. }
  rewrite (seek_registry _ _ _ _ _ Hinv Hn). eexists _, _. split; [done|].
  intros i Hi. apply lookup_lt_is_Some_2.
  destruct (Z.to_nat (u8 num) <? length (cells s))%nat eqn:E; [|done].
  apply Nat.ltb_lt in E. by simplify_eq.
Qed.

(** The interpreter returns for every command. *)
Lemma interprete_returns (b : bool) (regs : list registration) (s : host) :
  registry_inv cfg b regs s ->
  exists s' : host, lasso_hostInterpreteCommand s = Some s'.
Proof.
  intros Hinv. unfold lasso_hostInterpreteCommand.
  pose proof (interprete_begin_same_registry s) as Hb.
  destruct (interprete_begin s) as [s1 start]. simpl in Hb.
  pose proof (registry_inv_same _ _ _ _ _ Hinv Hb) as Hinv1.
  pose proof (fun n => seek_registry_total b regs s1 n Hinv1) as Htot.
  clear Hinv Hb. cbv zeta.
  repeat case_match; simplify_eq; eauto;
    match goal with
    | H : lasso_hostSeekDatacell (u8 ?n) s1 = _ |- _ =>
        destruct (Htot n) as (dC & pos & E & Hc); rewrite E in H; simplify_eq;
        destruct (Hc _ eq_refl) as [c' Hc']; congruence
    end.
Qed.


(** *** The registry under a tick *)

(** The sampler of dynamic strobing counts [update_rate] down and reloads
    it; no other field of a cell changes. *)
Definition resampled (c c' : dataCell) : Prop :=
  exists ur : Z, c' = set_update_rate ur c.

Lemma resampled_refl (c : dataCell) : resampled c c.
Proof. exists (update_rate c). by destruct c. Qed.

Lemma resampled_trans (c1 c2 c3 : dataCell) :
  resampled c1 c2 -> resampled c2 c3 -> resampled c1 c3.
Proof. intros [u1 ->] [u2 ->]. by exists u2. Qed.

Lemma resampled_insert (heap : list dataCell) (i : nat) (c : dataCell) (ur : Z) :
  heap !! i = Some c ->
  Forall2 resampled heap (<[i := set_update_rate ur c]> heap).
Proof.
  intros Hi. rewrite <- (list_insert_id heap i c Hi) at 1.
  apply Forall2_insert; [|by exists ur].
  apply Forall_Forall2_diag, Forall_forall. intros x _. apply resampled_refl.
Qed.

Lemma resampled_active_bytes (heap heap' : list dataCell) :
  Forall2 resampled heap heap' -> active_bytes heap' = active_bytes heap.
Proof.
  induction 1 as [|c c' l l' [ur ->] _ IH]; [done|]. simpl. by rewrite IH.
Qed.

Lemma sample_loop_resampled (fuel : nat) (dC : option nat) (heap : list dataCell)
    (m : mem) (dst maskPtr maskBit : Z) (heap' : list dataCell) (m' : mem) (p' : Z) :
  sample_loop fuel dC heap m dst maskPtr maskBit = Some (heap', m', p') ->
  Forall2 resampled heap heap'.
Proof.
  revert dC heap m dst maskPtr maskBit.
  induction fuel as [|f IH]; intros dC heap m dst maskPtr maskBit H.
  - destruct dC; simpl in H; simplify_eq.
    apply Forall_Forall2_diag, Forall_forall. intros x _. apply resampled_refl.
  - destruct dC as [i|]; simpl in H.
    2: { simplify_eq. apply Forall_Forall2_diag, Forall_forall.
         intros x _. apply resampled_refl. }
    destruct (heap !! i) as [c|] eqn:Hc; [|done].
    assert (forall h1 m1 d1 mp mb,
              Forall2 resampled heap h1 ->
              sample_loop f (next c) h1 m1 d1 mp mb = Some (heap', m', p') ->
              Forall2 resampled heap heap') as Hstep.
    { intros h1 m1 d1 mp mb H1 H2. apply IH in H2.
      eapply Forall2_trans; [|exact H1|exact H2].
      intros x y z. apply resampled_trans. }
    assert (Forall2 resampled heap heap) as Hrefl.
    { apply Forall_Forall2_diag, Forall_forall. intros x _. apply resampled_refl. }
    pose proof (fun ur => resampled_insert heap i c ur Hc) as Hins.
    repeat case_match; simplify_eq;
      (eapply Hstep; [|eassumption]; first [exact Hrefl | apply Hins]).
Qed.

Lemma registry_inv_resampled (b : bool) (regs : list registration) (s : host)
    (heap' : list dataCell) :
  registry_inv cfg b regs s -> Forall2 resampled (cells s) heap' ->
  registry_inv cfg b regs (set_cells heap' s).
Proof.
  intros [H1 H2 H3 H4 H5 H6] Hr.
  assert (length (cells s) = length heap') as Hlen by (by eapply Forall2_length).
  split; simpl.
  - rewrite H1. by destruct (cells s), heap'.
  - by rewrite <- Hlen.
  - intros i c' Hc'.
    destruct (Forall2_lookup_r _ _ _ _ _ Hr Hc') as (c & Hc & [ur ->]).
    simpl. rewrite <- Hlen. by apply H3.
  - eapply Forall2_trans; [|apply Forall2_flip, Hr|exact H4].
    by intros x y z [ur ->] Hreg.
  - done.
  - unfold strobe_size_law, strobe_overhead in *. simpl.
    by rewrite (resampled_active_bytes _ _ Hr).
Qed.

(** The builds in which the sampler leaves [strobe.Bytes_total] alone:
    with dynamic strobing and a COBS or ESCS strobe it stores there the
    length of the frame it has just written. *)
Definition fixed_strobe_size : bool :=
  negb (is_DYNAMIC (LASSO_HOST_STROBE_DYNAMICS cfg)
        && (is_COBS (LASSO_HOST_STROBE_ENCODING cfg)
            || is_ESCS (LASSO_HOST_STROBE_ENCODING cfg))).

(** A goal about a state that differs from a state of the context by
    fields outside the registry. *)
Ltac inv_by_setters :=
  match goal with
  | H : registry_inv _ _ _ ?x |- registry_inv _ _ _ ?y =>
      apply (registry_inv_same _ _ _ x y H); by repeat split
  end.

Lemma registry_inv_sample (b : bool) (regs : list registration) (s s' : host) :
  fixed_strobe_size = true ->
  registry_inv cfg b regs s ->
  lasso_hostSampleDataCells s = Some s' ->
  registry_inv cfg b regs s'.
Proof.
  unfold fixed_strobe_size, lasso_hostSampleDataCells. intros Hfix Hinv.
  cbv zeta.
  destruct (LASSO_HOST_STROBE_DYNAMICS cfg) eqn:Hdyn,
           (LASSO_HOST_STROBE_ENCODING cfg) eqn:Henc;
    simpl in Hfix; try discriminate; simpl is_DYNAMIC; simpl is_COBS;
    simpl is_ESCS; simpl orb; cbv iota; intros H;
    repeat case_match; simplify_eq;
    try inv_by_setters;
    match goal with
    | Hs : sample_loop _ _ _ _ _ _ _ = Some (?h, _, _) |- _ =>
        apply sample_loop_resampled in Hs;
        pose proof (registry_inv_resampled _ _ _ _ Hinv Hs)
    end;
    inv_by_setters.
Qed.

Lemma registry_inv_handle_strobe (b : bool) (regs : list registration) (s s' : host) :
  fixed_strobe_size = true ->
  registry_inv cfg b regs s ->
  handle_strobe s = Some s' ->
  registry_inv cfg b regs s'.
Proof.
  intros Hfix Hinv. unfold handle_strobe. intros H.
  repeat case_match; simplify_eq; try inv_by_setters;
    match goal with
    | Hs : lasso_hostSampleDataCells ?x = Some _ |- _ =>
        assert (registry_inv cfg b regs x) as Hx by inv_by_setters;
        pose proof (registry_inv_sample _ _ _ _ Hfix Hx Hs)
    end;
    inv_by_setters.
Qed.

Lemma registry_inv_handle_response (b : bool) (regs : list registration)
    (s s' : host) :
  registry_inv cfg b regs s ->
  handle_response s = Some s' ->
  registry_inv cfg b regs s'.
Proof.
  intros Hinv. unfold handle_response. intros H.
  repeat case_match; simplify_eq; try inv_by_setters;
    match goal with
    | Hs : lasso_hostInterpreteCommand ?x = Some _ |- _ =>
        assert (registry_inv cfg b regs x) as Hx by inv_by_setters;
        pose proof (registry_inv_interprete _ _ _ _ Hx Hs)
    end;
    inv_by_setters.
Qed.

Lemma transmit_same_registry (w : frame_id) (log log' : list tx_event)
    (s s' : host) (r : bool) :
  lasso_hostTransmitDataFrame w log s = (Some (r, s'), log') ->
  same_registry s s'.
Proof.
  unfold lasso_hostTransmitDataFrame. intros H.
  destruct w; repeat case_match; simplify_eq; by repeat split.
Qed.

(** One tick keeps the invariant in the builds with a fixed strobe size. *)
Lemma registry_inv_handleCOM (b : bool) (regs : list registration)
    (log : list tx_event) (s s' : host) :
  fixed_strobe_size = true ->
  registry_inv cfg b regs s ->
  (lasso_hostHandleCOM log s).1 = Some s' ->
  registry_inv cfg b regs s'.
Proof.
  intros Hfix Hinv. unfold lasso_hostHandleCOM.
  destruct (receiveBuffer s =? 0); [by intros [= <-]|].
  unfold handle_pending.
  match goal with |- context [handle_strobe ?x] =>
    assert (registry_inv cfg b regs x) as Hx
      by (repeat case_match; inv_by_setters);
    destruct (handle_strobe x) as [s1|] eqn:Hs1; [|done]
  end.
  pose proof (registry_inv_handle_strobe _ _ _ _ Hfix Hx Hs1) as H1.
  destruct (handle_response s1) as [s2|] eqn:Hs2; [|done].
  pose proof (registry_inv_handle_response _ _ _ _ H1 Hs2) as H2.
  destruct (handle_transmit log s2) as [[[r s3]|] log'] eqn:Hs3; [|done].
  intros [= <-].
  assert (same_registry s2 s3) as H3.
  { unfold handle_transmit in Hs3.
    destruct (Byte_count (strobe s2) =? 0); by eapply transmit_same_registry. }
  pose proof (registry_inv_same _ _ _ _ _ H2 H3) as H4.
  unfold tick_timestamp. destruct (LASSO_HOST_TIMESTAMP cfg); [|done].
  apply (registry_inv_same _ _ _ _ _ H4). by repeat split.
Qed.

(** The tick samples the cells: the host is strobing, the strobe
    countdown expires and the strobe before has been sent. *)
Definition tick_samples (s : host) : bool :=
  negb (lasso_advertise s) && lasso_strobing s
  && ((if LASSO_HOST_STROBE_EXTERNAL_SYNC cfg then countdown (strobe s)
       else u16 (countdown (strobe s) - 1)) =? 0)
  && negb (Byte_count (strobe s) >? 0).

Lemma registry_inv_handle_strobe_idle (b : bool) (regs : list registration)
    (s s' : host) :
  tick_samples s = false ->
  registry_inv cfg b regs s ->
  handle_strobe s = Some s' ->
  registry_inv cfg b regs s'.
Proof.
  unfold tick_samples, handle_strobe. intros Hidle Hinv H.
  destruct (lasso_advertise s); [repeat case_match; simplify_eq; inv_by_setters|].
  destruct (lasso_strobing s); [|simplify_eq; inv_by_setters].
  destruct (LASSO_HOST_STROBE_EXTERNAL_SYNC cfg); simpl in Hidle, H.
  all: match type of Hidle with
       | (?c =? 0) && _ = false => destruct (c =? 0)
       end; [|simplify_eq; inv_by_setters].
  all: simpl in Hidle; apply negb_false_iff in Hidle; rewrite Hidle in H.
  all: simplify_eq; inv_by_setters.
Qed.

(** One tick keeps the invariant also in the other builds, unless it
    samples. *)
Lemma registry_inv_handleCOM_idle (b : bool) (regs : list registration)
    (log : list tx_event) (s s' : host) :
  tick_samples s = false ->
  registry_inv cfg b regs s ->
  (lasso_hostHandleCOM log s).1 = Some s' ->
  registry_inv cfg b regs s'.
Proof.
  intros Hidle Hinv. unfold lasso_hostHandleCOM.
  destruct (receiveBuffer s =? 0); [by intros [= <-]|].
  unfold handle_pending.
  match goal with |- context [handle_strobe ?x] =>
    assert (registry_inv cfg b regs x) as Hx
      by (repeat case_match; inv_by_setters);
    assert (tick_samples x = false) as Hix
      by (rewrite <- Hidle; repeat case_match; reflexivity);
    destruct (handle_strobe x) as [s1|] eqn:Hs1; [|done]
  end.
  pose proof (registry_inv_handle_strobe_idle _ _ _ _ Hix Hx Hs1) as H1.
  destruct (handle_response s1) as [s2|] eqn:Hs2; [|done].
  pose proof (registry_inv_handle_response _ _ _ _ H1 Hs2) as H2.
  destruct (handle_transmit log s2) as [[[r s3]|] log'] eqn:Hs3; [|done].
  intros [= <-].
  assert (same_registry s2 s3) as H3.
  { unfold handle_transmit in Hs3.
    destruct (Byte_count (strobe s2) =? 0); by eapply transmit_same_registry. }
  pose proof (registry_inv_same _ _ _ _ _ H2 H3) as H4.
  unfold tick_timestamp. destruct (LASSO_HOST_TIMESTAMP cfg); [|done].
  apply (registry_inv_same _ _ _ _ _ H4). by repeat split.
Qed.

(** *** The content of a static strobe *)

(** What the sampler copies for a cell: the bytes of its memory cell, if
    the cell is enabled. *)
Definition cell_image (m : mem) (c : dataCell) : list Z :=
  if cell_enabled c then load_bytes m (ptr c) (Z.to_nat (cell_size c)) else [].

Fixpoint strobe_image (m : mem) (l : list dataCell) : list Z :=
  match l with
  | [] => []
  | c :: t => cell_image m c ++ strobe_image m t
  end.

(** Cells that the sampler copies: of one, two or four bytes a piece. *)
Definition copied_width (c : dataCell) : Prop :=
  cell_width c = LASSO_DATACELL_BYTEWIDTH_1 \/
  cell_width c = LASSO_DATACELL_BYTEWIDTH_2 \/
  cell_width c = LASSO_DATACELL_BYTEWIDTH_4.

(** The memory cell lies outside the addresses from [lo] to [hi]. *)
Definition cell_outside (lo hi : Z) (c : dataCell) : Prop :=
  ptr c + cell_size c <= lo \/ hi <= ptr c.

Lemma copy_elems_spec (n w : nat) (m : mem) (src dst : Z) :
  src + Z.of_nat (n * w) <= dst \/ dst + Z.of_nat (n * w) <= src ->
  copy_elems n w (Z.of_nat w) m src dst =
    (store_bytes m dst (load_bytes m src (n * w)), dst + Z.of_nat (n * w)).
Proof.
  revert m src dst. induction n as [|k IH]; intros m src dst Hd.
  - simpl. by rewrite Z.add_0_r.
  - cbn [copy_elems]. rewrite IH by lia.
    change (S k * w)%nat with (w + k * w)%nat.
    rewrite load_bytes_app, store_bytes_app, load_bytes_length.
    f_equal; [|lia]. f_equal.
    apply load_bytes_ext. intros x Hx. apply store_bytes_outside.
    rewrite load_bytes_length. lia.
Qed.

Lemma strobe_image_length (m : mem) (l : list dataCell) :
  Forall cell_ok l -> Z.of_nat (length (strobe_image m l)) = active_bytes l.
Proof.
  induction 1 as [|c t Hc _ IH]; [done|].
  simpl. rewrite length_app, Nat2Z.inj_add, IH. f_equal.
  unfold cell_image. destruct (cell_enabled c); [|done].
  rewrite load_bytes_length. pose proof (cell_size_range c Hc). lia.
Qed.

Lemma strobe_image_ext (m m' : mem) (lo hi : Z) (l : list dataCell) :
  Forall cell_ok l ->
  Forall (fun c => cell_enabled c = true -> cell_outside lo hi c) l ->
  (forall x, x < lo \/ hi <= x -> m' x = m x) ->
  strobe_image m' l = strobe_image m l.
Proof.
  intros Hok Ho Hm. induction l as [|c t IH]; [done|].
  inversion Hok; inversion Ho; subst. simpl. rewrite IH by done. f_equal.
  unfold cell_image. destruct (cell_enabled c) eqn:E; [|done].
  apply load_bytes_ext. intros x Hx.
  pose proof (cell_size_range c ltac:(done)).
  destruct (H5 eq_refl); apply Hm; lia.
Qed.

Lemma copy_cell_spec (c : dataCell) (m : mem) (dst : Z) :
  LASSO_HOST_UNALIGNED_MEMORY_ACCESS cfg = false ->
  cell_ok c -> copied_width c ->
  ptr c + cell_size c <= dst \/ dst + cell_size c <= ptr c ->
  copy_cell c m dst =
    (store_bytes m dst (load_bytes m (ptr c) (Z.to_nat (cell_size c))),
     dst + cell_size c).
Proof.
  intros Hal [_ Hcnt] Hw Hd. unfold copy_cell. cbv zeta. rewrite Hal.
  unfold is_u16 in Hcnt. unfold copied_width, cell_width in Hw.
  destruct Hw as [E|[E|E]]; rewrite E.
  - assert (cell_size c = count c) as Es
      by (unfold cell_size, cell_width; rewrite E;
          unfold LASSO_DATACELL_BYTEWIDTH_1, LASSO_DATACELL_BYTEWIDTH_2,
            LASSO_DATACELL_BYTEWIDTH_4; lia).
    rewrite Es in *. cbn [Z.eqb LASSO_DATACELL_BYTEWIDTH_1].
    rewrite (copy_elems_spec (Z.to_nat (count c)) 1) by lia.
    rewrite Nat.mul_1_r. f_equal. lia.
  - assert (cell_size c = count c * 2) as Es
      by (unfold cell_size, cell_width; rewrite E;
          unfold LASSO_DATACELL_BYTEWIDTH_1, LASSO_DATACELL_BYTEWIDTH_2,
            LASSO_DATACELL_BYTEWIDTH_4; lia).
    rewrite Es in *.
    change (LASSO_DATACELL_BYTEWIDTH_2 =? LASSO_DATACELL_BYTEWIDTH_1) with false.
    change (LASSO_DATACELL_BYTEWIDTH_2 =? LASSO_DATACELL_BYTEWIDTH_2) with true.
    cbv iota.
    rewrite (copy_elems_spec (Z.to_nat (count c)) 2) by lia.
    replace (Z.to_nat (count c) * 2)%nat with (Z.to_nat (count c * 2)) by lia.
    f_equal. lia.
  - assert (cell_size c = count c * 4) as Es
      by (unfold cell_size, cell_width; rewrite E;
          unfold LASSO_DATACELL_BYTEWIDTH_1, LASSO_DATACELL_BYTEWIDTH_2,
            LASSO_DATACELL_BYTEWIDTH_4; lia).
    rewrite Es in *.
    change (LASSO_DATACELL_BYTEWIDTH_4 =? LASSO_DATACELL_BYTEWIDTH_1) with false.
    change (LASSO_DATACELL_BYTEWIDTH_4 =? LASSO_DATACELL_BYTEWIDTH_2) with false.
    change (LASSO_DATACELL_BYTEWIDTH_4 =? LASSO_DATACELL_BYTEWIDTH_4) with true.
    cbv iota.
    rewrite (copy_elems_spec (Z.to_nat (count c)) 4) by lia.
    replace (Z.to_nat (count c) * 4)%nat with (Z.to_nat (count c * 4)) by lia.
    f_equal. lia.
Qed.

(** The walk of the sampler of a static strobe over the cells from the
    [k]-th on: their images are written one behind the other. *)
Lemma sample_loop_static (heap : list dataCell) (lo hi : Z) :
  is_DYNAMIC (LASSO_HOST_STROBE_DYNAMICS cfg) = false ->
  LASSO_HOST_UNALIGNED_MEMORY_ACCESS cfg = false ->
  chain_ok heap -> Forall cell_ok heap ->
  Forall (fun c => cell_enabled c = true -> copied_width c /\ cell_outside lo hi c)
    heap ->
  forall (n k fuel : nat) (m : mem) (dst maskPtr maskBit : Z),
    (k + n = length heap)%nat -> (0 < n <= fuel)%nat ->
    lo <= dst -> dst + active_bytes (drop k heap) <= hi ->
    sample_loop fuel (Some k) heap m dst maskPtr maskBit =
      Some (heap, store_bytes m dst (strobe_image m (drop k heap)),
            dst + active_bytes (drop k heap)).
Proof.
  intros Hdyn Hal Hchain Hok Hcells.
  induction n as [|n IH]; intros k fuel m dst maskPtr maskBit Hk Hn Hlo Hhi; [lia|].
  destruct fuel as [|f]; [lia|].
  destruct (lookup_lt_is_Some_2 heap k) as [c Hc]; [lia|].
  assert (cell_ok c) as Hcok by (eapply Forall_lookup_1; eauto).
  pose proof (cell_size_range c Hcok) as Hsz.
  pose proof (Forall_lookup_1 _ heap k c Hcells Hc) as Hcc. cbv beta in Hcc.
  rewrite (drop_S heap c k Hc) in Hhi |- *.
  assert (Forall cell_ok (drop (S k) heap)) as Hok' by by apply Forall_drop.
  pose proof (active_bytes_range _ Hok') as Hrest.
  cbn [sample_loop]. rewrite Hc, Hdyn. cbv zeta. fold (cell_enabled c).
  cbn [strobe_image active_bytes] in *. unfold cell_image.
  assert (forall m1 dst1,
            lo <= dst1 -> dst1 + active_bytes (drop (S k) heap) <= hi ->
            sample_loop f (next c) heap m1 dst1 maskPtr maskBit =
              Some (heap, store_bytes m1 dst1 (strobe_image m1 (drop (S k) heap)),
                    dst1 + active_bytes (drop (S k) heap))) as Hnext.
  { intros m1 dst1 H1 H2. rewrite (Hchain k c Hc).
    destruct (S k <? length heap)%nat eqn:Hlt.
    - apply Nat.ltb_lt in Hlt. apply IH; lia.
    - apply Nat.ltb_ge in Hlt. rewrite drop_ge by lia.
      destruct f; simpl; by rewrite Z.add_0_r. }
  destruct (cell_enabled c) eqn:Een.
  - destruct (Hcc eq_refl) as [Hw Hout].
    rewrite copy_cell_spec; try done.
    2: { destruct Hout; lia. }
    rewrite Hnext by lia.
    rewrite store_bytes_app, load_bytes_length, Z2Nat.id by lia.
    f_equal. f_equal; [|lia]. f_equal. f_equal.
    apply (strobe_image_ext _ _ lo hi); try done.
    + pose proof (Forall_drop _ (S k) _ Hcells) as Hd'.
      eapply Forall_impl; [|exact Hd'].
      intros x Hx Ex. by destruct (Hx Ex).
    + intros x Hx. apply store_bytes_outside. rewrite load_bytes_length. lia.
  - rewrite Hnext by lia. reflexivity.
Qed.

(** *** Every tick returns *)

Lemma chain_ok_resample (heap : list dataCell) (k : nat) (c : dataCell) (ur : Z) :
  chain_ok heap -> heap !! k = Some c ->
  chain_ok (<[k := set_update_rate ur c]> heap).
Proof.
  intros Hchain Hc i x Hx. rewrite length_insert.
  destruct (decide (i = k)) as [->|Hne].
  - rewrite list_lookup_insert_eq in Hx by (by eapply lookup_lt_Some).
    injection Hx as <-. simpl. by apply Hchain.
  - rewrite list_lookup_insert_ne in Hx by done. by apply Hchain.
Qed.

(** The walk of the sampler over a chain ends. *)
Lemma sample_loop_returns (n : nat) :
  forall (heap : list dataCell) (k fuel : nat) (m : mem) (dst maskPtr maskBit : Z),
    chain_ok heap -> (k + n = length heap)%nat -> (0 < n <= fuel)%nat ->
    exists r, sample_loop fuel (Some k) heap m dst maskPtr maskBit = Some r.
Proof.
  induction n as [|n IH]; intros heap k fuel m dst maskPtr maskBit Hchain Hk Hn; [lia|].
  destruct fuel as [|f]; [lia|].
  destruct (lookup_lt_is_Some_2 heap k) as [c Hc]; [lia|].
  cbn [sample_loop]. rewrite Hc.
  assert (forall heap' m' d' mp' mb',
            chain_ok heap' -> length heap' = length heap ->
            exists r, sample_loop f (next c) heap' m' d' mp' mb' = Some r) as Hstep.
  { intros heap' m' d' mp' mb' Hch' Hlen. rewrite (Hchain k c Hc).
    destruct (S k <? length heap)%nat eqn:Hlt.
    - apply Nat.ltb_lt in Hlt. apply IH; [done|lia|lia].
    - destruct f; by eexists. }
  pose proof (fun ur => chain_ok_resample heap k c ur Hchain Hc) as Hins.
  repeat case_match; simplify_eq; apply Hstep;
    first [done | apply Hins | by rewrite length_insert].
Qed.

Lemma sampler_returns (b : bool) (regs : list registration) (s : host) :
  registry_inv cfg b regs s ->
  exists s', lasso_hostSampleDataCells s = Some s'.
Proof.
  intros [H1 H2 H3 H4 H5 H6]. unfold lasso_hostSampleDataCells. cbv zeta.
  assert (forall m p mp mb,
            exists r, sample_loop (length (cells s)) (dataCellFirst s) (cells s)
                        m p mp mb = Some r) as Hloop.
  { intros m p mp mb. rewrite H1. destruct (cells s) as [|c l] eqn:Ecells.
    - by eexists.
    - rewrite <- Ecells in *.
      apply (sample_loop_returns (length (cells s))); [done|done|].
      rewrite Ecells. simpl. lia. }
  destruct (LASSO_HOST_STROBE_EXTERNAL_SOURCE cfg).
  - destruct (LASSO_HOST_STROBE_CRC_ENABLE cfg); by eexists.
  - destruct (LASSO_HOST_STROBE_ENCODING cfg), (LASSO_HOST_STROBE_DYNAMICS cfg);
      cbn [is_COBS is_ESCS is_DYNAMIC orb]; cbv beta iota zeta;
      match goal with
      | |- context [sample_loop ?f ?d ?h ?m ?p ?mp ?mb] =>
          destruct (Hloop m p mp mb) as [[[h1 m1] p1] ->]
      end;
      destruct (LASSO_HOST_STROBE_CRC_ENABLE cfg); by eexists.
Qed.

Lemma handle_strobe_returns (b : bool) (regs : list registration) (s : host) :
  registry_inv cfg b regs s -> exists s', handle_strobe s = Some s'.
Proof.
  intros Hinv. unfold handle_strobe.
  repeat match goal with
  | |- context [lasso_hostSampleDataCells ?x] =>
      let Hx := fresh "Hx" in
      assert (registry_inv cfg b regs x) as Hx by inv_by_setters;
      destruct (sampler_returns _ _ _ Hx) as [s1 ->]
  | |- context [if ?c then _ else _] => destruct c
  end; by eexists.
Qed.

Lemma handle_response_returns (b : bool) (regs : list registration) (s : host) :
  LASSO_HOST_COMMAND_CRC_ENABLE cfg = false ->
  registry_inv cfg b regs s -> exists s', handle_response s = Some s'.
Proof.
  intros Hcrc Hinv. unfold handle_response. rewrite Hcrc. cbn [andb]. cbv zeta.
  repeat match goal with
  | |- context [lasso_hostInterpreteCommand ?x] =>
      let Hx := fresh "Hx" in
      assert (registry_inv cfg b regs x) as Hx by inv_by_setters;
      destruct (interprete_returns _ _ _ Hx) as [s1 ->]
  | |- context [if ?c then _ else _] => destruct c
  end; by eexists.
Qed.

Lemma transmit_returns (w : frame_id) (log : list tx_event) (s : host) :
  exists r log', lasso_hostTransmitDataFrame w log s = (Some r, log').
Proof.
  destruct (Z.ltb_spec 0 (Byte_count (data_frame w s))) as [Hn|Hn].
  - destruct (transmit_attempt w log s Hn) as (r & a & n & ->). by eexists _, _.
  - unfold lasso_hostTransmitDataFrame. cbv zeta.
    replace (Byte_count (data_frame w s) >? 0) with false
      by (symmetry; rewrite Z.gtb_ltb; apply Z.ltb_ge; lia).
    by eexists _, _.
Qed.

(** One tick on a state that keeps the invariant. *)
Lemma handleCOM_returns_inv (b : bool) (regs : list registration)
    (log : list tx_event) (s : host) :
  fixed_strobe_size = true -> LASSO_HOST_COMMAND_CRC_ENABLE cfg = false ->
  registry_inv cfg b regs s ->
  exists s', (lasso_hostHandleCOM log s).1 = Some s'.
Proof.
  intros Hfix Hcrc Hinv. unfold lasso_hostHandleCOM.
  destruct (receiveBuffer s =? 0); [by eexists|].
  unfold handle_pending.
  match goal with |- context [handle_strobe ?x] =>
    assert (registry_inv cfg b regs x) as Hx
      by (repeat case_match; inv_by_setters);
    destruct (handle_strobe_returns _ _ _ Hx) as [s1 Hs1]; rewrite Hs1
  end.
  pose proof (registry_inv_handle_strobe _ _ _ _ Hfix Hx Hs1) as H1.
  destruct (handle_response_returns _ _ _ Hcrc H1) as [s2 ->].
  unfold handle_transmit.
  destruct (Byte_count (strobe s2) =? 0);
    match goal with |- context [lasso_hostTransmitDataFrame ?w ?l ?x] =>
      destruct (transmit_returns w l x) as ([r s3] & log' & ->)
    end; by eexists.
Qed.

(** *** What planning has fixed *)

(** States that agree on the count of cells, on the three buffers, on the
    sizes of the strobe and response buffers and on the count of mask
    bytes. *)
Definition same_plan (s s' : host) : Prop :=
  dataCellCount s' = dataCellCount s /\
  receiveBuffer s' = receiveBuffer s /\
  buffer (strobe s') = buffer (strobe s) /\
  Bytes_max (strobe s') = Bytes_max (strobe s) /\
  buffer (response s') = buffer (response s) /\
  Bytes_max (response s') = Bytes_max (response s) /\
  dataCellMaskBytes s' = dataCellMaskBytes s.

Lemma same_plan_refl (s : host) : same_plan s s.
Proof. by repeat split. Qed.

Lemma same_plan_trans (s1 s2 s3 : host) :
  same_plan s1 s2 -> same_plan s2 s3 -> same_plan s1 s3.
Proof.
  intros (? & ? & ? & ? & ? & ? & ?) (? & ? & ? & ? & ? & ? & ?). repeat split; congruence.
Qed.

Lemma emit_reply_same_plan (start opcode : Z) (tiny : bool) (payload : list Z)
    (msg_err : Z) (s : host) :
  same_plan s (emit_reply start opcode tiny payload msg_err s).
Proof.
  unfold emit_reply.
  match goal with |- context [let '(_, _) := ?p in _] => destruct p as [m total] end.
  by repeat split.
Qed.

Lemma interprete_begin_same_plan (s : host) :
  same_plan s (interprete_begin s).1.
Proof.
  unfold interprete_begin. repeat case_match; simplify_eq; by repeat split.
Qed.

Lemma set_datacell_strobe_same_plan (i : nat) (c : dataCell) (bparam : bool)
    (s : host) :
  same_plan s (set_datacell_strobe i c bparam s).
Proof.
  unfold set_datacell_strobe. cbv zeta. repeat case_match; by repeat split.
Qed.

Lemma interprete_same_plan (s s' : host) :
  lasso_hostInterpreteCommand s = Some s' -> same_plan s s'.
Proof.
  unfold lasso_hostInterpreteCommand.
  pose proof (interprete_begin_same_plan s) as Hb.
  destruct (interprete_begin s) as [s1 start]. simpl in Hb.
  cbv zeta.
  set (reply := emit_reply start).
  assert (forall op t p e x, same_plan s x -> same_plan s (reply op t p e x)) as Hreply.
  { intros op t p e x Hx. eapply same_plan_trans; [exact Hx|].
    apply emit_reply_same_plan. }
  assert (forall (f : host -> host) x,
            same_plan s x -> same_plan x (f x) -> same_plan s (f x)) as Hset.
  { intros f x Hx Hf. by eapply same_plan_trans. }
  clearbody reply.
  intros H.
  repeat case_match; simplify_eq;
    repeat first
      [ assumption
      | apply Hreply
      | match goal with
        | |- same_plan _ (set_datacell_strobe ?i ?c ?b ?x) =>
            apply (Hset (set_datacell_strobe i c b) x);
            [|apply set_datacell_strobe_same_plan]
        | |- same_plan _ (set_cells ?v ?x) =>
            apply (Hset (set_cells v) x); [|by repeat split]
        | |- same_plan _ (set_lasso_advertise ?v ?x) =>
            apply (Hset (set_lasso_advertise v) x); [|by repeat split]
        | |- same_plan _ (set_lasso_strobing ?v ?x) =>
            apply (Hset (set_lasso_strobing v) x); [|by repeat split]
        | |- same_plan _ (set_lasso_strobe_period ?v ?x) =>
            apply (Hset (set_lasso_strobe_period v) x); [|by repeat split]
        | |- same_plan _ (set_memory ?v ?x) =>
            apply (Hset (set_memory v) x); [|by repeat split]
        | |- same_plan _ (upd_strobe (set_countdown ?v) ?x) =>
            apply (Hset (upd_strobe (set_countdown v)) x); [|by repeat split]
        | |- same_plan _ (upd_strobe (set_Byte_count ?v) ?x) =>
            apply (Hset (upd_strobe (set_Byte_count v)) x); [|by repeat split]
        end ].
Qed.

Lemma sample_same_plan (s s' : host) :
  lasso_hostSampleDataCells s = Some s' -> same_plan s s'.
Proof.
  unfold lasso_hostSampleDataCells. cbv zeta. intros H.
  repeat case_match; simplify_eq; by repeat split.
Qed.

Lemma handle_strobe_same_plan (s s' : host) :
  handle_strobe s = Some s' -> same_plan s s'.
Proof.
  unfold handle_strobe. intros H.
  repeat case_match; simplify_eq; try (by repeat split);
    match goal with
    | Hs : lasso_hostSampleDataCells ?x = Some _ |- _ =>
        apply sample_same_plan in Hs; destruct Hs as (? & ? & ? & ? & ? & ? & ?)
    end;
    repeat split; simpl in *; congruence.
Qed.

Lemma handle_response_same_plan (s s' : host) :
  handle_response s = Some s' -> same_plan s s'.
Proof.
  unfold handle_response. intros H.
  repeat case_match; simplify_eq; try (by repeat split);
    match goal with
    | Hs : lasso_hostInterpreteCommand ?x = Some _ |- _ =>
        apply interprete_same_plan in Hs; destruct Hs as (? & ? & ? & ? & ? & ? & ?)
    end;
    repeat split; simpl in *; congruence.
Qed.

Lemma transmit_same_plan (w : frame_id) (log log' : list tx_event)
    (s s' : host) (r : bool) :
  lasso_hostTransmitDataFrame w log s = (Some (r, s'), log') -> same_plan s s'.
Proof.
  unfold lasso_hostTransmitDataFrame. intros H.
  destruct w; repeat case_match; simplify_eq; by repeat split.
Qed.

Lemma handleCOM_same_plan (log : list tx_event) (s s' : host) :
  (lasso_hostHandleCOM log s).1 = Some s' -> same_plan s s'.
Proof.
  unfold lasso_hostHandleCOM.
  destruct (receiveBuffer s =? 0); [intros [= <-]; apply same_plan_refl|].
  unfold handle_pending.
  match goal with |- context [handle_strobe ?x] =>
    assert (same_plan s x) as Hx by (repeat case_match; by repeat split);
    destruct (handle_strobe x) as [s1|] eqn:Hs1; [|done]
  end.
  apply handle_strobe_same_plan in Hs1.
  destruct (handle_response s1) as [s2|] eqn:Hs2; [|done].
  apply handle_response_same_plan in Hs2.
  destruct (handle_transmit log s2) as [[[r s3]|] log'] eqn:Hs3; [|done].
  intros [= <-].
  assert (same_plan s2 s3) as H3.
  { unfold handle_transmit in Hs3.
    destruct (Byte_count (strobe s2) =? 0); by eapply transmit_same_plan. }
  assert (same_plan s3 (tick_timestamp s3)) as H4
    by (unfold tick_timestamp; destruct (LASSO_HOST_TIMESTAMP cfg); by repeat split).
  eauto using same_plan_trans.
Qed.

(** *** The chain in every build *)

(** The call of [lasso_hostRegisterDataCell] returns [EFAULT]: the strobe
    has no external source and [ptr] is [NULL]. *)
Definition returns_EFAULT (r : registration) : bool :=
  negb (LASSO_HOST_STROBE_EXTERNAL_SOURCE cfg) && (reg_ptr r =? 0).

(** The cell [c] is the one linked by the call [r]: a call that returns
    [EFAULT] has stored the type and the count only. *)
Definition linked (c : dataCell) (r : registration) : Prop :=
  cell_ok c /\ count c = reg_count r /\
  cell_width c = Z.land (reg_type r) LASSO_DATACELL_BYTEWIDTH_MASK /\
  (returns_EFAULT r = false ->
   name c = reg_name r /\ unit c = reg_unit r /\ onChange c = reg_onChange r).

(** The cell [c'] is the cell [c] up to the enable bit, the pointer and
    the rate counter. *)
Definition same_link (c c' : dataCell) : Prop :=
  next c' = next c /\ count c' = count c /\ name c' = name c /\
  unit c' = unit c /\ onChange c' = onChange c /\
  cell_width c' = cell_width c /\ (cell_ok c -> cell_ok c').

(** States with the same chain of cells. *)
Definition same_links (s s' : host) : Prop :=
  Forall2 same_link (cells s) (cells s') /\
  dataCellFirst s' = dataCellFirst s /\ dataCellLast s' = dataCellLast s.

Lemma same_link_refl (c : dataCell) : same_link c c.
Proof. unfold same_link. repeat (split; [reflexivity|]). auto. Qed.

Lemma same_link_trans (c1 c2 c3 : dataCell) :
  same_link c1 c2 -> same_link c2 c3 -> same_link c1 c3.
Proof.
  intros (? & ? & ? & ? & ? & ? & ?) (? & ? & ? & ? & ? & ? & ?).
  unfold same_link. repeat (split; [congruence|]). auto.
Qed.

Lemma same_link_diag (l : list dataCell) : Forall2 same_link l l.
Proof. apply Forall_Forall2_diag, Forall_forall. intros x _. apply same_link_refl. Qed.

Lemma same_links_refl (s : host) : same_links s s.
Proof. split; [apply same_link_diag|done]. Qed.

Lemma same_links_trans (s1 s2 s3 : host) :
  same_links s1 s2 -> same_links s2 s3 -> same_links s1 s3.
Proof.
  intros (H1 & ? & ?) (H2 & ? & ?). split; [|split; congruence].
  eapply Forall2_trans; [|exact H1|exact H2]. intros x y z. apply same_link_trans.
Qed.

Lemma same_registry_links (s s' : host) : same_registry s s' -> same_links s s'.
Proof.
  intros (E & ? & ? & _). split; [|done]. rewrite E. apply same_link_diag.
Qed.

Lemma same_plan_cells_links (s s' : host) :
  cells s' = cells s -> dataCellFirst s' = dataCellFirst s ->
  dataCellLast s' = dataCellLast s -> same_links s s'.
Proof. intros E ? ?. split; [|done]. rewrite E. apply same_link_diag. Qed.

Lemma same_link_insert (heap : list dataCell) (i : nat) (c c' : dataCell) :
  heap !! i = Some c -> same_link c c' -> Forall2 same_link heap (<[i := c']> heap).
Proof.
  intros Hi Hc. rewrite <- (list_insert_id heap i c Hi) at 1.
  apply Forall2_insert; [apply same_link_diag|done].
Qed.

Lemma same_link_set_type (c : dataCell) (t' : Z) :
  (is_u16 (type c) -> is_u16 t') ->
  Z.land t' LASSO_DATACELL_BYTEWIDTH_MASK = Z.land (type c) LASSO_DATACELL_BYTEWIDTH_MASK ->
  same_link c (set_type t' c).
Proof.
  intros Ht Hw. unfold same_link. repeat (split; [done|]).
  intros [H1 H2]. split; [by apply Ht|done].
Qed.

Lemma set_datacell_strobe_links (i : nat) (c : dataCell) (bparam : bool) (s : host) :
  cells s !! i = Some c -> same_links s (set_datacell_strobe i c bparam s).
Proof.
  intros Hi. unfold set_datacell_strobe. cbv zeta.
  destruct bparam.
  - destruct (Z.land (type c) LASSO_DATACELL_ENABLE_MASK =? 0);
      [|by apply same_plan_cells_links].
    split; [|done]. simpl. apply (same_link_insert _ _ c); [done|].
    apply same_link_set_type; [intros H; by apply Z_lor_u16|apply type_enable_width].
  - destruct (negb (Z.land (type c) LASSO_DATACELL_ENABLE_MASK =? 0));
      [|by apply same_plan_cells_links].
    split; [|done]. simpl. apply (same_link_insert _ _ c); [done|].
    apply same_link_set_type; [|apply type_disable_width].
    intros Hct. split; [apply Z.land_nonneg; left; apply Hct|].
    pose proof (Z_land_le LASSO_DATACELL_DISABLE_MASK (type c)).
    rewrite Z.land_comm. unfold is_u16 in Hct. lia.
Qed.

Lemma set_ptr_links (i : nat) (c : dataCell) (p : Z) (s : host) :
  cells s !! i = Some c ->
  same_links s (set_cells (<[i := set_ptr p c]> (cells s)) s).
Proof.
  intros Hi. split; [|done]. simpl. apply (same_link_insert _ _ c); [done|].
  unfold same_link. repeat (split; [done|]). by intros [H1 H2].
Qed.

(** No command relinks the chain: a command changes at most the enable
    bit or the pointer of one cell. *)
Lemma interprete_links (s s' : host) :
  lasso_hostInterpreteCommand s = Some s' -> same_links s s'.
Proof.
  unfold lasso_hostInterpreteCommand.
  pose proof (same_registry_links _ _ (interprete_begin_same_registry s)) as Hb.
  destruct (interprete_begin s) as [s1 start]. simpl in Hb.
  assert (forall x, same_links s1 x -> same_links s x) as Hs
    by (intros x; by apply same_links_trans).
  intros H. apply Hs. clear Hs Hb. revert H. cbv zeta.
  set (reply := emit_reply start).
  assert (forall op t p e x, same_links s1 x -> same_links s1 (reply op t p e x)) as Hreply.
  { intros op t p e x Hx. eapply same_links_trans; [exact Hx|].
    apply same_registry_links, emit_reply_same_registry, same_registry_refl. }
  assert (forall (f : host -> host) x,
            same_links s1 x -> same_links x (f x) -> same_links s1 (f x)) as Hset.
  { intros f x Hx Hf. by eapply same_links_trans. }
  clearbody reply.
  intros H.
  repeat case_match; simplify_eq;
    repeat first
      [ assumption
      | apply same_links_refl
      | apply Hreply
      | apply set_datacell_strobe_links; eassumption
      | apply set_ptr_links; eassumption
      | match goal with
        | |- same_links _ (set_lasso_advertise ?v ?x) =>
            apply (Hset (set_lasso_advertise v) x); [|by apply same_plan_cells_links]
        | |- same_links _ (set_lasso_strobing ?v ?x) =>
            apply (Hset (set_lasso_strobing v) x); [|by apply same_plan_cells_links]
        | |- same_links _ (set_lasso_strobe_period ?v ?x) =>
            apply (Hset (set_lasso_strobe_period v) x); [|by apply same_plan_cells_links]
        | |- same_links _ (set_memory ?v ?x) =>
            apply (Hset (set_memory v) x); [|by apply same_plan_cells_links]
        | |- same_links _ (upd_strobe (set_countdown ?v) ?x) =>
            apply (Hset (upd_strobe (set_countdown v)) x); [|by apply same_plan_cells_links]
        | |- same_links _ (upd_strobe (set_Byte_count ?v) ?x) =>
            apply (Hset (upd_strobe (set_Byte_count v)) x); [|by apply same_plan_cells_links]
        end ].
Qed.

Lemma resampled_same_link (c c' : dataCell) : resampled c c' -> same_link c c'.
Proof.
  intros [ur ->]. unfold same_link. repeat (split; [done|]). by intros [H1 H2].
Qed.

(** No tick relinks the chain either: the sampler of dynamic strobing
    writes the rate counters only. *)
Lemma sample_links (s s' : host) :
  lasso_hostSampleDataCells s = Some s' -> same_links s s'.
Proof.
  unfold lasso_hostSampleDataCells. cbv zeta. intros H.
  repeat case_match; simplify_eq; try (by apply same_plan_cells_links);
    match goal with
    | Hs : sample_loop _ _ _ _ _ _ _ = Some _ |- _ =>
        apply sample_loop_resampled in Hs
    end;
    (split; [|done]); simpl;
    (eapply Forall2_impl; first [eassumption | apply resampled_same_link]).
Qed.

Lemma handle_strobe_links (s s' : host) :
  handle_strobe s = Some s' -> same_links s s'.
Proof.
  unfold handle_strobe. intros H.
  repeat case_match; simplify_eq; try (by apply same_plan_cells_links);
    match goal with
    | Hs : lasso_hostSampleDataCells _ = Some _ |- _ => apply sample_links in Hs
    end;
    (eapply same_links_trans; [|eapply same_links_trans; [eassumption|]]);
    by apply same_plan_cells_links.
Qed.

Lemma handle_response_links (s s' : host) :
  handle_response s = Some s' -> same_links s s'.
Proof.
  unfold handle_response. intros H.
  repeat case_match; simplify_eq; try (by apply same_plan_cells_links);
    match goal with
    | Hs : lasso_hostInterpreteCommand _ = Some _ |- _ => apply interprete_links in Hs
    end;
    (eapply same_links_trans; [|eapply same_links_trans; [eassumption|]]);
    by apply same_plan_cells_links.
Qed.

Lemma handleCOM_links (log : list tx_event) (s s' : host) :
  (lasso_hostHandleCOM log s).1 = Some s' -> same_links s s'.
Proof.
  unfold lasso_hostHandleCOM.
  destruct (receiveBuffer s =? 0); [intros [= <-]; apply same_links_refl|].
  unfold handle_pending.
  match goal with |- context [handle_strobe ?x] =>
    assert (same_links s x) as Hx
      by (repeat case_match; by apply same_plan_cells_links);
    destruct (handle_strobe x) as [s1|] eqn:Hs1; [|done]
  end.
  apply handle_strobe_links in Hs1.
  destruct (handle_response s1) as [s2|] eqn:Hs2; [|done].
  apply handle_response_links in Hs2.
  destruct (handle_transmit log s2) as [[[r s3]|] log'] eqn:Hs3; [|done].
  intros [= <-].
  assert (same_links s2 s3) as H3.
  { apply same_registry_links. unfold handle_transmit in Hs3.
    destruct (Byte_count (strobe s2) =? 0); by eapply transmit_same_registry. }
  assert (same_links s3 (tick_timestamp s3)) as H4
    by (unfold tick_timestamp; destruct (LASSO_HOST_TIMESTAMP cfg);
        by apply same_plan_cells_links).
  eauto using same_links_trans.
Qed.

(** What every state reached through the API keeps: the cells are linked
    in the order of the calls that got a block; the last cell points to
    [NULL] unless its call returned [EFAULT], which leaves [next] as the
    block came. *)
Record chain_inv (regs : list registration) (s : host) : Prop := ChainInv {
  ci_first : dataCellFirst s = match cells s with [] => None | _ => Some 0%nat end;
  ci_last : dataCellLast s = match length (cells s) with O => None | S n => Some n end;
  ci_chain : forall (i : nat) (c : dataCell),
      cells s !! i = Some c -> (S i < length (cells s))%nat -> next c = Some (S i);
  ci_end : forall (n : nat) (r : registration) (c : dataCell),
      length regs = S n -> regs !! n = Some r -> returns_EFAULT r = false ->
      cells s !! n = Some c -> next c = None;
  ci_cells : Forall2 linked (cells s) regs
}.

Lemma chain_inv_links (regs : list registration) (s s' : host) :
  chain_inv regs s -> same_links s s' -> chain_inv regs s'.
Proof.
  intros [H1 H2 H3 H4 H5] (Hl & E1 & E2).
  assert (length (cells s) = length (cells s')) as Hlen by (by eapply Forall2_length).
  split.
  - rewrite E1, H1. by destruct (cells s), (cells s').
  - by rewrite E2, H2, Hlen.
  - intros i c' Hc' Hi.
    destruct (Forall2_lookup_r _ _ _ _ _ Hl Hc') as (c & Hc & (-> & _)).
    apply H3; [done|lia].
  - intros n r c' Hn Hr Hf Hc'.
    destruct (Forall2_lookup_r _ _ _ _ _ Hl Hc') as (c & Hc & (-> & _)).
    by apply (H4 n r c).
  - assert (Forall2 (flip same_link) (cells s') (cells s)) as Hl'
      by (by apply Forall2_flip).
    eapply Forall2_trans; [|exact Hl'|exact H5].
    intros c' c r (_ & Hc & Hn & Hu & Ho & Hw & Hok) (K1 & K2 & K3 & K4).
    split; [by apply Hok|]. split; [congruence|]. split; [congruence|].
    intros Hf. destruct (K4 Hf) as (? & ? & ?). repeat split; congruence.
Qed.

Lemma chain_inv_init (m : mem) : chain_inv [] (host_init cfg m).
Proof. by split. Qed.

Lemma linked_set_next (c : dataCell) (r : registration) (n : option nat) :
  linked c r -> linked (set_next n c) r.
Proof. by intros (? & ? & ? & ?). Qed.

(** A call of [lasso_hostRegisterDataCell] that got a block links it
    behind the last cell, also when it returns [EFAULT]. *)
Lemma chain_inv_register (regs : list registration) (s : host) (r : registration)
    (junk : dataCell) :
  chain_inv regs s -> is_u16 (reg_type r) -> is_u16 (reg_count r) ->
  chain_inv (regs ++ [r]) (register cfg r (Some junk) s).2.
Proof.
  intros [H1 H2 H3 H4 H5] Ht Hc.
  unfold register, lasso_hostRegisterDataCell.
  set (t0 := if LASSO_HOST_STROBE_EXTERNAL_SOURCE cfg
             then Z.lor (reg_type r) LASSO_DATACELL_PERMANENT else reg_type r).
  set (t := if negb (Z.land t0 LASSO_DATACELL_PERMANENT =? 0)
            then Z.lor t0 LASSO_DATACELL_ENABLE else t0).
  assert (is_u16 t /\ Z.land t LASSO_DATACELL_BYTEWIDTH_MASK
                      = Z.land (reg_type r) LASSO_DATACELL_BYTEWIDTH_MASK) as [Htu Htw].
  { assert (is_u16 t0 /\ Z.land t0 LASSO_DATACELL_BYTEWIDTH_MASK
                        = Z.land (reg_type r) LASSO_DATACELL_BYTEWIDTH_MASK) as [? ?].
    { unfold t0. destruct (LASSO_HOST_STROBE_EXTERNAL_SOURCE cfg); [|done].
      split; [by apply Z_lor_u16 | apply type_permanent_width]. }
    unfold t. destruct (negb (Z.land t0 LASSO_DATACELL_PERMANENT =? 0)); [|done].
    split; [by apply Z_lor_u16|]. by rewrite type_enable_width. }
  set (heap := match dataCellLast s with
               | Some l => alter (set_next (Some (length (cells s)))) l (cells s)
               | None => cells s
               end).
  assert (length heap = length (cells s)) as Hlen.
  { unfold heap. destruct (dataCellLast s); [apply length_alter|done]. }
  assert (forall nc : dataCell,
            type nc = t -> count nc = reg_count r ->
            (returns_EFAULT r = false ->
             next nc = None /\ name nc = reg_name r /\ unit nc = reg_unit r /\
             onChange nc = reg_onChange r) ->
            forall x : host,
              cells x = heap ++ [nc] ->
              dataCellFirst x = match dataCellFirst s with
                                | None => Some (length (cells s))
                                | f => f
                                end ->
              dataCellLast x = Some (length (cells s)) ->
              chain_inv (regs ++ [r]) x) as Hnew.
  { intros nc Hnt Hncnt Hok x Ex Efirst Elast. split.
    - rewrite Efirst, Ex, H1. destruct (cells s) eqn:E; [by destruct heap|].
      by destruct (heap ++ [nc]) eqn:E'; [destruct heap|].
    - by rewrite Elast, Ex, length_app, Hlen, Nat.add_comm.
    - intros i c Hi Hlt. rewrite Ex in Hi, Hlt. rewrite length_app, Hlen in Hlt.
      simpl in Hlt. rewrite lookup_app_l in Hi by lia.
      unfold heap in Hi. rewrite H2 in Hi.
      destruct (length (cells s)) as [|m] eqn:Em; [lia|].
      destruct (decide (i = m)) as [->|Hne].
      + rewrite list_lookup_alter_eq in Hi.
        destruct (cells s !! m); [|done]. by inversion Hi.
      + rewrite list_lookup_alter_ne in Hi by done.
        apply (H3 i c Hi). lia.
    - intros n r' c Hn Hr' Hf Hc'.
      assert (length (cells s) = length regs) as Hregs by (by eapply Forall2_length).
      rewrite length_app in Hn. simpl in Hn.
      assert (n = length regs) as -> by lia.
      rewrite lookup_app_r, Nat.sub_diag in Hr' by lia. inversion Hr'. subst r'.
      rewrite Ex, lookup_app_r in Hc' by lia.
      replace (length regs - length heap)%nat with 0%nat in Hc' by lia.
      inversion Hc'. subst c. by apply Hok.
    - rewrite Ex. apply Forall2_app.
      + unfold heap. destruct (dataCellLast s); [|done].
        apply Forall2_alter_l; [done|]. intros. by apply linked_set_next.
      + apply Forall2_cons; [|constructor].
        split; [split; [by rewrite Hnt|by rewrite Hncnt]|].
        split; [done|]. split; [unfold cell_width; by rewrite Hnt|].
        intros Hf. by destruct (Hok Hf) as (_ & ? & ? & ?). }
  fold heap. cbv zeta. fold t0. fold t.
  change (negb (LASSO_HOST_STROBE_EXTERNAL_SOURCE cfg) && (reg_ptr r =? 0))
    with (returns_EFAULT r).
  destruct (returns_EFAULT r) eqn:Hf.
  - eapply Hnew; [..|reflexivity|reflexivity|reflexivity];
      [reflexivity|reflexivity|discriminate].
  - match goal with
    | |- context [if ?c then _ else _] =>
        lazymatch c with negb (Z.land t LASSO_DATACELL_ENABLE_MASK =? 0) =>
          destruct c end
    end;
    (eapply Hnew; [..|reflexivity|reflexivity|reflexivity];
     [reflexivity|reflexivity|by intros]).
Qed.

(** *** States reached through the API *)

(** The states that a program reaches from the initial state of the
    statics by calls of the API: registering cells ([blk] is the block
    that the allocator returns, if any), planning the memory once with
    [lasso_hostRegisterMEM], receiving bytes, counting down, setting the
    strobe buffer and the tick period, and ticks, which interpret the
    received commands.  The flag tells whether
    [lasso_hostRegisterMEM] has run, the list holds the registrations in
    their order.  Two kinds of calls are left to [reached] below: a
    registration that returns [EFAULT], and a tick that samples the cells
    in a build where the sampler stores the length of the frame in
    [strobe.Bytes_total] (dynamic strobing with COBS or ESCS). *)
Inductive reachable : bool -> list registration -> host -> Prop :=
| reach_init (m : mem) :
    reachable false [] (host_init cfg m)
| reach_register (b : bool) (regs : list registration) (s : host)
    (r : registration) (blk : dataCell) :
    reachable b regs s -> registration_ok cfg r ->
    reachable b (regs ++ [r]) (register cfg r (Some blk) s).2
| reach_register_nomem (b : bool) (regs : list registration) (s : host)
    (r : registration) :
    reachable b regs s ->
    reachable b regs (register cfg r None s).2
| reach_registerMEM (regs : list registration) (s : host) (a1 a2 a3 : Z) :
    reachable false regs s ->
    reachable true regs (lasso_hostRegisterMEM cfg a1 a2 a3 s).2
| reach_receive (b : bool) (regs : list registration) (s : host) (x : Z) :
    reachable b regs s ->
    reachable b regs (lasso_hostReceiveByte cfg x s).2
| reach_countdown (b : bool) (regs : list registration) (s : host) (count : Z) :
    reachable b regs s ->
    reachable b regs (lasso_hostCountdown count s)
| reach_command (b : bool) (regs : list registration) (s s' : host) :
    reachable b regs s -> lasso_hostInterpreteCommand s = Some s' ->
    reachable b regs s'
| reach_tick (b : bool) (regs : list registration) (log : list tx_event)
    (s s' : host) :
    reachable b regs s -> fixed_strobe_size = true \/ tick_samples s = false ->
    (lasso_hostHandleCOM log s).1 = Some s' ->
    reachable b regs s'
| reach_setBuffer (b : bool) (regs : list registration) (s : host) (buffer : Z) :
    reachable b regs s ->
    reachable b regs (lasso_hostSetBuffer buffer s)
| reach_tickPeriod (b : bool) (regs : list registration) (s : host)
    (tick_period advertise_ticks roundtrip_ticks : Z) :
    reachable b regs s ->
    reachable b regs
      (lasso_hostTickPeriod tick_period advertise_ticks roundtrip_ticks s).

Lemma reachable_inv (b : bool) (regs : list registration) (s : host) :
  reachable b regs s -> registry_inv cfg b regs s.
Proof.
  induction 1 as [m|b regs s r blk _ IH Hr|b regs s r _ IH|regs s a1 a2 a3 _ IH
                  |b regs s x _ IH|b regs s count _ IH|b regs s s' _ IH Hs
                  |b regs log s s' _ IH Hfix Hs
                  |b regs s buf _ IH|b regs s tp ap rp _ IH].
  - apply registry_inv_init.
  - by apply registry_inv_register.
  - done.
  - by apply registry_inv_registerMEM.
  - eapply registry_inv_same; [exact IH|apply receiveByte_same_registry].
  - eapply registry_inv_same; [exact IH|].
    unfold lasso_hostCountdown. by destruct (count >? countdown (strobe s)).
  - by eapply registry_inv_interprete.
  - destruct Hfix as [Hfix|Hidle].
    + by eapply registry_inv_handleCOM.
    + by eapply registry_inv_handleCOM_idle.
  - eapply registry_inv_same; [eassumption|by repeat split].
  - eapply registry_inv_same; [eassumption|by repeat split].
Qed.

Lemma reachable_receive_bytes (b : bool) (regs : list registration)
    (bs : list Z) (s : host) :
  reachable b regs s -> reachable b regs (receive_bytes cfg bs s).2.
Proof.
  revert s. induction bs as [|x bs IH]; intros s H; [done|].
  simpl. pose proof (reach_receive b regs s x H) as H1.
  destruct (lasso_hostReceiveByte cfg x s) as [r s1]. simpl in H1.
  specialize (IH s1 H1). by destruct (receive_bytes cfg bs s1).
Qed.

(** The states that a program reaches by the calls of [reachable] without
    its two restrictions, in every build: the arguments of a registration
    are of their C types, its pointer may be [NULL]; every tick is
    followed.  The list holds the calls of [lasso_hostRegisterDataCell]
    that got a block, those that return [EFAULT] among them. *)
Inductive reached : bool -> list registration -> host -> Prop :=
| reached_init (m : mem) :
    reached false [] (host_init cfg m)
| reached_register (b : bool) (regs : list registration) (s : host)
    (r : registration) (blk : dataCell) :
    reached b regs s -> is_u16 (reg_type r) -> is_u16 (reg_count r) ->
    reached b (regs ++ [r]) (register cfg r (Some blk) s).2
| reached_register_nomem (b : bool) (regs : list registration) (s : host)
    (r : registration) :
    reached b regs s ->
    reached b regs (register cfg r None s).2
| reached_registerMEM (regs : list registration) (s : host) (a1 a2 a3 : Z) :
    reached false regs s ->
    reached true regs (lasso_hostRegisterMEM cfg a1 a2 a3 s).2
| reached_receive (b : bool) (regs : list registration) (s : host) (x : Z) :
    reached b regs s ->
    reached b regs (lasso_hostReceiveByte cfg x s).2
| reached_countdown (b : bool) (regs : list registration) (s : host) (count : Z) :
    reached b regs s ->
    reached b regs (lasso_hostCountdown count s)
| reached_command (b : bool) (regs : list registration) (s s' : host) :
    reached b regs s -> lasso_hostInterpreteCommand s = Some s' ->
    reached b regs s'
| reached_tick (b : bool) (regs : list registration) (log : list tx_event)
    (s s' : host) :
    reached b regs s ->
    (lasso_hostHandleCOM log s).1 = Some s' ->
    reached b regs s'
| reached_setBuffer (b : bool) (regs : list registration) (s : host) (buffer : Z) :
    reached b regs s ->
    reached b regs (lasso_hostSetBuffer buffer s)
| reached_tickPeriod (b : bool) (regs : list registration) (s : host)
    (tick_period advertise_ticks roundtrip_ticks : Z) :
    reached b regs s ->
    reached b regs
      (lasso_hostTickPeriod tick_period advertise_ticks roundtrip_ticks s).

Lemma reachable_reached (b : bool) (regs : list registration) (s : host) :
  reachable b regs s -> reached b regs s.
Proof.
  induction 1 as [m|b regs s r blk _ IH (Ht & Hc & _)|b regs s r _ IH
                  |regs s a1 a2 a3 _ IH|b regs s x _ IH|b regs s count _ IH
                  |b regs s s' _ IH Hs|b regs log s s' _ IH _ Hs
                  |b regs s buf _ IH|b regs s tp ap rp _ IH].
  - apply reached_init.
  - by apply reached_register.
  - by apply reached_register_nomem.
  - by apply reached_registerMEM.
  - by apply reached_receive.
  - by apply reached_countdown.
  - by eapply reached_command.
  - by eapply reached_tick.
  - by apply reached_setBuffer.
  - by apply reached_tickPeriod.
Qed.

Lemma reachable_registrations (b : bool) (regs : list registration) (s : host) :
  reachable b regs s -> Forall (registration_ok cfg) regs.
Proof.
  induction 1; try done.
  apply Forall_app. split; [done|]. by constructor.
Qed.

Lemma sizes_same_registry (s : host) :
  cells (registerMEM_sizes cfg s) = cells s /\
  dataCellFirst (registerMEM_sizes cfg s) = dataCellFirst s /\
  dataCellLast (registerMEM_sizes cfg s) = dataCellLast s.
Proof. unfold registerMEM_sizes. cbv zeta. repeat split; by when_simpl. Qed.

(** The chain in every state reached through the API. *)
Lemma reached_chain (b : bool) (regs : list registration) (s : host) :
  reached b regs s -> chain_inv regs s.
Proof.
  induction 1 as [m|b regs s r blk _ IH Ht Hc|b regs s r _ IH|regs s a1 a2 a3 _ IH
                  |b regs s x _ IH|b regs s count _ IH|b regs s s' _ IH Hs
                  |b regs log s s' _ IH Hs
                  |b regs s buf _ IH|b regs s tp ap rp _ IH].
  - apply chain_inv_init.
  - by apply chain_inv_register.
  - done.
  - eapply chain_inv_links; [exact IH|].
    eapply same_links_trans;
      [|apply same_registry_links, registerMEM_same_registry].
    destruct (sizes_same_registry s) as (? & ? & ?).
    by apply same_plan_cells_links.
  - eapply chain_inv_links; [exact IH|].
    apply same_registry_links, receiveByte_same_registry.
  - eapply chain_inv_links; [exact IH|].
    unfold lasso_hostCountdown. destruct (count >? countdown (strobe s));
      by apply same_plan_cells_links.
  - eapply chain_inv_links; [exact IH|]. by apply interprete_links.
  - eapply chain_inv_links; [exact IH|]. by eapply handleCOM_links.
  - eapply chain_inv_links; [eassumption|by apply same_plan_cells_links].
  - eapply chain_inv_links; [eassumption|by apply same_plan_cells_links].
Qed.

Lemma linked_cell_ok (l : list dataCell) (regs : list registration) :
  Forall2 linked l regs -> Forall cell_ok l.
Proof. induction 1 as [|c r l regs [H _] _ IH]; by constructor. Qed.

(** The walk of [lasso_hostSeekDatacell] as far as the chain is linked. *)
Lemma seek_loop_linked (heap : list dataCell) :
  (forall (i : nat) (c : dataCell),
     heap !! i = Some c -> (S i < length heap)%nat -> next c = Some (S i)) ->
  Forall cell_ok heap ->
  forall (n k : nat) (pos : Z),
    (k + n < length heap)%nat -> 0 <= pos ->
    pos + active_bytes (take n (drop k heap)) < 4294967296 ->
    seek_loop heap n (Some k) pos =
    Some (Some (k + n)%nat, pos + active_bytes (take n (drop k heap))).
Proof.
  intros Hchain Hok. induction n as [|n IH]; intros k pos Hk Hpos Hsum.
  - simpl. rewrite Nat.add_0_r. do 2 f_equal. lia.
  - destruct (lookup_lt_is_Some_2 heap k) as [c Hc]; [lia|].
    assert (cell_ok c) as Hcok by (eapply Forall_lookup_1; eauto).
    rewrite (drop_S heap c k Hc) in *. simpl take in *. simpl active_bytes in *.
    assert (0 <= active_bytes (take n (drop (S k) heap))) as Hrest.
    { apply active_bytes_range. apply Forall_take, Forall_drop, Hok. }
    pose proof (cell_size_range c Hcok) as Hsz.
    rewrite (seek_loop_S heap n k pos c Hc).
    rewrite seek_step_size by (done || destruct (cell_enabled c); lia).
    rewrite (Hchain k c Hc) by lia.
    rewrite IH; try lia.
    + replace (S k + n)%nat with (k + S n)%nat by lia. do 2 f_equal. lia.
    + destruct (cell_enabled c); lia.
Qed.

Lemma seek_chain (regs : list registration) (s : host) (i : nat) :
  chain_inv regs s -> (i < length (cells s))%nat -> (i <= 255)%nat ->
  lasso_hostSeekDatacell (Z.of_nat i) s =
  Some (Some i, active_bytes (take i (cells s))).
Proof.
  intros [H1 H2 H3 H4 H5] Hi H255. unfold lasso_hostSeekDatacell.
  rewrite H1, Nat2Z.id.
  pose proof (linked_cell_ok _ _ H5) as Hok.
  destruct (cells s) as [|c l] eqn:Hcells; [simpl in Hi; lia|].
  rewrite <- Hcells in *.
  rewrite (seek_loop_linked (cells s) H3 Hok i 0 0); try done.
  - change (drop 0 (cells s)) with (cells s).
    assert (Forall cell_ok (take i (cells s))) as Ht by by apply Forall_take.
    pose proof (active_bytes_range _ Ht) as Hr.
    rewrite length_take in Hr. lia.
Qed.

(** With the registration made last not failed, the chain is closed. *)
Lemma chain_inv_closed (regs : list registration) (s : host) :
  chain_inv regs s ->
  (forall (n : nat) (r : registration),
     length regs = S n -> regs !! n = Some r -> returns_EFAULT r = false) ->
  chain_ok (cells s).
Proof.
  intros [H1 H2 H3 H4 H5] Hlast i c Hc.
  assert (length (cells s) = length regs) as Hlen by (by eapply Forall2_length).
  destruct (S i <? length (cells s))%nat eqn:E.
  - apply Nat.ltb_lt in E. by apply H3.
  - apply Nat.ltb_ge in E. pose proof (lookup_lt_Some _ _ _ Hc) as Hi.
    assert (length regs = S i) as Hn by lia.
    destruct (lookup_lt_is_Some_2 regs i) as [r Hr]; [lia|].
    by apply (H4 i r c Hn Hr (Hlast i r Hn Hr)).
Qed.

Lemma seek_chain_beyond (regs : list registration) (s : host) (num : Z) :
  chain_inv regs s ->
  (forall (n : nat) (r : registration),
     length regs = S n -> regs !! n = Some r -> returns_EFAULT r = false) ->
  Z.of_nat (length regs) <= num <= 255 ->
  lasso_hostSeekDatacell num s = Some (None, active_bytes (cells s)).
Proof.
  intros Hinv Hlast Hnum. pose proof (chain_inv_closed _ _ Hinv Hlast) as Hchain.
  destruct Hinv as [H1 H2 H3 H4 H5].
  assert (length (cells s) = length regs) as Hlen by (by eapply Forall2_length).
  pose proof (linked_cell_ok _ _ H5) as Hok.
  unfold lasso_hostSeekDatacell. rewrite H1.
  destruct (cells s) as [|c l] eqn:Hcells.
  - simpl. by destruct (Z.to_nat num).
  - rewrite <- Hcells in *.
    assert (take (Z.to_nat num) (cells s) = cells s) as Htake
      by (apply take_ge; lia).
    rewrite seek_loop_chain; try done.
    + change (drop 0 (cells s)) with (cells s). rewrite Htake.
      replace (0 + Z.to_nat num <? length (cells s))%nat with false
        by (symmetry; apply Nat.ltb_ge; lia).
      done.
    + rewrite Hcells. simpl. lia.
    + change (drop 0 (cells s)) with (cells s). rewrite Htake.
      pose proof (active_bytes_range _ Hok) as Hr. lia.
Qed.



(** X24.  In a reached state of a build with static
    strobing, its own strobe buffer, no COBS or ESCS strobe encoding and
    no unaligned access, with the memory cells of the enabled cells
    outside the strobe buffer and the enabled cells of 1, 2 or 4 bytes a
    piece: [lasso_hostSampleDataCells] returns, and the strobe buffer
    then holds the values of the enabled cells, in the order of
    registration, one behind the other; these are
    [active_bytes] bytes.  The CRC of the strobe follows if it is
    enabled.  Nothing else changes. *)
Theorem sample_static_strobe (planned : bool) (regs : list registration) (s : host) :
  reachable planned regs s ->
  is_DYNAMIC (LASSO_HOST_STROBE_DYNAMICS cfg) = false ->
  LASSO_HOST_STROBE_EXTERNAL_SOURCE cfg = false ->
  is_COBS (LASSO_HOST_STROBE_ENCODING cfg) = false ->
  is_ESCS (LASSO_HOST_STROBE_ENCODING cfg) = false ->
  LASSO_HOST_UNALIGNED_MEMORY_ACCESS cfg = false ->
  Forall (fun c => cell_enabled c = true ->
                   copied_width c /\
                   cell_outside (buffer (strobe s))
                     (buffer (strobe s) + active_bytes (cells s)) c) (cells s) ->
  let image := strobe_image (memory s) (cells s) in
  let m1 := store_bytes (memory s) (buffer (strobe s)) image in
  exists s',
    lasso_hostSampleDataCells s = Some s' /\
    memory s' =
      (if LASSO_HOST_STROBE_CRC_ENABLE cfg
       then lasso_hostAppendCRC (buffer (strobe s))
              (u32 (Bytes_total (strobe s) - LASSO_HOST_CRC_BYTEWIDTH cfg)) m1
       else m1) /\
    Z.of_nat (length image) = active_bytes (cells s) /\
    cells s' = cells s /\ strobe s' = strobe s /\ response s' = response s.
Proof.
  intros Hr Hdyn Hext Hc He Hal Hcells. cbv zeta.
  set (image := strobe_image (memory s) (cells s)).
  set (m1 := store_bytes (memory s) (buffer (strobe s)) image).
  pose proof (reachable_inv _ _ _ Hr) as [H1 H2 H3 H4 H5 H6].
  pose proof (registered_cell_ok _ _ H4) as Hok.
  assert (sample_loop (length (cells s)) (dataCellFirst s) (cells s) (memory s)
            (buffer (strobe s)) (buffer (strobe s)) 0
          = Some (cells s, m1, buffer (strobe s) + active_bytes (cells s))) as Hloop.
  { rewrite H1. subst m1 image. destruct (cells s) as [|c l] eqn:Ecells.
    - simpl. by rewrite Z.add_0_r.
    - rewrite <- Ecells in *.
      rewrite (sample_loop_static (cells s) (buffer (strobe s))
                 (buffer (strobe s) + active_bytes (cells s)) Hdyn Hal H3 Hok Hcells
                 (length (cells s)) 0).
      + reflexivity.
      + done.
      + rewrite Ecells. simpl. lia.
      + lia.
      + change (drop 0 (cells s)) with (cells s). lia. }
  unfold lasso_hostSampleDataCells. cbv zeta. rewrite Hext, Hdyn.
  assert (forall (A : Type) (a b c : A),
            match LASSO_HOST_STROBE_ENCODING cfg with
            | LASSO_ENCODING_COBS => a | LASSO_ENCODING_ESCS => b | _ => c end = c) as Henc.
  { intros A a b c. destruct (LASSO_HOST_STROBE_ENCODING cfg); done. }
  rewrite Hc, He. cbn [orb]. rewrite Henc. cbv beta iota zeta.
  rewrite Hloop. cbv beta iota zeta.
  pose proof (strobe_image_length (memory s) (cells s) Hok) as Hlen.
  destruct (LASSO_HOST_STROBE_CRC_ENABLE cfg).
  - eexists. split; [reflexivity|].
    cbn [memory set_memory strobe set_cells]. by rewrite Henc.
  - by eexists.
Qed.


(** X25.  In the builds without a CRC on commands
    (and with a strobe of fixed size), [lasso_hostHandleCOM] returns in
    every reached state: the walk of the sampler over the chain of cells
    ends, the interpreter finds the cell it seeks or [NULL], and the
    loops of the COBS encoder end.  The state after the tick is a reached
    state again. *)
Theorem handleCOM_returns (planned : bool) (regs : list registration)
    (log : list tx_event) (s : host) :
  reachable planned regs s ->
  fixed_strobe_size = true -> LASSO_HOST_COMMAND_CRC_ENABLE cfg = false ->
  exists s', (lasso_hostHandleCOM log s).1 = Some s' /\ reachable planned regs s'.
Proof.
  intros Hr Hfix Hcrc.
  destruct (handleCOM_returns_inv _ _ log s Hfix Hcrc (reachable_inv _ _ _ Hr))
    as [s' Hs'].
  exists s'. split; [done|]. eapply reach_tick; [exact Hr|by left|exact Hs'].
Qed.

(** The receive timeout at the start of a tick. *)
Definition handle_timeout (s : host) : host :=
  if receiveTimeout s >? 0 then
    let s := set_receiveTimeout (u32 (receiveTimeout s - 1)) s in
    if receiveTimeout s =? 0 then set_receiveBufferIndex 0 s else s
  else s.

(** X26.  In the builds with a CRC on commands, a tick
    that comes to handle a received command (the response countdown
    expires, no response is being sent, [response.valid] is not zero)
    whose CRC is not zero does not return: [lasso_hostHandleCOM] stays in
    its endless loop, and nothing is transmitted in this tick.  [s1] is
    the state after the timeout and strobe part of the tick. *)
Theorem handleCOM_bad_crc (log : list tx_event) (s s1 : host) :
  receiveBuffer s <> 0 -> LASSO_HOST_COMMAND_CRC_ENABLE cfg = true ->
  handle_strobe (handle_timeout s) = Some s1 ->
  u16 (countdown (response s1) - 1) = 0 ->
  Byte_count (response s1) = 0 -> 0 < valid (response s1) ->
  crcCallback (load_bytes (memory s1) (receiveBuffer s1)
                 (Z.to_nat (valid (response s1)))) <> 0 ->
  lasso_hostHandleCOM log s = (None, log).
Proof.
  intros Hrb Hcrc Hs1 Hcd Hbc Hv Hbad. unfold lasso_hostHandleCOM.
  apply Z.eqb_neq in Hrb as ->.
  change (handle_pending s)
    with (match handle_strobe (handle_timeout s) with
          | None => None | Some s => handle_response s end).
  rewrite Hs1.
  assert (handle_response s1 = None) as ->; [|done].
  unfold handle_response. cbv zeta.
  cbn [countdown response upd_response set_response set_countdown Byte_count valid
       memory receiveBuffer].
  rewrite Hcd, Hbc, Hcrc. cbn [Z.eqb andb].
  replace (valid (response s1) >? 0) with true by (symmetry; apply Z.gtb_lt; lia).
  by apply Z.eqb_neq in Hbad as ->.
Qed.


(** *** The plan of the strobe buffer *)

(** The bytes that the registration of a cell adds to the plan. *)
Definition reg_size (r : registration) : Z :=
  reg_count r * Z.max (Z.land (reg_type r) LASSO_DATACELL_BYTEWIDTH_MASK) 1.

Fixpoint planned_bytes (regs : list registration) : Z :=
  match regs with
  | [] => 0
  | r :: t => reg_size r + planned_bytes t
  end.

(** The bytes that [lasso_hostRegisterMEM] reserves for the encoding of a
    strobe. *)
Definition encoding_overhead : Z :=
  if is_ESCS (LASSO_HOST_STROBE_ENCODING cfg) then 2
  else if is_COBS (LASSO_HOST_STROBE_ENCODING cfg) then 3 else 0.

(** A CRC of at most four bytes and an alignment of at most 64 KiB. *)
Definition plan_bounds : Prop :=
  0 <= LASSO_HOST_CRC_BYTEWIDTH cfg <= 4 /\ 1 <= LASSO_MEMORY_ALIGN cfg <= 65536.

Definition plan_inv (planned : bool) (regs : list registration) (s : host) : Prop :=
  dataCellCount s = u8 (Z.of_nat (length regs)) /\
  if planned then
    (length regs <= 255)%nat -> plan_bounds ->
    planned_bytes regs + strobe_overhead cfg s + encoding_overhead
      <= Bytes_max (strobe s) <= 2 * (planned_bytes regs + 70000)
  else Bytes_max (strobe s) = u32 (planned_bytes regs).

Lemma u32_id (x : Z) : 0 <= x < 4294967296 -> u32 x = x.
Proof. intros H. unfold u32. by apply Z.mod_small. Qed.

Lemma planned_bytes_app (l1 l2 : list registration) :
  planned_bytes (l1 ++ l2) = planned_bytes l1 + planned_bytes l2.
Proof. induction l1 as [|r l1 IH]; simpl; lia. Qed.

Lemma planned_bytes_cells (heap : list dataCell) (regs : list registration) :
  Forall2 registered heap regs ->
  0 <= active_bytes heap <= planned_bytes regs /\
  planned_bytes regs <= 917490 * Z.of_nat (length regs).
Proof.
  induction 1 as [|c r heap regs (Hok & Hc & _ & _ & _ & Hw) _ IH].
  - simpl. lia.
  - pose proof (cell_size_range c Hok) as Hs.
    assert (cell_size c = reg_size r) as E
      by (unfold cell_size, reg_size; by rewrite Hc, Hw).
    cbn [active_bytes planned_bytes length]. rewrite Nat2Z.inj_succ.
    destruct (cell_enabled c); lia.
Qed.

Lemma register_plan (r : registration) (junk : dataCell) (s : host) :
  registration_ok cfg r ->
  dataCellCount (register cfg r (Some junk) s).2 = u8 (dataCellCount s + 1) /\
  Bytes_max (strobe (register cfg r (Some junk) s).2)
    = u32 (Bytes_max (strobe s) + reg_size r) /\
  dataCellMaskBytes (register cfg r (Some junk) s).2 = dataCellMaskBytes s.
Proof.
  intros (Ht & Hc & Hp).
  unfold register, lasso_hostRegisterDataCell.
  set (t0 := if LASSO_HOST_STROBE_EXTERNAL_SOURCE cfg
             then Z.lor (reg_type r) LASSO_DATACELL_PERMANENT else reg_type r).
  set (t := if negb (Z.land t0 LASSO_DATACELL_PERMANENT =? 0)
            then Z.lor t0 LASSO_DATACELL_ENABLE else t0).
  assert (Z.land t LASSO_DATACELL_BYTEWIDTH_MASK
          = Z.land (reg_type r) LASSO_DATACELL_BYTEWIDTH_MASK) as Htw.
  { assert (Z.land t0 LASSO_DATACELL_BYTEWIDTH_MASK
            = Z.land (reg_type r) LASSO_DATACELL_BYTEWIDTH_MASK) as E0.
    { unfold t0. destruct (LASSO_HOST_STROBE_EXTERNAL_SOURCE cfg); [|done].
      apply type_permanent_width. }
    unfold t. destruct (negb (Z.land t0 LASSO_DATACELL_PERMANENT =? 0)); [|done].
    by rewrite type_enable_width. }
  replace (negb (LASSO_HOST_STROBE_EXTERNAL_SOURCE cfg) && (reg_ptr r =? 0)) with false.
  2: { destruct Hp as [->|Hp]; [done|]. apply Z.eqb_neq in Hp as ->.
       by destruct (LASSO_HOST_STROBE_EXTERNAL_SOURCE cfg). }
  cbv zeta. rewrite Htw.
  set (w := Z.land (reg_type r) LASSO_DATACELL_BYTEWIDTH_MASK).
  assert (0 <= w <= 14) as Hw by (apply Z_land_range; done).
  assert ((if negb (w =? 0) then u32 (reg_count r * w) else reg_count r)
          = reg_size r) as ->.
  { unfold reg_size. fold w. unfold is_u16 in Hc.
    destruct (Z.eqb_spec w 0) as [->|Hne]; simpl.
    - lia.
    - rewrite u32_id by nia. lia. }
  by destruct (negb (Z.land t LASSO_DATACELL_ENABLE_MASK =? 0)).
Qed.

Lemma align_up_range (x : Z) :
  1 <= LASSO_MEMORY_ALIGN cfg -> 0 <= x ->
  x + LASSO_MEMORY_ALIGN cfg < 4294967296 ->
  x <= align_up cfg x <= x + LASSO_MEMORY_ALIGN cfg.
Proof.
  intros Ha Hx Hb. unfold align_up.
  destruct (negb (Z.land x (LASSO_MEMORY_ALIGN cfg - 1) =? 0)); [|lia].
  set (m := LASSO_MEMORY_ALIGN cfg - 1).
  assert (0 <= Z.land x m <= m) as Hl by (apply Z_land_range; lia).
  assert (Z.land x (Z.lnot m) + Z.land x m = x) as E.
  { rewrite Z.add_nocarry_lxor by (Z.bitblast).
    Z.bitblast. }
  assert (0 <= Z.land x (Z.lnot m)) by (apply Z.land_nonneg; lia).
  rewrite u32_id by lia. lia.
Qed.

Ltac u32_inside_out :=
  repeat match goal with
         | |- context [u32 ?x] =>
             lazymatch x with
             | context [u32 _] => fail
             | _ => rewrite (u32_id x) by lia
             end
         end.

(** The sizes of [lasso_hostRegisterMEM]: the strobe buffer gets room for
    all registered bytes, for the overhead of the strobe and for its
    encoding, rounded up. *)
Lemma registerMEM_sizes_plan (s : host) :
  plan_bounds -> 0 <= Bytes_max (strobe s) <= 255 * 917490 ->
  dataCellCount (registerMEM_sizes cfg s) = dataCellCount s /\
  exists A : Z,
    Bytes_max (strobe s) <= A /\
    Bytes_max (strobe s) + strobe_overhead cfg (registerMEM_sizes cfg s)
      + encoding_overhead <= A <= Bytes_max (strobe s) + 70000 /\
    Bytes_max (strobe (registerMEM_sizes cfg s))
      = if is_ESCS (LASSO_HOST_STROBE_ENCODING cfg) then A * 2 else A.
Proof.
  intros [Hcrc Hal] HP. split; [unfold registerMEM_sizes; cbv zeta; by when_simpl|].
  unfold registerMEM_sizes, strobe_overhead, encoding_overhead. cbv zeta.
  set (mk := u8 (Z.shiftr (dataCellCount s - 1) 3 + 1)).
  assert (0 <= mk < 256) as Hmk by (apply Z.mod_pos_bound; done).
  destruct (LASSO_HOST_STROBE_ENCODING cfg),
           (is_DYNAMIC (LASSO_HOST_STROBE_DYNAMICS cfg)),
           (LASSO_HOST_STROBE_CRC_ENABLE cfg),
           (LASSO_HOST_COMMAND_CRC_ENABLE cfg),
           (LASSO_HOST_COMMAND_ENCODING cfg).
  all: cbn [when is_ESCS is_COBS is_RN orb strobe upd_strobe upd_response
            set_strobe set_response Bytes_max add_Bytes_max add_Bytes_total
            set_Bytes_max set_Bytes_total dataCellMaskBytes set_dataCellMaskBytes
            dataCellCount].
  all: fold mk; u32_inside_out.
  all: match goal with
       | |- context [align_up cfg ?x] =>
           pose proof (align_up_range x ltac:(lia) ltac:(lia) ltac:(lia));
           exists (align_up cfg x)
       end.
  all: split; [lia|]; split; [lia|]; u32_inside_out; reflexivity.
Qed.

Lemma registerMEM_plan (a1 a2 a3 : Z) (s : host) :
  plan_bounds -> 0 <= Bytes_max (strobe s) <= 255 * 917490 ->
  dataCellCount (lasso_hostRegisterMEM cfg a1 a2 a3 s).2 = dataCellCount s /\
  Bytes_max (strobe s)
    + strobe_overhead cfg (lasso_hostRegisterMEM cfg a1 a2 a3 s).2
    + encoding_overhead
    <= Bytes_max (strobe (lasso_hostRegisterMEM cfg a1 a2 a3 s).2)
    <= 2 * (Bytes_max (strobe s) + 70000).
Proof.
  intros Hb HP.
  destruct (registerMEM_sizes_plan s Hb HP) as (Hn & A & HA0 & HA & HB).
  assert (strobe_overhead cfg (lasso_hostRegisterMEM cfg a1 a2 a3 s).2
          = strobe_overhead cfg (registerMEM_sizes cfg s)) as ->.
  { unfold strobe_overhead.
    by destruct (registerMEM_same_registry cfg a1 a2 a3 s) as (_ & _ & _ & -> & _). }
  revert Hn HA0 HA HB. unfold lasso_hostRegisterMEM. cbv zeta.
  generalize (strobe_overhead cfg (registerMEM_sizes cfg s)).
  generalize (registerMEM_sizes cfg s). intros s1 o Hn HA0 HA HB.
  destruct (is_ESCS (LASSO_HOST_STROBE_ENCODING cfg)),
           (is_ESCS (LASSO_HOST_COMMAND_ENCODING cfg)),
           (LASSO_HOST_STROBE_EXTERNAL_SOURCE cfg),
           (a1 =? 0), (a2 =? 0), (a3 =? 0).
  all: cbn [when negb andb snd strobe upd_strobe upd_response set_strobe
            set_response Bytes_max set_Bytes_max set_buffer dataCellCount
            set_receiveBuffer].
  all: rewrite ?HB, ?Z.div_mul by done.
  all: split; [exact Hn | lia].
Qed.

Lemma same_plan_inv (planned : bool) (regs : list registration) (s s' : host) :
  same_plan s s' -> plan_inv planned regs s -> plan_inv planned regs s'.
Proof.
  intros (Hn & _ & _ & Hb & _ & _ & Hm) [H1 H2]. split; [congruence|].
  unfold strobe_overhead. rewrite Hb, Hm. exact H2.
Qed.

Lemma receiveByte_same_plan (x : Z) (s : host) :
  same_plan s (lasso_hostReceiveByte cfg x s).2.
Proof.
  unfold lasso_hostReceiveByte.
  destruct (receiveBufferIndex s <? LASSO_HOST_COMMAND_BUFFER_SIZE cfg);
    [|by repeat split].
  destruct (LASSO_HOST_COMMAND_ENCODING cfg).
  - destruct (valid (response s) =? 0); [|by repeat split].
    destruct (ESCS.ESCS_decode_inline _ _ _ _ _) as [[? ?] ?]. by repeat split.
  - repeat match goal with |- context [if ?c then _ else _] => destruct c end;
      by repeat split.
  - destruct (valid (response s) =? 0); [|by repeat split].
    destruct (COBS.COBS_decode_inline _ _ _ _ _) as [[? ?] ?]. by repeat split.
  - destruct (valid (response s) =? 0); [|by repeat split].
    destruct (ESCS.ESCS_decode_inline _ _ _ _ _) as [[? ?] ?]. by repeat split.
Qed.

Lemma overhead_range (s : host) :
  is_u8 (dataCellMaskBytes s) -> plan_bounds ->
  0 <= strobe_overhead cfg s <= 260 /\ 0 <= encoding_overhead <= 3.
Proof.
  intros Hm [Hc _]. unfold strobe_overhead, encoding_overhead, is_u8 in *.
  destruct (LASSO_HOST_STROBE_ENCODING cfg),
           (is_DYNAMIC (LASSO_HOST_STROBE_DYNAMICS cfg)),
           (LASSO_HOST_STROBE_CRC_ENABLE cfg); simpl; lia.
Qed.

(** The plan in every state of [reachable]. *)
Lemma reachable_plan (b : bool) (regs : list registration) (s : host) :
  reachable b regs s -> plan_inv b regs s.
Proof.
  induction 1 as [m|b regs s r blk Hs IH Hr|b regs s r _ IH|regs s a1 a2 a3 Hs IH
                  |b regs s x _ IH|b regs s count _ IH|b regs s s' _ IH Hs
                  |b regs log s s' _ IH Hfix Hs
                  |b regs s buf _ IH|b regs s tp ap rp _ IH].
  - done.
  - destruct IH as [IH1 IH2].
    destruct (register_plan r blk s Hr) as (Hn & Hb & Hm).
    pose proof (planned_bytes_cells _ _ (inv_cells _ _ _ _ (reachable_inv _ _ _ Hs)))
      as [Hact Hle].
    split.
    + rewrite Hn, IH1, length_app, Nat2Z.inj_add. simpl.
      unfold u8. by rewrite Z.add_mod_idemp_l.
    + rewrite Hb, planned_bytes_app. simpl planned_bytes. rewrite Z.add_0_r.
      destruct b.
      * rewrite length_app. cbn [length]. intros Hlen Hbd.
        specialize (IH2 ltac:(lia) Hbd).
        assert (0 <= reg_size r <= 917490) as Hsz.
        { destruct Hr as (_ & Hc & _). unfold reg_size, is_u16 in *.
          pose proof (Z_land_range (reg_type r) LASSO_DATACELL_BYTEWIDTH_MASK
                        ltac:(done)) as Hw.
          change LASSO_DATACELL_BYTEWIDTH_MASK with 14 in *. nia. }
        pose proof (overhead_range s (inv_mask _ _ _ _ (reachable_inv _ _ _ Hs)) Hbd)
          as [Ho He].
        assert (strobe_overhead cfg (register cfg r (Some blk) s).2
                = strobe_overhead cfg s) as ->
          by (unfold strobe_overhead; by rewrite Hm).
        rewrite u32_id by lia. lia.
      * rewrite IH2. apply u32_add_l.
  - exact IH.
  - destruct IH as [IH1 IH2].
    pose proof (planned_bytes_cells _ _ (inv_cells _ _ _ _ (reachable_inv _ _ _ Hs)))
      as [Hact Hle].
    split.
    + unfold lasso_hostRegisterMEM. cbv zeta. rewrite <- IH1.
      by destruct (registerMEM_same_registry cfg a1 a2 a3 s);
        repeat match goal with |- context [if ?c then (_, _) else _] => destruct c end;
        unfold registerMEM_sizes; cbv zeta; when_simpl.
    + intros Hlen Hbd. rewrite u32_id in IH2 by lia.
      destruct (registerMEM_plan a1 a2 a3 s Hbd ltac:(lia)) as [_ Hp].
      rewrite IH2 in Hp. exact Hp.
  - eapply same_plan_inv; [apply receiveByte_same_plan|exact IH].
  - eapply same_plan_inv; [|exact IH].
    unfold lasso_hostCountdown. destruct (count >? countdown (strobe s));
      by repeat split.
  - eapply same_plan_inv; [by apply interprete_same_plan|exact IH].
  - eapply same_plan_inv; [by eapply handleCOM_same_plan|exact IH].
  - assumption.
  - assumption.
Qed.

(** The count of cells: the registrations that returned 0. *)
Definition returned_0 (regs : list registration) : list registration :=
  List.filter (fun r => negb (returns_EFAULT r)) regs.

Lemma register_EFAULT_same_plan (r : registration) (junk : dataCell) (s : host) :
  returns_EFAULT r = true -> same_plan s (register cfg r (Some junk) s).2.
Proof.
  intros Hf. unfold register, lasso_hostRegisterDataCell. cbv zeta.
  change (negb (LASSO_HOST_STROBE_EXTERNAL_SOURCE cfg) && (reg_ptr r =? 0))
    with (returns_EFAULT r).
  rewrite Hf. by repeat split.
Qed.

Lemma returns_0_ok (r : registration) :
  is_u16 (reg_type r) -> is_u16 (reg_count r) -> returns_EFAULT r = false ->
  registration_ok cfg r.
Proof.
  intros Ht Hc Hf. split; [done|]. split; [done|].
  unfold returns_EFAULT in Hf.
  destruct (LASSO_HOST_STROBE_EXTERNAL_SOURCE cfg); [by left|].
  right. simpl in Hf. by apply Z.eqb_neq.
Qed.

Lemma reached_count (b : bool) (regs : list registration) (s : host) :
  reached b regs s ->
  dataCellCount s = u8 (Z.of_nat (length (returned_0 regs))).
Proof.
  induction 1 as [m|b regs s r blk _ IH Ht Hc|b regs s r _ IH|regs s a1 a2 a3 _ IH
                  |b regs s x _ IH|b regs s count _ IH|b regs s s' _ IH Hs
                  |b regs log s s' _ IH Hs
                  |b regs s buf _ IH|b regs s tp ap rp _ IH].
  - done.
  - unfold returned_0. rewrite List.filter_app. fold (returned_0 regs).
    cbn [List.filter].
    destruct (returns_EFAULT r) eqn:Hf; cbn [negb].
    + destruct (register_EFAULT_same_plan r blk s Hf) as (-> & _).
      by rewrite IH, app_nil_r.
    + destruct (register_plan r blk s (returns_0_ok r Ht Hc Hf)) as (-> & _).
      rewrite IH, length_app, Nat2Z.inj_add. cbn [length].
      unfold u8. by rewrite Z.add_mod_idemp_l.
  - exact IH.
  - rewrite <- IH. unfold lasso_hostRegisterMEM. cbv zeta.
    by destruct (registerMEM_same_registry cfg a1 a2 a3 s);
      repeat match goal with |- context [if ?c then (_, _) else _] => destruct c end;
      unfold registerMEM_sizes; cbv zeta; when_simpl.
  - by destruct (receiveByte_same_plan x s) as (-> & _).
  - rewrite <- IH. unfold lasso_hostCountdown.
    by destruct (count >? countdown (strobe s)).
  - by destruct (interprete_same_plan _ _ Hs) as (-> & _).
  - by destruct (handleCOM_same_plan _ _ _ Hs) as (-> & _).
  - assumption.
  - assumption.
Qed.

Lemma reached_receive_bytes (b : bool) (regs : list registration)
    (bs : list Z) (s : host) :
  reached b regs s -> reached b regs (receive_bytes cfg bs s).2.
Proof.
  revert s. induction bs as [|x bs IH]; intros s H; [done|].
  simpl. pose proof (reached_receive b regs s x H) as H1.
  destruct (lasso_hostReceiveByte cfg x s) as [r s1]. simpl in H1.
  specialize (IH s1 H1). by destruct (receive_bytes cfg bs s1).
Qed.

(** In a build with a fixed strobe size and without a registration that
    returned [EFAULT], the states reached through the API are those of
    [reachable]. *)
Lemma reached_reachable (b : bool) (regs : list registration) (s : host) :
  fixed_strobe_size = true -> reached b regs s ->
  Forall (fun r => returns_EFAULT r = false) regs ->
  reachable b regs s.
Proof.
  intros Hfix.
  induction 1 as [m|b regs s r blk _ IH Ht Hc|b regs s r _ IH|regs s a1 a2 a3 _ IH
                  |b regs s x _ IH|b regs s count _ IH|b regs s s' _ IH Hs
                  |b regs log s s' _ IH Hs
                  |b regs s buf _ IH|b regs s tp ap rp _ IH]; intros Hall.
  - apply reach_init.
  - apply Forall_app in Hall as [H1 H2]. inversion H2 as [|r' l' Hr _]. subst.
    apply reach_register; [by apply IH|by apply returns_0_ok].
  - apply reach_register_nomem. by apply IH.
  - apply reach_registerMEM. by apply IH.
  - apply reach_receive. by apply IH.
  - apply reach_countdown. by apply IH.
  - eapply reach_command; [by apply IH|done].
  - eapply reach_tick; [by apply IH|by left|done].
  - apply reach_setBuffer. auto.
  - apply reach_tickPeriod. auto.
Qed.


(** C5.  In every state of [reached], that is reached through the API in
    any build, with every tick followed and with the calls of
    [lasso_hostRegisterDataCell] that return [EFAULT] among the
    registrations: the 8-bit [dataCellCount] is at most the number of
    cells of the chain, and for the index [i] of a cell of the chain (an
    8-bit number) [lasso_hostSeekDatacell] returns the cell that the
    [i]-th call has linked and, as byte position, the sum of
    [count * max(byte_width, 1)] over the enabled cells among the first
    [i]; the reply to a 'p' command for [i] is formatted from this cell
    and this position (unless the command is ignored: lower-case commands
    are while strobing without an encoding that allows interleaving). *)
Theorem C5_seek_datacell (planned : bool) (regs : list registration) (s : host) :
  reached planned regs s ->
  0 <= dataCellCount s <= 255 /\ dataCellCount s <= Z.of_nat (length regs) /\
  forall i : nat, (i < length regs)%nat -> (i <= 255)%nat ->
  exists (c : dataCell) (r : registration),
    cells s !! i = Some c /\ regs !! i = Some r /\ linked c r /\
    lasso_hostSeekDatacell (Z.of_nat i) s =
      Some (Some i, active_bytes (take i (cells s))) /\
    (forall (s1 : host) (start : Z),
       interprete_begin s = (s1, start) ->
       read_opcode (received_command s1) = Some (LASSO_HOST_GET_DATACELL_PARAMS, 0) ->
       read_cell_number (received_command s1) = (0, Z.of_nat i) ->
       (encoding_code (LASSO_HOST_STROBE_ENCODING cfg)
          <? encoding_code LASSO_ENCODING_COBS) && lasso_strobing s = false ->
       lasso_hostInterpreteCommand s =
         Some (emit_reply start LASSO_HOST_GET_DATACELL_PARAMS false
                 (fmt_datacell_params c (active_bytes (take i (cells s))) (memory s1))
                 0 s1)).
Proof.
  intros H. pose proof (reached_chain _ _ _ H) as Hinv.
  pose proof (ci_cells _ _ Hinv) as Hcells.
  assert (length (cells s) = length regs) as Hlen by (by eapply Forall2_length).
  pose proof (reached_count _ _ _ H) as Hn.
  pose proof (List.filter_length_le (fun r => negb (returns_EFAULT r)) regs) as Hf.
  fold (returned_0 regs) in Hf.
  assert (0 <= dataCellCount s <= 255 /\ dataCellCount s <= Z.of_nat (length regs))
    as [Hc1 Hc2].
  { rewrite Hn. unfold u8.
    pose proof (Z.mod_pos_bound (Z.of_nat (length (returned_0 regs))) 256 ltac:(lia)).
    pose proof (Z.mod_le (Z.of_nat (length (returned_0 regs))) 256 ltac:(lia) ltac:(lia)).
    lia. }
  split; [done|]. split; [done|].
  intros i Hi H255.
  destruct (lookup_lt_is_Some_2 (cells s) i) as [c Hc]; [lia|].
  destruct (lookup_lt_is_Some_2 regs i Hi) as [r Hr].
  exists c, r. split; [done|]. split; [done|].
  split; [by eapply Forall2_lookup_lr|].
  assert (forall x, same_registry s x ->
            lasso_hostSeekDatacell (Z.of_nat i) x =
              Some (Some i, active_bytes (take i (cells s)))) as Hseek.
  { intros x Hx.
    pose proof (chain_inv_links _ _ _ Hinv (same_registry_links _ _ Hx)) as Hinvx.
    destruct Hx as (Ecells & _).
    rewrite (seek_chain _ _ _ Hinvx) by (rewrite ?Ecells; lia).
    by rewrite Ecells. }
  split; [apply Hseek, same_registry_refl|].
  intros s1 start Hb Hop Hnum Hstr.
  pose proof (interprete_begin_same_registry s) as Hsame. rewrite Hb in Hsame.
  simpl in Hsame.
  unfold lasso_hostInterpreteCommand. rewrite Hb. cbv zeta. rewrite Hop, Hnum.
  assert (lasso_strobing s1 = lasso_strobing s) as ->.
  { revert Hb. unfold interprete_begin. clear.
    intros Hb. repeat case_match; simplify_eq; done. }
  rewrite Hstr. simpl negb. cbv iota.
  change (u8 (Z.of_nat i)) with (Z.of_nat i mod 256).
  rewrite Z.mod_small by lia. rewrite (Hseek s1 Hsame).
  destruct Hsame as (-> & _). by rewrite Hc.
Qed.

(** The call of [lasso_hostRegisterDataCell] that linked the last cell
    did not return [EFAULT]. *)
Definition last_returned_0 (regs : list registration) : Prop :=
  forall (n : nat) (r : registration),
    length regs = S n -> regs !! n = Some r -> returns_EFAULT r = false.

(** X21.  In every state of [reached], that is reached through the API
    in any build, with every tick followed, if the registration that
    linked the last cell of the chain did not return [EFAULT]: for a
    number from the count of the cells of the chain up to 255,
    [lasso_hostSeekDatacell] returns [NULL], with the size of the whole
    active data space as byte position; the reply to a 'p' or 'v' command
    for such a number is the short reply with the error [EFAULT] (unless
    the command is ignored while strobing). *)
Theorem seek_missing_datacell (planned : bool) (regs : list registration) (s : host)
    (num : Z) :
  reached planned regs s -> last_returned_0 regs ->
  Z.of_nat (length regs) <= num <= 255 ->
  lasso_hostSeekDatacell num s = Some (None, active_bytes (cells s)) /\
  (forall (s1 : host) (start opcode : Z),
     interprete_begin s = (s1, start) ->
     opcode = LASSO_HOST_GET_DATACELL_PARAMS \/ opcode = LASSO_HOST_GET_DATACELL_VALUE ->
     read_opcode (received_command s1) = Some (opcode, 0) ->
     read_cell_number (received_command s1) = (0, num) ->
     (encoding_code (LASSO_HOST_STROBE_ENCODING cfg)
        <? encoding_code LASSO_ENCODING_COBS) && lasso_strobing s = false ->
     lasso_hostInterpreteCommand s = Some (emit_reply start opcode true [] EFAULT s1)).
Proof.
  intros H Hlast Hnum. pose proof (reached_chain _ _ _ H) as Hinv.
  assert (forall x, same_registry s x ->
            lasso_hostSeekDatacell num x = Some (None, active_bytes (cells s))) as Hseek.
  { intros x Hx.
    pose proof (chain_inv_links _ _ _ Hinv (same_registry_links _ _ Hx)) as Hinvx.
    destruct Hx as (Ecells & _).
    rewrite (seek_chain_beyond _ _ _ Hinvx Hlast Hnum). by rewrite Ecells. }
  split; [apply Hseek, same_registry_refl|].
  intros s1 start opcode Hb Hop Hrd Hn Hstr.
  pose proof (interprete_begin_same_registry s) as Hsame. rewrite Hb in Hsame.
  simpl in Hsame.
  unfold lasso_hostInterpreteCommand. rewrite Hb. cbv zeta. rewrite Hrd, Hn.
  assert (lasso_strobing s1 = lasso_strobing s) as ->.
  { revert Hb. unfold interprete_begin. clear.
    intros Hb. repeat case_match; simplify_eq; done. }
  rewrite Hstr. simpl negb. cbv iota.
  change (u8 num) with (num mod 256).
  rewrite Z.mod_small by lia. rewrite (Hseek s1 Hsame).
  by destruct Hop as [-> | ->].
Qed.

(** X27.  In every state of [reached], that is reached through the API
    in any build, with every tick followed, the 8-bit [dataCellCount] is
    the number of the calls of [lasso_hostRegisterDataCell] that returned
    0, modulo 256 (the count wraps with the 256th of them), while the
    chain holds a cell for every call that got a block, those that
    returned [EFAULT] included.  The reply to an 'n' command is formatted
    from this number (unless the command is ignored while strobing). *)
Theorem cell_count_reported (planned : bool) (regs : list registration) (s : host) :
  reached planned regs s ->
  length (cells s) = length regs /\
  dataCellCount s = u8 (Z.of_nat (length (returned_0 regs))) /\
  (forall (s1 : host) (start : Z),
     interprete_begin s = (s1, start) ->
     read_opcode (received_command s1) = Some (LASSO_HOST_GET_DATACELL_COUNT, 0) ->
     (encoding_code (LASSO_HOST_STROBE_ENCODING cfg)
        <? encoding_code LASSO_ENCODING_COBS) && lasso_strobing s = false ->
     lasso_hostInterpreteCommand s =
       Some (match fmt_datacell_count
                     (u8 (Z.of_nat (length (returned_0 regs)))) with
             | Some p => emit_reply start LASSO_HOST_GET_DATACELL_COUNT false p 0 s1
             | None => emit_reply start LASSO_HOST_GET_DATACELL_COUNT true []
                         ECANCELED s1
             end)).
Proof.
  intros H. pose proof (reached_chain _ _ _ H) as Hinv.
  pose proof (reached_count _ _ _ H) as Hn.
  split; [eapply Forall2_length, (ci_cells _ _ Hinv)|]. split; [exact Hn|].
  intros s1 start Hb Hop Hstr.
  pose proof (interprete_begin_same_plan s) as (Hn1 & _). rewrite Hb in Hn1.
  simpl in Hn1.
  unfold lasso_hostInterpreteCommand. rewrite Hb. cbv zeta. rewrite Hop.
  assert (lasso_strobing s1 = lasso_strobing s) as ->.
  { revert Hb. unfold interprete_begin. clear.
    intros Hb. repeat case_match; simplify_eq; done. }
  rewrite Hstr, Hn1, Hn. simpl negb. cbv iota.
  change (LASSO_HOST_GET_DATACELL_COUNT =? LASSO_HOST_GET_PROTOCOL_INFO) with false.
  change (LASSO_HOST_GET_DATACELL_COUNT =? LASSO_HOST_GET_TIMING_INFO) with false.
  change (LASSO_HOST_GET_DATACELL_COUNT =? LASSO_HOST_GET_DATACELL_COUNT) with true.
  cbv iota.
  by destruct (fmt_datacell_count (u8 (Z.of_nat (length (returned_0 regs))))).
Qed.


(** X29.  What [lasso_hostRegisterMEM] has fixed stays:
    no received byte, no countdown, no command and no tick changes the
    addresses of the receive, strobe and response buffers, the sizes
    [Bytes_max] of the strobe and of the response, the count of cells or
    the count of mask bytes. *)
Theorem plan_is_kept (s : host) :
  (forall x : Z, same_plan s (lasso_hostReceiveByte cfg x s).2) /\
  (forall count : Z, same_plan s (lasso_hostCountdown count s)) /\
  (forall s' : host, lasso_hostInterpreteCommand s = Some s' -> same_plan s s') /\
  (forall (log : list tx_event) (s' : host),
     (lasso_hostHandleCOM log s).1 = Some s' -> same_plan s s').
Proof.
  split; [intros x; apply receiveByte_same_plan|].
  split.
  { intros count. unfold lasso_hostCountdown.
    destruct (count >? countdown (strobe s)); by repeat split. }
  split; [apply interprete_same_plan|].
  intros log s'. apply handleCOM_same_plan.
Qed.

(** *** The commands 'S', 'A' and 'W' *)

Lemma interprete_begin_flags (s : host) :
  lasso_strobing (interprete_begin s).1 = lasso_strobing s /\
  lasso_advertise (interprete_begin s).1 = lasso_advertise s /\
  strobe (interprete_begin s).1 = strobe s.
Proof. unfold interprete_begin. repeat case_match; simplify_eq; done. Qed.

(** With strobing on, 'S' returns before it reads its parameters: the
    registry and the strobe are as before and no reply is prepared. *)
Lemma S_command_while_strobing (s : host) :
  read_opcode (received_command (interprete_begin s).1)
    = Some (LASSO_HOST_SET_DATACELL_STROBE, 0) ->
  lasso_strobing s = true ->
  lasso_hostInterpreteCommand s = Some (interprete_begin s).1.
Proof.
  intros Hop Hstr. unfold lasso_hostInterpreteCommand.
  destruct (interprete_begin_flags s) as (E & _).
  destruct (interprete_begin s) as [s1 start]. simpl in *. cbv zeta.
  rewrite Hop, E, Hstr. simpl. by rewrite andb_false_r.
Qed.

(** The amount that 'S' adds or subtracts. *)
Lemma cell_size_u32 (c : dataCell) :
  cell_ok c ->
  u32 (count c * (if cell_width c =? 0 then 1 else cell_width c)) = cell_size c.
Proof.
  intros Hok. pose proof (cell_size_range c Hok) as Hr.
  pose proof (cell_width_range c) as Hw. unfold cell_size in *.
  destruct (Z.eqb_spec (cell_width c) 0) as [E|E].
  - rewrite E in *. simpl Z.max in *. unfold u32. apply Z.mod_small. lia.
  - rewrite Z.max_l in * by lia. unfold u32. apply Z.mod_small. lia.
Qed.

(** Enabling a disabled cell adds its size to [strobe.Bytes_total] and
    sets the enable bit; the other cells are untouched. *)
Lemma set_datacell_strobe_enable (i : nat) (c : dataCell) (s : host) :
  cell_ok c -> cell_enabled c = false ->
  Bytes_total (strobe (set_datacell_strobe i c true s))
    = u32 (Bytes_total (strobe s) + cell_size c) /\
  cells (set_datacell_strobe i c true s)
    = <[i := set_type (Z.lor (type c) LASSO_DATACELL_ENABLE_MASK) c]> (cells s) /\
  cell_enabled (set_type (Z.lor (type c) LASSO_DATACELL_ENABLE_MASK) c) = true.
Proof.
  intros Hok Hen. pose proof (cell_size_u32 c Hok) as Hsz.
  unfold set_datacell_strobe, cell_enabled, cell_width in *.
  change LASSO_DATACELL_ENABLE_MASK with LASSO_DATACELL_ENABLE.
  apply negb_false_iff in Hen. rewrite Hen. cbv zeta. simpl.
  rewrite Hsz. split; [done|]. split; [done|].
  apply negb_true_iff, Z.eqb_neq. simpl. apply type_enable_bit.
Qed.

(** Disabling an enabled cell subtracts its size and clears the enable
    bit, whether the cell is permanent or not. *)
Lemma set_datacell_strobe_disable (i : nat) (c : dataCell) (s : host) :
  cell_ok c -> cell_enabled c = true ->
  Bytes_total (strobe (set_datacell_strobe i c false s))
    = u32 (Bytes_total (strobe s) - cell_size c) /\
  cells (set_datacell_strobe i c false s)
    = <[i := set_type (Z.land (type c) LASSO_DATACELL_DISABLE_MASK) c]> (cells s) /\
  cell_enabled (set_type (Z.land (type c) LASSO_DATACELL_DISABLE_MASK) c) = false.
Proof.
  intros Hok Hen. pose proof (cell_size_u32 c Hok) as Hsz.
  unfold set_datacell_strobe, cell_enabled, cell_width in *.
  change LASSO_DATACELL_ENABLE_MASK with LASSO_DATACELL_ENABLE.
  apply negb_true_iff in Hen. rewrite Hen. cbv zeta. simpl.
  rewrite Hsz. split; [done|]. split; [done|].
  apply negb_false_iff, Z.eqb_eq. simpl. apply type_disable_bit.
Qed.

(** A request for the state the cell is in changes nothing. *)
Lemma set_datacell_strobe_same (i : nat) (c : dataCell) (s : host) :
  set_datacell_strobe i c (cell_enabled c) s = s.
Proof.
  unfold set_datacell_strobe, cell_enabled.
  change LASSO_DATACELL_ENABLE_MASK with LASSO_DATACELL_ENABLE.
  by destruct (Z.land (type c) LASSO_DATACELL_ENABLE =? 0).
Qed.

(** With strobing off, 'S' for a registered cell applies
    [set_datacell_strobe] to it. *)
Lemma S_command_effect (planned : bool) (regs : list registration) (s : host)
    (i : nat) (c : dataCell) (flag : bool) :
  reachable planned regs s -> (i <= 255)%nat -> cells s !! i = Some c ->
  lasso_strobing s = false ->
  read_opcode (received_command (interprete_begin s).1)
    = Some (LASSO_HOST_SET_DATACELL_STROBE, 0) ->
  read_cell_number (received_command (interprete_begin s).1) = (0, Z.of_nat i) ->
  read_flag (received_command (interprete_begin s).1) = (0, flag) ->
  exists s' : host,
    lasso_hostInterpreteCommand s = Some s' /\
    same_registry (set_datacell_strobe i c flag (interprete_begin s).1) s'.
Proof.
  intros H Hi Hc Hstr Hop Hnum Hflag.
  pose proof (reachable_inv _ _ _ H) as Hinv.
  pose proof (interprete_begin_same_registry s) as Hsame.
  destruct (interprete_begin_flags s) as (E & _).
  unfold lasso_hostInterpreteCommand.
  destruct (interprete_begin s) as [s1 start]. simpl in *. cbv zeta.
  rewrite Hop, Hnum, Hflag, E, Hstr. simpl.
  pose proof (registry_inv_same _ _ _ _ _ Hinv Hsame) as Hinv1.
  change (u8 (Z.of_nat i)) with (Z.of_nat i mod 256).
  rewrite Z.mod_small by lia.
  rewrite (seek_registry _ _ _ _ _ Hinv1) by lia.
  destruct Hsame as (Ecells & _). rewrite Nat2Z.id, Ecells.
  replace (i <? length (cells s))%nat with true
    by (symmetry; apply Nat.ltb_lt; by eapply lookup_lt_Some).
  rewrite Hc, andb_false_r. simpl.
  destruct (lasso_advertise (set_datacell_strobe i c flag s1)).
  - eexists. split; [done|]. apply same_registry_refl.
  - eexists. split; [done|]. apply emit_reply_same_registry, same_registry_refl.
Qed.

(** C6 (amended).  An 'A' command sets advertise on and strobing off and
    prepares no reply; the strobe frame, with [strobe.Byte_count], is left
    as it is.  The remaining bytes of an advertisement are cancelled by a
    'W' command processed while advertising: it sets [strobe.Byte_count]
    to zero, advertise off and strobing as requested. *)
Theorem C6_set_advertise (s : host) (opcode : Z) :
  read_opcode (received_command (interprete_begin s).1) = Some (opcode, 0) ->
  (opcode = LASSO_HOST_SET_ADVERTISE ->
   exists s' : host,
     lasso_hostInterpreteCommand s = Some s' /\
     lasso_advertise s' = true /\ lasso_strobing s' = false /\
     strobe s' = strobe s /\ Bytes_total (response s') = 0) /\
  (opcode = LASSO_HOST_SET_DATASPACE_STROBE ->
   (read_ulong (received_command (interprete_begin s).1)).1 = 0 ->
   lasso_advertise s = true ->
   exists s' : host,
     lasso_hostInterpreteCommand s = Some s' /\
     Byte_count (strobe s') = 0 /\ lasso_advertise s' = false /\
     lasso_strobing s'
       = negb ((read_ulong (received_command (interprete_begin s).1)).2 =? 0) /\
     Bytes_total (response s') = 0).
Proof.
  intros Hop.
  destruct (interprete_begin_flags s) as (Estr & Eadv & Estrobe).
  assert (Bytes_total (response (interprete_begin s).1) = 0) as Eresp.
  { unfold interprete_begin. repeat case_match; simplify_eq; done. }
  unfold lasso_hostInterpreteCommand.
  destruct (interprete_begin s) as [s1 start]. simpl in *. cbv zeta.
  rewrite Hop. simpl. split.
  - intros ->. change (LASSO_HOST_SET_ADVERTISE >=? 97) with false.
    rewrite andb_false_r. simpl.
    destruct (lasso_strobing s1) eqn:Es; eexists; (split; [done|]); by simpl.
  - intros -> Herr Hadv. change (LASSO_HOST_SET_DATASPACE_STROBE >=? 97) with false.
    rewrite andb_false_r. simpl.
    destruct (read_ulong (received_command s1)) as [e lparam]. simpl in *.
    subst e. simpl.
    destruct (lparam =? 0); simpl.
    + rewrite Eadv, Hadv. eexists. split; [done|]. by simpl.
    + destruct (lasso_strobing s1) eqn:Es; simpl; rewrite Eadv, Hadv;
        eexists; (split; [done|]); by simpl.
Qed.


End engine.


(** *** Sample instances of the parameters

    A configuration as in lasso_host_config.h (RN commands, ASCII mode,
    raw static strobes with a 2-byte CRC) and one with COBS on both paths,
    together with simple instances of the callbacks and of the formatted
    input and output, used to run the engine on concrete inputs. *)

Definition config_RN : config :=
  Config false true true 10 4096 2
         LASSO_ENCODING_RN 16 false 5
         LASSO_ENCODING_NONE LASSO_STROBE_STATIC 10 65535 10 false false true
         96 5 LASSO_ASCII_MODE 7 25 4.

Definition config_COBS : config :=
  Config false true true 10 256 2
         LASSO_ENCODING_COBS 32 false 5
         LASSO_ENCODING_COBS LASSO_STROBE_STATIC 10 65535 10 false false true
         96 5 LASSO_ASCII_MODE 7 25 4.

(** A transmitter that is never busy and a transmitter that always is. *)
Definition com_ready : list tx_event -> mem -> Z -> Z -> Z := fun _ _ _ _ => 0.
Definition com_busy : list tx_event -> mem -> Z -> Z -> Z := fun _ _ _ _ => EBUSY.

(** The default CRC of lasso_host.c: an 8-bit XOR. *)
Definition lasso_crcDefaultCallback (bs : list Z) : Z :=
  foldl (fun crc b => u8 (Z.lxor crc b)) 0 bs.

(** *** The default CRC *)

Lemma crc_step_range (acc : Z) (bs : list Z) :
  0 <= acc < 256 ->
  0 <= foldl (fun crc b => u8 (Z.lxor crc b)) acc bs < 256.
Proof.
  revert acc. induction bs as [|b t IH]; intros acc Ha; simpl; [done|].
  apply IH. unfold u8. apply Z.mod_pos_bound. lia.
Qed.

Lemma lasso_crcDefaultCallback_range (bs : list Z) :
  0 <= lasso_crcDefaultCallback bs < 256.
Proof. apply crc_step_range. lia. Qed.

Lemma u32_bytes_u8 (le : bool) (x : Z) :
  0 <= x < 256 ->
  u32_bytes le x = if le then [x; 0; 0; 0] else [0; 0; 0; x].
Proof.
  intros Hx. unfold u32_bytes. cbv zeta.
  assert (Z.land (Z.shiftr x (8 * 0)) 255 = x) as ->.
  { change (8 * 0) with 0. rewrite Z.shiftr_0_r. change 255 with (Z.ones 8).
    rewrite Z.land_ones by lia. apply Z.mod_small. lia. }
  assert (forall i, 1 <= i -> Z.land (Z.shiftr x (8 * i)) 255 = 0) as Hz.
  { intros i Hi. rewrite Z.shiftr_div_pow2 by lia.
    assert (x / 2 ^ (8 * i) = 0) as ->; [|done].
    apply Z.div_small. split; [lia|].
    assert (2 ^ 8 <= 2 ^ (8 * i)) by (apply Z.pow_le_mono_r; lia). lia. }
  by rewrite !Hz by lia.
Qed.

(** X22.  A frame closed by [lasso_hostAppendCRC] with the
    default callback checks: the 8-bit XOR that
    [lasso_crcDefaultCallback] computes over the frame with its CRC bytes
    is zero, for a CRC of 1, 2 or 4 bytes and either byte order, and the
    bytes of the frame are unchanged.  Excepted is the CRC of 2 bytes on
    a big-endian host without unaligned access, where the two bytes
    stored are the upper half of the 32-bit value. *)
Theorem default_crc_checks (cfg : config) (buffer cnt : Z) (m : mem) :
  LASSO_HOST_CRC_BYTEWIDTH cfg = 1 \/ LASSO_HOST_CRC_BYTEWIDTH cfg = 2 \/
  LASSO_HOST_CRC_BYTEWIDTH cfg = 4 ->
  (LASSO_HOST_CRC_BYTEWIDTH cfg = 2 ->
   LASSO_HOST_UNALIGNED_MEMORY_ACCESS cfg = true \/ LASSO_HOST_LITTLE_ENDIAN cfg = true) ->
  0 <= cnt ->
  let m' := lasso_hostAppendCRC cfg lasso_crcDefaultCallback buffer cnt m in
  lasso_crcDefaultCallback
    (load_bytes m' buffer (Z.to_nat (cnt + LASSO_HOST_CRC_BYTEWIDTH cfg))) = 0 /\
  load_bytes m' buffer (Z.to_nat cnt) = load_bytes m buffer (Z.to_nat cnt).
Proof.
  intros Hw H2 Hcnt. unfold lasso_hostAppendCRC. cbv zeta.
  set (payload := load_bytes m buffer (Z.to_nat cnt)).
  pose proof (lasso_crcDefaultCallback_range payload) as Hx.
  set (x := lasso_crcDefaultCallback payload) in *.
  assert (u32 x = x) as -> by (unfold u32; apply Z.mod_small; lia).
  assert (u8 x = x) as Hu8 by (unfold u8; apply Z.mod_small; lia).
  assert (u8 (Z.shiftr x 8) = 0) as Hhi.
  { rewrite Z.shiftr_div_pow2 by lia. by rewrite Z.div_small by lia. }
  rewrite Hu8, Hhi, u32_bytes_u8 by done.
  match goal with
  | |- context [store_bytes m (buffer + cnt) ?l] => set (crcb := l)
  end.
  assert (Z.of_nat (length crcb) = LASSO_HOST_CRC_BYTEWIDTH cfg /\
          foldl (fun crc b => u8 (Z.lxor crc b)) x crcb = 0) as [El Ez].
  { subst crcb.
    destruct Hw as [E|[E|E]]; rewrite E; cbn [Z.eqb Pos.eqb].
    - split; [done|]. cbn [foldl]. by rewrite Z.lxor_nilpotent.
    - destruct (H2 E) as [-> | ->].
      + destruct (LASSO_HOST_LITTLE_ENDIAN cfg); (split; [done|]); cbn [foldl].
        * by rewrite Z.lxor_nilpotent.
        * by rewrite Z.lxor_0_r, Hu8, Z.lxor_nilpotent.
      + destruct (LASSO_HOST_UNALIGNED_MEMORY_ACCESS cfg); (split; [done|]);
          cbn [foldl take]; by rewrite Z.lxor_nilpotent.
    - destruct (LASSO_HOST_LITTLE_ENDIAN cfg); (split; [done|]); cbn [foldl].
      + by rewrite Z.lxor_nilpotent.
      + by rewrite !Z.lxor_0_r, !Hu8, Z.lxor_nilpotent. }
  assert (load_bytes (store_bytes m (buffer + cnt) crcb) buffer (Z.to_nat cnt)
          = payload) as Ep.
  { apply load_bytes_ext. intros a Ha. apply store_bytes_outside. lia. }
  split; [|exact Ep].
  replace (Z.to_nat (cnt + LASSO_HOST_CRC_BYTEWIDTH cfg))
    with (Z.to_nat cnt + length crcb)%nat by lia.
  rewrite load_bytes_app, Ep, Z2Nat.id, load_store_bytes by lia.
  unfold lasso_crcDefaultCallback. rewrite foldl_app. exact Ez.
Qed.

Lemma default_crc_checks_witness :
  let m := store_bytes zero_mem 100 [0x41; 0x7E; 0x03] in
  let m' := lasso_hostAppendCRC config_RN lasso_crcDefaultCallback 100 3 m in
  lasso_crcDefaultCallback (load_bytes m' 100 (Z.to_nat (3 + 2))) = 0 /\
  load_bytes m' 100 (Z.to_nat 3) = load_bytes m 100 (Z.to_nat 3).
Proof.
  apply (default_crc_checks config_RN 100 3 (store_bytes zero_mem 100 [0x41; 0x7E; 0x03])).
  - right. left. reflexivity.
  - intros _. right. reflexivity.
  - lia.
Defined.


(** Commands of the shape [opcode digit ',' digit]: one byte of opcode, a
    one-digit cell number or value, a comma, a one-digit second value. *)
Definition digit (b : Z) : option Z :=
  if (48 <=? b) && (b <=? 57) then Some (b - 48) else None.

Definition sample_read_opcode (cmd : list Z) : option (Z * Z) :=
  match cmd with
  | b :: _ => Some (b, 0)
  | [] => None
  end.

Definition sample_read_number (cmd : list Z) : Z * Z :=
  match cmd with
  | _ :: d :: _ => match digit d with Some n => (0, n) | None => (EINVAL, 0) end
  | _ => (EINVAL, 0)
  end.

Definition sample_read_flag (cmd : list Z) : Z * bool :=
  match cmd with
  | _ :: _ :: _ :: d :: _ =>
      match digit d with Some n => (0, negb (n =? 0)) | None => (EINVAL, false) end
  | _ => (EINVAL, false)
  end.

Definition sample_set_value (cmd : list Z) (c : dataCell) (m : mem) : Z * mem :=
  match cmd with
  | _ :: _ :: _ :: d :: _ => (0, store m (ptr c) d)
  | _ => (EINVAL, m)
  end.

Definition sample_fmt_error (tiny : bool) (e : Z) : list Z := [48 + e mod 10].

Definition sample_interprete (cfg : config) : host -> option host :=
  lasso_hostInterpreteCommand cfg lasso_crcDefaultCallback None
    sample_read_opcode sample_read_number sample_read_flag sample_read_number
    sample_read_number (fun _ => 3) sample_set_value
    (fun op => [op]) (Some [105; 44]) (fun _ => Some [116; 44])
    (fun n => Some [48 + n mod 10; 44]) (fun _ pos _ => [48 + pos mod 10; 44])
    (fun _ _ => Some [118; 44]) sample_fmt_error.

Definition sample_handleCOM (cfg : config)
    (com : list tx_event -> mem -> Z -> Z -> Z)
  : list tx_event -> host -> option host * list tx_event :=
  lasso_hostHandleCOM cfg 9000 9100 com lasso_crcDefaultCallback None
    sample_read_opcode sample_read_number sample_read_flag sample_read_number
    sample_read_number (fun _ => 3) sample_set_value
    (fun op => [op]) (Some [105; 44]) (fun _ => Some [116; 44])
    (fun n => Some [48 + n mod 10; 44]) (fun _ pos _ => [48 + pos mod 10; 44])
    (fun _ _ => Some [118; 44]) sample_fmt_error.

(** Placing a received command in the receive buffer. *)
Definition with_command (cmd : list Z) (s : host) : host :=
  upd_response (set_valid (Z.of_nat (length cmd)))
    (set_memory (store_bytes (memory s) (receiveBuffer s) cmd) s).

(** *** The properties on concrete inputs *)

(** The host after [lasso_hostRegisterMEM] with RN commands and no cell. *)
Definition host_RN : host :=
  (lasso_hostRegisterMEM config_RN 1000 2000 3000 (host_init config_RN zero_mem)).2.

Lemma C8_illegal_newline_witness :
  LASSO_HOST_COMMAND_ENCODING config_RN = LASSO_ENCODING_RN /\
  let s := (lasso_hostReceiveByte config_RN 97 host_RN).2 in
  lasso_hostReceiveByte config_RN 10 s = (EILSEQ, set_receiveBufferIndex 0 s).
Proof.
  split; [reflexivity|].
  apply (C8_illegal_newline config_RN
           (lasso_hostReceiveByte config_RN 97 host_RN).2 eq_refl).
  - vm_compute. split; reflexivity.
  - vm_compute. discriminate.
Defined.

(** C8 as stated fails: in the sequence ['a' '\n' '\n'] the second ['\n']
    follows a byte that is not ['\r'], yet the call finds the buffer empty
    and returns [ENODATA], not [EILSEQ]. *)
Lemma C8_counterexample :
  exists s',
    receive_bytes config_RN [97; 10; 10] host_RN = ([0; EILSEQ; ENODATA], s') /\
    ENODATA <> EILSEQ.
Proof. eexists. split; [reflexivity|discriminate]. Qed.

Lemma C9_countdown_witness :
  (is_u16 3 /\ is_u16 (countdown (strobe host_RN))) /\
  countdown (strobe (lasso_hostCountdown 3 host_RN)) = 7 /\
  countdown (strobe (lasso_hostCountdown 12 host_RN)) = 0.
Proof.
  split; [split; vm_compute; split; (discriminate || reflexivity)|].
  split.
  - destruct (C9_countdown_saturates 3 host_RN) as [H _];
      [vm_compute; split; (discriminate || reflexivity)..|].
    rewrite H. reflexivity.
  - destruct (C9_countdown_saturates 12 host_RN) as [H _];
      [vm_compute; split; (discriminate || reflexivity)..|].
    rewrite H. reflexivity.
Defined.




(** The states reached with the sample readers and formatters. *)
Definition sample_reachable (cfg : config)
  : bool -> list registration -> host -> Prop :=
  reachable cfg 9000 9100 com_ready lasso_crcDefaultCallback None
    sample_read_opcode sample_read_number sample_read_flag sample_read_number
    sample_read_number (fun _ => 3) sample_set_value
    (fun op => [op]) (Some [105; 44]) (fun _ => Some [116; 44])
    (fun n => Some [48 + n mod 10; 44]) (fun _ pos _ => [48 + pos mod 10; 44])
    (fun _ _ => Some [118; 44]) sample_fmt_error.

(** Three [uint16_t] that are a permanent member of the strobe, a single
    [uint32_t] and five [uint8_t], both enabled at registration. *)
Definition reg_permanent : registration :=
  Registration (Z.lor LASSO_UINT16 LASSO_DATACELL_PERMANENT) 3 5000 6000 6010 0 0.
Definition reg_long : registration :=
  Registration (Z.lor LASSO_UINT32 LASSO_DATACELL_ENABLE) 1 5008 6020 6030 0 0.
Definition reg_bytes : registration :=
  Registration (Z.lor LASSO_UINT8 LASSO_DATACELL_ENABLE) 5 5012 6040 6050 0 0.

(** A block as [LASSO_HOST_MALLOC] returns it. *)
Definition blank_cell : dataCell := DataCell 0 0 0 0 0 0 0 None.

(** The host with these cells after [lasso_hostRegisterMEM]. *)
Definition host_cells : host :=
  (lasso_hostRegisterMEM config_RN 1000 2000 3000
     (register config_RN reg_bytes (Some blank_cell)
        (register config_RN reg_long (Some blank_cell)
           (register config_RN reg_permanent (Some blank_cell)
              (host_init config_RN zero_mem)).2).2).2).2.

(** Reception of a command line and its interpretation. *)
Definition command (cfg : config) (line : list Z) (s : host) : host :=
  let s := (receive_bytes cfg line s).2 in
  match sample_interprete cfg s with
  | Some s' => s'
  | None => s
  end.

(** One tick; the transmissions are dropped. *)
Definition tick (cfg : config) (com : list tx_event -> mem -> Z -> Z -> Z)
    (s : host) : host :=
  match (sample_handleCOM cfg com [] s).1 with
  | Some s' => s'
  | None => s
  end.

(** The host has advertised for ten ticks while the transmitter was
    busy: the signature is waiting to be sent. *)
Definition host_advertising : host := Nat.iter 10 (tick config_RN com_busy) host_cells.

Lemma host_cells_reachable :
  sample_reachable config_RN true [reg_permanent; reg_long; reg_bytes] host_cells.
Proof.
  apply reach_registerMEM.
  apply (reach_register _ _ _ _ _ _ _ _ _ _ _ _ _ _ _ _ _ _ _ _ false [reg_permanent; reg_long]);
    [|repeat split; (discriminate || (right; discriminate))].
  apply (reach_register _ _ _ _ _ _ _ _ _ _ _ _ _ _ _ _ _ _ _ _ false [reg_permanent]);
    [|repeat split; (discriminate || (right; discriminate))].
  apply (reach_register _ _ _ _ _ _ _ _ _ _ _ _ _ _ _ _ _ _ _ _ false []);
    [|repeat split; (discriminate || (right; discriminate))].
  apply reach_init.
Qed.

Lemma command_reachable (cfg : config) (b : bool) (regs : list registration)
    (line : list Z) (s : host) :
  sample_reachable cfg b regs s -> sample_reachable cfg b regs (command cfg line s).
Proof.
  intros H. unfold command. cbv zeta.
  pose proof (reachable_receive_bytes _ _ _ _ _ _ _ _ _ _ _ _ _ _ _ _ _ _ _ _ b regs line s H) as H1.
  destruct (sample_interprete cfg (receive_bytes cfg line s).2) as [s'|] eqn:E; [|done].
  by eapply reach_command.
Qed.

(** The command lines used below. *)
Definition line_S (cell flag : Z) : list Z := [83; 48 + cell; 44; 48 + flag; 13; 10].
Definition line_A : list Z := [65; 13; 10].
Definition line_W (flag : Z) : list Z := [87; 48 + flag; 13; 10].

(** Splitting a conjunction of equations that are settled by evaluation. *)
Ltac split_conj := repeat match goal with |- _ /\ _ => split end.





(** C3.  The cell 0 of [host_cells] is registered as a permanent member of
    the strobe.  The host is not strobing; the command [S0,0] is received
    and interpreted: the enable bit of the cell is cleared and the six
    bytes of the cell are taken off [strobe.Bytes_total]. *)
Theorem C3_permanent_cell_disabled :
  lasso_strobing host_cells = false /\
  map type (cells host_cells)
    = [Z.lor (Z.lor LASSO_UINT16 LASSO_DATACELL_PERMANENT) LASSO_DATACELL_ENABLE;
       Z.lor LASSO_UINT32 LASSO_DATACELL_ENABLE;
       Z.lor LASSO_UINT8 LASSO_DATACELL_ENABLE] /\
  Bytes_total (strobe host_cells) = 17 /\
  sample_interprete config_RN (receive_bytes config_RN (line_S 0 0) host_cells).2
    = Some (command config_RN (line_S 0 0) host_cells) /\
  map type (cells (command config_RN (line_S 0 0) host_cells))
    = [Z.lor LASSO_UINT16 LASSO_DATACELL_PERMANENT;
       Z.lor LASSO_UINT32 LASSO_DATACELL_ENABLE;
       Z.lor LASSO_UINT8 LASSO_DATACELL_ENABLE] /\
  Bytes_total (strobe (command config_RN (line_S 0 0) host_cells)) = 11.
Proof. split_conj; vm_compute; reflexivity. Qed.

Lemma C6_set_advertise_witness :
  sample_read_opcode
    (received_command
       (interprete_begin config_RN sample_read_opcode (fun op => [op])
          (receive_bytes config_RN line_A host_advertising).2).1)
    = Some (LASSO_HOST_SET_ADVERTISE, 0) /\
  exists s' : host,
    sample_interprete config_RN (receive_bytes config_RN line_A host_advertising).2
      = Some s' /\
    lasso_advertise s' = true /\ lasso_strobing s' = false /\
    Byte_count (strobe s') = 16.
Proof.
  split; [vm_compute; reflexivity|].
  destruct (C6_set_advertise config_RN lasso_crcDefaultCallback None
              sample_read_opcode sample_read_number sample_read_flag
              sample_read_number sample_read_number (fun _ => 3) sample_set_value
              (fun op => [op]) (Some [105; 44]) (fun _ => Some [116; 44])
              (fun n => Some [48 + n mod 10; 44]) (fun _ pos _ => [48 + pos mod 10; 44])
              (fun _ _ => Some [118; 44]) sample_fmt_error
              (receive_bytes config_RN line_A host_advertising).2
              LASSO_HOST_SET_ADVERTISE) as [HA _]; [vm_compute; reflexivity|].
  destruct (HA eq_refl) as (s' & Hs' & Hadv & Hstr & Hstrobe & _).
  exists s'. split; [exact Hs'|]. split; [exact Hadv|]. split; [exact Hstr|].
  rewrite Hstrobe. vm_compute. reflexivity.
Defined.

(** C6 as stated fails.  The signature is waiting to be sent
    ([strobe.Byte_count] is 16) when the command [A] arrives.  The command
    is interpreted (directly, or by the tick that finds the response
    countdown at zero): [strobe.Byte_count] is still 16, and the next tick
    with a free transmitter sends these 16 bytes of the signature. *)
Lemma C6_counterexample :
  Byte_count (strobe host_advertising) = 16 /\
  lasso_advertise host_advertising = true /\
  (exists s' : host,
     sample_interprete config_RN (receive_bytes config_RN line_A host_advertising).2
       = Some s' /\
     lasso_advertise s' = true /\ lasso_strobing s' = false /\
     Byte_count (strobe s') = 16 /\ Byte_count (strobe s') <> 0) /\
  (exists s' : host,
     s' = Nat.iter 2 (tick config_RN com_busy)
            (receive_bytes config_RN line_A host_advertising).2 /\
     valid (response s') = 0 /\ Byte_count (strobe s') = 16 /\
     (sample_handleCOM config_RN com_ready [] s').2 = [Tx STROBE 9000 16]).
Proof.
  split; [vm_compute; reflexivity|]. split; [vm_compute; reflexivity|]. split.
  - eexists. split; [vm_compute; reflexivity|].
    split_conj; try (vm_compute; reflexivity). vm_compute. discriminate.
  - eexists. split; [reflexivity|]. split_conj; vm_compute; reflexivity.
Qed.

Lemma C10_handleCOM_witness :
  receiveBuffer (host_init config_RN zero_mem) = 0 /\
  sample_handleCOM config_RN com_ready [] (host_init config_RN zero_mem)
    = (Some (host_init config_RN zero_mem), []).
Proof.
  split; [reflexivity|].
  unfold sample_handleCOM. apply C10_handleCOM_before_registerMEM. reflexivity.
Defined.


(** The command line [p0] is received, and bytes that follow while it is
    pending are refused. *)
Lemma receive_command_line_witness :
  exists s',
    receive_bytes config_RN ([112; 48] ++ [13; 10]) host_RN = (repeat 0 (2 + 2), s') /\
    valid (response s') = Z.of_nat 2 + 1 /\
    receiveBufferIndex s' = 0 /\
    receiveBuffer s' = receiveBuffer host_RN /\
    load_bytes (memory s') (receiveBuffer s') (2 + 1) = [112; 48] ++ [13] /\
    (forall x, x < receiveBuffer host_RN \/
               receiveBuffer host_RN + Z.of_nat 2 + 1 <= x ->
               memory s' x = memory host_RN x).
Proof.
  apply (receive_command_line config_RN [112; 48] host_RN).
  - reflexivity.
  - repeat constructor; discriminate.
  - reflexivity.
  - reflexivity.
  - simpl. lia.
  - simpl. lia.
Defined.

Lemma receive_while_pending_witness :
  let s := (receive_bytes config_RN [112; 48; 13; 10] host_RN).2 in
  receive_bytes config_RN [97; 10] s = ([ENOSPC; ENODATA], s).
Proof.
  apply (receive_while_pending config_RN [97; 10]
           (receive_bytes config_RN [112; 48; 13; 10] host_RN).2).
  - vm_compute. discriminate.
  - reflexivity.
  - simpl. lia.
Defined.

(** The hosts after [lasso_hostRegisterMEM] with COBS and with ESCS
    commands. *)
Definition config_ESCS : config :=
  Config false true true 10 256 2
         LASSO_ENCODING_ESCS 32 false 5
         LASSO_ENCODING_ESCS LASSO_STROBE_STATIC 10 65535 10 false false true
         96 5 LASSO_ASCII_MODE 7 25 4.

Definition host_COBS : host :=
  (lasso_hostRegisterMEM config_COBS 1000 2000 3000 (host_init config_COBS zero_mem)).2.
Definition host_ESCS : host :=
  (lasso_hostRegisterMEM config_ESCS 1000 2000 3000 (host_init config_ESCS zero_mem)).2.

Lemma receive_COBS_command_witness :
  exists (m' : mem) (s' : host),
    COBS.COBS_encode 256 (COBS.COBS_buf_of zero_mem 0 [112; 0; 48]) 0
      (Z.of_nat 3) false = Some m' /\
    receive_bytes config_COBS (load_bytes m' 0 (3 + 3)) host_COBS
      = (repeat 0 (3 + 3), s') /\
    valid (response s') = Z.of_nat 3 /\
    receiveBuffer s' = receiveBuffer host_COBS /\
    load_bytes (memory s') (receiveBuffer s') 3 = [112; 0; 48].
Proof.
  apply (receive_COBS_command config_COBS 112 [0; 48] 256
           (COBS.COBS_buf_of zero_mem 0 [112; 0; 48]) 0 host_COBS).
  - reflexivity.
  - vm_compute. reflexivity.
  - reflexivity.
  - vm_compute. discriminate.
  - discriminate.
  - simpl. lia.
  - vm_compute. discriminate.
  - reflexivity.
  - simpl. lia.
Defined.

Lemma receive_ESCS_command_witness :
  exists (m' : mem) (n : Z) (s' : host),
    ESCS.ESCS_encode (store_bytes zero_mem 100 [112; 0x7E; 48]) 100 0 (Z.of_nat 3)
      = (m', n) /\
    receive_bytes config_ESCS (load_bytes m' 0 (Z.to_nat n)) host_ESCS
      = (repeat 0 (Z.to_nat n), s') /\
    valid (response s') = Z.of_nat 3 /\
    receiveBuffer s' = receiveBuffer host_ESCS /\
    load_bytes (memory s') (receiveBuffer s') 3 = [112; 0x7E; 48].
Proof.
  apply (receive_ESCS_command config_ESCS [112; 0x7E; 48]
           (store_bytes zero_mem 100 [112; 0x7E; 48]) 100 0 host_ESCS).
  - reflexivity.
  - vm_compute. reflexivity.
  - reflexivity.
  - reflexivity.
  - simpl. lia.
  - vm_compute. discriminate.
  - reflexivity.
  - simpl. lia.
Defined.





(** A strobe of 17 bytes sent in frames of at most 8 bytes. *)
Definition config_small : config :=
  Config false true true 10 8 2
         LASSO_ENCODING_RN 16 false 5
         LASSO_ENCODING_NONE LASSO_STROBE_STATIC 10 65535 10 false false true
         96 5 LASSO_ASCII_MODE 7 25 4.

Lemma transmit_in_chunks_witness :
  let s := upd_strobe (fun f => set_Byte_count 17 (set_frame 1000 f)) host_RN in
  transmit_calls config_small com_ready 3 STROBE [] s =
    (Some (upd_strobe (fun f => set_Byte_count 0 (set_frame 1017 f)) s),
     [Tx STROBE 1000 8; Tx STROBE 1008 8; Tx STROBE 1016 1]).
Proof.
  assert (forall (l : list tx_event) (m : mem) (a n : Z), com_ready l m a n <> EBUSY)
    as Hcom by (intros l m a n; discriminate).
  exact (proj1 (transmit_in_chunks config_small com_ready 3 STROBE []
                  (upd_strobe (fun f => set_Byte_count 17 (set_frame 1000 f)) host_RN)
                  eq_refl eq_refl Hcom ltac:(simpl; lia) ltac:(simpl; lia)
                  ltac:(simpl; lia))).
Defined.



(** The host with the three cells of [host_cells] and a memory that holds
    values for them. *)
Definition sample_values : mem :=
  store_bytes zero_mem 5000 [1; 2; 3; 4; 5; 6; 0; 0; 7; 8; 9; 10; 11; 12; 13; 14; 16].

Definition host_values : host :=
  (lasso_hostRegisterMEM config_RN 1000 2000 3000
     (register config_RN reg_bytes (Some blank_cell)
        (register config_RN reg_long (Some blank_cell)
           (register config_RN reg_permanent (Some blank_cell)
              (host_init config_RN sample_values)).2).2).2).2.

Lemma host_values_reachable :
  sample_reachable config_RN true [reg_permanent; reg_long; reg_bytes] host_values.
Proof.
  apply reach_registerMEM.
  apply (reach_register _ _ _ _ _ _ _ _ _ _ _ _ _ _ _ _ _ _ _ _ false [reg_permanent; reg_long]);
    [|repeat split; (discriminate || (right; discriminate))].
  apply (reach_register _ _ _ _ _ _ _ _ _ _ _ _ _ _ _ _ _ _ _ _ false [reg_permanent]);
    [|repeat split; (discriminate || (right; discriminate))].
  apply (reach_register _ _ _ _ _ _ _ _ _ _ _ _ _ _ _ _ _ _ _ _ false []);
    [|repeat split; (discriminate || (right; discriminate))].
  apply reach_init.
Qed.

Lemma sample_static_strobe_witness :
  exists s',
    lasso_hostSampleDataCells config_RN lasso_crcDefaultCallback host_values = Some s' /\
    load_bytes (memory s') (buffer (strobe host_values)) 17
      = [1; 2; 3; 4; 5; 6; 7; 8; 9; 10; 11; 12; 13; 14; 16; 31; 0].
Proof.
  pose proof host_values_reachable as H. unfold sample_reachable in H.
  eapply sample_static_strobe in H as (s' & Hs & Hm & _); try reflexivity.
  - exists s'. split; [exact Hs|]. rewrite Hm. vm_compute. reflexivity.
  - set (cs := cells host_values). vm_compute in cs. subst cs.
    repeat (constructor;
            [intros _; split;
             [first [left; reflexivity | right; left; reflexivity
                    | right; right; reflexivity]
             |right; vm_compute; discriminate]|]).
    constructor.
Defined.



Lemma handleCOM_returns_witness :
  exists s',
    (sample_handleCOM config_RN com_ready [] host_cells).1 = Some s' /\
    sample_reachable config_RN true [reg_permanent; reg_long; reg_bytes] s'.
Proof.
  unfold sample_handleCOM, sample_reachable.
  apply handleCOM_returns.
  - exact host_cells_reachable.
  - reflexivity.
  - reflexivity.
Defined.

(** A build with COBS commands that carry a CRC, and a host that has
    received the command bytes [1 2 4], whose XOR is not zero. *)
Definition config_CRC : config :=
  Config false true true 10 256 2
         LASSO_ENCODING_COBS 32 true 5
         LASSO_ENCODING_COBS LASSO_STROBE_STATIC 10 65535 10 false false true
         96 5 LASSO_ASCII_MODE 7 25 4.

Definition host_bad_command : host :=
  upd_response (set_countdown 1)
    (set_lasso_advertise false
       (with_command [1; 2; 4]
          (lasso_hostRegisterMEM config_CRC 1000 2000 3000
             (host_init config_CRC zero_mem)).2)).

Lemma handleCOM_bad_crc_witness :
  sample_handleCOM config_CRC com_ready [] host_bad_command = (None, []).
Proof.
  unfold sample_handleCOM.
  apply (handleCOM_bad_crc config_CRC 9000 9100 com_ready lasso_crcDefaultCallback None
           sample_read_opcode sample_read_number sample_read_flag sample_read_number
           sample_read_number (fun _ => 3) sample_set_value
           (fun op => [op]) (Some [105; 44]) (fun _ => Some [116; 44])
           (fun n => Some [48 + n mod 10; 44]) (fun _ pos _ => [48 + pos mod 10; 44])
           (fun _ _ => Some [118; 44]) sample_fmt_error
           [] host_bad_command host_bad_command).
  - vm_compute. discriminate.
  - vm_compute. reflexivity.
  - vm_compute. reflexivity.
  - vm_compute. reflexivity.
  - vm_compute. reflexivity.
  - vm_compute. reflexivity.
  - vm_compute. discriminate.
Defined.








(** *** A host with dynamic strobing *)

(** The states of [reached] with the sample readers and formatters. *)
Definition sample_reached (cfg : config)
  : bool -> list registration -> host -> Prop :=
  reached cfg 9000 9100 com_ready lasso_crcDefaultCallback None
    sample_read_opcode sample_read_number sample_read_flag sample_read_number
    sample_read_number (fun _ => 3) sample_set_value
    (fun op => [op]) (Some [105; 44]) (fun _ => Some [116; 44])
    (fun n => Some [48 + n mod 10; 44]) (fun _ pos _ => [48 + pos mod 10; 44])
    (fun _ _ => Some [118; 44]) sample_fmt_error.

Lemma tick_reached (cfg : config) (b : bool) (regs : list registration) (s : host) :
  sample_reached cfg b regs s -> sample_reached cfg b regs (tick cfg com_ready s).
Proof.
  intros H. unfold tick.
  destruct (sample_handleCOM cfg com_ready [] s).1 as [s'|] eqn:E; [|done].
  by eapply reached_tick.
Qed.

Lemma ticks_reached (cfg : config) (b : bool) (regs : list registration)
    (n : nat) (s : host) :
  sample_reached cfg b regs s ->
  sample_reached cfg b regs (Nat.iter n (tick cfg com_ready) s).
Proof.
  intros H. induction n as [|n IH]; [done|]. simpl. by apply tick_reached.
Qed.

Lemma received_reached (cfg : config) (b : bool) (regs : list registration)
    (bs : list Z) (s : host) :
  sample_reached cfg b regs s ->
  sample_reached cfg b regs (receive_bytes cfg bs s).2.
Proof. apply reached_receive_bytes. Qed.

(** Dynamic strobing, commands and strobes in COBS frames, no CRC. *)
Definition config_dynamic : config :=
  Config false true true 10 256 2
         LASSO_ENCODING_COBS 32 false 5
         LASSO_ENCODING_COBS LASSO_STROBE_DYNAMIC 10 65535 10 false false false
         96 5 LASSO_ASCII_MODE 7 25 4.

(** A hundred [uint8_t], enabled, strobed with every second strobe; five
    [uint8_t], enabled, registered with a [NULL] pointer. *)
Definition reg_slow : registration :=
  Registration (Z.lor LASSO_UINT8 LASSO_DATACELL_ENABLE) 100 5000 6000 6010 0 2.
Definition reg_null : registration :=
  Registration (Z.lor LASSO_UINT8 LASSO_DATACELL_ENABLE) 5 0 6040 6050 0 1.

(** The COBS frames of the commands [W1], [W0] and [S0,0]. *)
Definition frame_W (flag : Z) : list Z := [0; 3; 87; 48 + flag; 0].
Definition frame_S (cell flag : Z) : list Z := [0; 5; 83; 48 + cell; 44; 48 + flag; 0].

(** Reception of a frame, then [n] ticks. *)
Definition run (cfg : config) (fr : list Z) (n : nat) (s : host) : host :=
  Nat.iter n (tick cfg com_ready) (receive_bytes cfg fr s).2.

Lemma run_reached (cfg : config) (b : bool) (regs : list registration)
    (fr : list Z) (n : nat) (s : host) :
  sample_reached cfg b regs s -> sample_reached cfg b regs (run cfg fr n s).
Proof. intros H. by apply ticks_reached, received_reached. Qed.

(** The host with the cell [reg_slow] alone: strobing is switched on, one
    strobe is sampled (the cell is not due), strobing is switched off and
    the cell is disabled. *)
Definition host_dynamic : host :=
  (lasso_hostRegisterMEM config_dynamic 1000 2000 3000
     (register config_dynamic reg_slow (Some blank_cell)
        (host_init config_dynamic zero_mem)).2).2.
Definition host_sampled : host := run config_dynamic (frame_W 1) 8 host_dynamic.
Definition host_unlawful : host :=
  run config_dynamic (frame_S 0 0) 5 (run config_dynamic (frame_W 0) 4 host_sampled).

Lemma host_dynamic_reached :
  sample_reached config_dynamic true [reg_slow] host_dynamic.
Proof.
  apply reached_registerMEM.
  apply (reached_register _ _ _ _ _ _ _ _ _ _ _ _ _ _ _ _ _ _ _ _ false []);
    [apply reached_init|done|done].
Qed.

(** The host with three calls of [lasso_hostRegisterDataCell], the second
    of which returns [EFAULT], after its first strobe. *)
Definition host_mixed : host :=
  run config_dynamic (frame_W 1) 8
    (lasso_hostRegisterMEM config_dynamic 1000 2000 3000
       (register config_dynamic reg_long (Some blank_cell)
          (register config_dynamic reg_null (Some blank_cell)
             (register config_dynamic reg_slow (Some blank_cell)
                (host_init config_dynamic zero_mem)).2).2).2).2.

Lemma host_mixed_reached :
  sample_reached config_dynamic true [reg_slow; reg_null; reg_long] host_mixed.
Proof.
  apply run_reached. apply reached_registerMEM.
  apply (reached_register _ _ _ _ _ _ _ _ _ _ _ _ _ _ _ _ _ _ _ _ false [reg_slow; reg_null]);
    [|done|done].
  apply (reached_register _ _ _ _ _ _ _ _ _ _ _ _ _ _ _ _ _ _ _ _ false [reg_slow]);
    [|done|done].
  apply (reached_register _ _ _ _ _ _ _ _ _ _ _ _ _ _ _ _ _ _ _ _ false []);
    [apply reached_init|done|done].
Qed.


Lemma C5_seek_datacell_witness :
  sample_reached config_dynamic true [reg_slow; reg_null; reg_long] host_mixed /\
  dataCellCount host_mixed = 2 /\
  lasso_hostSeekDatacell 2 host_mixed = Some (Some 2%nat, 105) /\
  (exists c : dataCell,
     cells host_mixed !! 2%nat = Some c /\ linked config_dynamic c reg_long).
Proof.
  split; [exact host_mixed_reached|].
  split; [vm_compute; reflexivity|].
  pose proof host_mixed_reached as H. unfold sample_reached in H.
  apply C5_seek_datacell in H as (_ & _ & H).
  destruct (H 2%nat ltac:(simpl; lia) ltac:(lia))
    as (c & r & Hc & Hr & Hreg & Hseek & _).
  split.
  - change 2 with (Z.of_nat 2). rewrite Hseek. vm_compute. reflexivity.
  - exists c. split; [exact Hc|]. simpl in Hr. injection Hr as Er. rewrite Er. exact Hreg.
Defined.

Lemma seek_missing_datacell_witness :
  sample_reached config_dynamic true [reg_slow; reg_null; reg_long] host_mixed /\
  last_returned_0 config_dynamic [reg_slow; reg_null; reg_long] /\
  lasso_hostSeekDatacell 7 host_mixed = Some (None, 109).
Proof.
  split; [exact host_mixed_reached|].
  assert (last_returned_0 config_dynamic [reg_slow; reg_null; reg_long]) as Hlast.
  { intros n r Hn Hr. simpl in Hn. injection Hn as <-. simpl in Hr.
    injection Hr as <-. reflexivity. }
  split; [exact Hlast|].
  pose proof host_mixed_reached as H. unfold sample_reached in H.
  eapply (seek_missing_datacell _ _ _ _ _ _ _ _ _ _ _ _ _ _ _ _ _ _ _ _ _ _ _ 7) in H
    as [Hseek _]; [|exact Hlast|simpl; lia].
  rewrite Hseek. vm_compute. reflexivity.
Defined.

Lemma cell_count_reported_witness :
  sample_reached config_dynamic true [reg_slow; reg_null; reg_long] host_mixed /\
  length (cells host_mixed) = 3%nat /\
  dataCellCount host_mixed = 2.
Proof.
  split; [exact host_mixed_reached|].
  pose proof host_mixed_reached as H. unfold sample_reached in H.
  apply cell_count_reported in H as (Hl & Hn & _).
  split; [exact Hl|]. rewrite Hn. reflexivity.
Defined.

(** A tick that does not sample, for the states of [reachable]. *)
Lemma tick_reachable_idle (cfg : config) (b : bool) (regs : list registration)
    (s : host) :
  sample_reachable cfg b regs s -> tick_samples cfg s = false ->
  sample_reachable cfg b regs (tick cfg com_ready s).
Proof.
  intros H Hidle. unfold tick.
  destruct (sample_handleCOM cfg com_ready [] s).1 as [s'|] eqn:E; [|done].
  eapply reach_tick; [exact H|by right|exact E].
Qed.

(** The host with dynamic strobing advertises; the command [S0,0] is
    received and the seventh tick interprets it.  No tick has sampled. *)
Definition host_idle : host := run config_dynamic (frame_S 0 0) 7 host_dynamic.

Lemma host_idle_reachable :
  sample_reachable config_dynamic true [reg_slow] host_idle.
Proof.
  unfold host_idle, run. cbn [Nat.iter].
  do 7 (apply tick_reachable_idle; [|vm_compute; reflexivity]).
  apply reachable_receive_bytes. apply reach_registerMEM.
  apply (reach_register _ _ _ _ _ _ _ _ _ _ _ _ _ _ _ _ _ _ _ _ false []);
    [apply reach_init|repeat split; (discriminate || (right; discriminate))].
Qed.



End Host.
